(* ===== verification/_CoqProject ===== *)
-Q . S2P
Prelude.v
Queue.v
Memory.v
Cstring.v
Strings.v
Format.v
Div64.v
Mmu.v
Kernel.v
Process.v
MessageQueue.v
Semaphore.v
System.v
Screen.v
Info.v
Invariant.v
Preserve.v
Progress.v
Refines.v
KernelProps.v
MessageProps.v
SemaphoreProps.v
Display.v
Hash.v
HashProps.v
SharedMemory.v
SharedProps.v
Processor.v
Interrupts.v
EarlyMm.v
Keymap.v
Kbd.v
KbdProps.v
Machine.v
MachineProps.v
Typed.v
Runtime.v
Boot.v
Echo.v
Gdb.v
GdbProps.v
Debugger.v
Malloc.v
MallocLayout.v
MallocInv.v
MallocHole.v
MallocLinks.v
MallocFree.v
MallocIndex.v
MallocAlloc.v
MallocMain.v
MallocStart.v
MallocReady.v
MallocResize.v
MallocAlign.v
MallocProps.v
MallocGuard.v
MallocKernel.v
