(* ===== verification/Prelude.v ===== *)
(** * NebuleaOS: a verification development

    NebuleaOS is a small x86 kernel with preemptive processes of priorities 1 to
    256, message queues, semaphores, shared areas, a text screen and a user
    library of system call stubs.  The kernel runs with interrupts disabled: an
    interrupt enters it, it may switch to another process any number of times,
    and it leaves by the return of the process it switched to.

    ** How the code is modelled

    A component keeps its state in a record and each function of the code is a
    function in the monad [ST] (this file): a state is passed on, and a fault,
    a panic or a loop without end is the error [Faulted], [Panicked] or
    [Diverged].  Integers are [Z] with the wrap-around of their width written
    out ([u32], [s32], ...).  Memory is a map of bytes (Memory), so that page
    tables, strings, the screen and the tables of the processor are bytes as in
    the code.  Records the kernel allocates (processes, message queues,
    semaphores) are maps from addresses, with the blocks of the allocator in
    [heap].  A process that is switched out has a continuation ([Cont], Kernel)
    in the place of its saved registers: which function was interrupted by the
    call of the scheduler, with its local variables; [Cont] has one constructor
    for each such call.  [control] says how a function ends: it returns, or the
    processor was given to a process to be resumed.

    ** Files

    - Prelude: integers, the monad, its weakest preconditions [wp], tactics and
      hints.
    - Queue (shared/queue.h): the macros on a store of links; the class
      [QueueOps], which the kernel is written against, has two instances: the
      links and sorted lists.
    - Memory: bytes and words.  Cstring, Strings (shared/string.c), Format
      (shared/doprnt.c, printf.c, sprintf.c, strtol.c, strtoul.c), Div64
      (shared/div64.c).
    - Mmu (kernel/mmu.c): the free list and the page tables; the page walk of
      the processor is [translate].
    - Kernel (process.h, message_queue.h, semaphore.h, mem_alloc and mem_free of
      shared/malloc.c): the state of the kernel.  Process (process.c),
      MessageQueue (message_queue.c), Semaphore (semaphore.c): every operation.
      System (syscall_kernel.c, time.c, usermode.c): the calls on processes,
      messages, semaphores and the clock; [step] is one interrupt with all the
      switches that follow.
    - Screen (kernel/screen.c), Info (kernel/info.c, the display of time.c).
    - Hash (kernel/hash.c), SharedMemory (kernel/shared_memory.c).
    - Processor (kernel/boot/processor_structs.c), Interrupts (the controller
      and the timer, time.c), EarlyMm (kernel/boot/early_mm.c).
    - Keymap (kernel/kbd-linux/defkeymap.c), Kbd (scancode.c, keyboard.c,
      keyboard-glue.c and the headers of kernel/kbd-linux): the driver, from the
      byte of the controller to the characters it hands to the kernel.
    - Machine: the whole machine (kernel, screen, shared areas, clock, keyboard,
      ports); the clock and keyboard interrupts, the dispatch of
      syscall_kernel.c on registers, page faults, kernel/keyboard.c, and the
      stubs of user/lib/syscall_user.c.
    - Boot: the C code of the boot (kernel/boot/boot.c) and kernel_start
      (kernel/start.c).  Echo: the path from the keys to the screen.
    - Gdb (kernel/gdb_serial.c, gdb_serial_support.c): the stub of a remote
      debugger, its packets and commands and how it reaches the memory of the
      program.  Debugger (kernel/debugger.c, serial.c): the handler of
      exceptions, which shows the registers or calls the stub, and the serial
      controller.
    - Runtime: the two sbrk (kernel/mem.c, user/lib/sbrk.c), crt0.c and
      console_putbytes.c of the user library, shared/panic.c.
    - Malloc (shared/malloc.c): the allocator, Doug Lea's with the changes of
      this kernel.  Its state [arena] is the structure malloc_state, the break
      of sbrk and a memory of words in which the chunks and the heads of the
      bins lie, linked by their addresses as in the code.  Every function of the
      file that is compiled is there: mALLOc, fREe, rEALLOc, mEMALIGn, cALLOc,
      iALLOc and their variants, sYSMALLOc, sYSTRIm, malloc_consolidate, the
      statistics, and mem_alloc and mem_free with their guard words.
      Its proofs: MallocLayout (sequences of chunks, rings of links),
      MallocInv (what the bins hold), MallocHole (the sequence of chunks
      around a hole and how its limits move), MallocLinks (heads and links),
      MallocFree, MallocIndex, MallocAlloc, MallocMain, MallocStart (each
      function in turn, the last one from the zeroed state on), MallocReady,
      MallocResize and MallocAlign (between two calls; rEALLOc and cALLOc;
      mEMALIGn), MallocProps (clients), MallocGuard (mem_alloc and mem_free),
      MallocKernel (the allocator under the kernel).

    ** Theorems

    - The kernel (Invariant, Preserve, Progress, KernelProps, MachineProps,
      Boot): an invariant that relates the process table, the states of the
      processes, the queues with their order and the blocks of the allocator;
      every interrupt keeps it, the boot and kernel_start establish it, so it
      holds in every state the machine reaches.  The scheduler returns and elects a
      process of the highest priority.  The kernel over links refines the
      kernel over lists (Refines).
    - Typed: the fields of the kernel hold values of their C types in every
      state, whatever words programs put in the registers.
    - Messages (MessageProps): what psend and preceive do to the sequence of
      messages, in each case.  Semaphores (SemaphoreProps): a negative count is
      the number of processes that wait, in every state; signal wakes the first
      of them.  Queue: refinement of lists, order of service.
    - Paging (Mmu, EarlyMm, SharedProps): mapping is isolated, new directories
      are right, the first tables map each section with its rights, a shared
      area is found under its name from every process.
    - Hash (HashProps): probing ends and finds, set and delete act on one key
      only, through resizing.
    - Screen, Display: the console refines a terminal, the banner and the
      console do not overlap, the clock is the uptime.
    - Strings, Format, Div64: string functions against their specification,
      printing and parsing are inverse, bounds of buffers.
    - Keyboard (KbdProps, Echo): the modifiers the driver holds are the keys
      that are down, and a text typed at the keyboard is the text on the screen.
    - Processor, Interrupts, Machine: the tables of the processor, gates, and
      that stubs and dispatcher agree.
    - Debugger (GdbProps, Debugger): what the stub sends is read back by a
      reader of the remote protocol, damaged packets are refused, the memory it
      shows is what the program sees through its page tables; an exception that
      is ignored leaves no trace in memory.
    - Runtime: the areas sbrk gives do not overlap.
    - The allocator (MallocProps, MallocGuard, MallocIndex): after any calls of
      mALLOc, cALLOc, rEALLOc, mEMALIGn and fREe and any writes of a client
      into its blocks, the next call returns, blocks are aligned, apart from each other
      and inside the heap, no call changes the contents of another block,
      rEALLOc keeps those of its own, mEMALIGn aligns, and a request is refused only when the
      heap is used up.  mem_free notices every change of a guard word.
      MallocKernel: the code implements the allocator the kernel is proved
      against, with the laws [MallocLaws].
    - Behaviours that are not meant are stated as well: a reused pid, a waitpid
      woken by another child, sdelete, shm_acquire of a missing key.

    ** Fuel and bounds

    Loops with a known number of rounds are folds.  Fuel is used for the free
    list (the number of frames of the whole range), page loops (the size over
    the page, plus one), the loops on strings and on queues (theorems show that
    the fuel given is enough wherever a result is claimed), the probing of the
    hash table (7 rounds until the perturbation is 0, then the size of the
    table, which visits every slot), the switches of one step, and the loops
    that wait for a character of a line, a key or a status, whose fuel is the
    number of those that will come.  A string of
    a program is read for at most [2 ^ 32] bytes, all there are.  A list of
    chunks of the allocator is followed for the number of chunks of 16 bytes
    between the start of the heap and the break, plus one; its bins are scanned
    for 100 rounds (there are 96), the bits and words of the map of bins for 33
    and 4, and mALLOc starts again at most once: the theorems on clients say
    that no call runs out of these.

    ** Parameters

    [Config]: the table of the programs, the page directory of the kernel, the
    address of the first function of a process, and [malloc]: the allocator
    below mem_alloc, with the laws [MallocLaws]: a block it returns is not null,
    below MEMORY_START, and does not start where a live block starts.
    MallocKernel shows that each call of the code of shared/malloc.c is a call
    of such an allocator.  [HeapPlace]: where the linker puts the state of the
    allocator and the heap (kernel.lds): the state below the heap, the heap
    below 2 GB and on a multiple of eight or up to the end of a page.  [Handlers]: the addresses of the entries of
    handler.S.  [layout]: the symbols of the linker.  The handler of exceptions
    takes the control registers, the task register, the table of descriptors
    and the picture of the screen.

    ** Not modelled

    The code of shared/malloc.c under HAVE_MMAP, USE_MALLOC_LOCK, DEBUG and
    WIN32, which is not compiled; iALLOc and the statistics are
    modelled without theorems.  BIOS calls; the assembly of the boot loader, of context switches
    and of the entries of interrupts and exceptions, of which the model keeps
    the effect; the programs and tests.  The
    processor is not modelled below the page walk: a program is the sequence of
    interrupts it raises, and its own memory accesses are not steps.  Kernel
    stacks are blocks whose contents are not modelled. *)

From Stdlib Require Export ZArith Lia.
From stdpp Require Export base tactics numbers option list gmap fin_maps sorting.

#[global] Open Scope Z_scope.

(** ** Machine integers

    A C integer of width [w] is a [Z]; the wrap-around is written where the
    code computes with it.  [u8], [u16], [u32] reduce to the unsigned range,
    [s8], [s16], [s32] to the two's complement range. *)

Definition uwrap (w z : Z) : Z := z mod 2 ^ w.
Definition swrap (w z : Z) : Z := (z + 2 ^ (w - 1)) mod 2 ^ w - 2 ^ (w - 1).

Abbreviation u8 := (uwrap 8).
Abbreviation u16 := (uwrap 16).
Abbreviation u32 := (uwrap 32).
Abbreviation u64 := (uwrap 64).
Abbreviation s8 := (swrap 8).
Abbreviation s16 := (swrap 16).
Abbreviation s32 := (swrap 32).

Lemma uwrap_range w z : 0 <= w -> 0 <= uwrap w z < 2 ^ w.
Proof. intros. unfold uwrap. apply Z.mod_pos_bound. lia. Qed.

Lemma uwrap_small w z : 0 <= z < 2 ^ w -> uwrap w z = z.
Proof. intros. unfold uwrap. by apply Z.mod_small. Qed.

Lemma swrap_small w z : 0 < w -> - 2 ^ (w - 1) <= z < 2 ^ (w - 1) -> swrap w z = z.
Proof.
  intros Hw Hz. unfold swrap.
  assert (2 ^ w = 2 * 2 ^ (w - 1)) as E.
  { rewrite <- Z.pow_succ_r by lia. f_equal. lia. }
  rewrite Z.mod_small; lia.
Qed.

Lemma swrap_range w z : 0 < w -> - 2 ^ (w - 1) <= swrap w z < 2 ^ (w - 1).
Proof.
  intros Hw. unfold swrap.
  assert (2 ^ w = 2 * 2 ^ (w - 1)) as E.
  { rewrite <- Z.pow_succ_r by lia. f_equal. lia. }
  pose proof (Z.mod_pos_bound (z + 2 ^ (w - 1)) (2 ^ w)). lia.
Qed.

(** ** Bit fields *)

Lemma land_mask n a : 0 <= n -> Z.land a (Z.ones n) = a mod 2 ^ n.
Proof. apply Z.land_ones. Qed.

Lemma lor_low_add n a b : 0 <= n -> 0 <= b < 2 ^ n -> a mod 2 ^ n = 0 -> Z.lor a b = a + b.
Proof.
  intros Hn Hb Ha. symmetry. apply Z.add_nocarry_lor. apply Z.bits_inj'. intros i Hi.
  rewrite Z.land_spec, Z.bits_0. apply andb_false_iff. destruct (Z.lt_ge_cases i n).
  - left. rewrite <- (Z.mod_pow2_bits_low _ n) by lia. by rewrite Ha, Z.bits_0.
  - right. replace b with (b mod 2 ^ n) by (apply Z.mod_small; lia). by rewrite Z.mod_pow2_bits_high by lia.
Qed.

(** Clearing the low [n] bits of a [w]-bit value with a constant mask. *)
Lemma land_high_mask w n a : 0 <= n <= w -> 0 <= a < 2 ^ w ->
  Z.land a (Z.shiftl (Z.ones (w - n)) n) = a / 2 ^ n * 2 ^ n.
Proof.
  intros Hn Ha. rewrite <- Z.shiftr_div_pow2, <- Z.shiftl_mul_pow2 by lia.
  apply Z.bits_inj'. intros i Hi. rewrite Z.land_spec, !Z.shiftl_spec by lia.
  destruct (Z.lt_ge_cases i n).
  - rewrite !(Z.testbit_neg_r _ (i - n)) by lia. apply andb_false_r.
  - rewrite Z.shiftr_spec by lia. replace (i - n + n) with i by lia.
    destruct (Z.lt_ge_cases i w).
    + rewrite Z.ones_spec_low by lia. apply andb_true_r.
    + rewrite Z.ones_spec_high by lia. rewrite andb_false_r.
      rewrite <- (Z.mod_small a (2 ^ w)) by lia. by rewrite Z.mod_pow2_bits_high by lia.
Qed.

(** One bit. *)
Lemma land_bit x n : 0 <= n -> (Z.land x (2 ^ n) =? 0) = negb (Z.testbit x n).
Proof.
  intros Hn. destruct (Z.eqb_spec (Z.land x (2 ^ n)) 0) as [E|E]; symmetry.
  - apply negb_true_iff. pose proof (Z.land_spec x (2 ^ n) n) as H. rewrite E, Z.bits_0, Z.pow2_bits_true, andb_true_r in H by done. done.
  - apply negb_false_iff. destruct (Z.testbit x n) eqn:Eb; [done|]. exfalso. apply E. apply Z.bits_inj'. intros i Hi.
    rewrite Z.land_spec, Z.bits_0, Z.pow2_bits_eqb by done. destruct (Z.eqb_spec n i); [subst; by rewrite Eb|apply andb_false_r].
Qed.

(** ** Failure

    [Panicked] is a failed [assert] or a call of [panic] (shared/panic.c):
    the kernel prints and never returns.  [Faulted] is a dereference of a
    NULL or dangling pointer.  [Diverged] is a loop that runs out of fuel. *)

Inductive error := Panicked | Faulted | Diverged.

#[export] Instance error_eq_dec : EqDecision error.
Proof. solve_decision. Defined.

Inductive result (A : Type) :=
| Ok (a : A)
| Err (e : error).
Arguments Ok {A} a.
Arguments Err {A} e.

#[export] Instance result_eq_dec `{EqDecision A} : EqDecision (result A).
Proof. solve_decision. Defined.

Definition rbind {A B} (m : result A) (k : A -> result B) : result B :=
  match m with Ok a => k a | Err e => Err e end.

Definition of_option {A} (e : error) (o : option A) : result A :=
  match o with Some a => Ok a | None => Err e end.

Declare Scope res_scope.
Delimit Scope res_scope with res.
Notation "'let?' x := m 'in' k" := (rbind m (fun x => k))
  (at level 10, x name, m at level 200, k at level 200) : res_scope.
Notation "'let?' ' pat := m 'in' k" := (rbind m (fun x => match x with pat => k end))
  (at level 10, pat strict pattern, m at level 200, k at level 200) : res_scope.

(** [rsim R impl spec]: what a specification that returns or panics demands
    of an implementation.  [Err Faulted] and [Err Diverged] on the
    specification side demand nothing. *)
Definition rsim {A B} (R : A -> B -> Prop) (impl : result A) (spec : result B) : Prop :=
  match spec with
  | Ok b => exists a, impl = Ok a /\ R a b
  | Err Panicked => impl = Err Panicked
  | Err _ => True
  end.

(** ** A state and failure monad *)

Definition ST (S A : Type) : Type := S -> result (A * S).

Section StateMonad.
Context {S : Type}.

Definition ret {A} (a : A) : ST S A := fun s => Ok (a, s).
Definition bind {A B} (m : ST S A) (k : A -> ST S B) : ST S B :=
  fun s => match m s with Ok (a, s') => k a s' | Err e => Err e end.
Definition fail {A} (e : error) : ST S A := fun _ => Err e.
Definition gets {A} (f : S -> A) : ST S A := fun s => Ok (f s, s).
Definition modify (f : S -> S) : ST S unit := fun s => Ok (tt, f s).
Definition lift_opt {A} (e : error) (o : option A) : ST S A :=
  match o with Some a => ret a | None => fail e end.
Definition when (b : bool) (m : ST S unit) : ST S unit :=
  if b then m else ret tt.

(** A C [for] loop over a list of values known before it starts. *)
Fixpoint for_each {A} (l : list A) (body : A -> ST S unit) : ST S unit :=
  match l with
  | [] => ret tt
  | x :: l' => bind (body x) (fun _ => for_each l' body)
  end.
End StateMonad.

Declare Scope st_scope.
Delimit Scope st_scope with st.
Notation "'let!' x := m 'in' k" := (bind m (fun x => k))
  (at level 10, x name, m at level 200, k at level 200,
   format "'[v' 'let!'  x  :=  m  'in' '/' k ']'") : st_scope.
Notation "'let!' ' pat := m 'in' k" := (bind m (fun x => match x with pat => k end))
  (at level 10, pat strict pattern, m at level 200, k at level 200) : st_scope.
Notation "'do!' m 'in' k" := (bind m (fun _ => k))
  (at level 10, m at level 200, k at level 200,
   format "'[v' 'do!'  m  'in' '/' k ']'") : st_scope.

(** ** Weakest preconditions

    [wp m Q s]: if [m] started in [s] returns, its result and final state
    satisfy [Q].  [twp m Q s]: moreover [m] returns. *)

Definition wp {S A} (m : ST S A) (Q : A -> S -> Prop) (s : S) : Prop :=
  match m s with Ok (a, s') => Q a s' | Err _ => True end.
Definition twp {S A} (m : ST S A) (Q : A -> S -> Prop) (s : S) : Prop :=
  exists a s', m s = Ok (a, s') /\ Q a s'.

Section WpLemmas.
Context {S : Type}.
Implicit Types s : S.

Lemma wp_ret {A} (a : A) Q s : Q a s -> wp (ret a) Q s.
Proof. done. Qed.

Lemma wp_bind {A B} (m : ST S A) (k : A -> ST S B) Q s :
  wp m (fun a s' => wp (k a) Q s') s -> wp (bind m k) Q s.
Proof. unfold wp, bind. destruct (m s) as [[a s']|]; done. Qed.

Lemma wp_fail {A} e (Q : A -> S -> Prop) s : wp (fail e) Q s.
Proof. done. Qed.

Lemma wp_gets {A} (f : S -> A) Q s : Q (f s) s -> wp (gets f) Q s.
Proof. done. Qed.

Lemma wp_modify f (Q : unit -> S -> Prop) s : Q tt (f s) -> wp (modify f) Q s.
Proof. done. Qed.

Lemma wp_lift_opt {A} e (o : option A) Q s :
  (forall a, o = Some a -> Q a s) -> wp (lift_opt e o) Q s.
Proof. destruct o; simpl; [intros H; by apply H | done]. Qed.

Lemma wp_mono {A} (m : ST S A) (P Q : A -> S -> Prop) s :
  wp m P s -> (forall a s', P a s' -> Q a s') -> wp m Q s.
Proof. unfold wp. destruct (m s) as [[a s']|]; auto. Qed.

Lemma wp_and {A} (m : ST S A) (P Q : A -> S -> Prop) s :
  wp m P s -> wp m Q s -> wp m (fun a s' => P a s' /\ Q a s') s.
Proof. unfold wp. destruct (m s) as [[a s']|]; auto. Qed.

Lemma wp_Ok {A} (m : ST S A) Q s a s' : wp m Q s -> m s = Ok (a, s') -> Q a s'.
Proof. unfold wp. intros H E. by rewrite E in H. Qed.

Lemma wp_for_each {A} (l : list A) body (I : list A -> S -> Prop) Q s :
  I l s ->
  (forall x l' s', I (x :: l') s' -> wp (body x) (fun _ => I l') s') ->
  (forall s', I [] s' -> Q tt s') ->
  wp (for_each l body) Q s.
Proof.
  intros HI Hstep Hend. revert s HI. induction l as [|x l IH]; intros s HI; simpl.
  - apply wp_ret. auto.
  - apply wp_bind. eapply wp_mono; [by apply Hstep|]. intros ? s' HI'. by apply IH.
Qed.

Lemma twp_wp {A} (m : ST S A) Q s : twp m Q s -> wp m Q s.
Proof. intros (a & s' & E & HQ). unfold wp. by rewrite E. Qed.

Lemma twp_ret {A} (a : A) Q s : Q a s -> twp (ret a) Q s.
Proof. intros. by exists a, s. Qed.

Lemma twp_bind {A B} (m : ST S A) (k : A -> ST S B) Q s :
  twp m (fun a s' => twp (k a) Q s') s -> twp (bind m k) Q s.
Proof.
  intros (a & s1 & E & b & s2 & E2 & HQ). exists b, s2. unfold bind. by rewrite E.
Qed.

Lemma twp_gets {A} (f : S -> A) Q s : Q (f s) s -> twp (gets f) Q s.
Proof. intros. by exists (f s), s. Qed.

Lemma twp_modify f (Q : unit -> S -> Prop) s : Q tt (f s) -> twp (modify f) Q s.
Proof. intros. by exists tt, (f s). Qed.

Lemma twp_lift_opt {A} e (o : option A) a Q s :
  o = Some a -> Q a s -> twp (lift_opt e o) Q s.
Proof. intros -> HQ. by exists a, s. Qed.

Lemma twp_mono {A} (m : ST S A) (P Q : A -> S -> Prop) s :
  twp m P s -> (forall a s', P a s' -> Q a s') -> twp m Q s.
Proof. intros (a & s' & E & HP) H. exists a, s'. auto. Qed.
End WpLemmas.

(** One step of a weakest precondition goal. *)
Ltac wp_step :=
  match goal with
  | |- wp (bind _ _) _ _ => apply wp_bind
  | |- wp (ret _) _ _ => apply wp_ret
  | |- wp (fail _) _ _ => apply wp_fail
  | |- wp (gets _) _ _ => apply wp_gets
  | |- wp (modify _) _ _ => apply wp_modify
  | |- wp (lift_opt _ _) _ _ => apply wp_lift_opt; intros ? ?
  | |- wp (when ?b _) _ _ => unfold when; destruct b eqn:?
  | |- wp (if ?b then _ else _) _ _ => destruct b eqn:?
  end.
Ltac wp_steps := repeat (wp_step; simpl).
