(* ===== verification/Queue.v ===== *)
(** * Priority queues (shared/queue.h)

    The queues of the kernel are circular doubly linked lists whose links live
    inside the queued structures.  This file models the macros of queue.h on a
    store of links ([Links]), gives their specification on lists
    ([ListQueue]), and proves that the pointer code implements it
    ([Refinement]).  [QueueOps] is the interface the rest of the kernel is
    written against. *)

From S2P Require Import Prelude.

Local Open Scope res_scope.

(** ** Interface

    [H] names queue heads, [E] queued structures, [S] is the store.
    Heads and elements are the [link] fields of distinct objects, so a pointer
    to a link is a head name or an element name. *)

Class QueueOps (H E S : Type) := {
  q_init_head : H -> S -> result S;                 (* INIT_LIST_HEAD *)
  q_initialized : E -> S -> bool;                   (* queue_initialized: the link is 0, 0 *)
  q_empty : H -> S -> result bool;                  (* queue_empty *)
  q_add : (E -> Z) -> E -> H -> S -> result S;      (* queue_add *)
  q_del : E -> S -> result S;                       (* queue_del *)
  q_out : H -> S -> result (option E * S);          (* queue_out *)
  q_top : H -> S -> result (option E);              (* queue_top *)
  q_bottom : H -> S -> result (option E);           (* queue_bottom *)
  q_elems : H -> S -> result (list E)               (* the elements queue_for_each visits *)
}.

(** ** The pointer code *)

Section Nodes.
Context (H E : Type).
Inductive node := Head (h : H) | Elem (e : E).

#[export] Instance node_eq_dec `{EqDecision H, EqDecision E} : EqDecision node.
Proof. solve_decision. Defined.

#[export] Instance node_countable `{Countable H, Countable E} : Countable node.
Proof.
  refine (inj_countable' (fun n => match n with Head h => inl h | Elem e => inr e end)
            (fun x => match x with inl h => Head h | inr e => Elem e end) _).
  by intros [].
Defined.
End Nodes.
Arguments Head {H E} h.
Arguments Elem {H E} e.
#[export] Existing Instance node_eq_dec.
#[export] Existing Instance node_countable.

(** [struct list_link]; [None] is the null pointer. *)
Record link (H E : Type) := mk_link { prev : option (node H E); next : option (node H E) }.
Arguments mk_link {H E} prev next.
Arguments prev {H E} l.
Arguments next {H E} l.

Module Links.
Section Links.
Context {H E : Type} `{HC : Countable H} `{EC : Countable E}.
Abbreviation nodeT := (node H E).
Abbreviation store := (gmap nodeT (link H E)).
Implicit Types s : store.

(** Memory given by the allocator is zeroed, and zeroed again when freed:
    a link nobody wrote to is a null link. *)
Definition nxt s (n : nodeT) : option nodeT := s !! n ≫= next.
Definition prv s (n : nodeT) : option nodeT := s !! n ≫= prev.
Definition set_next s (n : nodeT) (x : option nodeT) : store := <[n := mk_link (prv s n) x]> s.
Definition set_prev s (n : nodeT) (x : option nodeT) : store := <[n := mk_link x (nxt s n)]> s.

(** INIT_LIST_HEAD *)
Definition init_list_head (h : H) s : store :=
  let s1 := set_next s (Head h) (Some (Head h)) in
  set_prev s1 (Head h) (Some (Head h)).

(** INIT_LINK *)
Definition init_link (e : E) s : store :=
  let s1 := set_next s (Elem e) None in
  set_prev s1 (Elem e) None.

Definition queue_empty (h : H) s : bool := bool_decide (nxt s (Head h) = Some (Head h)).

Definition queue_initialized (e : E) s : bool :=
  bool_decide (nxt s (Elem e) = None /\ prv s (Elem e) = None).

(** The [do ... while] of queue_add: the first link after the head, in
    [next] order, that is the head again or whose element does not have a
    smaller priority than [pe].  Reading the priority through a null link or
    through the head of another queue is not a defined read. *)
Fixpoint queue_add_seek (fuel : nat) (prio : E -> Z) (pe : Z) (h : H) s (cur : nodeT) : result nodeT :=
  match fuel with
  | O => Err Diverged
  | S fuel' =>
    match nxt s cur with
    | None => Err Faulted
    | Some (Head h') => if decide (h' = h) then Ok (Head h') else Err Faulted
    | Some (Elem x) =>
        if prio x <? pe then queue_add_seek fuel' prio pe h s (Elem x) else Ok (Elem x)
    end
  end.

Definition queue_add (prio : E -> Z) (e : E) (h : H) s : result store :=
  if queue_initialized e s then
    let? cur := queue_add_seek (S (size s)) prio (prio e) h s (Head h) in
    let s1 := set_next s (Elem e) (Some cur) in
    let s2 := set_prev s1 (Elem e) (prv s1 cur) in
    match prv s2 cur with
    | None => Err Faulted
    | Some p =>
        let s3 := set_next s2 p (Some (Elem e)) in
        Ok (set_prev s3 cur (Some (Elem e)))
    end
  else Err Panicked.

Definition queue_out (h : H) s : result (option E * store) :=
  let ptr_link_ret := prv s (Head h) in
  if queue_empty h s then Ok (None, s) else
  match ptr_link_ret with
  | Some (Elem e) =>
      let s1 := set_prev s (Head h) (prv s (Elem e)) in
      match prv s1 (Head h) with
      | None => Err Faulted
      | Some p =>
          let s2 := set_next s1 p (Some (Head h)) in
          let s3 := set_prev s2 (Elem e) None in
          Ok (Some e, set_next s3 (Elem e) None)
      end
  | _ => Err Faulted
  end.

Definition queue_top (h : H) s : result (option E) :=
  if queue_empty h s then Ok None else
  match prv s (Head h) with Some (Elem e) => Ok (Some e) | _ => Err Faulted end.

Definition queue_bottom (h : H) s : result (option E) :=
  if queue_empty h s then Ok None else
  match nxt s (Head h) with Some (Elem e) => Ok (Some e) | _ => Err Faulted end.

Definition queue_del (e : E) s : result store :=
  match prv s (Elem e), nxt s (Elem e) with
  | Some p, Some n =>
      let s1 := set_next s p (nxt s (Elem e)) in
      match nxt s1 (Elem e) with
      | None => Err Faulted
      | Some n' =>
          let s2 := set_prev s1 n' (prv s1 (Elem e)) in
          let s3 := set_next s2 (Elem e) None in
          Ok (set_prev s3 (Elem e) None)
      end
  | _, _ => Err Panicked
  end.

(** queue_for_each: the elements from [cur->next] until the head. *)
Fixpoint walk (fuel : nat) (h : H) s (cur : nodeT) : result (list E) :=
  match fuel with
  | O => Err Diverged
  | S fuel' =>
    match nxt s cur with
    | None => Err Faulted
    | Some (Head h') => if decide (h' = h) then Ok [] else Err Faulted
    | Some (Elem x) => let? l := walk fuel' h s (Elem x) in Ok (x :: l)
    end
  end.

Definition queue_for_each (h : H) s : result (list E) := walk (S (size s)) h s (Head h).

(** queue_for_each_prev: the same ring along the [prev] links. *)
Fixpoint walk_prev (fuel : nat) (h : H) s (cur : nodeT) : result (list E) :=
  match fuel with
  | O => Err Diverged
  | S fuel' =>
    match prv s cur with
    | None => Err Faulted
    | Some (Head h') => if decide (h' = h) then Ok [] else Err Faulted
    | Some (Elem x) => let? l := walk_prev fuel' h s (Elem x) in Ok (x :: l)
    end
  end.

Definition queue_for_each_prev (h : H) s : result (list E) := walk_prev (S (size s)) h s (Head h).
End Links.

#[global] Instance link_ops `{Countable H, Countable E} : QueueOps H E (gmap (node H E) (link H E)) := {
  q_init_head h s := Ok (init_list_head h s);
  q_initialized := queue_initialized;
  q_empty h s := Ok (queue_empty h s);
  q_add := queue_add;
  q_del := queue_del;
  q_out := queue_out;
  q_top := queue_top;
  q_bottom := queue_bottom;
  q_elems := queue_for_each
}.
End Links.

(** ** Specification on lists

    A queue is the list of its elements in [next] order: increasing priority,
    the element to serve last.  A store is a map from the initialised heads
    to their lists.  [Err Faulted] marks what the specification leaves open: a
    head nobody initialised, or initialising a head that still has elements. *)

Module ListQueue.
Section ListQueue.
Context {H E : Type} `{HC : Countable H} `{EC : Countable E}.
Abbreviation qmap := (gmap H (list E)).
Implicit Types m : qmap.

Definition queued (e : E) m : Prop := map_Exists (fun _ l => e ∈ l) m.
#[export] Instance queued_dec e m : Decision (queued e m).
Proof. unfold queued. apply _. Defined.

Fixpoint insert_prio (prio : E -> Z) (e : E) (l : list E) : list E :=
  match l with
  | [] => [e]
  | x :: l' => if prio x <? prio e then x :: insert_prio prio e l' else e :: l
  end.

Definition add (prio : E -> Z) (e : E) (h : H) m : result qmap :=
  if bool_decide (queued e m) then Err Panicked else
  let? l := of_option Faulted (m !! h) in
  Ok (<[h := insert_prio prio e l]> m).

Definition remove (e : E) (l : list E) : list E := filter (fun x => x ≠ e) l.

Definition del (e : E) m : result qmap :=
  if bool_decide (queued e m) then Ok (remove e <$> m) else Err Panicked.

Definition out (h : H) m : result (option E * qmap) :=
  let? l := of_option Faulted (m !! h) in
  match last l with
  | None => Ok (None, m)
  | Some e => Ok (Some e, <[h := removelast l]> m)
  end.
End ListQueue.

#[global] Instance list_ops `{Countable H, Countable E} : QueueOps H E (gmap H (list E)) := {
  q_init_head h m :=
    if decide (default [] (m !! h) = []) then Ok (<[h := []]> m) else Err Faulted;
  q_initialized e m := negb (bool_decide (queued e m));
  q_empty h m := let? l := of_option Faulted (m !! h) in Ok (bool_decide (l = []));
  q_add := add;
  q_del := del;
  q_out := out;
  q_top h m := let? l := of_option Faulted (m !! h) in Ok (last l);
  q_bottom h m := let? l := of_option Faulted (m !! h) in Ok (head l);
  q_elems h m := of_option Faulted (m !! h)
}.
End ListQueue.

(** ** The pointer code implements the specification *)

Module Refinement.
Import Links ListQueue.
Section Refinement.
Context {H E : Type} `{HC : Countable H} `{EC : Countable E}.
Implicit Types (s : gmap (node H E) (link H E)) (m : gmap H (list E)) (n : node H E).

Lemma nxt_set_next s n x n' : nxt (set_next s n x) n' = if decide (n = n') then x else nxt s n'.
Proof. unfold nxt, set_next. rewrite lookup_insert. by case_decide. Qed.
Lemma nxt_set_prev s n x n' : nxt (set_prev s n x) n' = nxt s n'.
Proof.
  unfold nxt, set_prev. rewrite lookup_insert. case_decide; [subst|done].
  simpl. unfold nxt. by destruct (s !! n').
Qed.
Lemma prv_set_prev s n x n' : prv (set_prev s n x) n' = if decide (n = n') then x else prv s n'.
Proof. unfold prv, set_prev. rewrite lookup_insert. by case_decide. Qed.
Lemma prv_set_next s n x n' : prv (set_next s n x) n' = prv s n'.
Proof.
  unfold prv, set_next. rewrite lookup_insert. case_decide; [subst|done].
  simpl. unfold prv. by destruct (s !! n').
Qed.

(** Consecutive nodes of [l] point to each other. *)
Fixpoint linked s (l : list (node H E)) : Prop :=
  match l with
  | a :: ((b :: _) as t) => nxt s a = Some b /\ prv s b = Some a /\ linked s t
  | _ => True
  end.

Definition ring (h : H) (l : list E) : list (node H E) := Head h :: (Elem <$> l) ++ [Head h].

Record Rep s m : Prop := {
  rep_linked : forall h l, m !! h = Some l -> linked s (ring h l);
  rep_nodup : forall h l, m !! h = Some l -> NoDup l;
  rep_disj : forall h1 h2 l1 l2 e,
    m !! h1 = Some l1 -> m !! h2 = Some l2 -> e ∈ l1 -> e ∈ l2 -> h1 = h2;
  rep_free : forall e, ~ queued e m -> nxt s (Elem e) = None /\ prv s (Elem e) = None
}.

Lemma linked_cons s a b t :
  linked s (a :: b :: t) <-> nxt s a = Some b /\ prv s b = Some a /\ linked s (b :: t).
Proof. done. Qed.

Lemma linked_app s l1 x l2 :
  linked s (l1 ++ x :: l2) <-> linked s (l1 ++ [x]) /\ linked s (x :: l2).
Proof.
  induction l1 as [|a [|b l1] IH].
  - simpl. destruct l2; naive_solver.
  - simpl. destruct l2; naive_solver.
  - change ((a :: b :: l1) ++ x :: l2) with (a :: b :: (l1 ++ x :: l2)).
    change ((a :: b :: l1) ++ [x]) with (a :: b :: (l1 ++ [x])).
    rewrite !linked_cons. change (b :: l1 ++ x :: l2) with ((b :: l1) ++ x :: l2).
    change (b :: l1 ++ [x]) with ((b :: l1) ++ [x]). rewrite IH. naive_solver.
Qed.

(** [linked] only reads the [next] of every node but the last and the
    [prev] of every node but the first. *)
Lemma linked_frame s s' l :
  (forall n, n ∈ removelast l -> nxt s' n = nxt s n) ->
  (forall n, n ∈ tail l -> prv s' n = prv s n) ->
  linked s l -> linked s' l.
Proof.
  induction l as [|a [|b l] IH]; intros Hn Hp; [done..|].
  rewrite !linked_cons. intros (H1 & H2 & H3). split_and!.
  - rewrite Hn; [done|]. simpl. set_solver.
  - rewrite Hp; [done|]. simpl. set_solver.
  - apply IH; [| |done].
    + intros n Hin. apply Hn. change (n ∈ a :: removelast (b :: l)). set_solver.
    + intros n Hin. apply Hp. simpl in *. set_solver.
Qed.

Lemma removelast_ring h l : removelast (ring h l) = Head h :: (Elem <$> l).
Proof. unfold ring. rewrite app_comm_cons. apply removelast_last. Qed.

Lemma elem_removelast_ring h l n :
  n ∈ removelast (ring h l) <-> n = Head h \/ exists e, n = Elem e /\ e ∈ l.
Proof. rewrite removelast_ring, elem_of_cons, list_elem_of_fmap. done. Qed.

Lemma elem_tail_ring h l n :
  n ∈ tail (ring h l) <-> n = Head h \/ exists e, n = Elem e /\ e ∈ l.
Proof. simpl. rewrite elem_of_app, list_elem_of_fmap, list_elem_of_singleton. naive_solver. Qed.

Lemma linked_ring_frame s s' h l :
  (forall n, (n = Head h \/ exists e, n = Elem e /\ e ∈ l) -> nxt s' n = nxt s n /\ prv s' n = prv s n) ->
  linked s (ring h l) -> linked s' (ring h l).
Proof.
  intros HF. apply linked_frame.
  - intros n Hn. apply HF. by rewrite <- elem_removelast_ring.
  - intros n Hn. apply HF. by rewrite <- elem_tail_ring.
Qed.

Lemma queued_lookup e m : queued e m <-> exists h l, m !! h = Some l /\ e ∈ l.
Proof. done. Qed.

(** Frame for the queues an operation on [h] does not touch. *)
Lemma rep_other s s' m h h' l l' :
  Rep s m -> m !! h = Some l -> m !! h' = Some l' -> h <> h' ->
  (forall n, n <> Head h -> (forall e, n = Elem e -> (e ∉ l) /\ queued e m) ->
     nxt s' n = nxt s n /\ prv s' n = prv s n) ->
  linked s' (ring h' l').
Proof.
  intros HR Hl Hl' Hne HF. apply (linked_ring_frame s); [|by eapply rep_linked].
  intros n Hn. apply HF.
  - destruct Hn as [->|(e & -> & _)]; congruence.
  - intros e ->. destruct Hn as [?|(e' & ? & He')]; simplify_eq. split.
    + intros He. apply Hne. by eapply rep_disj.
    + exists h', l'. done.
Qed.

(** Writing a node between two neighbours, and unlinking it. *)
Lemma removelast_cons2 (x y : node H E) l : removelast (x :: y :: l) = x :: removelast (y :: l).
Proof. done. Qed.

Lemma removelast_app_cons (l : list (node H E)) x l' :
  removelast (l ++ x :: l') = l ++ removelast (x :: l').
Proof. apply removelast_app. done. Qed.

Lemma elem_of_removelast (x : node H E) l : x ∈ removelast l -> x ∈ l.
Proof.
  induction l as [|y [|z l] IH]; [done|simpl; set_solver|].
  rewrite removelast_cons2. set_solver.
Qed.

Lemma linked_insert s s' A p n c B :
  linked s (A ++ p :: c :: B) ->
  NoDup (removelast (A ++ p :: c :: B)) -> NoDup (tail (A ++ p :: c :: B)) ->
  n ∉ A ++ p :: c :: B ->
  (forall x, nxt s' x = if decide (x = p) then Some n else if decide (x = n) then Some c else nxt s x) ->
  (forall x, prv s' x = if decide (x = c) then Some n else if decide (x = n) then Some p else prv s x) ->
  linked s' (A ++ p :: n :: c :: B).
Proof.
  intros HL HN1 HN2 Hn Hnx Hpv.
  rewrite linked_app, linked_cons in HL. destruct HL as (HA & _ & _ & HB).
  rewrite removelast_app_cons, removelast_cons2 in HN1.
  apply NoDup_app in HN1 as (_ & HN1a & HN1b). apply NoDup_cons in HN1b as [HN1b _].
  rewrite linked_app, !linked_cons. split_and!.
  - apply (linked_frame s); [..|done].
    + intros x Hx. rewrite removelast_last in Hx. rewrite Hnx, !decide_False; [done|set_solver..].
    + intros x Hx. rewrite Hpv, !decide_False; [done| |].
      * intros ->. destruct A; simpl in *; set_solver.
      * intros ->. destruct A; simpl in *; [set_solver|].
        rewrite (app_assoc A [p] (c :: B) : A ++ p :: c :: B = _) in HN2.
        apply NoDup_app in HN2 as (_ & HN2 & _). set_solver.
  - rewrite Hnx, decide_True; done.
  - rewrite Hpv, decide_False, decide_True; [done..|]. set_solver.
  - rewrite Hnx, decide_False, decide_True; [done..|]. set_solver.
  - rewrite Hpv, decide_True; done.
  - apply (linked_frame s); [..|done].
    + intros x Hx. rewrite Hnx, !decide_False; [done| |].
      * apply elem_of_removelast in Hx. set_solver.
      * set_solver.
    + intros x Hx. simpl in Hx. rewrite Hpv, !decide_False; [done|set_solver|].
      intros ->. destruct A; simpl in HN2; [apply NoDup_cons in HN2 as [HN2 _]; done|].
      apply NoDup_app in HN2 as (_ & _ & HN2). apply NoDup_cons in HN2 as [_ HN2].
      by apply NoDup_cons in HN2 as [HN2 _].
Qed.

Lemma linked_remove s s' A p n c B :
  linked s (A ++ p :: n :: c :: B) ->
  NoDup (removelast (A ++ p :: n :: c :: B)) -> NoDup (tail (A ++ p :: n :: c :: B)) ->
  (forall x, x <> n -> nxt s' x = if decide (x = p) then Some c else nxt s x) ->
  (forall x, x <> n -> prv s' x = if decide (x = c) then Some p else prv s x) ->
  p <> n -> n ∉ c :: B ->
  linked s' (A ++ p :: c :: B).
Proof.
  intros HL HN1 HN2 Hnx Hpv Hpn HnB.
  rewrite linked_app, !linked_cons in HL. destruct HL as (HA & _ & _ & _ & _ & HB).
  rewrite removelast_app_cons, !removelast_cons2 in HN1.
  apply NoDup_app in HN1 as (_ & HN1a & HN1b). apply NoDup_cons in HN1b as [HN1b _].
  assert (HN2' : NoDup (tail A ++ p :: n :: c :: B) \/ A = []).
  { destruct A; [by right|left]. done. }
  rewrite linked_app, !linked_cons. split_and!.
  - apply (linked_frame s); [..|done].
    + intros x Hx. rewrite removelast_last in Hx. rewrite Hnx, decide_False; [done|set_solver..].
    + intros x Hx. destruct HN2' as [HN2'| ->]; [|simpl in Hx; set_solver].
      destruct A as [|a A]; [simpl in Hx; set_solver|]. simpl in Hx, HN2'.
      rewrite (app_assoc A [p] (n :: c :: B) : A ++ p :: n :: c :: B = _) in HN2'.
      apply NoDup_app in HN2' as (_ & HN2' & _). specialize (HN2' _ Hx).
      rewrite Hpv, decide_False; [done|set_solver..].
  - rewrite Hnx, decide_True; done.
  - rewrite Hpv, decide_True; [done..|]. set_solver.
  - apply (linked_frame s); [..|done].
    + intros x Hx. pose proof (elem_of_removelast _ _ Hx).
      rewrite Hnx, decide_False; [done| |set_solver]. intros ->. apply HN1b. set_solver.
    + intros x Hx. simpl in Hx.
      assert (c ∉ B) as Hc.
      { destruct HN2' as [HN2'| ->].
        - apply NoDup_app in HN2' as (_ & _ & HN2').
          apply NoDup_cons in HN2' as [_ HN2']. apply NoDup_cons in HN2' as [_ HN2'].
          by apply NoDup_cons in HN2' as [HN2' _].
        - simpl in HN2. apply NoDup_cons in HN2 as [_ HN2]. by apply NoDup_cons in HN2 as [? _]. }
      rewrite Hpv, decide_False; [done|set_solver..].
Qed.

Lemma NoDup_removelast_ring h l : NoDup l -> NoDup (removelast (ring h l)).
Proof.
  intros HN. rewrite removelast_ring. constructor.
  - rewrite list_elem_of_fmap. naive_solver.
  - apply NoDup_fmap; [|done]. by intros ?? [=].
Qed.

Lemma NoDup_tail_ring h l : NoDup l -> NoDup (tail (ring h l)).
Proof.
  intros HN. simpl. apply NoDup_app. split_and!.
  - apply NoDup_fmap; [|done]. by intros ?? [=].
  - intros x Hx. apply list_elem_of_fmap in Hx. set_solver.
  - apply NoDup_singleton.
Qed.

Lemma elem_of_ring h l n : n ∈ ring h l -> n = Head h \/ exists e, n = Elem e /\ e ∈ l.
Proof.
  unfold ring. rewrite elem_of_cons, elem_of_app, list_elem_of_fmap, list_elem_of_singleton. naive_solver.
Qed.

Lemma ring_cut_elem h l A p c B n :
  ring h l = A ++ p :: c :: B -> n = p \/ n = c -> n = Head h \/ exists e, n = Elem e /\ e ∈ l.
Proof. intros HE Hn. apply elem_of_ring. rewrite HE. set_solver. Qed.

(** The ring of [l1 ++ l2], cut where the two lists meet. *)
Lemma ring_split h l1 l2 : exists A p c B,
  ring h (l1 ++ l2) = A ++ p :: c :: B /\
  c = hd (Head h) (Elem <$> l2) /\ p = List.last (Elem <$> l1) (Head h) /\
  forall e, ring h (l1 ++ e :: l2) = A ++ p :: Elem e :: c :: B.
Proof.
  assert (exists A p, Head h :: (Elem <$> l1) = A ++ [p] /\ p = List.last (Elem <$> l1) (Head h))
    as (A & p & HA & Hp).
  { destruct l1 as [|x l1 _] using rev_ind.
    - by exists [], (Head h).
    - exists (Head h :: (Elem <$> l1)), (Elem x). rewrite fmap_app. simpl.
      by rewrite List.last_last. }
  assert (exists c B, (Elem <$> l2) ++ [Head h] = c :: B /\ c = hd (Head h) (Elem <$> l2))
    as (c & B & HB & Hc).
  { destruct l2; simpl; eauto. }
  exists A, p, c, B. split_and!; [|done..|].
  - unfold ring. rewrite fmap_app, <- app_assoc, HB, app_comm_cons, HA, <- app_assoc. done.
  - intros e. unfold ring.
    rewrite fmap_app, fmap_cons, <- app_assoc, <- app_comm_cons, HB, app_comm_cons, HA, <- app_assoc. done.
Qed.

(** The part of [Rep] that does not read the store. *)
Lemma queued_insert m h l e : m !! h = None \/ (exists l0, m !! h = Some l0 /\ l0 ⊆ l) ->
  queued e (<[h := l]> m) <-> queued e m \/ e ∈ l.
Proof.
  intros Hm. rewrite !queued_lookup. setoid_rewrite lookup_insert_Some. split.
  - naive_solver.
  - intros [(h' & l' & Hl' & He)|He]; [|exists h, l; naive_solver].
    destruct (decide (h = h')) as [<-|]; [|exists h', l'; naive_solver].
    exists h, l. split; [naive_solver|]. destruct Hm as [?|(l0 & ? & Hs)]; simplify_eq. set_solver.
Qed.

Lemma seek_spec fuel prio e h s cur l2 :
  linked s (cur :: (Elem <$> l2) ++ [Head h]) -> (length l2 < fuel)%nat ->
  exists l21 l22, l2 = l21 ++ l22 /\ insert_prio prio e l2 = l21 ++ e :: l22 /\
    queue_add_seek fuel prio (prio e) h s cur = Ok (hd (Head h) (Elem <$> l22)).
Proof.
  revert cur fuel. induction l2 as [|x l2 IH]; intros cur [|fuel] HL Hf; simpl in Hf; try lia.
  - exists [], []. simpl in *. destruct HL as (-> & _). by rewrite decide_True.
  - rewrite fmap_cons in HL. destruct HL as (Hx & _ & HL). simpl. rewrite Hx.
    destruct (prio x <? prio e).
    + destruct (IH (Elem x) fuel HL) as (l21 & l22 & -> & Hi & Hs); [lia|].
      exists (x :: l21), l22. simpl. by rewrite Hi.
    + by exists [], (x :: l2).
Qed.

Lemma ring_nxt_some s h l e : linked s (ring h l) -> e ∈ l -> is_Some (s !! Elem e).
Proof.
  intros HL He. apply list_elem_of_split in He as (l1 & l2 & ->).
  destruct (ring_split h l1 l2) as (A & p & c & B & _ & _ & _ & HR). rewrite HR in HL.
  rewrite linked_app, !linked_cons in HL. destruct HL as (_ & _ & _ & Hn & _).
  unfold nxt in Hn. destruct (s !! Elem e); done.
Qed.

Lemma rep_length s m h l : Rep s m -> m !! h = Some l -> (length l <= size s)%nat.
Proof.
  intros HR Hl. rewrite <- size_dom.
  rewrite <- (length_fmap (Elem : E -> node H E) l).
  rewrite <- (size_list_to_set (C:=gset (node H E))).
  - apply subseteq_size. intros n. rewrite elem_of_list_to_set, list_elem_of_fmap, elem_of_dom.
    intros (e & -> & He). eapply ring_nxt_some; [by eapply rep_linked|done].
  - apply NoDup_fmap; [by intros ?? [=]|]. by eapply rep_nodup.
Qed.

Lemma insert_prio_perm prio e (l : list E) : insert_prio prio e l ≡ₚ e :: l.
Proof.
  induction l as [|x l IH]; simpl; [done|]. case_match; [|done]. rewrite IH. by constructor.
Qed.

Lemma initialized_queued s m e : Rep s m ->
  queue_initialized e s = negb (bool_decide (queued e m)).
Proof.
  intros HR. unfold queue_initialized. case_bool_decide as Hn; case_bool_decide as Hq; try done.
  - destruct Hq as (h & l & Hl & He). apply list_elem_of_split in He as (l1 & l2 & ->).
    destruct (ring_split h l1 l2) as (A & p & c & B & _ & _ & _ & HE).
    pose proof (rep_linked _ _ HR _ _ Hl) as HL. rewrite HE, linked_app, !linked_cons in HL.
    naive_solver.
  - exfalso. apply Hn. by eapply rep_free.
Qed.

Lemma rep_insert s s' m h l1 l2 e :
  Rep s m -> m !! h = Some (l1 ++ l2) -> ~ queued e m ->
  (forall x, nxt s' x = if decide (x = List.last (Elem <$> l1) (Head h)) then Some (Elem e)
     else if decide (x = Elem e) then Some (hd (Head h) (Elem <$> l2)) else nxt s x) ->
  (forall x, prv s' x = if decide (x = hd (Head h) (Elem <$> l2)) then Some (Elem e)
     else if decide (x = Elem e) then Some (List.last (Elem <$> l1) (Head h)) else prv s x) ->
  Rep s' (<[h := l1 ++ e :: l2]> m).
Proof.
  intros HR Hl Hq Hnx Hpv.
  assert (e ∉ l1 ++ l2) as Hel by (intros ?; apply Hq; by exists h, (l1 ++ l2)).
  pose proof (rep_nodup _ _ HR _ _ Hl) as HN.
  destruct (ring_split h l1 l2) as (A & p & c & B & HE & Hc & Hp & HE').
  rewrite <- Hp, <- Hc in Hnx. rewrite <- Hp, <- Hc in Hpv.
  assert (Hin : forall x, x = p \/ x = c -> x = Head h \/ exists e', x = Elem e' /\ e' ∈ l1 ++ l2).
  { intros x. by apply (ring_cut_elem _ _ A p c B). }
  split.
  - intros h' l' Hl'. apply lookup_insert_Some in Hl' as [[-> <-]|[Hne Hl']].
    + rewrite HE'. apply (linked_insert s).
      * rewrite <- HE. by eapply rep_linked.
      * rewrite <- HE. by apply NoDup_removelast_ring.
      * rewrite <- HE. by apply NoDup_tail_ring.
      * rewrite <- HE. intros Hin'%elem_of_ring. naive_solver.
      * done.
      * done.
    + apply (rep_other s s' m h h' _ l' HR Hl Hl' Hne). intros n Hnh Hne'.
      assert (n <> Elem e) by (intros ->; by apply Hq, (Hne' e)).
      assert (~ (n = p \/ n = c)) as Hpc.
      { intros [?|(e' & -> & ?)]%Hin; [done|]. by apply (Hne' e'). }
      rewrite Hnx, Hpv, !decide_False; [done|tauto..].
  - intros h' l' Hl'. apply lookup_insert_Some in Hl' as [[-> <-]|[Hne Hl']]; [|by eapply rep_nodup].
    rewrite <- Permutation_middle. by constructor.
  - assert (forall h' l', m !! h' = Some l' -> e ∉ l') as Hno.
    { intros h' l' Hl' ?. apply Hq. by exists h', l'. }
    assert (forall h' l' x, m !! h' = Some l' -> x ∈ l' -> x ∈ l1 ++ e :: l2 -> h = h').
    { intros h' l' x Hl' Hx Hx'. assert (x ∈ l1 ++ l2); [|by eapply rep_disj].
      specialize (Hno _ _ Hl'). set_solver. }
    intros h1 h2 L1 L2 x. rewrite !lookup_insert_Some. intros [[<- <-]|[? ?]] [[<- <-]|[? ?]] ??; eauto using eq_sym.
    by eapply rep_disj.
  - intros x Hx. rewrite queued_insert in Hx by (right; exists (l1 ++ l2); set_solver).
    assert (~ queued x m /\ x <> e) as [Hx1 Hx2] by set_solver.
    assert (~ (Elem x = p \/ Elem x = c)) as Hpc.
    { intros [?|(e' & ? & ?)]%Hin; simplify_eq. apply Hx1. by exists h, (l1 ++ l2). }
    rewrite Hnx, Hpv, !decide_False; [by eapply rep_free|..]; (tauto || congruence).
Qed.

Lemma rep_add s m prio e h l :
  Rep s m -> m !! h = Some l -> ~ queued e m ->
  exists s', queue_add prio e h s = Ok s' /\ Rep s' (<[h := insert_prio prio e l]> m).
Proof.
  intros HR Hl Hq. pose proof (rep_length _ _ _ _ HR Hl) as Hlen.
  pose proof (rep_linked _ _ HR _ _ Hl) as HL.
  destruct (seek_spec (S (size s)) prio e h s (Head h) l HL) as (l1 & l2 & -> & Hi & Hs); [lia|].
  unfold queue_add. rewrite (initialized_queued _ _ _ HR), bool_decide_false by done. simpl negb. cbn iota.
  rewrite Hs, Hi. cbn [rbind].
  destruct (ring_split h l1 l2) as (A & p & c & B & HE & Hc & Hp & _).
  rewrite HE, linked_app, linked_cons in HL. destruct HL as (_ & Hpc & Hcp & _).
  assert (c <> Elem e /\ p <> Elem e) as [Hce Hpe].
  { split; intros ->; destruct (ring_cut_elem _ _ _ _ _ _ (Elem e) HE ltac:(eauto)) as [?|(e' & ? & ?)]; simplify_eq.
    all: apply Hq; by exists h, (l1 ++ l2). }
  rewrite <- Hc, prv_set_prev, decide_False, prv_set_next, Hcp by done.
  eexists. split; [done|]. apply (rep_insert s _ m _ _ _ _ HR Hl Hq).
  - intros x. rewrite nxt_set_prev, nxt_set_next, nxt_set_prev, nxt_set_next, <- Hp, <- Hc.
    repeat case_decide; congruence.
  - intros x. rewrite prv_set_prev, prv_set_next, prv_set_prev, !prv_set_next, <- Hp, <- Hc.
    repeat case_decide; congruence.
Qed.

Lemma rep_remove s s' m h l1 l2 e :
  Rep s m -> m !! h = Some (l1 ++ e :: l2) ->
  (forall x, nxt s' x = if decide (x = Elem e) then None
     else if decide (x = List.last (Elem <$> l1) (Head h)) then Some (hd (Head h) (Elem <$> l2)) else nxt s x) ->
  (forall x, prv s' x = if decide (x = Elem e) then None
     else if decide (x = hd (Head h) (Elem <$> l2)) then Some (List.last (Elem <$> l1) (Head h)) else prv s x) ->
  Rep s' (<[h := l1 ++ l2]> m).
Proof.
  intros HR Hl Hnx Hpv. pose proof (rep_nodup _ _ HR _ _ Hl) as HN.
  assert (e ∉ l1 ++ l2) as Hel.
  { rewrite <- Permutation_middle in HN. by apply NoDup_cons in HN as [? _]. }
  destruct (ring_split h l1 l2) as (A & p & c & B & HE & Hc & Hp & HE'). specialize (HE' e).
  rewrite <- Hp, <- Hc in Hnx. rewrite <- Hp, <- Hc in Hpv.
  assert (Hin : forall x, x = p \/ x = c -> x = Head h \/ exists e', x = Elem e' /\ e' ∈ l1 ++ l2).
  { intros x. by apply (ring_cut_elem _ _ A p c B). }
  assert (Elem e ∉ ring h (l1 ++ l2)) as Her by (intros Hin'%elem_of_ring; naive_solver).
  split.
  - intros h' l' Hl'. apply lookup_insert_Some in Hl' as [[-> <-]|[Hne Hl']].
    + rewrite HE. rewrite HE in Her. apply (linked_remove s _ _ _ (Elem e)).
      * rewrite <- HE'. by eapply rep_linked.
      * rewrite <- HE'. by apply NoDup_removelast_ring.
      * rewrite <- HE'. by apply NoDup_tail_ring.
      * intros x ?. by rewrite Hnx, decide_False.
      * intros x ?. by rewrite Hpv, decide_False.
      * intros ->. set_solver.
      * set_solver.
    + apply (rep_other s s' m h h' _ l' HR Hl Hl' Hne). intros n Hnh Hne'.
      assert (n <> Elem e) by (intros ->; apply (Hne' e); [done|set_solver]).
      assert (~ (n = p \/ n = c)) as Hpc.
      { intros [?|(e' & -> & ?)]%Hin; [done|]. apply (Hne' e'); [done|set_solver]. }
      rewrite Hnx, Hpv, !decide_False; [done|tauto..].
  - intros h' l' Hl'. apply lookup_insert_Some in Hl' as [[-> <-]|[Hne Hl']]; [|by eapply rep_nodup].
    rewrite <- Permutation_middle in HN. by apply NoDup_cons in HN as [_ ?].
  - assert (forall h' l' x, m !! h' = Some l' -> x ∈ l' -> x ∈ l1 ++ l2 -> h = h').
    { intros h' l' x Hl' Hx Hx'. eapply rep_disj; [done..| |done]. set_solver. }
    intros h1 h2 L1 L2 x. rewrite !lookup_insert_Some. intros [[<- <-]|[? ?]] [[<- <-]|[? ?]] ??; eauto using eq_sym.
    by eapply rep_disj.
  - intros x Hx. rewrite queued_lookup in Hx. setoid_rewrite lookup_insert_Some in Hx.
    rewrite Hnx, Hpv. case_decide as Hxe; [done|].
    assert (x <> e) by congruence.
    assert (x ∉ l1 ++ l2) as Hxl by naive_solver.
    assert (~ (Elem x = p \/ Elem x = c)) as Hpc.
    { intros [?|(e' & ? & ?)]%Hin; naive_solver. }
    rewrite !decide_False by tauto. eapply rep_free; [done|].
    intros (h' & l' & Hl' & Hx'). destruct (decide (h = h')) as [<-|]; [|naive_solver].
    simplify_eq. set_solver.
Qed.

Lemma remove_absent e (l : list E) : e ∉ l -> remove e l = l.
Proof.
  intros He. induction l as [|x l IH]; [done|]. unfold remove in *.
  rewrite filter_cons_True by set_solver. f_equal. apply IH. set_solver.
Qed.

Lemma remove_middle e (l1 l2 : list E) : e ∉ l1 ++ l2 -> remove e (l1 ++ e :: l2) = l1 ++ l2.
Proof.
  intros He. unfold remove. rewrite filter_app, filter_cons_False by tauto.
  change (remove e l1 ++ remove e l2 = l1 ++ l2). rewrite !remove_absent by set_solver. done.
Qed.

Lemma remove_fmap s m h l1 l2 e : Rep s m -> m !! h = Some (l1 ++ e :: l2) ->
  remove e <$> m = <[h := l1 ++ l2]> m.
Proof.
  intros HR Hl. apply map_eq. intros h'. rewrite lookup_fmap, lookup_insert. case_decide as Hh.
  - subst h'. rewrite Hl. simpl. rewrite remove_middle; [done|].
    pose proof (rep_nodup _ _ HR _ _ Hl) as HN. rewrite <- Permutation_middle in HN.
    by apply NoDup_cons in HN as [? _].
  - destruct (m !! h') as [l'|] eqn:Hl'; [|done]. simpl. rewrite remove_absent; [done|].
    intros He. apply Hh. eapply rep_disj; [done..| |done]. set_solver.
Qed.

Lemma rep_del s m e : Rep s m -> queued e m ->
  exists s', queue_del e s = Ok s' /\ Rep s' (remove e <$> m).
Proof.
  intros HR (h & l & Hl & He). apply list_elem_of_split in He as (l1 & l2 & ->).
  rewrite (remove_fmap _ _ _ _ _ _ HR Hl).
  pose proof (rep_linked _ _ HR _ _ Hl) as HL. pose proof (rep_nodup _ _ HR _ _ Hl) as HN.
  destruct (ring_split h l1 l2) as (A & p & c & B & HE & Hc & Hp & HE').
  assert (Elem e ∉ ring h (l1 ++ l2)) as Her.
  { intros Hin'%elem_of_ring. rewrite <- Permutation_middle in HN.
    apply NoDup_cons in HN as [? _]. naive_solver. }
  rewrite HE', linked_app, !linked_cons in HL. destruct HL as (_ & Hpe & Hep & Hec & Hce & _).
  rewrite HE in Her. assert (p <> Elem e /\ c <> Elem e) as [Hpn Hcn] by set_solver.
  unfold queue_del. rewrite Hep, Hec, nxt_set_next, decide_False, Hec, prv_set_next, Hep by done.
  eexists. split; [done|]. apply (rep_remove s _ m _ _ _ _ HR Hl).
  - intros x. rewrite nxt_set_prev, nxt_set_next, nxt_set_prev, nxt_set_next, <- Hp, <- Hc.
    repeat case_decide; congruence.
  - intros x. rewrite prv_set_prev, prv_set_next, prv_set_prev, prv_set_next, <- Hp, <- Hc.
    repeat case_decide; congruence.
Qed.

Lemma rep_not_queued_del s m e : Rep s m -> ~ queued e m -> queue_del e s = Err Panicked.
Proof. intros HR Hq. unfold queue_del. by destruct (rep_free _ _ HR _ Hq) as [-> ->]. Qed.

Lemma rep_empty s m h l : Rep s m -> m !! h = Some l ->
  queue_empty h s = bool_decide (l = []).
Proof.
  intros HR Hl. pose proof (rep_linked _ _ HR _ _ Hl) as HL. unfold queue_empty.
  destruct l as [|x l]; simpl in HL; destruct HL as (-> & _).
  - by rewrite !bool_decide_true.
  - by rewrite !bool_decide_false.
Qed.

(** The last element of the list is what the head's [prev] points to. *)
Lemma rep_last s m h l e : Rep s m -> m !! h = Some (l ++ [e]) ->
  prv s (Head h) = Some (Elem e) /\ prv s (Elem e) = Some (List.last (Elem <$> l) (Head h)) /\
  nxt s (List.last (Elem <$> l) (Head h)) = Some (Elem e) /\ nxt s (Elem e) = Some (Head h) /\
  List.last (Elem <$> l) (Head h) <> Elem e.
Proof.
  intros HR Hl. pose proof (rep_linked _ _ HR _ _ Hl) as HL.
  destruct (ring_split h l []) as (A & p & c & B & HE & Hc & Hp & HE').
  rewrite HE', linked_app, !linked_cons in HL. simpl in Hc. subst c p.
  destruct HL as (_ & Hpe & Hep & Hec & Hce & _). split_and!; [done..|].
  intros Hbad. pose proof (rep_nodup _ _ HR _ _ Hl) as HN.
  destruct (ring_cut_elem _ _ _ _ _ _ (List.last (Elem <$> l) (Head h)) HE ltac:(eauto)) as [?|(e' & ? & ?)];
    [congruence|]. rewrite app_nil_r in *. apply NoDup_app in HN as (_ & HN & _).
  apply (HN e'); [done|]. assert (e' = e) as -> by congruence. set_solver.
Qed.

Lemma rep_out s m h l e : Rep s m -> m !! h = Some (l ++ [e]) ->
  exists s', queue_out h s = Ok (Some e, s') /\ Rep s' (<[h := l]> m).
Proof.
  intros HR Hl. destruct (rep_last _ _ _ _ _ HR Hl) as (H1 & H2 & H3 & H4 & H5).
  unfold queue_out. rewrite (rep_empty _ _ _ _ HR Hl), bool_decide_false by (by destruct l).
  rewrite H1, H2, prv_set_prev, decide_True by done. eexists. split; [done|].
  replace (<[h := l]> m) with (<[h := l ++ []]> m) by (by rewrite app_nil_r).
  apply (rep_remove s _ m h l [] e HR Hl); simpl.
  - intros x. rewrite nxt_set_next, nxt_set_prev, nxt_set_next, nxt_set_prev.
    repeat case_decide; congruence.
  - intros x. rewrite prv_set_next, prv_set_prev, prv_set_next, prv_set_prev.
    repeat case_decide; congruence.
Qed.

Lemma rep_top s m h l : Rep s m -> m !! h = Some l -> queue_top h s = Ok (last l).
Proof.
  intros HR Hl. unfold queue_top. rewrite (rep_empty _ _ _ _ HR Hl).
  destruct l as [|e l _] using rev_ind; [done|].
  rewrite bool_decide_false by (by destruct l).
  destruct (rep_last _ _ _ _ _ HR Hl) as (-> & _). by rewrite last_snoc.
Qed.

Lemma rep_bottom s m h l : Rep s m -> m !! h = Some l -> queue_bottom h s = Ok (head l).
Proof.
  intros HR Hl. unfold queue_bottom. rewrite (rep_empty _ _ _ _ HR Hl).
  pose proof (rep_linked _ _ HR _ _ Hl) as HL.
  destruct l as [|e l]; [done|]. rewrite bool_decide_false by done.
  simpl in HL. by destruct HL as (-> & _).
Qed.

Lemma walk_spec fuel h s cur l :
  linked s (cur :: (Elem <$> l) ++ [Head h]) -> (length l < fuel)%nat -> walk fuel h s cur = Ok l.
Proof.
  revert cur fuel. induction l as [|x l IH]; intros cur [|fuel] HL Hf; simpl in Hf; try lia.
  - simpl in *. destruct HL as (-> & _). by rewrite decide_True.
  - rewrite fmap_cons in HL. destruct HL as (Hx & _ & HL). simpl. rewrite Hx.
    rewrite (IH (Elem x) fuel HL) by lia. done.
Qed.

Lemma rep_elems s m h l : Rep s m -> m !! h = Some l -> queue_for_each h s = Ok l.
Proof.
  intros HR Hl. apply walk_spec.
  - by apply (rep_linked _ _ HR).
  - pose proof (rep_length _ _ _ _ HR Hl). lia.
Qed.

Lemma walk_prev_spec fuel h s cur l :
  linked s (Head h :: (Elem <$> l) ++ [cur]) -> (length l < fuel)%nat ->
  walk_prev fuel h s cur = Ok (reverse l).
Proof.
  revert cur fuel. induction l as [|x l IH] using rev_ind; intros cur [|fuel] HL Hf;
    rewrite ?length_app in Hf; simpl in Hf; try lia.
  - simpl in *. destruct HL as (_ & -> & _). by rewrite decide_True.
  - rewrite fmap_app, <- app_assoc, app_comm_cons in HL.
    change ((Elem <$> [x]) ++ [cur]) with (Elem x :: [cur]) in HL.
    rewrite linked_app, linked_cons in HL.
    destruct HL as (HL & _ & Hx & _). simpl. rewrite Hx.
    rewrite (IH (Elem x) fuel HL) by lia. simpl. by rewrite reverse_snoc.
Qed.

(** Walking a queue along the [prev] links visits the same elements in the
    opposite order, so from the one queue_out would serve first. *)
Lemma rep_elems_prev s m h l : Rep s m -> m !! h = Some l -> queue_for_each_prev h s = Ok (reverse l).
Proof.
  intros HR Hl. apply walk_prev_spec.
  - by apply (rep_linked _ _ HR).
  - pose proof (rep_length _ _ _ _ HR Hl). lia.
Qed.

Lemma rep_init_head s m h : Rep s m -> default [] (m !! h) = [] ->
  Rep (init_list_head h s) (<[h := []]> m).
Proof.
  intros HR Hh.
  assert (Hnx : forall x, nxt (init_list_head h s) x = if decide (x = Head h) then Some (Head h) else nxt s x).
  { intros x. unfold init_list_head. rewrite nxt_set_prev, nxt_set_next. repeat case_decide; congruence. }
  assert (Hpv : forall x, prv (init_list_head h s) x = if decide (x = Head h) then Some (Head h) else prv s x).
  { intros x. unfold init_list_head. rewrite prv_set_prev, prv_set_next. repeat case_decide; congruence. }
  assert (Hq : forall e, queued e (<[h := []]> m) <-> queued e m).
  { intros e. rewrite queued_insert; [set_solver|].
    destruct (m !! h) as [l|] eqn:Eh; [right|by left]. simpl in Hh. subst l. by exists []. }
  split.
  - intros h' l'. rewrite lookup_insert_Some. intros [[<- <-]|[Hne Hl']].
    + simpl. by rewrite Hnx, Hpv, !decide_True by done.
    + apply (linked_ring_frame s); [|by eapply rep_linked].
      intros n Hn. assert (n <> Head h) by (destruct Hn as [->|(e & -> & _)]; congruence).
      by rewrite Hnx, Hpv, !decide_False.
  - intros h' l'. rewrite lookup_insert_Some. intros [[<- <-]|[Hne Hl']]; [constructor|by eapply rep_nodup].
  - intros h1 h2 L1 L2 x. rewrite !lookup_insert_Some. intros [[<- <-]|[? ?]] [[<- <-]|[? ?]] ??; [set_solver..|].
    by eapply rep_disj.
  - intros e. rewrite Hq, Hnx, Hpv. rewrite !decide_False by done. by apply rep_free.
Qed.

Lemma rep_start : Rep (∅ : gmap (node H E) (link H E)) (∅ : gmap H (list E)).
Proof.
  split; intros; by simplify_map_eq.
Qed.
End Refinement.
End Refinement.

(** ** Simulation between two implementations of the interface *)

Class QueueSim {H E S T} (opsS : QueueOps H E S) (opsT : QueueOps H E T) (R : S -> T -> Prop) : Prop := {
  sim_init_head h s t : R s t -> rsim R (q_init_head h s) (q_init_head h t);
  sim_initialized e s t : R s t -> q_initialized e s = q_initialized e t;
  sim_empty h s t : R s t -> rsim eq (q_empty (E:=E) h s) (q_empty (E:=E) h t);
  sim_add prio e h s t : R s t -> rsim R (q_add prio e h s) (q_add prio e h t);
  sim_del e s t : R s t -> rsim R (q_del (H:=H) e s) (q_del (H:=H) e t);
  sim_out h s t : R s t -> rsim (fun x y => x.1 = y.1 /\ R x.2 y.2) (q_out h s) (q_out h t);
  sim_top h s t : R s t -> rsim eq (q_top (E:=E) h s) (q_top (E:=E) h t);
  sim_bottom h s t : R s t -> rsim eq (q_bottom (E:=E) h s) (q_bottom (E:=E) h t);
  sim_elems h s t : R s t -> rsim eq (q_elems (E:=E) h s) (q_elems (E:=E) h t)
}.

Section LinkListSim.
Context {H E : Type} `{HC : Countable H} `{EC : Countable E}.
Import Refinement.

#[export] Instance link_list_sim :
  QueueSim (H:=H) (E:=E) Links.link_ops ListQueue.list_ops Rep.
Proof.
  split; intros; cbn.
  - case_decide; [|done]. cbn. eexists. split; [done|]. by apply rep_init_head.
  - by apply initialized_queued.
  - destruct (t !! h) as [l|] eqn:El; cbn; [|done]. eexists. split; [done|]. by eapply rep_empty.
  - unfold ListQueue.add. case_bool_decide as Hq; cbn.
    + unfold Links.queue_add. by rewrite (initialized_queued _ _ _ H0), bool_decide_true.
    + destruct (t !! h) as [l|] eqn:El; cbn; [|done]. by apply rep_add.
  - unfold ListQueue.del. case_bool_decide as Hq; cbn.
    + by apply rep_del.
    + by eapply rep_not_queued_del.
  - unfold ListQueue.out. destruct (t !! h) as [l|] eqn:El; cbn; [|done].
    destruct l as [|e l _] using rev_ind; cbn.
    + exists (None, s). unfold Links.queue_out. by rewrite (rep_empty _ _ _ _ H0 El).
    + rewrite last_snoc, removelast_last. cbn.
      destruct (rep_out _ _ _ _ _ H0 El) as (s' & -> & HR). by exists (Some e, s').
  - destruct (t !! h) as [l|] eqn:El; cbn; [|done]. eexists. split; [by eapply rep_top|done].
  - destruct (t !! h) as [l|] eqn:El; cbn; [|done]. eexists. split; [by eapply rep_bottom|done].
  - destruct (t !! h) as [l|] eqn:El; cbn; [|done]. eexists. split; [by eapply rep_elems|done].
Qed.
End LinkListSim.

(** ** Service order *)

Section Service.
Context {H E St : Type} `{QueueOps H E St}.

(** queue_add of each element in turn; queue_out until the queue is empty. *)
Fixpoint add_all (prio : E -> Z) (es : list E) (h : H) (s : St) : result St :=
  match es with
  | [] => Ok s
  | e :: es' => let? s' := q_add prio e h s in add_all prio es' h s'
  end.

Fixpoint drain (fuel : nat) (h : H) (s : St) : result (list E * St) :=
  match fuel with
  | O => Err Diverged
  | S fuel' =>
      let? '(o, s') := q_out h s in
      match o with
      | None => Ok ([], s')
      | Some e => let? '(l, s'') := drain fuel' h s' in Ok (e :: l, s'')
      end
  end.
End Service.

Section ServiceOrder.
Context {H E : Type} `{HC : Countable H} `{EC : Countable E}.
Import ListQueue Refinement.
Implicit Types (prio : E -> Z) (es l : list E).

(** [e1] was queued before [e2]. *)
Definition arrived_before es (e1 e2 : E) : Prop :=
  exists i j, es !! i = Some e1 /\ es !! j = Some e2 /\ (i < j)%nat.

(** [e1] has to be served before [e2]: a higher priority, or the same
    priority and an earlier arrival. *)
Definition served_before prio es (e1 e2 : E) : Prop :=
  prio e2 < prio e1 \/ (prio e1 = prio e2 /\ arrived_before es e1 e2).

Definition fill prio es l : list E := fold_left (fun l e => insert_prio prio e l) es l.

Lemma elem_of_insert_prio prio e l x : x ∈ insert_prio prio e l <-> x = e \/ x ∈ l.
Proof. rewrite insert_prio_perm. apply elem_of_cons. Qed.

Lemma insert_prio_sorted prio (R : E -> E -> Prop) e l :
  (forall x, x ∈ l -> prio x < prio e -> R x e) ->
  (forall x, x ∈ l -> prio e <= prio x -> R e x) ->
  (forall x y, R x y -> prio x <= prio y) ->
  StronglySorted R l -> StronglySorted R (insert_prio prio e l).
Proof.
  intros Hlt Hge HR HS. induction HS as [|x l HS IH HF]; simpl; [by repeat constructor|].
  destruct (Z.ltb_spec (prio x) (prio e)).
  - constructor.
    + apply IH; set_solver.
    + apply Forall_forall. intros y [->|Hy]%elem_of_insert_prio; [set_solver|].
      rewrite Forall_forall in HF. auto.
  - constructor; [by constructor|]. constructor; [set_solver|].
    apply Forall_forall. intros y Hy. rewrite Forall_forall in HF.
    apply Hge; [set_solver|]. pose proof (HR _ _ (HF _ Hy)). lia.
Qed.

Lemma served_before_app prio es e x y :
  served_before prio es x y -> served_before prio (es ++ [e]) x y.
Proof.
  intros [?|(? & i & j & ? & ? & ?)]; [by left|right]. split; [done|].
  exists i, j. by rewrite !lookup_app_l by (by eapply lookup_lt_Some).
Qed.

Lemma fill_snoc prio es e l : fill prio (es ++ [e]) l = insert_prio prio e (fill prio es l).
Proof. unfold fill. by rewrite fold_left_app. Qed.

Lemma fill_perm prio es : fill prio es [] ≡ₚ es.
Proof.
  induction es as [|e es IH] using rev_ind; [done|].
  rewrite fill_snoc, insert_prio_perm, IH. by rewrite Permutation_app_comm.
Qed.

Lemma StronglySorted_impl_rel {A} (R R' : A -> A -> Prop) (l : list A) :
  (forall x y, R x y -> R' x y) -> StronglySorted R l -> StronglySorted R' l.
Proof. intros HR. induction 1; constructor; eauto using Forall_impl. Qed.

Lemma fill_sorted prio es :
  StronglySorted (fun x y => served_before prio es y x) (fill prio es []).
Proof.
  induction es as [|e es IH] using rev_ind; [constructor|].
  rewrite fill_snoc. apply insert_prio_sorted.
  - intros x _ Hx. by left.
  - intros x Hx Hle. destruct (decide (prio x = prio e)) as [Heq|]; [right|left; lia].
    split; [done|]. rewrite fill_perm in Hx. apply list_elem_of_lookup in Hx as [i Hi].
    exists i, (length es). split_and!.
    + rewrite lookup_app_l; [done|]. by eapply lookup_lt_Some.
    + by apply list_lookup_middle.
    + by eapply lookup_lt_Some.
  - intros x y [?|[? _]]; lia.
  - eapply StronglySorted_impl_rel; [|done]. intros x y. apply served_before_app.
Qed.

Lemma StronglySorted_reverse {A} (R : A -> A -> Prop) (l : list A) :
  StronglySorted R l -> StronglySorted (flip R) (reverse l).
Proof.
  induction 1 as [|x l HS IH HF]; [constructor|]. rewrite reverse_cons.
  apply StronglySorted_app. split_and!; [|done|by repeat constructor].
  intros y z Hy ->%list_elem_of_singleton. rewrite elem_of_reverse in Hy.
  rewrite Forall_forall in HF. by apply HF.
Qed.

Lemma add_all_list prio es (h : H) (m : gmap H (list E)) l :
  m !! h = Some l -> NoDup es -> (forall e, e ∈ es -> ~ queued e m) ->
  add_all prio es h m = Ok (<[h := fill prio es l]> m).
Proof.
  revert m l. induction es as [|e es IH]; intros m l Hl HN Hq; simpl.
  - by rewrite insert_id.
  - unfold add. rewrite bool_decide_false by (apply Hq; set_solver). rewrite Hl. simpl.
    apply NoDup_cons in HN as [He HN].
    rewrite (IH _ (insert_prio prio e l)); [|by simplify_map_eq|done|].
    + by rewrite insert_insert_eq.
    + intros x Hx. rewrite queued_insert.
      * rewrite elem_of_insert_prio. intros [?|[->|?]]; [|done|].
        -- eapply Hq; [|done]. set_solver.
        -- eapply Hq; [|by exists h, l]. set_solver.
      * right. exists l. split; [done|]. intros y. rewrite elem_of_insert_prio. tauto.
Qed.

Lemma drain_list fuel (h : H) (m : gmap H (list E)) l :
  m !! h = Some l -> (length l < fuel)%nat -> drain fuel h m = Ok (reverse l, <[h := []]> m).
Proof.
  revert m l. induction fuel as [|fuel IH]; intros m l Hl Hf; [lia|]. simpl.
  unfold out. rewrite Hl. simpl. destruct l as [|e l _] using rev_ind; simpl.
  - by rewrite insert_id.
  - rewrite last_snoc. simpl. rewrite removelast_last. rewrite length_app in Hf. simpl in Hf.
    rewrite (IH _ l); [|by simplify_map_eq|lia]. simpl.
    by rewrite insert_insert_eq, reverse_snoc.
Qed.

(** The same two loops on the pointers. *)
Lemma add_all_sim prio es (h : H) s m :
  Rep s m -> rsim Rep (add_all prio es h s) (add_all prio es h m).
Proof.
  revert s m. induction es as [|e es IH]; intros s m HR; cbn [add_all].
  - by exists s.
  - pose proof (sim_add prio e h s m HR) as Hsim.
    destruct (q_add prio e h m) as [m'|[]]; cbn in Hsim |- *; [|by rewrite Hsim..| |]; try done.
    destruct Hsim as (s' & -> & HR'). by apply IH.
Qed.

Lemma drain_sim fuel (h : H) s m :
  Rep s m -> rsim (fun x y => x.1 = y.1 /\ Rep x.2 y.2) (drain (E:=E) fuel h s) (drain fuel h m).
Proof.
  revert s m. induction fuel as [|fuel IH]; intros s m HR; cbn [drain]; [done|].
  pose proof (sim_out h s m HR) as Hsim.
  destruct (q_out h m) as [[o m']|[]]; cbn in Hsim |- *; [|by rewrite Hsim..| |]; try done.
  destruct Hsim as ([o' s'] & -> & [= ->] & HR'). cbn. destruct o as [e|]; [|by exists ([], s')].
  specialize (IH _ _ HR'). destruct (drain fuel h m') as [[l m'']|[]]; cbn in IH |- *; [|by rewrite IH..| |]; try done.
  destruct IH as ([l' s''] & -> & [= ->] & HR''). by exists (e :: l, s'').
Qed.
End ServiceOrder.

(** ** Properties *)

Section Properties.
Context {H E : Type} `{HC : Countable H} `{EC : Countable E}.
Import Refinement.

(** C17: in a store whose links represent a family of disjoint queues, the
    macros queue_add, queue_del, queue_out, queue_top, queue_bottom and
    queue_for_each do on the pointers what their specification does on the
    lists, with the same results, the same failed assertions, and links that
    again represent the resulting queues. *)
Theorem queue_code_refines_lists (s : gmap (node H E) (link H E)) (m : gmap H (list E)) :
  Rep s m ->
  (forall prio e h, rsim Rep (Links.queue_add prio e h s) (ListQueue.add prio e h m)) /\
  (forall e, rsim Rep (Links.queue_del e s) (ListQueue.del e m)) /\
  (forall h, rsim (fun x y => x.1 = y.1 /\ Rep x.2 y.2) (Links.queue_out h s) (ListQueue.out h m)) /\
  (forall h l, m !! h = Some l ->
     Links.queue_empty h s = bool_decide (l = []) /\ Links.queue_top h s = Ok (last l) /\
     Links.queue_bottom h s = Ok (head l) /\ Links.queue_for_each h s = Ok l /\
     Links.queue_for_each_prev h s = Ok (reverse l)) /\
  (forall e, Links.queue_initialized e s = true <-> ~ ListQueue.queued e m).
Proof.
  intros HR. split_and!.
  - intros prio e h. exact (sim_add prio e h s m HR).
  - intros e. exact (sim_del e s m HR).
  - intros h. exact (sim_out h s m HR).
  - intros h l Hl. split_and!; eauto using rep_empty, rep_top, rep_bottom, rep_elems, rep_elems_prev.
  - intros e. rewrite (initialized_queued _ _ _ HR). case_bool_decide; naive_solver.
Qed.

(** C18: whatever elements are queued one after the other with queue_add, taking
    them out with queue_out until the queue is empty terminates, gives every
    element exactly once, higher priorities first, and elements of the same
    priority in the order in which they were queued. *)
Theorem queue_serves_priority_fifo (prio : E -> Z) (es : list E) (h : H)
    (s : gmap (node H E) (link H E)) (m : gmap H (list E)) :
  Rep s m -> m !! h = Some [] -> NoDup es -> (forall e, e ∈ es -> ~ ListQueue.queued e m) ->
  exists s1 l s2,
    add_all prio es h s = Ok s1 /\ drain (S (length es)) h s1 = Ok (l, s2) /\
    l ≡ₚ es /\ StronglySorted (served_before prio es) l /\ Rep s2 m.
Proof.
  intros HR Hh HN Hq.
  pose proof (add_all_sim prio es h s m HR) as H1. rewrite (add_all_list _ _ _ _ [] Hh HN Hq) in H1.
  destruct H1 as (s1 & E1 & HR1).
  pose proof (drain_sim (S (length es)) h s1 _ HR1) as H2.
  rewrite (drain_list _ _ _ (fill prio es [])) in H2; [|by simplify_map_eq|rewrite fill_perm; lia].
  destruct H2 as ([l s2] & E2 & [= ->] & HR2). rewrite insert_insert_eq, insert_id in HR2 by done.
  exists s1, (reverse (fill prio es [])), s2. split_and!; [done..| | |done].
  - by rewrite reverse_Permutation, fill_perm.
  - pose proof (StronglySorted_reverse _ _ (fill_sorted prio es)) as HS. exact HS.
Qed.
End Properties.

(** The hypotheses of the two theorems hold of a queue just initialised. *)
Definition one_queue : gmap (node unit nat) (link unit nat) := Links.init_list_head tt ∅.

Lemma one_queue_rep : Refinement.Rep one_queue {[ tt := [] ]}.
Proof. apply (Refinement.rep_init_head ∅ ∅); [apply Refinement.rep_start|done]. Qed.

Lemma queue_code_refines_lists_witness :
  exists s', Links.queue_add (fun e => Z.of_nat e) 3%nat tt one_queue = Ok s' /\
    Links.queue_for_each tt s' = Ok [3%nat].
Proof.
  destruct (queue_code_refines_lists one_queue {[ tt := [] ]} one_queue_rep) as (Hadd & _).
  destruct (Hadd (fun e => Z.of_nat e) 3%nat tt) as (s' & E1 & HR).
  exists s'. split; [exact E1|].
  destruct (queue_code_refines_lists s' _ HR) as (_ & _ & _ & Hq & _).
  by destruct (Hq tt [3%nat] ltac:(vm_compute; reflexivity)) as (_ & _ & _ & He & _).
Defined.

Lemma queue_serves_priority_fifo_witness :
  exists s1 s2,
    add_all (fun e => Z.of_nat (e / 10)) [21; 10; 20; 11; 22]%nat tt one_queue = Ok s1 /\
    drain 6 tt s1 = Ok ([21; 20; 22; 10; 11]%nat, s2).
Proof.
  destruct (queue_serves_priority_fifo (fun e => Z.of_nat (e / 10)) [21; 10; 20; 11; 22]%nat tt
              one_queue {[ tt := [] ]}) as (s1 & l & s2 & E1 & E2 & _).
  - apply one_queue_rep.
  - reflexivity.
  - apply NoDup_ListNoDup. repeat constructor; simpl; lia.
  - intros e _. vm_compute. intros (h & l & Hl & He). destruct h. simplify_eq. by apply elem_of_nil in He.
  - exists s1, s2. split; [exact E1|]. vm_compute in E1. injection E1 as <-.
    vm_compute in E2. injection E2 as <- <-. vm_compute. reflexivity.
Defined.
