(* ===== verification/Memory.v ===== *)
(** * Byte-addressed memory

    Physical memory as a finite map from addresses to bytes; an address
    nobody wrote to holds 0.  Words are little endian, as on the i386.
    Memories are compared by what can be read from them ([mem_equiv]). *)

From S2P Require Import Prelude.

Abbreviation mem := (gmap Z Z).

Definition load8 (m : mem) (a : Z) : Z := u8 (default 0 (m !! a)).
Definition store8 (m : mem) (a v : Z) : mem := <[a := u8 v]> m.

Definition load16 (m : mem) (a : Z) : Z := load8 m a + 2 ^ 8 * load8 m (a + 1).
Definition store16 (m : mem) (a v : Z) : mem := store8 (store8 m a v) (a + 1) (v / 2 ^ 8).

Definition load32 (m : mem) (a : Z) : Z := load16 m a + 2 ^ 16 * load16 m (a + 2).
Definition store32 (m : mem) (a v : Z) : mem := store16 (store16 m a v) (a + 2) (v / 2 ^ 16).

(** [char] is signed. *)
Definition load_char (m : mem) (a : Z) : Z := s8 (load8 m a).

(** ** Observational equality *)

Definition mem_equiv (m1 m2 : mem) : Prop := forall a, load8 m1 a = load8 m2 a.
Infix "≡ₘ" := mem_equiv (at level 70).

#[export] Instance mem_equiv_equivalence : Equivalence mem_equiv.
Proof.
  split.
  - by intros m a.
  - by intros m1 m2 Hm a.
  - intros m1 m2 m3 H12 H23 a. by rewrite H12, H23.
Qed.

Section LoadStore.
Implicit Types (m : mem) (a b v : Z).

Lemma load8_range m a : 0 <= load8 m a < 256.
Proof. apply uwrap_range. lia. Qed.

Lemma load8_store8 m a v b : load8 (store8 m a v) b = if decide (a = b) then u8 v else load8 m b.
Proof.
  unfold load8, store8. rewrite lookup_insert. case_decide; [|done].
  simpl. apply uwrap_small, uwrap_range. lia.
Qed.

Lemma load8_store8_eq m a v : load8 (store8 m a v) a = u8 v.
Proof. by rewrite load8_store8, decide_True. Qed.

Lemma load8_store8_ne m a v b : a <> b -> load8 (store8 m a v) b = load8 m b.
Proof. intros. by rewrite load8_store8, decide_False. Qed.

Lemma load16_range m a : 0 <= load16 m a < 2 ^ 16.
Proof. unfold load16. pose proof (load8_range m a). pose proof (load8_range m (a + 1)). lia. Qed.

Lemma load32_range m a : 0 <= load32 m a < 2 ^ 32.
Proof. unfold load32. pose proof (load16_range m a). pose proof (load16_range m (a + 2)). lia. Qed.

Lemma uwrap_split w v : 0 <= w -> uwrap w v + 2 ^ w * uwrap w (v / 2 ^ w) = uwrap (w + w) v.
Proof.
  intros Hw. unfold uwrap. rewrite Z.pow_add_r by done.
  rewrite Z.rem_mul_r by lia. lia.
Qed.

Lemma load16_store16_eq m a v : load16 (store16 m a v) a = u16 v.
Proof.
  unfold load16, store16. rewrite load8_store8_eq, load8_store8_ne, load8_store8_eq by lia.
  apply (uwrap_split 8). lia.
Qed.

Lemma load8_store16_ne m a v b : b < a \/ a + 2 <= b -> load8 (store16 m a v) b = load8 m b.
Proof. intros. unfold store16. rewrite !load8_store8_ne by lia. done. Qed.

Lemma load16_store16_ne m a v b : b + 2 <= a \/ a + 2 <= b -> load16 (store16 m a v) b = load16 m b.
Proof. intros. unfold load16. rewrite !load8_store16_ne by lia. done. Qed.

Lemma load32_store32_eq m a v : load32 (store32 m a v) a = u32 v.
Proof.
  unfold load32, store32. rewrite load16_store16_ne, !load16_store16_eq by lia.
  apply (uwrap_split 16). lia.
Qed.

Lemma load8_store32_ne m a v b : b < a \/ a + 4 <= b -> load8 (store32 m a v) b = load8 m b.
Proof. intros. unfold store32. rewrite !load8_store16_ne by lia. done. Qed.

Lemma load16_store32_ne m a v b : b + 2 <= a \/ a + 4 <= b -> load16 (store32 m a v) b = load16 m b.
Proof. intros. unfold load16. rewrite !load8_store32_ne by lia. done. Qed.

Lemma load32_store32_ne m a v b : b + 4 <= a \/ a + 4 <= b -> load32 (store32 m a v) b = load32 m b.
Proof. intros. unfold load32. rewrite !load16_store32_ne by lia. done. Qed.

(** The bytes of a stored word. *)
Lemma load8_store32 m a v b i : 0 <= i < 4 -> b = a + i -> load8 (store32 m a v) b = u8 (v / 2 ^ (8 * i)).
Proof.
  intros Hi ->. unfold store32, store16. rewrite !load8_store8.
  repeat case_decide; try lia.
  - assert (i = 3) as -> by lia. by rewrite Z.div_div by lia.
  - by assert (i = 2) as -> by lia.
  - by assert (i = 1) as -> by lia.
  - assert (i = 0) as -> by lia. by rewrite Z.div_1_r.
Qed.
End LoadStore.

#[export] Instance load8_proper : Proper (mem_equiv ==> eq ==> eq) load8.
Proof. intros m1 m2 Hm a ? <-. apply Hm. Qed.

#[export] Instance load16_proper : Proper (mem_equiv ==> eq ==> eq) load16.
Proof. intros m1 m2 Hm a ? <-. unfold load16. by rewrite !Hm. Qed.

#[export] Instance load32_proper : Proper (mem_equiv ==> eq ==> eq) load32.
Proof. intros m1 m2 Hm a ? <-. unfold load32. by rewrite Hm. Qed.

#[export] Instance store8_proper : Proper (mem_equiv ==> eq ==> eq ==> mem_equiv) store8.
Proof. intros m1 m2 Hm a ? <- v ? <- b. rewrite !load8_store8. by case_decide. Qed.

#[export] Instance store16_proper : Proper (mem_equiv ==> eq ==> eq ==> mem_equiv) store16.
Proof. intros m1 m2 Hm a ? <- v ? <-. unfold store16. by rewrite Hm. Qed.

#[export] Instance store32_proper : Proper (mem_equiv ==> eq ==> eq ==> mem_equiv) store32.
Proof. intros m1 m2 Hm a ? <- v ? <-. unfold store32. by rewrite Hm. Qed.

Create Rewrite HintDb memdb.
#[export] Hint Rewrite load32_store32_eq load16_store16_eq load8_store8_eq : memdb.
#[export] Hint Rewrite load32_store32_ne load16_store32_ne load8_store32_ne load8_store8_ne
  using lia : memdb.

(** Reads a word through the stores in front of it when their addresses are
    told apart by linear arithmetic. *)
Ltac mem_simp := autorewrite with memdb.
