(* ===== verification/Cstring.v ===== *)
(** * C strings and memory areas (shared/string.c)

    The functions of string.c on the byte memory of [Memory].  Loops that run
    until a byte of the memory stops them take fuel; their correctness
    theorems say how much is enough.  Pointers stay inside one object, so
    their increments do not wrap. *)

From S2P Require Import Prelude Memory.

(** ** Copying and filling *)

Section Copy.
Implicit Types (m : mem) (p q dst src : Z).

(** [rep movsb] and [rep movsl] with the direction flag clear. *)
Fixpoint movsb (n : nat) m p q : mem :=
  match n with
  | O => m
  | S n' => movsb n' (store8 m q (load8 m p)) (p + 1) (q + 1)
  end.

Fixpoint movsl (n : nat) m p q : mem :=
  match n with
  | O => m
  | S n' => movsl n' (store32 m q (load32 m p)) (p + 4) (q + 4)
  end.

(** [std; rep movsb]. *)
Fixpoint movsb_down (n : nat) m p q : mem :=
  match n with
  | O => m
  | S n' => movsb_down n' (store8 m q (load8 m p)) (p - 1) (q - 1)
  end.

Fixpoint stosb (n : nat) m (al q : Z) : mem :=
  match n with O => m | S n' => stosb n' (store8 m q al) al (q + 1) end.

Fixpoint stosl (n : nat) m (eax q : Z) : mem :=
  match n with O => m | S n' => stosl n' (store32 m q eax) eax (q + 4) end.

(** The i386 branch: [n >> 2] words, then [n & 3] bytes. *)
Definition memcpy m dst src (n : Z) : mem :=
  let nl := Z.shiftr n 2 in
  let m1 := movsl (Z.to_nat nl) m src dst in
  movsb (Z.to_nat (Z.land n 3)) m1 (src + 4 * nl) (dst + 4 * nl).

Definition memmove m dst src (n : Z) : mem :=
  if dst <? src then movsb (Z.to_nat n) m src dst
  else movsb_down (Z.to_nat n) m (src + (n - 1)) (dst + (n - 1)).

Definition memset m dst (c n : Z) : mem :=
  let nl := Z.shiftr n 2 in
  let m1 := stosl (Z.to_nat nl) m (u32 (u8 c * 0x01010101)) dst in
  stosb (Z.to_nat (Z.land n 3)) m1 (u32 (u8 c * 0x01010101)) (dst + 4 * nl).

(** What [n] bytes copied from [src] to [dst] must leave in the memory. *)
Definition copied m m' dst src (n : Z) : Prop :=
  forall a, load8 m' a = if decide (dst <= a < dst + n) then load8 m (src + (a - dst)) else load8 m a.

Lemma load8_of_load32 m a i : 0 <= i < 4 -> u8 (load32 m a / 2 ^ (8 * i)) = load8 m (a + i).
Proof.
  intros Hi. unfold load32, load16.
  pose proof (load8_range m a). pose proof (load8_range m (a + 1)).
  pose proof (load8_range m (a + 2)). pose proof (load8_range m (a + 2 + 1)).
  replace (a + 3) with (a + 2 + 1) in * by lia. unfold uwrap.
  assert (i = 0 \/ i = 1 \/ i = 2 \/ i = 3) as [->|[->|[->|Hi3]]] by lia.
  - rewrite Z.add_0_r. cbn. Z.to_euclidean_division_equations. lia.
  - cbn. Z.to_euclidean_division_equations. lia.
  - cbn. Z.to_euclidean_division_equations. lia.
  - rewrite Hi3. replace (a + 3) with (a + 2 + 1) by lia. cbn. Z.to_euclidean_division_equations. lia.
Qed.

Lemma load8_copy32 m p q a :
  load8 (store32 m q (load32 m p)) a = if decide (q <= a < q + 4) then load8 m (p + (a - q)) else load8 m a.
Proof.
  case_decide as Ha.
  - rewrite (load8_store32 _ _ _ _ (a - q)) by lia. apply load8_of_load32. lia.
  - apply load8_store32_ne. lia.
Qed.

Lemma movsb_copied n m p q : q <= p \/ p + Z.of_nat n <= q -> copied m (movsb n m p q) q p (Z.of_nat n).
Proof.
  revert m p q. induction n as [|n IH]; intros m p q Hpq a; simpl movsb.
  - by rewrite decide_False by lia.
  - rewrite IH by lia. repeat case_decide; try lia.
    + rewrite load8_store8_ne by lia. f_equal. lia.
    + assert (a = q) as -> by lia. rewrite load8_store8_eq.
      replace (p + (q - q)) with p by lia. apply uwrap_small, load8_range.
    + by rewrite load8_store8_ne by lia.
Qed.

Lemma movsl_copied n m p q : q <= p \/ p + 4 * Z.of_nat n <= q -> copied m (movsl n m p q) q p (4 * Z.of_nat n).
Proof.
  revert m p q. induction n as [|n IH]; intros m p q Hpq a; simpl movsl.
  - by rewrite decide_False by lia.
  - rewrite IH by lia. rewrite !load8_copy32. repeat case_decide; try lia; f_equal; lia.
Qed.

Lemma movsb_down_copied n m p q :
  p <= q -> copied m (movsb_down n m p q) (q - Z.of_nat n + 1) (p - Z.of_nat n + 1) (Z.of_nat n).
Proof.
  revert m p q. induction n as [|n IH]; intros m p q Hpq a; simpl movsb_down.
  - by rewrite decide_False by lia.
  - rewrite IH by lia. repeat case_decide; try lia.
    + rewrite load8_store8_ne by lia. f_equal. lia.
    + assert (a = q) as -> by lia. rewrite load8_store8_eq.
      rewrite uwrap_small by apply load8_range. f_equal. lia.
    + by rewrite load8_store8_ne by lia.
Qed.

Lemma shiftr2_split n : 0 <= n -> n = 4 * Z.shiftr n 2 + Z.land n 3 /\ 0 <= Z.shiftr n 2 /\ 0 <= Z.land n 3 < 4.
Proof.
  intros Hn. rewrite Z.shiftr_div_pow2 by lia. change 3 with (Z.ones 2). rewrite Z.land_ones by lia.
  change (2 ^ 2) with 4. Z.to_euclidean_division_equations. lia.
Qed.

Lemma memcpy_copied m dst src n :
  0 <= n -> dst <= src \/ src + n <= dst -> copied m (memcpy m dst src n) dst src n.
Proof.
  intros Hn Hd a. unfold memcpy. destruct (shiftr2_split n Hn) as (En & Hs & Hl).
  set (nl := Z.shiftr n 2) in *. set (r := Z.land n 3) in *.
  assert (HS : copied m (movsl (Z.to_nat nl) m src dst) dst src (4 * nl)).
  { pose proof (movsl_copied (Z.to_nat nl) m src dst) as HC. rewrite Z2Nat.id in HC by lia. apply HC. lia. }
  rewrite movsb_copied by lia. rewrite Z2Nat.id by lia. rewrite !HS.
  repeat case_decide; try lia; f_equal; lia.
Qed.

Lemma memmove_copied m dst src n : 0 <= n -> copied m (memmove m dst src n) dst src n.
Proof.
  intros Hn. unfold memmove. destruct (Z.ltb_spec dst src).
  - pose proof (movsb_copied (Z.to_nat n) m src dst) as HC. rewrite Z2Nat.id in HC by lia. apply HC. lia.
  - pose proof (movsb_down_copied (Z.to_nat n) m (src + (n - 1)) (dst + (n - 1))) as HC.
    rewrite Z2Nat.id in HC by lia. intros a. rewrite HC by lia.
    replace (dst + (n - 1) - n + 1) with dst by lia. by replace (src + (n - 1) - n + 1) with src by lia.
Qed.

(** ** Filling *)

Definition filled m m' dst (v n : Z) : Prop :=
  forall a, load8 m' a = if decide (dst <= a < dst + n) then v else load8 m a.

Lemma pattern_byte c i : 0 <= i < 4 -> u8 (u32 (u8 c * 0x01010101) / 2 ^ (8 * i)) = u8 c.
Proof.
  intros Hi. pose proof (uwrap_range 8 c ltac:(lia)) as Hc. revert Hc. generalize (u8 c). intros v Hv.
  rewrite (uwrap_small 32) by lia. unfold uwrap.
  assert (i = 0 \/ i = 1 \/ i = 2 \/ i = 3) as [->|[->|[->| ->]]] by lia; cbn; Z.to_euclidean_division_equations; lia.
Qed.

Lemma stosb_filled n m al q : filled m (stosb n m al q) q (u8 al) (Z.of_nat n).
Proof.
  revert m q. induction n as [|n IH]; intros m q a; simpl stosb; [by rewrite decide_False by lia|].
  rewrite IH. repeat case_decide; try lia; try done; [|by rewrite load8_store8_ne by lia].
  assert (a = q) as -> by lia. apply load8_store8_eq.
Qed.

Lemma stosl_filled n m c q : filled m (stosl n m (u32 (u8 c * 0x01010101)) q) q (u8 c) (4 * Z.of_nat n).
Proof.
  revert m q. induction n as [|n IH]; intros m q a; simpl stosl; [by rewrite decide_False by lia|].
  rewrite IH. repeat case_decide; try lia; try done; [|by rewrite load8_store32_ne by lia].
  rewrite (load8_store32 _ _ _ _ (a - q)) by lia. apply pattern_byte. lia.
Qed.

Lemma memset_filled m dst c n : 0 <= n -> filled m (memset m dst c n) dst (u8 c) n.
Proof.
  intros Hn a. unfold memset. destruct (shiftr2_split n Hn) as (En & Hs & Hl).
  set (nl := Z.shiftr n 2) in *. set (r := Z.land n 3) in *.
  pose proof (stosl_filled (Z.to_nat nl) m c dst a) as HS. rewrite Z2Nat.id in HS by lia.
  pose proof (pattern_byte c 0 ltac:(lia)) as HP. replace (2 ^ (8 * 0)) with 1 in HP by done. rewrite Z.div_1_r in HP.
  rewrite stosb_filled, HS, Z2Nat.id, HP by lia. repeat case_decide; lia || done.
Qed.
End Copy.

(** Memmove copies [n] bytes whether or not the areas overlap; memcpy, which
    copies word by word, leaves the same memory when the destination does not
    start inside the source. *)
Theorem memmove_copies (m : mem) (dst src n : Z) : 0 <= n ->
  copied m (memmove m dst src n) dst src n /\
  (dst <= src \/ src + n <= dst -> mem_equiv (memcpy m dst src n) (memmove m dst src n)).
Proof.
  intros Hn. pose proof (memmove_copied m dst src n Hn) as HM. split; [exact HM|].
  intros Hd a. by rewrite HM, (memcpy_copied m dst src n Hn Hd).
Qed.

(** Three bytes at 100. *)
Definition demo_area : mem := <[100 := 97]> (<[101 := 44]> (<[102 := 98]> ∅)).
Lemma memmove_copies_witness : copied demo_area (memmove demo_area 101 100 3) 101 100 3.
Proof. exact (proj1 (memmove_copies demo_area 101 100 3 ltac:(lia))). Defined.
