(* ===== verification/Strings.v ===== *)
(** * String functions (shared/string.c)

    The functions of string.c that search, compare and build strings.  A null
    pointer is [None] in results and 0 in arguments.  A loop that runs until it
    meets a zero byte takes [fuel]; with a string of [n] bytes, [n + 1] rounds
    are enough. *)

From S2P Require Import Prelude Memory Cstring.

Local Open Scope res_scope.

Section Definitions.
Implicit Types (m : mem) (p q s dst src : Z).

(** ** Areas of a given length *)

Fixpoint memccpy m (q p c : Z) (n : nat) : option Z * mem :=
  match n with
  | O => (None, m)
  | S n' =>
      let ch := load_char m p in
      let m' := store8 m q ch in
      if ch =? s8 c then (Some (q + 1), m') else memccpy m' (q + 1) (p + 1) c n'
  end.

Fixpoint memchr m (sp c : Z) (n : nat) : option Z :=
  match n with
  | O => None
  | S n' => if load8 m sp =? u8 c then Some sp else memchr m (sp + 1) c n'
  end.

Fixpoint memrchr_loop m (sp c : Z) (n : nat) : option Z :=
  match n with
  | O => None
  | S n' => if load8 m sp =? u8 c then Some sp else memrchr_loop m (sp - 1) c n'
  end.
Definition memrchr m s c (n : nat) : option Z := memrchr_loop m (s + Z.of_nat n - 1) c n.

Fixpoint memcmp m (c1 c2 : Z) (n : nat) : Z :=
  match n with
  | O => 0
  | S n' =>
      let d := load8 m c1 - load8 m c2 in
      if negb (d =? 0) then d else memcmp m (c1 + 1) (c2 + 1) n'
  end.

(** The loop over [j <= n - m] of memmem; every round advances [j]. *)
Fixpoint memmem_loop (fuel : nat) mm (y n x m k l j : Z) : option Z :=
  match fuel with
  | O => None
  | S fuel' =>
      if n - m <? j then None else
      if negb (load8 mm (x + 1) =? load8 mm (y + (j + 1))) then memmem_loop fuel' mm y n x m k l (j + k)
      else if (memcmp mm (x + 2) (y + j + 2) (Z.to_nat (m - 2)) =? 0) && (load8 mm x =? load8 mm (y + j))
      then Some (y + j)
      else memmem_loop fuel' mm y n x m k l (j + l)
  end.

(** [do ... while (--n)] *)
Fixpoint memmem_one mm (y x : Z) (n : nat) : option Z :=
  match n with
  | O => None
  | S n' => if load8 mm y =? load8 mm x then Some y else memmem_one mm (y + 1) x n'
  end.

Definition memmem mm (haystack n needle m : Z) : option Z :=
  if (n <? m) || (m =? 0) || (n =? 0) then None else
  if negb (1 =? m) then
    let '(k, l) := if load8 mm needle =? load8 mm (needle + 1) then (2, 1) else (1, 2) in
    memmem_loop (S (Z.to_nat (n - m))) mm haystack n needle m k l 0
  else memmem_one mm haystack needle (Z.to_nat n).

Fixpoint memswap m (p q : Z) (n : nat) : mem :=
  match n with
  | O => m
  | S n' =>
      let tmp := load8 m p in
      let m := store8 m p (load8 m q) in
      let m := store8 m q tmp in
      memswap m (p + 1) (q + 1) n'
  end.

(** ** Strings *)

Fixpoint strlen_loop (fuel : nat) m (ss s : Z) : result Z :=
  match fuel with
  | O => Err Diverged
  | S f => if load8 m ss =? 0 then Ok (ss - s) else strlen_loop f m (ss + 1) s
  end.
Definition strlen (fuel : nat) m s : result Z := strlen_loop fuel m s s.

Fixpoint strnlen_loop m (ss s : Z) (maxlen : nat) : Z :=
  match maxlen with
  | O => ss - s
  | S n => if load8 m ss =? 0 then ss - s else strnlen_loop m (ss + 1) s n
  end.
Definition strnlen m s (maxlen : nat) : Z := strnlen_loop m s s maxlen.

Fixpoint strchr (fuel : nat) m (s c : Z) : result (option Z) :=
  match fuel with
  | O => Err Diverged
  | S f =>
      if negb (load_char m s =? s8 c) then
        if load_char m s =? 0 then Ok None else strchr f m (s + 1) c
      else Ok (Some s)
  end.

Fixpoint strrchr_loop (fuel : nat) m (s c : Z) (found : option Z) : result (option Z) :=
  match fuel with
  | O => Err Diverged
  | S f =>
      if load_char m s =? 0 then Ok found
      else strrchr_loop f m (s + 1) c (if load_char m s =? s8 c then Some s else found)
  end.
Definition strrchr (fuel : nat) m s c : result (option Z) := strrchr_loop fuel m s c None.

Fixpoint strcmp (fuel : nat) m (c1 c2 : Z) : result Z :=
  match fuel with
  | O => Err Diverged
  | S f =>
      let ch := load8 m c1 in
      let d := ch - load8 m c2 in
      if negb (d =? 0) || (ch =? 0) then Ok d else strcmp f m (c1 + 1) (c2 + 1)
  end.

Fixpoint strncmp m (c1 c2 : Z) (n : nat) : Z :=
  match n with
  | O => 0
  | S n' =>
      let ch := load8 m c1 in
      let d := ch - load8 m c2 in
      if negb (d =? 0) || (ch =? 0) then d else strncmp m (c1 + 1) (c2 + 1) n'
  end.

Fixpoint strcpy_loop (fuel : nat) m (q p : Z) : result mem :=
  match fuel with
  | O => Err Diverged
  | S f =>
      let ch := load8 m p in
      let m' := store8 m q ch in
      if ch =? 0 then Ok m' else strcpy_loop f m' (q + 1) (p + 1)
  end.
Definition strcpy (fuel : nat) m dst src : result (Z * mem) :=
  let? m' := strcpy_loop fuel m dst src in Ok (dst, m').

(** A null result of strchr would be dereferenced; it never is null here. *)
Definition strcat (fuel : nat) m dst src : result (Z * mem) :=
  let? e := strchr fuel m dst 0 in
  let? q := of_option Faulted e in
  let? m' := strcpy_loop fuel m q src in
  Ok (dst, m').

Fixpoint strncat_loop m (q p : Z) (n : nat) : mem :=
  match n with
  | O => store8 m q 0
  | S n' =>
      let ch := load8 m p in
      let m' := store8 m q ch in
      if ch =? 0 then m' else strncat_loop m' (q + 1) (p + 1) n'
  end.
Definition strncat (fuel : nat) m dst src (n : nat) : result (Z * mem) :=
  let? e := strchr fuel m dst 0 in
  let? q := of_option Faulted e in
  Ok (dst, strncat_loop m q src n).

(** [bytes] and [q] after the first loop. *)
Fixpoint strlcat_seek m (q bytes : Z) (n : nat) : Z * Z :=
  match n with
  | O => (q, bytes)
  | S n' => if load8 m q =? 0 then (q, bytes) else strlcat_seek m (q + 1) (bytes + 1) n'
  end.
Fixpoint strlcat_copy (fuel : nat) m (q p bytes size : Z) : result (Z * mem) :=
  match fuel with
  | O => Err Diverged
  | S f =>
      let ch := load8 m p in
      if ch =? 0 then Ok (bytes, store8 m q 0) else
      if bytes + 1 <? size then strlcat_copy f (store8 m q ch) (q + 1) (p + 1) (bytes + 1) size
      else strlcat_copy f m q (p + 1) (bytes + 1) size
  end.
Definition strlcat (fuel : nat) m dst src (size : Z) : result (Z * mem) :=
  let '(q, bytes) := strlcat_seek m dst 0 (Z.to_nat size) in
  if bytes =? size then let? l := strlen fuel m src in Ok (bytes + l, m)
  else strlcat_copy fuel m q src bytes size.

(** The loop of strncpy, then memset on what is left. *)
Fixpoint strncpy_loop m (q p : Z) (n : nat) : mem :=
  match n with
  | O => memset m q 0 0
  | S n' =>
      let ch := load8 m p in
      let m' := store8 m q ch in
      if ch =? 0 then memset m' (q + 1) 0 (Z.of_nat n') else strncpy_loop m' (q + 1) (p + 1) n'
  end.
Definition strncpy m dst src (n : nat) : Z * mem := (dst, strncpy_loop m dst src n).

(** ** Spans and tokens *)

Fixpoint matchmap_loop (fuel : nat) m (map : Z) (matchmap : list Z) : result (list Z) :=
  match fuel with
  | O => Err Diverged
  | S f =>
      let b := load8 m map in
      if b =? 0 then Ok matchmap else matchmap_loop f m (map + 1) (<[Z.to_nat b := 1]> matchmap)
  end.
Fixpoint span_loop (fuel : nat) m (s : Z) (matchmap : list Z) (parity n : Z) : result Z :=
  match fuel with
  | O => Err Diverged
  | S f =>
      if Z.lxor (nth (Z.to_nat (load8 m s)) matchmap 0) parity =? 0 then Ok n
      else span_loop f m (s + 1) matchmap parity (n + 1)
  end.
Definition __strxspn (fuel : nat) m (s map parity : Z) : result Z :=
  let? mm := matchmap_loop fuel m map (replicate 256 0) in
  span_loop fuel m s (<[0%nat := parity]> mm) parity 0.

Definition strspn (fuel : nat) m (s accept : Z) : result Z := __strxspn fuel m s accept 0.
Definition strcspn (fuel : nat) m (s reject : Z) : result Z := __strxspn fuel m s reject 1.

Definition strpbrk (fuel : nat) m (s accept : Z) : result (option Z) :=
  let? n := __strxspn fuel m s accept 1 in
  let ss := s + n in
  Ok (if load8 m ss =? 0 then None else Some ss).

(** The string left to split is read from and written to [*stringp]; the
    result is the token, the new [*stringp] and the memory. *)
Definition strsep (fuel : nat) m (stringp : option Z) (delim : Z) : result (option Z * option Z * mem) :=
  match stringp with
  | None => Ok (None, None, m)
  | Some s =>
      let? e := strpbrk fuel m s delim in
      match e with
      | Some e => Ok (Some s, Some (e + 1), store8 m e 0)
      | None => Ok (Some s, None, m)
      end
  end.

Definition strstr (fuel : nat) m (haystack needle : Z) : result (option Z) :=
  let? n := strlen fuel m haystack in
  let? k := strlen fuel m needle in
  Ok (memmem m haystack n needle k).

(** [holder] is the static variable. *)
Definition strtok (fuel : nat) m (holder : option Z) (s : option Z) (delim : Z) : result (option Z * option Z * mem) :=
  strsep fuel m (match s with Some _ => s | None => holder end) delim.
End Definitions.

(** ** What a memory holds *)

(** The bytes [l] at [a]; a string of the bytes [l], which are not zero. *)
Fixpoint area (m : mem) (a : Z) (l : list Z) : Prop :=
  match l with [] => True | b :: l' => load8 m a = b /\ area m (a + 1) l' end.
Fixpoint cstring (m : mem) (a : Z) (l : list Z) : Prop :=
  match l with [] => load8 m a = 0 | b :: l' => load8 m a = b /\ b <> 0 /\ cstring m (a + 1) l' end.

(** Lexicographic order, as unsigned bytes. *)
Fixpoint lexcmp (l1 l2 : list Z) : comparison :=
  match l1, l2 with
  | [], [] => Eq
  | [], _ => Lt
  | _, [] => Gt
  | a :: l1', b :: l2' => match a ?= b with Eq => lexcmp l1' l2' | c => c end
  end.

Lemma lexcmp_eq l1 l2 : lexcmp l1 l2 = Eq <-> l1 = l2.
Proof.
  revert l2. induction l1 as [|a l1 IH]; intros [|b l2]; simpl; try done.
  destruct (Z.compare_spec a b) as [->|Hlt|Hlt].
  - rewrite IH. split; [by intros ->|by intros [= ->]].
  - split; [done|]. intros [= -> ->]. lia.
  - split; [done|]. intros [= -> ->]. lia.
Qed.

Section Reading.
Implicit Types (m : mem) (a s : Z) (l : list Z).

Lemma cstring_byte m a l : cstring m a l -> load8 m a = 0 <-> l = [].
Proof. destruct l; simpl; [done|]. intros (<- & Hne & _). done. Qed.

Lemma cstring_area m a l : cstring m a l -> area m a l.
Proof. revert a. induction l as [|b l IH]; intros a; simpl; [done|]. intros (? & _ & ?). auto. Qed.

Lemma cstring_app m a l1 l2 : cstring m a (l1 ++ l2) -> cstring m (a + Z.of_nat (length l1)) l2.
Proof.
  revert a. induction l1 as [|b l1 IH]; intros a; [simpl; by rewrite Z.add_0_r|]. intros (_ & _ & H).
  apply IH in H. replace (a + Z.of_nat (length (b :: l1))) with (a + 1 + Z.of_nat (length l1)) by (simpl; lia). done.
Qed.

(** Equal memories over the string hold the same string. *)
Lemma cstring_agree m m' a l : (forall x, a <= x <= a + Z.of_nat (length l) -> load8 m' x = load8 m x) -> cstring m a l -> cstring m' a l.
Proof.
  revert a. induction l as [|b l IH]; intros a Hx; simpl; [by rewrite Hx by (simpl; lia)|]. intros (? & ? & ?).
  simpl in Hx. rewrite Hx by lia. split_and!; [done..|]. apply IH; [|done]. intros x ?. apply Hx. lia.
Qed.

Lemma load_char_zero m a : load_char m a = 0 <-> load8 m a = 0.
Proof.
  unfold load_char, swrap. pose proof (load8_range m a). change (2 ^ (8 - 1)) with 128. change (2 ^ 8) with 256.
  split; [|intros ->; done]. Z.to_euclidean_division_equations. lia.
Qed.

Lemma strlen_loop_ok fuel m ss s l : cstring m ss l -> (length l < fuel)%nat -> strlen_loop fuel m ss s = Ok (ss - s + Z.of_nat (length l)).
Proof.
  revert ss fuel. induction l as [|b l IH]; intros ss [|fuel] H Hf; simpl in *; try lia.
  - rewrite H. simpl. f_equal. lia.
  - destruct H as (-> & Hne & H). destruct (Z.eqb_spec b 0); [done|]. rewrite IH by (done || lia). f_equal. lia.
Qed.

Lemma strlen_ok fuel m s l : cstring m s l -> (length l < fuel)%nat -> strlen fuel m s = Ok (Z.of_nat (length l)).
Proof. intros H Hf. unfold strlen. rewrite (strlen_loop_ok _ _ _ _ l) by done. f_equal. lia. Qed.

Lemma strchr_end fuel m s l : cstring m s l -> (length l < fuel)%nat -> strchr fuel m s 0 = Ok (Some (s + Z.of_nat (length l))).
Proof.
  revert s fuel. induction l as [|b l IH]; intros s [|fuel] H Hf; simpl in *; try lia; pose proof (load_char_zero m s) as Hz;
    change (s8 0) with 0.
  - rewrite (proj2 Hz) by done. simpl. do 2 f_equal. lia.
  - destruct H as (Hb & Hne & H). destruct (Z.eqb_spec (load_char m s) 0) as [E|E]; [naive_solver|]. simpl.
    rewrite IH by (done || lia). do 2 f_equal. lia.
Qed.

Lemma memcmp_lex m c1 c2 l1 l2 : area m c1 l1 -> area m c2 l2 -> length l1 = length l2 ->
  (memcmp m c1 c2 (length l1) ?= 0) = lexcmp l1 l2.
Proof.
  revert c1 c2 l2. induction l1 as [|a l1 IH]; intros c1 c2 [|b l2]; simpl; try done. intros [-> H1] [-> H2] [= E].
  destruct (Z.eqb_spec (a - b) 0); simpl.
  - replace b with a by lia. rewrite Z.compare_refl. by apply IH.
  - destruct (Z.compare_spec a b); [lia|by apply Z.compare_lt_iff; lia|by apply Z.compare_gt_iff; lia].
Qed.

Lemma memcmp_zero m c1 c2 n : memcmp m c1 c2 n = 0 <-> forall i, 0 <= i < Z.of_nat n -> load8 m (c1 + i) = load8 m (c2 + i).
Proof.
  revert c1 c2. induction n as [|n IH]; intros c1 c2; simpl; [split; [intros; lia|done]|].
  destruct (Z.eqb_spec (load8 m c1 - load8 m c2) 0) as [E|E]; simpl.
  - rewrite IH. split.
    + intros H i Hi. destruct (decide (i = 0)) as [->|]; [rewrite !Z.add_0_r; lia|].
      specialize (H (i - 1)). replace (c1 + i) with (c1 + 1 + (i - 1)) by lia. replace (c2 + i) with (c2 + 1 + (i - 1)) by lia. apply H. lia.
    + intros H i Hi. replace (c1 + 1 + i) with (c1 + (i + 1)) by lia. replace (c2 + 1 + i) with (c2 + (i + 1)) by lia. apply H. lia.
  - split; [done|]. intros H. specialize (H 0). rewrite !Z.add_0_r in H. rewrite H in E by lia. lia.
Qed.

(** Strcmp of two strings returns, and the sign of its result is the order
    of the strings as sequences of unsigned bytes; it is 0 exactly on equal
    strings. *)
Theorem strcmp_lexicographic fuel m c1 c2 l1 l2 : cstring m c1 l1 -> cstring m c2 l2 -> (length l1 < fuel)%nat ->
  exists d, strcmp fuel m c1 c2 = Ok d /\ (d ?= 0) = lexcmp l1 l2 /\ (d = 0 <-> l1 = l2).
Proof.
  intros H1 H2 Hf.
  assert (exists d, strcmp fuel m c1 c2 = Ok d /\ (d ?= 0) = lexcmp l1 l2) as (d & E & Hd).
  { revert c1 c2 l2 fuel H1 H2 Hf. induction l1 as [|a l1 IH]; intros c1 c2 l2 [|fuel] H1 H2 Hf; simpl in *; try lia.
    - rewrite H1. rewrite orb_true_r. eexists. split; [done|]. destruct l2 as [|b l2]; simpl in H2; [by rewrite H2|].
      destruct H2 as (<- & Hne & _). pose proof (load8_range m c2). simpl lexcmp. apply Z.compare_lt_iff. lia.
    - destruct H1 as (Ha & Hne & H1). pose proof (load8_range m c1) as Hr. rewrite Ha in Hr |- *.
      destruct (Z.eqb_spec a 0); [done|]. rewrite orb_false_r. destruct l2 as [|b l2]; simpl in H2.
      + rewrite H2, Z.sub_0_r. destruct (Z.eqb_spec a 0); [done|]. eexists. split; [done|]. simpl. apply Z.compare_gt_iff. lia.
      + destruct H2 as (-> & Hne2 & H2). destruct (Z.eqb_spec (a - b) 0); simpl negb; cbv iota.
        * replace b with a by lia. rewrite Z.compare_refl. apply (IH _ _ l2); [done|done|lia].
        * eexists. split; [done|]. destruct (Z.compare_spec a b); [lia|apply Z.compare_lt_iff; lia|apply Z.compare_gt_iff; lia]. }
  exists d. split_and!; [done..|]. rewrite <- lexcmp_eq, <- Hd. by rewrite Z.compare_eq_iff.
Qed.
End Reading.

(** ** Searching *)

(** The [m] bytes at [x] are at [y + j]. *)
Definition occurs (mm : mem) (y x m j : Z) : Prop := forall i, 0 <= i < m -> load8 mm (x + i) = load8 mm (y + j + i).

Lemma memmem_loop_ok fuel mm y n x m k l j : 2 <= m -> m <= n ->
  (k, l) = (if load8 mm x =? load8 mm (x + 1) then (2, 1) else (1, 2)) ->
  0 <= j -> n - m - j < Z.of_nat fuel -> (forall j', 0 <= j' < j -> ~ occurs mm y x m j') ->
  match memmem_loop fuel mm y n x m k l j with
  | Some p => exists j0, p = y + j0 /\ 0 <= j0 <= n - m /\ occurs mm y x m j0 /\ forall j', 0 <= j' < j0 -> ~ occurs mm y x m j'
  | None => forall j', 0 <= j' <= n - m -> ~ occurs mm y x m j'
  end.
Proof.
  intros Hm Hn Hkl. revert j. induction fuel as [|fuel IH]; intros j Hj Hf Hno; simpl.
  { intros j' Hj'. apply Hno. lia. }
  destruct (Z.ltb_spec (n - m) j) as [Hlt|Hge]; [intros j' Hj'; apply Hno; lia|].
  assert (forall j', occurs mm y x m j' -> load8 mm x = load8 mm (y + j') /\ load8 mm (x + 1) = load8 mm (y + (j' + 1))) as Hocc.
  { intros j' Ho. pose proof (Ho 0 ltac:(lia)) as H0. pose proof (Ho 1 ltac:(lia)) as H1. rewrite !Z.add_0_r in H0.
    split; [done|]. rewrite H1. f_equal. lia. }
  destruct (Z.eqb_spec (load8 mm (x + 1)) (load8 mm (y + (j + 1)))) as [E1|E1]; simpl negb; cbv iota.
  - destruct ((memcmp mm (x + 2) (y + j + 2) (Z.to_nat (m - 2)) =? 0) && (load8 mm x =? load8 mm (y + j))) eqn:Em.
    + apply andb_true_iff in Em as [Em%Z.eqb_eq E0%Z.eqb_eq]. rewrite memcmp_zero in Em. exists j. split_and!; [done|lia|lia| |done].
      intros i Hi. destruct (decide (i = 0)) as [->|]; [by rewrite !Z.add_0_r|]. destruct (decide (i = 1)) as [->|]; [rewrite E1; f_equal; lia|].
      specialize (Em (i - 2) ltac:(lia)). replace (x + i) with (x + 2 + (i - 2)) by lia. rewrite Em. f_equal. lia.
    + assert (~ occurs mm y x m j) as Hnj.
      { intros Ho. apply andb_false_iff in Em as [Em%Z.eqb_neq|Em%Z.eqb_neq]; apply Em; [|by apply Hocc].
        apply memcmp_zero. intros i Hi. specialize (Ho (i + 2) ltac:(lia)). replace (x + 2 + i) with (x + (i + 2)) by lia. rewrite Ho. f_equal. lia. }
      apply IH; [destruct (load8 mm x =? _); simplify_eq; lia..|]. intros j' Hj'. destruct (decide (j' = j)) as [->|]; [done|].
      destruct (decide (j' < j)); [apply Hno; lia|]. destruct (Z.eqb_spec (load8 mm x) (load8 mm (x + 1))) as [Ex|Ex]; simplify_eq; [lia|].
      assert (j' = j + 1) as -> by lia. intros Ho. apply Ex. rewrite E1. by apply Hocc.
  - apply IH; [destruct (load8 mm x =? _); simplify_eq; lia..|]. intros j' Hj'. destruct (decide (j' < j)); [apply Hno; lia|].
    destruct (decide (j' = j)) as [->|]; [intros Ho; by apply E1, Hocc|].
    destruct (Z.eqb_spec (load8 mm x) (load8 mm (x + 1))) as [Ex|Ex]; simplify_eq; [|lia].
    assert (j' = j + 1) as -> by lia. intros Ho. apply E1. rewrite <- Ex. by apply Hocc.
Qed.

Lemma memmem_one_ok mm y x n :
  match memmem_one mm y x n with
  | Some p => exists j0, p = y + j0 /\ 0 <= j0 < Z.of_nat n /\ occurs mm y x 1 j0 /\ forall j', 0 <= j' < j0 -> ~ occurs mm y x 1 j'
  | None => forall j', 0 <= j' < Z.of_nat n -> ~ occurs mm y x 1 j'
  end.
Proof.
  revert y. induction n as [|n IH]; intros y; simpl; [intros; lia|].
  destruct (Z.eqb_spec (load8 mm y) (load8 mm x)) as [E|E].
  - exists 0. split_and!; [lia|lia|lia| |lia]. intros i Hi. replace i with 0 by lia. by rewrite !Z.add_0_r.
  - assert (~ occurs mm y x 1 0) as H0. { intros Ho. apply E. specialize (Ho 0 ltac:(lia)). by rewrite !Z.add_0_r in Ho. }
    assert (forall j, occurs mm (y + 1) x 1 j <-> occurs mm y x 1 (j + 1)) as Hsh.
    { intros j. unfold occurs. by replace (y + (j + 1)) with (y + 1 + j) by lia. }
    specialize (IH (y + 1)). destruct (memmem_one mm (y + 1) x n) as [p|].
    + destruct IH as (j0 & -> & Hj & Ho & Hno). exists (j0 + 1). split_and!; [lia|lia|lia|by apply Hsh|].
      intros j' Hj'. destruct (decide (j' = 0)) as [->|]; [done|]. replace j' with (j' - 1 + 1) by lia. rewrite <- Hsh. apply Hno. lia.
    + intros j' Hj'. destruct (decide (j' = 0)) as [->|]; [done|]. replace j' with (j' - 1 + 1) by lia. rewrite <- Hsh. apply IH. lia.
Qed.

(** Memmem, which skips ahead by two bytes where it can, returns the first
    occurrence of a needle of [m] bytes in the [n] bytes of the haystack, and
    null exactly when there is none. *)
Theorem memmem_first mm y n x m : 0 < m <= n ->
  match memmem mm y n x m with
  | Some p => exists j, p = y + j /\ 0 <= j <= n - m /\ occurs mm y x m j /\ forall j', 0 <= j' < j -> ~ occurs mm y x m j'
  | None => forall j, 0 <= j <= n - m -> ~ occurs mm y x m j
  end.
Proof.
  intros Hm. unfold memmem. destruct (Z.ltb_spec n m); [lia|]. destruct (Z.eqb_spec m 0); [lia|]. destruct (Z.eqb_spec n 0); [lia|].
  simpl orb. cbv iota. destruct (Z.eqb_spec 1 m) as [<-|]; simpl negb; cbv iota.
  - pose proof (memmem_one_ok mm y x (Z.to_nat n)) as H1. rewrite Z2Nat.id in H1 by lia.
    destruct (memmem_one mm y x (Z.to_nat n)); [destruct H1 as (j & ? & ? & ? & ?); exists j; split_and!; try done; lia|].
    intros j Hj. apply H1. lia.
  - destruct (if load8 mm x =? load8 mm (x + 1) then (2, 1) else (1, 2)) as [k l] eqn:Ekl.
    apply memmem_loop_ok; try lia. done.
Qed.

(** ** Building strings *)

Section Building.
Implicit Types (m : mem) (p q s dst src : Z) (l : list Z).

Lemma strcpy_loop_ok fuel m q p l : cstring m p l -> (length l < fuel)%nat -> q <= p \/ p + Z.of_nat (length l) < q ->
  exists m', strcpy_loop fuel m q p = Ok m' /\ copied m m' q p (Z.of_nat (length l) + 1).
Proof.
  revert m q p fuel. induction l as [|b l IH]; intros m q p [|fuel] H Hf Hd; simpl in H, Hf; try lia; cbn [strcpy_loop length] in *.
  - rewrite H. exists (store8 m q 0). split; [done|]. intros a. rewrite load8_store8. repeat case_decide; try lia.
    subst. rewrite Z.sub_diag, Z.add_0_r. by rewrite H.
  - destruct H as (Hb & Hne & H). rewrite Hb. destruct (Z.eqb_spec b 0); [done|].
    destruct (IH (store8 m q b) (q + 1) (p + 1) fuel) as (m' & E & HC); [|lia|lia|].
    { eapply cstring_agree; [|exact H]. intros x Hx. apply load8_store8_ne. lia. }
    exists m'. split; [done|]. intros a. rewrite HC. pose proof (load8_range m p). rewrite !load8_store8.
    repeat case_decide; try lia; try (f_equal; lia). replace (p + (a - q)) with p by lia. rewrite Hb. apply uwrap_small. lia.
Qed.

Lemma copied_cstring m m' dst src l : copied m m' dst src (Z.of_nat (length l) + 1) -> cstring m src l -> cstring m' dst l.
Proof.
  intros HC. assert (forall x, 0 <= x <= Z.of_nat (length l) -> load8 m' (dst + x) = load8 m (src + x)) as Hx.
  { intros x Hx. rewrite HC, decide_True by lia. f_equal. lia. }
  clear HC. revert dst src Hx. induction l as [|b l IH]; intros dst src Hx; simpl.
  - specialize (Hx 0). rewrite !Z.add_0_r in Hx. intros <-. apply Hx. simpl. lia.
  - intros (Hb & Hne & H). pose proof (Hx 0) as H0. rewrite !Z.add_0_r in H0. split_and!; [rewrite <- Hb; apply H0; simpl; lia|done|].
    apply (IH _ (src + 1)); [|done]. intros x Hx'. replace (dst + 1 + x) with (dst + (x + 1)) by lia.
    replace (src + 1 + x) with (src + (x + 1)) by lia. apply Hx. simpl. lia.
Qed.

(** Strcpy of a string to an area that does not overlap it returns the
    destination, which then holds the string; no other byte changes. *)
Theorem strcpy_correct fuel m dst src l : cstring m src l -> (length l < fuel)%nat ->
  dst + Z.of_nat (length l) < src \/ src + Z.of_nat (length l) < dst ->
  exists m', strcpy fuel m dst src = Ok (dst, m') /\ cstring m' dst l /\ cstring m' src l /\
    forall x, x < dst \/ dst + Z.of_nat (length l) < x -> load8 m' x = load8 m x.
Proof.
  intros H Hf Hd. destruct (strcpy_loop_ok fuel m dst src l H Hf) as (m' & E & HC); [lia|]. exists m'.
  assert (forall x, x < dst \/ dst + Z.of_nat (length l) < x -> load8 m' x = load8 m x) as Hfr by (intros x Hx; rewrite HC, decide_False by lia; done).
  unfold strcpy. rewrite E. split_and!; [done|by eapply copied_cstring| |done].
  eapply cstring_agree; [|exact H]. intros x Hx. apply Hfr. lia.
Qed.

(** What strlcat leaves after [n] copied bytes and a zero. *)
Definition appended m m' q p (n : Z) : Prop :=
  forall x, load8 m' x = if decide (x = q + n) then 0 else if decide (q <= x < q + n) then load8 m (p + (x - q)) else load8 m x.

Lemma strlcat_copy_ok fuel m q p bytes size l : cstring m p l -> (length l < fuel)%nat -> bytes < size ->
  q + (size - bytes) <= p \/ p + Z.of_nat (length l) < q ->
  exists m', strlcat_copy fuel m q p bytes size = Ok (bytes + Z.of_nat (length l), m') /\
    appended m m' q p (Z.min (Z.of_nat (length l)) (size - 1 - bytes)).
Proof.
  revert m q p bytes fuel. induction l as [|b l IH]; intros m q p bytes [|fuel] H Hf Hs Hd; simpl in H, Hf; try lia; cbn [strlcat_copy length] in *.
  - rewrite H. exists (store8 m q 0). split; [simpl; do 2 f_equal; lia|]. intros x. rewrite load8_store8. repeat case_decide; try lia; done.
  - destruct H as (Hb & Hne & H). rewrite Hb. destruct (Z.eqb_spec b 0); [done|]. destruct (Z.ltb_spec (bytes + 1) size).
    + destruct (IH (store8 m q b) (q + 1) (p + 1) (bytes + 1) fuel) as (m' & E & HA); [|lia|lia|lia|].
      { eapply cstring_agree; [|exact H]. intros x Hx. apply load8_store8_ne. lia. }
      exists m'. split; [rewrite E; do 2 f_equal; lia|]. intros x. rewrite HA. pose proof (load8_range m p). rewrite !load8_store8.
      repeat case_decide; try lia; try (f_equal; lia). replace (p + (x - q)) with p by lia. rewrite Hb. apply uwrap_small. lia.
    + assert (bytes = size - 1) as -> by lia.
      assert (forall f m1 p1 l1 b1, cstring m1 p1 l1 -> (length l1 < f)%nat -> size - 1 <= b1 ->
        strlcat_copy f m1 q p1 b1 size = Ok (b1 + Z.of_nat (length l1), store8 m1 q 0)) as Hfull.
      { clear. induction f as [|f IH]; intros m1 p1 l1 b1 H1 Hf Hb; [lia|]. destruct l1 as [|c l1]; simpl in H1; cbn [strlcat_copy length] in *.
        - rewrite H1. simpl. do 2 f_equal. lia.
        - destruct H1 as (-> & Hne & H1). destruct (Z.eqb_spec c 0); [done|]. destruct (Z.ltb_spec (b1 + 1) size); [lia|].
          rewrite (IH _ _ l1) by (done || lia). do 2 f_equal. lia. }
      rewrite (Hfull fuel m (p + 1) l) by (done || lia). eexists. split; [do 2 f_equal; lia|]. intros x. rewrite load8_store8.
      repeat case_decide; try lia; done.
Qed.

Lemma strlcat_seek_ok m q bytes n l : cstring m q l ->
  strlcat_seek m q bytes n = (q + Z.of_nat (Nat.min (length l) n), bytes + Z.of_nat (Nat.min (length l) n)).
Proof.
  revert q bytes l. induction n as [|n IH]; intros q bytes l H; simpl.
  - rewrite Nat.min_0_r. f_equal; lia.
  - destruct l as [|b l]; simpl in H.
    + rewrite H. simpl. f_equal; lia.
    + destruct H as (-> & Hne & H). destruct (Z.eqb_spec b 0); [done|]. rewrite (IH _ _ l) by done. simpl. f_equal; lia.
Qed.

(** A memory that agrees with two strings put end to end. *)
Lemma cstring_concat m m' dst l1 p l2 n : cstring m dst l1 -> cstring m p l2 -> (n <= length l2)%nat ->
  (forall x, dst <= x < dst + Z.of_nat (length l1) -> load8 m' x = load8 m x) ->
  (forall x, 0 <= x < Z.of_nat n -> load8 m' (dst + Z.of_nat (length l1) + x) = load8 m (p + x)) ->
  load8 m' (dst + Z.of_nat (length l1) + Z.of_nat n) = 0 -> cstring m' dst (l1 ++ take n l2).
Proof.
  revert dst. induction l1 as [|b l1 IH]; intros dst H1 H2 Hn Ha Hb Hz; simpl.
  - clear Ha H1. simpl in Hb, Hz. rewrite Z.add_0_r in Hb, Hz. revert dst p n H2 Hn Hb Hz.
    induction l2 as [|b l2 IH]; intros dst p [|n] H2 Hn Hb Hz; simpl in *; try lia; try (by rewrite Z.add_0_r in Hz).
    destruct H2 as (Hp & Hne & H2). pose proof (Hb 0) as H0. rewrite !Z.add_0_r in H0. split_and!; [rewrite <- Hp; apply H0; lia|done|].
    apply (IH _ (p + 1)); [done|lia| |].
    + intros x Hx. replace (dst + 1 + x) with (dst + (x + 1)) by lia. replace (p + 1 + x) with (p + (x + 1)) by lia. apply Hb. lia.
    + rewrite <- Hz. f_equal. lia.
  - destruct H1 as (Hd & Hne & H1). simpl in Ha, Hb, Hz. split_and!; [rewrite <- Hd; apply Ha; lia|done|]. apply IH; try done.
    + intros x Hx. apply Ha. lia.
    + intros x Hx. rewrite <- Hb by done. f_equal. lia.
    + rewrite <- Hz. f_equal. lia.
Qed.

(** Strlcat onto a string shorter than [size] leaves the concatenation cut
    to [size - 1] bytes, writes nothing outside the [size] bytes of the
    destination, and returns the length the whole concatenation has. *)
Theorem strlcat_truncates fuel m dst src size l1 l2 : cstring m dst l1 -> cstring m src l2 -> (length l2 < fuel)%nat ->
  Z.of_nat (length l1) < size -> dst + size <= src \/ src + Z.of_nat (length l2) < dst ->
  exists m', strlcat fuel m dst src size = Ok (Z.of_nat (length l1 + length l2), m') /\
    cstring m' dst (take (Z.to_nat (size - 1)) (l1 ++ l2)) /\
    forall x, x < dst \/ dst + size <= x -> load8 m' x = load8 m x.
Proof.
  intros H1 H2 Hf Hs Hd. unfold strlcat. rewrite (strlcat_seek_ok m dst 0 (Z.to_nat size) l1 H1). rewrite Nat.min_l by lia.
  rewrite Z.add_0_l. destruct (Z.eqb_spec (Z.of_nat (length l1)) size) as [|Hne]; [lia|].
  destruct (strlcat_copy_ok fuel m (dst + Z.of_nat (length l1)) src (Z.of_nat (length l1)) size l2 H2 Hf Hs) as (m' & E & HA); [lia|].
  exists m'. split_and!; [rewrite E; do 2 f_equal; lia| |].
  - rewrite take_app. rewrite take_ge by lia. set (n := Nat.min (length l2) (Z.to_nat (size - 1) - length l1)).
    replace (take (Z.to_nat (size - 1) - length l1) l2) with (take n l2).
    2: { unfold n. destruct (Nat.le_ge_cases (length l2) (Z.to_nat (size - 1) - length l1)); [|by rewrite Nat.min_r].
         by rewrite Nat.min_l, !take_ge by lia. }
    assert (Z.min (Z.of_nat (length l2)) (size - 1 - Z.of_nat (length l1)) = Z.of_nat n) as En by lia. rewrite En in HA.
    apply (cstring_concat m m' dst l1 src l2 n); [done|done|lia| | |].
    + intros x Hx. rewrite HA. repeat case_decide; lia || done.
    + intros x Hx. rewrite HA. repeat case_decide; try lia. f_equal. lia.
    + rewrite HA, decide_True by lia. done.
  - intros x Hx. rewrite HA. repeat case_decide; lia || done.
Qed.
End Building.

(** ** Tokens *)

(** How many bytes come before the first byte of [ds], or of the end. *)
Fixpoint first_in (ds l : list Z) : nat :=
  match l with [] => O | b :: l' => if decide (b ∈ ds) then O else S (first_in ds l') end.

Lemma first_in_le ds l : (first_in ds l <= length l)%nat.
Proof. induction l as [|b l IH]; simpl; [lia|]. case_decide; lia. Qed.

Section Tokens.
Implicit Types (m : mem) (a s : Z) (l ds mm : list Z).

Lemma cstring_bytes m a l b : cstring m a l -> b ∈ l -> 0 < b < 256.
Proof.
  revert a. induction l as [|c l IH]; intros a; simpl; [set_solver|]. intros (<- & Hne & H) [->|Hb]%elem_of_cons; [|by apply (IH (a + 1))].
  pose proof (load8_range m a). lia.
Qed.

Lemma matchmap_ok fuel m a ds mm : cstring m a ds -> (length ds < fuel)%nat -> length mm = 256%nat ->
  exists mm', matchmap_loop fuel m a mm = Ok mm' /\ length mm' = 256%nat /\
    forall b, 0 <= b < 256 -> nth (Z.to_nat b) mm' 0 = if decide (b ∈ ds) then 1 else nth (Z.to_nat b) mm 0.
Proof.
  revert a mm fuel. induction ds as [|c ds IH]; intros a mm [|fuel] H Hf Hl; simpl in H, Hf; try lia; cbn [matchmap_loop].
  - rewrite H. exists mm. split_and!; [done..|]. intros b Hb. by rewrite decide_False by set_solver.
  - destruct H as (Hc & Hne & H). rewrite Hc. destruct (Z.eqb_spec c 0); [done|]. pose proof (load8_range m a) as Hr. rewrite Hc in Hr.
    destruct (IH (a + 1) (<[Z.to_nat c := 1]> mm) fuel H ltac:(lia)) as (mm' & E & Hl' & Hn); [by rewrite length_insert|].
    exists mm'. split_and!; [done..|]. intros b Hb. rewrite Hn by done. rewrite !nth_lookup. destruct (decide (b = c)) as [->|Hbc].
    + rewrite list_lookup_insert_eq by lia. rewrite (decide_True (P := c ∈ c :: ds)) by set_solver. by case_decide.
    + rewrite list_lookup_insert_ne by lia. destruct (decide (b ∈ ds)), (decide (b ∈ c :: ds)); set_solver.
Qed.

Lemma span_loop_ok fuel m s l ds mm n : cstring m s l -> (length l < fuel)%nat -> length mm = 256%nat ->
  (forall b, 0 <= b < 256 -> nth (Z.to_nat b) mm 0 = if decide (b ∈ ds) then 1 else 0) -> (forall b, b ∈ ds -> b <> 0) ->
  span_loop fuel m s (<[0%nat := 1]> mm) 1 n = Ok (n + Z.of_nat (first_in ds l)).
Proof.
  intros H Hf Hl Hmm H0. assert (forall b, 0 <= b < 256 -> nth (Z.to_nat b) (<[0%nat := 1]> mm) 0 = if decide (b ∈ ds \/ b = 0) then 1 else 0) as Hmm'.
  { intros b Hb. rewrite nth_lookup. destruct (decide (b = 0)) as [->|].
    - rewrite list_lookup_insert_eq by lia. by rewrite decide_True by tauto.
    - rewrite list_lookup_insert_ne, <- nth_lookup, Hmm by lia. destruct (decide (b ∈ ds)), (decide (b ∈ ds \/ b = 0)); tauto. }
  generalize dependent (<[0%nat := 1]> mm). intros mm' Hmm'. clear Hmm mm Hl. revert s n fuel H Hf.
  induction l as [|b l IH]; intros s n [|fuel] H Hf; simpl in H, Hf; try lia; cbn [span_loop first_in].
  - rewrite H, Hmm', decide_True by (lia || tauto). simpl. f_equal. lia.
  - destruct H as (Hb & Hne & H). pose proof (load8_range m s) as Hr. rewrite Hb in Hr |- *. rewrite Hmm' by done. destruct (decide (b ∈ ds)) as [Hin|Hin].
    + rewrite decide_True by tauto. simpl. f_equal. lia.
    + rewrite decide_False by tauto. simpl. rewrite IH by (done || lia). f_equal. lia.
Qed.

Lemma strcspn_ok fuel m s delim l ds : cstring m s l -> cstring m delim ds -> (length l < fuel)%nat -> (length ds < fuel)%nat ->
  strcspn fuel m s delim = Ok (Z.of_nat (first_in ds l)).
Proof.
  intros Hs Hd Hl Hl2. unfold strcspn, __strxspn.
  destruct (matchmap_ok fuel m delim ds (replicate 256 0) Hd Hl2 eq_refl) as (mm & E & Hlen & Hmm). rewrite E. simpl rbind.
  rewrite (span_loop_ok fuel m s l ds mm 0 Hs Hl Hlen); [done| |].
  - intros b Hb. rewrite Hmm by done. case_decide; [done|]. rewrite nth_lookup. destruct (replicate 256 0 !! Z.to_nat b) as [z|] eqn:Ez; [|done].
    by apply lookup_replicate_1 in Ez as [-> _].
  - intros b Hb. pose proof (cstring_bytes m delim ds b Hd Hb). lia.
Qed.

Lemma cstring_nth m s l n : cstring m s l -> (n < length l)%nat -> load8 m (s + Z.of_nat n) <> 0.
Proof.
  intros H Hn. rewrite <- (take_drop n l) in H. apply cstring_app in H. rewrite length_take_le in H by lia.
  destruct (drop n l) as [|b l'] eqn:E; [apply (f_equal length) in E; rewrite length_drop in E; simpl in E; lia|].
  simpl in H. destruct H as (-> & ? & _). done.
Qed.

Lemma cstring_end m s l : cstring m s l -> load8 m (s + Z.of_nat (length l)) = 0.
Proof. intros H. rewrite <- (app_nil_r l) in H. by apply cstring_app in H. Qed.

(** Cutting a string with a zero byte. *)
Lemma cstring_cut m s l n : cstring m s l -> (n < length l)%nat ->
  cstring (store8 m (s + Z.of_nat n) 0) s (take n l) /\ cstring (store8 m (s + Z.of_nat n) 0) (s + Z.of_nat n + 1) (drop (S n) l).
Proof.
  intros H Hn. split.
  - revert s l H Hn. induction n as [|n IH]; intros s [|b l] H Hn; simpl in *; try lia.
    + by rewrite Z.add_0_r, load8_store8_eq.
    + destruct H as (Hb & Hne & H). rewrite load8_store8_ne by lia. split_and!; [done..|].
      replace (s + Z.of_nat (S n)) with (s + 1 + Z.of_nat n) by lia. apply IH; [done|lia].
  - rewrite <- (take_drop (S n) l) in H. apply cstring_app in H. rewrite length_take_le in H by lia.
    replace (s + Z.of_nat n + 1) with (s + Z.of_nat (S n)) by lia. eapply cstring_agree; [|exact H].
    intros x Hx. apply load8_store8_ne. lia.
Qed.

(** Strtok, given a string or the rest of an earlier one, returns the
    bytes before the first delimiter as a token, a string of its own, and
    keeps the string after the delimiter as the rest; without a delimiter the
    whole string is the token and nothing is left. *)
Theorem strtok_splits fuel m holder (s0 : option Z) s delim l ds : cstring m s l -> cstring m delim ds ->
  (length l < fuel)%nat -> (length ds < fuel)%nat -> match s0 with Some _ => s0 | None => holder end = Some s ->
  let n := first_in ds l in
  let m' := store8 m (s + Z.of_nat n) 0 in
  strtok fuel m holder s0 delim = Ok (if decide (n < length l)%nat then (Some s, Some (s + Z.of_nat n + 1), m') else (Some s, None, m)) /\
  ((n < length l)%nat -> cstring m' s (take n l) /\ cstring m' (s + Z.of_nat n + 1) (drop (S n) l)).
Proof.
  intros Hs Hd Hl Hl2 Hh n m'. split; [|by apply cstring_cut]. unfold strtok. rewrite Hh. unfold strsep, strpbrk.
  pose proof (strcspn_ok fuel m s delim l ds Hs Hd Hl Hl2) as Hspn. unfold strcspn in Hspn. rewrite Hspn. simpl rbind.
  fold n. destruct (decide (n < length l)%nat) as [Hn|Hn].
  - pose proof (cstring_nth m s l n Hs Hn). destruct (Z.eqb_spec (load8 m (s + Z.of_nat n)) 0); [done|]. done.
  - assert (n = length l) as En by (unfold n in *; pose proof (first_in_le ds l); lia). rewrite En, (cstring_end m s l Hs). done.
Qed.
End Tokens.

(** ** A concrete memory: "a,b" at 100 and "," at 200 *)

Definition demo_bytes : mem :=
  store8 (store8 (store8 (store8 ∅ 100 97) 101 44) 102 98) 200 44.

Lemma strcmp_lexicographic_witness : exists d, strcmp 10 demo_bytes 100 200 = Ok d /\ (d ?= 0) = Gt.
Proof.
  destruct (strcmp_lexicographic 10 demo_bytes 100 200 [97; 44; 98] [44]) as (d & E & Hd & _).
  - vm_compute. split_and!; first [reflexivity | discriminate].
  - vm_compute. split_and!; first [reflexivity | discriminate].
  - simpl. lia.
  - exists d. split; [exact E|]. rewrite Hd. reflexivity.
Defined.

Lemma memmem_first_witness :
  match memmem demo_bytes 100 3 200 1 with
  | Some p => exists j, p = 100 + j /\ 0 <= j <= 3 - 1 /\ occurs demo_bytes 100 200 1 j /\ forall j', 0 <= j' < j -> ~ occurs demo_bytes 100 200 1 j'
  | None => forall j, 0 <= j <= 3 - 1 -> ~ occurs demo_bytes 100 200 1 j
  end /\ memmem demo_bytes 100 3 200 1 = Some 101.
Proof. split; [apply (memmem_first demo_bytes 100 3 200 1); lia|vm_compute; reflexivity]. Defined.

Lemma strcpy_correct_witness : exists m', strcpy 10 demo_bytes 300 100 = Ok (300, m') /\ cstring m' 300 [97; 44; 98].
Proof.
  destruct (strcpy_correct 10 demo_bytes 300 100 [97; 44; 98]) as (m' & E & H & _).
  - vm_compute. split_and!; first [reflexivity | discriminate].
  - simpl. lia.
  - simpl. lia.
  - exists m'. split; [exact E|exact H].
Defined.

Lemma strlcat_truncates_witness : exists m', strlcat 10 demo_bytes 200 100 3 = Ok (4, m') /\ cstring m' 200 [44; 97].
Proof.
  destruct (strlcat_truncates 10 demo_bytes 200 100 3 [44] [97; 44; 98]) as (m' & E & H & _).
  - vm_compute. split_and!; first [reflexivity | discriminate].
  - vm_compute. split_and!; first [reflexivity | discriminate].
  - simpl. lia.
  - simpl. lia.
  - simpl. lia.
  - exists m'. split; [exact E|exact H].
Defined.

Lemma strtok_splits_witness :
  strtok 10 demo_bytes None (Some 100) 200 = Ok (Some 100, Some 102, store8 demo_bytes 101 0) /\
  cstring (store8 demo_bytes 101 0) 100 [97].
Proof.
  destruct (strtok_splits 10 demo_bytes None (Some 100) 100 200 [97; 44; 98] [44]) as [E H].
  - vm_compute. split_and!; first [reflexivity | discriminate].
  - vm_compute. split_and!; first [reflexivity | discriminate].
  - simpl. lia.
  - simpl. lia.
  - reflexivity.
  - split; [exact E|]. apply H. vm_compute. lia.
Defined.

(** ** Copying areas *)
