(* ===== verification/Format.v ===== *)
(** * Formatted output and number parsing (shared/doprnt.c, printf.c, sprintf.c, strtol.c, strtoul.c)

    Strings are lists of bytes without their final zero.  [_doprnt] hands
    characters to its [putc] argument one by one and [putc] cannot act on it, so
    it is modelled by the list of the characters it hands over; printf and
    sprintf then run their own [putc] over that list. *)

From S2P Require Import Prelude Memory.

Local Open Scope res_scope.

(** ** Characters *)

Definition chr_0 : Z := 48.
Definition isspace (c : Z) : bool :=
  (c =? 32) || (c =? 12) || (c =? 10) || (c =? 13) || (c =? 9) || (c =? 11).
Definition isdigit (d : Z) : bool := (48 <=? d) && (d <=? 57).
Definition Ctod (c : Z) : Z := c - 48.

(** [*p] and [p[1]]: the zero byte ends the string. *)
Definition char_at (p : list Z) (i : nat) : Z := nth i p 0.

(** ** strtol and strtoul *)

Fixpoint skip_spaces (p : list Z) : list Z :=
  match p with
  | c :: p' => if isspace c then skip_spaces p' else p
  | [] => []
  end.

(** The digit a character stands for in the base, if it does. *)
Definition digit_in (base c : Z) : option Z :=
  if (48 <=? c) && (c <=? 57) && (c - 48 <? base) then Some (c - 48)
  else if (97 <=? c) && (c <=? 122) && (c - 97 + 10 <? base) then Some (c - 97 + 10)
  else if (65 <=? c) && (c <=? 90) && (c - 65 + 10 <? base) then Some (c - 65 + 10)
  else None.

(** The loop over the digits; [wrap] is the width of the accumulator. *)
Fixpoint digits_loop (wrap : Z -> Z) (base v : Z) (p : list Z) : Z * list Z :=
  match p with
  | c :: p' => match digit_in base c with Some d => digits_loop wrap base (wrap (v * base + d)) p' | None => (v, p) end
  | [] => (v, [])
  end.

(** The 0x prefix and the choice of the base. *)
Definition parse_base (base : Z) (p : list Z) : Z * list Z :=
  let '(base, p) :=
    if ((base =? 16) || (base =? 0)) && ((char_at p 0 =? 48) && ((char_at p 1 =? 120) || (char_at p 1 =? 88)))
    then (16, drop 2 p) else (base, p) in
  ((if base =? 0 then (if char_at p 0 =? 48 then 8 else 10) else base), p).

(** The value and what [*out_p] is set to.  A '+' is not skipped. *)
Definition strtol (p : list Z) (base : Z) : Z * list Z :=
  let p := skip_spaces p in
  let '(is_neg, p) := if char_at p 0 =? 45 then (true, drop 1 p) else (false, p) in
  let '(base, p) := parse_base base p in
  let '(v, p) := digits_loop s32 base 0 p in
  ((if is_neg then s32 (- v) else v), p).

Definition strtoul (p : list Z) (base : Z) : Z * list Z :=
  let p := skip_spaces p in
  let '(base, p) := parse_base base p in
  digits_loop u32 base 0 p.

(** ** _doprnt *)

(** "0123456789abcdef" with its final zero. *)
Definition digs : list Z := [48; 49; 50; 51; 52; 53; 54; 55; 56; 57; 97; 98; 99; 100; 101; 102; 0].
Definition MAXBUF : nat := 32.

(** The [do ... while (u != 0)] loop that fills [buf] from its end: a base below
    2 overruns it (or divides by zero), a digit above 16 is out of [digs]. *)
Fixpoint number_loop (fuel : nat) (u base : Z) (acc : list Z) : result (list Z) :=
  match fuel with
  | O => Err Faulted
  | S fuel' =>
      if base =? 0 then Err Faulted else
      let? d := of_option Faulted (digs !! Z.to_nat (u mod base)) in
      let u := u / base in
      if u =? 0 then Ok (d :: acc) else number_loop fuel' u base (d :: acc)
  end.
Definition printnum (u base : Z) : result (list Z) := number_loop MAXBUF u (u32 base) [].

(** [while (--n >= 0) putc(c)] *)
Definition pad (n c : Z) : list Z := replicate (Z.to_nat n) c.

Record flags := mk_flags { altfmt : bool; ladjust : bool; plus_sign : Z }.

Fixpoint parse_flags (f : flags) (fmt : list Z) : flags * list Z :=
  match fmt with
  | c :: fmt' =>
      if c =? 35 then parse_flags (mk_flags true (ladjust f) (plus_sign f)) fmt'
      else if c =? 45 then parse_flags (mk_flags (altfmt f) true (plus_sign f)) fmt'
      else if c =? 43 then parse_flags (mk_flags (altfmt f) (ladjust f) 43) fmt'
      else if c =? 32 then parse_flags (mk_flags (altfmt f) (ladjust f) (if plus_sign f =? 0 then 32 else plus_sign f)) fmt'
      else (f, fmt)
  | [] => (f, [])
  end.

Fixpoint parse_num (v : Z) (fmt : list Z) : Z * list Z :=
  match fmt with
  | c :: fmt' => if isdigit c then parse_num (s32 (10 * v + Ctod c)) fmt' else (v, fmt)
  | [] => (v, [])
  end.

Definition va_arg (args : list Z) : result (Z * list Z) :=
  match args with a :: args' => Ok (a, args') | [] => Err Faulted end.

(** A conversion specification: what is read between '%' and the letter. *)
Record spec := mk_spec { sp_flags : flags; sp_padc : Z; sp_length : Z; sp_prec : Z }.

Definition parse_width (f : flags) (fmt args : list Z) : result (flags * Z * list Z * list Z) :=
  if isdigit (char_at fmt 0) then let '(n, fmt) := parse_num 0 fmt in Ok (f, n, fmt, args)
  else if char_at fmt 0 =? 42 then
    let? '(w, args) := va_arg args in
    let n := s32 w in
    Ok (if n <? 0 then (mk_flags (altfmt f) (negb (ladjust f)) (plus_sign f), s32 (- n), drop 1 fmt, args)
        else (f, n, drop 1 fmt, args))
  else Ok (f, 0, fmt, args).

Definition parse_prec (fmt args : list Z) : result (Z * list Z * list Z) :=
  if char_at fmt 0 =? 46 then
    let fmt := drop 1 fmt in
    if isdigit (char_at fmt 0) then let '(n, fmt) := parse_num 0 fmt in Ok (n, fmt, args)
    else if char_at fmt 0 =? 42 then let? '(w, args) := va_arg args in Ok (s32 w, drop 1 fmt, args)
    else Ok (-1, fmt, args)
  else Ok (-1, fmt, args).

Definition parse_spec (fmt args : list Z) : result (spec * list Z * list Z) :=
  let '(f, fmt) := parse_flags (mk_flags false false 0) fmt in
  let '(padc, fmt) := if char_at fmt 0 =? 48 then (48, drop 1 fmt) else (32, fmt) in
  let? '(f, len, fmt, args) := parse_width f fmt args in
  let? '(prec, fmt, args) := parse_prec fmt args in
  let fmt := if char_at fmt 0 =? 108 then drop 1 fmt else fmt in
  Ok (mk_spec f padc len prec, fmt, args).

(** [print_num]; [truncate] is always false. *)
Definition print_num (sp : spec) (sign_char u base : Z) : result (list Z) :=
  let prefix := if negb (u =? 0) && altfmt (sp_flags sp)
                then (if base =? 8 then [48] else if base =? 16 then [48; 120] else []) else [] in
  let? ds := number_loop MAXBUF u (u32 base) [] in
  let nd := Z.of_nat (length ds) in
  let prec := sp_prec sp - nd in
  let len := sp_length sp - nd - (if sign_char =? 0 then 0 else 1) - Z.of_nat (length prefix) - (if 0 <? prec then prec else 0) in
  let left := (sp_padc sp =? 32) && negb (ladjust (sp_flags sp)) in
  let zero := sp_padc sp =? 48 in
  Ok ((if left then pad len 32 else []) ++ (if sign_char =? 0 then [] else [sign_char]) ++ prefix
      ++ pad prec 48 ++ (if zero then pad len 48 else []) ++ ds
      ++ (if ladjust (sp_flags sp) && negb zero then pad len 32 else [])).

Definition print_signed (sp : spec) (arg base : Z) : result (list Z) :=
  let n := s32 arg in
  if 0 <=? n then print_num sp (plus_sign (sp_flags sp)) n base else print_num sp 45 (u32 (- n)) base.
Definition print_unsigned (sp : spec) (arg base : Z) : result (list Z) := print_num sp 0 (u32 arg) base.

(** %s: with a precision, [n] counts one more than the characters printed when
    the string is cut, and the padding on the right is short by one. *)
Definition print_string (sp : spec) (s : list Z) : list Z :=
  let prec := if sp_prec sp =? -1 then 0x7fffffff else sp_prec sp in
  let len := sp_length sp in
  let shown := if Z.of_nat (length s) <=? prec then s else take (Z.to_nat prec) s in
  let n0 := Z.of_nat (length shown) in
  let n := if (prec <? Z.of_nat (length s)) && (0 <? Z.of_nat (length s)) then Z.max 0 prec + 1 else Z.of_nat (length s) in
  (if (0 <? len) && negb (ladjust (sp_flags sp)) then pad (len - n0) 32 else []) ++ shown
  ++ (if (n <? len) && ladjust (sp_flags sp) then pad (len - n) 32 else []).

(** %b: the name of a bit field, up to a control character. *)
Fixpoint span_name (p : list Z) : list Z * list Z :=
  match p with
  | c :: p' => if 32 <? s8 c then let '(nm, r) := span_name p' in (c :: nm, r) else ([], p)
  | [] => ([], [])
  end.

(** The loop over the bit names; [p] is what follows the base, and reading past
    the end of the string faults. *)
Fixpoint bits_loop (fuel : nat) (u base : Z) (p : list Z) (any : bool) : result (list Z * bool) :=
  match fuel with
  | O => Err Diverged
  | S fuel' =>
      match p with
      | [] => Ok ([], any)
      | i :: p =>
          match p with
          | [] => Err Faulted
          | c0 :: p1 =>
              if s8 c0 <=? 32 then
                let '(nm, r) := span_name p1 in
                let? ds := printnum (Z.land (Z.shiftr u (s8 c0 - 1)) (u32 (Z.shiftl 2 (s8 i - s8 c0) - 1))) base in
                let? '(rest, any') := bits_loop fuel' u base r true in
                Ok ((if any then 44 else 60) :: nm ++ ds ++ rest, any')
              else
                let '(nm, r) := span_name p in
                if negb (Z.land u (u32 (Z.shiftl 1 (s8 i - 1))) =? 0) then
                  let? '(rest, any') := bits_loop fuel' u base r true in
                  Ok ((if any then 44 else 60) :: nm ++ rest, any')
                else bits_loop fuel' u base r any
          end
      end
  end.

Definition print_bits (u : Z) (p : list Z) : result (list Z) :=
  match p with
  | [] => Err Faulted
  | base :: p' =>
      let? ds := printnum u (s8 base) in
      if u =? 0 then Ok ds else
      let? '(names, any) := bits_loop (S (length p')) u (s8 base) p' false in
      Ok (ds ++ names ++ (if any then [62] else []))
  end.

(** The switch on the letter [c]: what is printed, and the arguments left. *)
Definition convert (str : Z -> list Z) (radix : Z) (sp : spec) (c : Z) (args : list Z) : result (list Z * list Z) :=
  let signed base := let? '(a, args) := va_arg args in let? o := print_signed sp a base in Ok (o, args) in
  let unsigned base := let? '(a, args) := va_arg args in let? o := print_unsigned sp a base in Ok (o, args) in
  if (c =? 98) || (c =? 66) then                                         (* b B *)
    let? '(u, args) := va_arg args in
    let? '(p, args) := va_arg args in
    let? o := print_bits (u32 u) (str p) in Ok (o, args)
  else if c =? 99 then let? '(a, args) := va_arg args in Ok ([u8 a], args)         (* c *)
  else if c =? 115 then                                                  (* s *)
    let? '(p, args) := va_arg args in Ok (print_string sp (if p =? 0 then [] else str p), args)
  else if (c =? 111) || (c =? 79) then unsigned 8                        (* o O *)
  else if (c =? 100) || (c =? 105) || (c =? 68) then signed 10           (* d i D *)
  else if (c =? 117) || (c =? 85) then unsigned 10                       (* u U *)
  else if c =? 112 then                                                  (* p *)
    let? '(a, args) := va_arg args in
    let? o := print_unsigned (mk_spec (sp_flags sp) 48 8 (sp_prec sp)) a 16 in Ok ([48; 120] ++ o, args)
  else if (c =? 120) || (c =? 88) then unsigned 16                       (* x X *)
  else if (c =? 122) || (c =? 90) then signed 16                         (* z Z *)
  else if (c =? 114) || (c =? 82) then signed radix                      (* r R *)
  else if (c =? 110) || (c =? 78) then unsigned radix                    (* n N *)
  else Ok ([c], args).

(** The characters given to [putc].  Every round consumes a character of the
    format; a '%' at its end prints nothing. *)
Fixpoint doprnt_loop (fuel : nat) (str : Z -> list Z) (radix : Z) (fmt args : list Z) : result (list Z) :=
  match fuel with
  | O => Err Diverged
  | S fuel' =>
      match fmt with
      | [] => Ok []
      | c :: fmt' =>
          if negb (c =? 37) then let? rest := doprnt_loop fuel' str radix fmt' args in Ok (c :: rest)
          else
            let? '(sp, fmt', args) := parse_spec fmt' args in
            match fmt' with
            | [] => Ok []
            | c :: fmt'' =>
                let? '(out, args) := convert str radix sp c args in
                let? rest := doprnt_loop fuel' str radix fmt'' args in
                Ok (out ++ rest)
            end
      end
  end.
Definition _doprnt (str : Z -> list Z) (fmt args : list Z) (radix : Z) : result (list Z) :=
  doprnt_loop (S (length fmt)) str radix fmt args.

(** ** sprintf *)

Definition SPRINTF_UNLIMITED : Z := 0xFFFFFFF.
Record sprintf_state := mk_sprintf { sp_mem : mem; sp_buf : Z; sp_len : Z; sp_max : Z }.

Definition savechar (st : sprintf_state) (c : Z) : sprintf_state :=
  if negb (sp_max st =? SPRINTF_UNLIMITED) && (sp_len st =? sp_max st) then st
  else mk_sprintf (store8 (sp_mem st) (sp_buf st) c) (sp_buf st + 1) (u32 (sp_len st + 1)) (sp_max st).

(** The length returned and the memory. *)
Definition vsprintf_max (max : Z) (str : Z -> list Z) (m : mem) (s : Z) (fmt args : list Z) : result (Z * mem) :=
  let? out := _doprnt str fmt args 0 in
  let st := fold_left savechar out (mk_sprintf m s 0 max) in
  Ok (s32 (sp_len st), store8 (sp_mem st) (sp_buf st) 0).
Definition vsprintf := vsprintf_max SPRINTF_UNLIMITED.
Definition vsnprintf (str : Z -> list Z) (m : mem) (s size : Z) (fmt args : list Z) : result (Z * mem) :=
  vsprintf_max (u32 size) str m s fmt args.

(** ** printf *)

Definition PRINTF_BUFMAX : nat := 128.

(** The buffer and the calls of console_putbytes so far, as lists of bytes. *)
Record printf_state := mk_printf { pf_buf : list Z; pf_calls : list (list Z) }.

Definition flush (st : printf_state) : printf_state := mk_printf [] (pf_calls st ++ [pf_buf st]).
Definition printf_char (st : printf_state) (c : Z) : printf_state :=
  if (c =? 0) || (c =? 10) || (PRINTF_BUFMAX <=? length (pf_buf st))%nat
  then let st := flush st in mk_printf (pf_buf st) (pf_calls st ++ [[c]])
  else mk_printf (pf_buf st ++ [c]) (pf_calls st).

(** The calls of console_putbytes a vprintf makes. *)
Definition vprintf (str : Z -> list Z) (fmt args : list Z) : result (list (list Z)) :=
  let? out := _doprnt str fmt args 0 in
  let st := fold_left printf_char out (mk_printf [] []) in
  Ok (pf_calls (if bool_decide (pf_buf st = []) then st else flush st)).

Definition putchar (c : Z) : list (list Z) * Z := ([[u8 c]], u8 c).
Definition puts (s : list Z) : list (list Z) := map (fun c => [c]) s ++ [[10]].

(** ** Digits *)

Section Digits.
(** The character of a digit, and the number a list of digits stands for. *)
Definition digit_char (d : Z) : Z := nth (Z.to_nat d) digs 0.
Definition value (base v : Z) (ds : list Z) : Z := fold_left (fun v d => v * base + d) ds v.

Lemma digit_char_in base d : 0 <= d < base -> base <= 16 -> digit_in base (digit_char d) = Some d.
Proof.
  intros Hd Hb. assert (d < 16) as Hlt by lia. unfold digit_in.
  assert (d <= 9 /\ digit_char d = 48 + d \/ 10 <= d /\ digit_char d = 87 + d) as [[H ->]|[H ->]].
  { destruct (decide (d <= 9)); [left|right]; (split; [lia|]); revert Hlt; destruct d as [|p|p]; try lia; try done;
      do 5 (destruct p as [p|p|]; try done; try lia). }
  - repeat match goal with |- context [?a <=? ?b] => destruct (Z.leb_spec a b); try lia end.
    destruct (Z.ltb_spec (48 + d - 48) base); [|lia]. simpl. f_equal. lia.
  - repeat match goal with |- context [?a <=? ?b] => destruct (Z.leb_spec a b); try lia end.
    simpl. destruct (Z.ltb_spec (87 + d - 97 + 10) base); [|lia]. f_equal. lia.
Qed.

Lemma digit_char_lookup d : 0 <= d < 16 -> digs !! Z.to_nat d = Some (digit_char d).
Proof. intros Hd. unfold digit_char. rewrite nth_lookup. destruct (digs !! Z.to_nat d) eqn:E; [done|]. apply lookup_ge_None in E. simpl in E. lia. Qed.

Lemma value_app base v l1 l2 : value base v (l1 ++ l2) = value base (value base v l1) l2.
Proof. apply fold_left_app. Qed.

Lemma value_linear base v ds : 0 <= base -> value base v ds = v * base ^ Z.of_nat (length ds) + value base 0 ds.
Proof.
  intros Hb. revert v. induction ds as [|d ds IH]; intros v; [simpl; lia|]. change (value base (v * base + d) ds = v * base ^ Z.of_nat (S (length ds)) + value base (0 * base + d) ds).
  rewrite IH, (IH (0 * base + d)), Nat2Z.inj_succ, Z.pow_succ_r by lia. lia.
Qed.

(** The loop writes the digits of [u], without overrunning its buffer. *)
Lemma number_loop_ok fuel u base acc : 2 <= base <= 16 -> 0 <= u < base ^ Z.of_nat fuel -> (0 < fuel)%nat ->
  exists ds, number_loop fuel u base acc = Ok (map digit_char ds ++ acc) /\ ds <> [] /\
    Forall (fun d => 0 <= d < base) ds /\ value base 0 ds = u.
Proof.
  intros Hb. revert u acc. induction fuel as [|fuel IH]; intros u acc Hu Hf; [lia|]. cbn [number_loop].
  destruct (Z.eqb_spec base 0); [lia|]. pose proof (Z.mod_pos_bound u base ltac:(lia)) as Hm. pose proof (Z.div_mod u base ltac:(lia)) as Hdm.
  rewrite digit_char_lookup by lia. simpl of_option. cbn [rbind]. destruct (Z.eqb_spec (u / base) 0) as [E|E].
  - exists [u mod base]. split_and!; [done|done|apply Forall_singleton; lia|]. cbn. rewrite E in Hdm. lia.
  - destruct (IH (u / base) (digit_char (u mod base) :: acc)) as (ds & E1 & Hne & HF & Hv).
    + rewrite Nat2Z.inj_succ, Z.pow_succ_r in Hu by lia. split; [apply Z.div_pos; lia|]. apply Z.div_lt_upper_bound; lia.
    + destruct fuel; [|lia]. simpl in Hu. exfalso. apply E. rewrite Z.pow_1_r in Hu. apply Z.div_small. lia.
    + exists (ds ++ [u mod base]). split_and!.
      * rewrite E1. f_equal. rewrite map_app, <- app_assoc. done.
      * by destruct ds.
      * apply Forall_app. split; [done|]. apply Forall_singleton. lia.
      * rewrite value_app, Hv. cbn. lia.
Qed.

Lemma number_loop_u32 u base acc : 2 <= base <= 16 -> 0 <= u < 2 ^ 32 ->
  exists ds, number_loop MAXBUF u base acc = Ok (map digit_char ds ++ acc) /\ ds <> [] /\
    Forall (fun d => 0 <= d < base) ds /\ value base 0 ds = u.
Proof.
  intros Hb Hu. apply number_loop_ok; [done| |unfold MAXBUF; lia].
  split; [lia|]. eapply Z.lt_le_trans; [apply Hu|]. apply Z.pow_le_mono_l. lia.
Qed.

(** A reduction that commutes with the ring operations. *)
Definition modular (wrap : Z -> Z) : Prop := forall v b d, wrap (wrap v * b + d) = wrap (v * b + d).

Lemma u32_modular : modular u32.
Proof. intros v b d. unfold uwrap. by rewrite <- Zplus_mod_idemp_l, Zmult_mod_idemp_l, Zplus_mod_idemp_l. Qed.
Lemma s32_modular : modular s32.
Proof.
  intros v b d. unfold swrap. f_equal. set (w := 2 ^ 32). set (h := 2 ^ (32 - 1)).
  replace (((v + h) mod w - h) * b + d + h) with ((v + h) mod w * b + (d + h - h * b)) by lia.
  rewrite <- Zplus_mod_idemp_l, Zmult_mod_idemp_l, Zplus_mod_idemp_l. f_equal. lia.
Qed.

Lemma digits_loop_ok wrap base v ds rest : modular wrap -> base <= 16 -> Forall (fun d => 0 <= d < base) ds ->
  (forall c, head rest = Some c -> digit_in base c = None) -> wrap v = v -> 
  digits_loop wrap base v (map digit_char ds ++ rest) = (wrap (value base v ds), rest).
Proof.
  intros Hw Hb HF Hr. revert v. induction HF as [|d ds Hd HF IH]; intros v Hv; simpl.
  - rewrite Hv. destruct rest as [|c rest]; [done|]. simpl. by rewrite (Hr c).
  - rewrite digit_char_in by done. rewrite IH.
    + f_equal. change (value base v (d :: ds)) with (value base (v * base + d) ds).
      clear - Hw. generalize (v * base + d) as x. clear v d. intros x. revert x.
      induction ds as [|d ds IH] using rev_ind; intros x; [simpl; specialize (Hw x 1 0); by rewrite !Z.mul_1_r, !Z.add_0_r in Hw|].
      rewrite !value_app. cbn. rewrite <- Hw, IH. apply Hw.
    + specialize (Hw (v * base + d) 1 0). by rewrite !Z.mul_1_r, !Z.add_0_r in Hw.
Qed.

Lemma digit_not_space d : 0 <= d < 16 -> isspace (digit_char d) = false /\ digit_char d <> 45 /\ digit_char d <> 120 /\ digit_char d <> 88 /\ digit_char d <> 0.
Proof.
  intros Hd. destruct d as [|p|p]; [by vm_compute| |lia]. do 5 (destruct p as [p|p|]; try lia; try (by vm_compute)).
Qed.
End Digits.

(** ** Properties *)

Section Properties.
Context (str : Z -> list Z).

Lemma doprnt_one c args : negb (c =? 37) = true -> isdigit c = false -> c <> 35 -> c <> 45 -> c <> 43 -> c <> 32 -> c <> 42 -> c <> 46 -> c <> 108 ->
  _doprnt str [37; c] args 0 =
    let? '(out, args) := convert str 0 (mk_spec (mk_flags false false 0) 32 0 (-1)) c args in
    let? rest := doprnt_loop 2 str 0 [] args in Ok (out ++ rest).
Proof.
  intros H37 Hd H1 H2 H3 H4 H5 H6 H7. assert (c <> 48) as H0 by (intros ->; done).
  apply Z.eqb_neq in H0, H1, H2, H3, H4, H5, H6, H7. unfold _doprnt. cbn [length doprnt_loop]. change (negb (37 =? 37)) with false. cbv iota.
  unfold parse_spec, parse_width, parse_prec, char_at. cbn [parse_flags].
  rewrite H1, H2, H3, H4. cbn [nth]. rewrite H0. cbn [nth]. rewrite Hd, H5. cbn [rbind nth]. rewrite H6. cbn [rbind nth]. rewrite H7. done.
Qed.

Lemma strtol_digits base ds : 2 <= base <= 16 -> Forall (fun d => 0 <= d < base) ds -> ds <> [] ->
  skip_spaces (map digit_char ds) = map digit_char ds /\ char_at (map digit_char ds) 0 <> 45 /\
  parse_base base (map digit_char ds) = (base, map digit_char ds).
Proof.
  intros Hb HF Hne. destruct ds as [|d ds]; [done|]. apply Forall_cons in HF as [Hd HF].
  destruct (digit_not_space d) as (Hs & H45 & _ & _ & _); [lia|]. simpl. rewrite Hs. split_and!; [done|done|].
  unfold parse_base, char_at. simpl. assert ((nth 0 (map digit_char ds) 0 =? 120) || (nth 0 (map digit_char ds) 0 =? 88) = false) as ->.
  { destruct ds as [|d' ds]; [done|]. apply Forall_cons in HF as [Hd' _]. destruct (digit_not_space d') as (_ & _ & H1 & H2 & _); [lia|].
    simpl. apply Z.eqb_neq in H1, H2. by rewrite H1, H2. }
  rewrite !andb_false_r. destruct (Z.eqb_spec base 0); [lia|done].
Qed.

(** C30: strtol reads back what printf prints with %d, for every [int], the
    most negative one included, and consumes all of it. *)
Theorem printf_strtol_roundtrip n : - 2 ^ 31 <= n < 2 ^ 31 ->
  exists out, _doprnt str [37; 100] [n] 0 = Ok out /\ strtol out 10 = (n, []).
Proof.
  intros Hn. rewrite doprnt_one by done. unfold convert. simpl va_arg. cbn [rbind Z.eqb Pos.eqb orb]. unfold print_signed.
  assert (s32 n = n) as -> by (apply swrap_small; [lia|exact Hn]).
  set (u := if 0 <=? n then n else - n). assert (0 <= u < 2 ^ 32) as Hu by (unfold u; destruct (Z.leb_spec 0 n); lia).
  destruct (number_loop_u32 u 10 [] ltac:(lia) Hu) as (ds & E & Hne & HF & Hv). rewrite app_nil_r in E.
  assert (forall sc, print_num (mk_spec (mk_flags false false 0) 32 0 (-1)) sc u 10 = Ok ((if sc =? 0 then [] else [sc]) ++ map digit_char ds)) as Hp.
  { intros sc. unfold print_num. change (u32 10) with 10. cbn [sp_flags altfmt]. rewrite andb_false_r. rewrite E. cbn [rbind sp_prec sp_length sp_padc].
    assert (pad (-1 - Z.of_nat (length (map digit_char ds))) 48 = []) as -> by (unfold pad; by rewrite Z2Nat.nonpos by lia).
    change (32 =? 32) with true. change (32 =? 48) with false. cbn [andb negb ladjust app].
    unfold pad. rewrite Z2Nat.nonpos; [by rewrite app_nil_r|].
    destruct (Z.ltb_spec 0 (-1 - Z.of_nat (length (map digit_char ds)))); [lia|]. destruct (sc =? 0); simpl; lia. }
  destruct (strtol_digits 10 ds ltac:(lia) HF Hne) as (Hs & H45 & Hpb).
  pose proof (digits_loop_ok s32 10 0 ds [] s32_modular ltac:(lia) HF ltac:(done) eq_refl) as Hd. rewrite app_nil_r, Hv in Hd.
  unfold u in *. destruct (Z.leb_spec 0 n) as [Hpos|Hneg].
  - cbn [sp_flags plus_sign]. rewrite Hp. cbn [rbind Z.eqb app doprnt_loop]. rewrite app_nil_r. eexists. split; [done|]. unfold strtol. rewrite Hs. apply Z.eqb_neq in H45. rewrite H45, Hpb, Hd.
    f_equal. apply swrap_small; lia.
  - assert (u32 (- n) = - n) as -> by (apply uwrap_small; lia). rewrite Hp. cbn [rbind Z.eqb app doprnt_loop]. rewrite app_nil_r. eexists. split; [done|].
    unfold strtol. cbn [skip_spaces]. change (isspace 45) with false. cbv iota. unfold char_at. cbn [nth Z.eqb Pos.eqb drop].
    rewrite drop_0, Hpb, Hd. f_equal. destruct (decide (n = - 2 ^ 31)) as [->|]; [done|]. rewrite (swrap_small 32 (- n)) by lia.
    rewrite Z.opp_involutive. apply swrap_small; lia.
Qed.

(** Strtoul reads back what printf prints with %o, %u and %x, for every
    [unsigned] and in the base of the conversion, and consumes all of it. *)
Theorem printf_strtoul_roundtrip c base u : (c, base) ∈ [(111, 8); (117, 10); (120, 16)] -> 0 <= u < 2 ^ 32 ->
  exists out, _doprnt str [37; c] [u] 0 = Ok out /\ strtoul out base = (u, []).
Proof.
  intros Hc Hu.
  assert (2 <= base <= 16) as Hb by (repeat (apply elem_of_cons in Hc as [[= -> ->]|Hc]; [lia|]); by apply elem_of_nil in Hc).
  destruct (number_loop_u32 u base [] Hb Hu) as (ds & E & Hne & HF & Hv). rewrite app_nil_r in E.
  assert (_doprnt str [37; c] [u] 0 = let? o := print_unsigned (mk_spec (mk_flags false false 0) 32 0 (-1)) u base in Ok (o ++ [])) as Ed.
  { repeat (apply elem_of_cons in Hc as [[= -> ->]|Hc]; [rewrite doprnt_one by done; unfold convert; simpl va_arg; cbn [rbind Z.eqb Pos.eqb orb];
      by destruct (print_unsigned _ _ _)|]). by apply elem_of_nil in Hc. }
  rewrite Ed. unfold print_unsigned, print_num. rewrite (uwrap_small 32 u) by lia. rewrite (uwrap_small 32 base) by lia. rewrite E.
  cbn [sp_flags altfmt]. rewrite andb_false_r. cbn [rbind sp_prec sp_length sp_padc].
  assert (pad (-1 - Z.of_nat (length (map digit_char ds))) 48 = []) as -> by (unfold pad; by rewrite Z2Nat.nonpos by lia).
  change (32 =? 32) with true. change (32 =? 48) with false. cbn [andb negb ladjust app].
  match goal with |- context [pad ?l 32] => replace (pad l 32) with (@nil Z) end.
  2: { unfold pad. rewrite Z2Nat.nonpos; [done|]. destruct (Z.ltb_spec 0 (-1 - Z.of_nat (length (map digit_char ds)))); simpl; lia. }
  cbn [app Z.eqb]. rewrite !app_nil_r. eexists. split; [done|].
  destruct (strtol_digits base ds Hb HF Hne) as (Hs & _ & Hpb). unfold strtoul. rewrite Hs, Hpb.
  pose proof (digits_loop_ok u32 base 0 ds [] u32_modular ltac:(lia) HF ltac:(done) eq_refl) as Hd. rewrite app_nil_r, Hv in Hd.
  rewrite Hd. f_equal. by apply uwrap_small.
Qed.

(** A numeric conversion never prints fewer characters than its field
    width, and no more than the width and the number with its sign, prefix
    and precision need. *)
Theorem print_num_width sp sc u base out : sp_padc sp = 32 \/ sp_padc sp = 48 -> print_num sp sc u base = Ok out ->
  exists ds, number_loop MAXBUF u (u32 base) [] = Ok ds /\
    let prefix := if negb (u =? 0) && altfmt (sp_flags sp) then (if base =? 8 then 1 else if base =? 16 then 2 else 0) else 0 in
    Z.of_nat (length out) = Z.max (sp_length sp) ((if sc =? 0 then 0 else 1) + prefix + Z.max (sp_prec sp) (Z.of_nat (length ds))).
Proof.
  intros Hpad. unfold print_num. destruct (number_loop MAXBUF u (u32 base) []) as [ds|] eqn:E; [|done]. cbn [rbind]. intros [= <-].
  exists ds. split; [done|]. cbv zeta.
  assert (Z.of_nat (length (if negb (u =? 0) && altfmt (sp_flags sp) then if base =? 8 then [48] else if base =? 16 then [48; 120] else [] else [])) =
    (if negb (u =? 0) && altfmt (sp_flags sp) then (if base =? 8 then 1 else if base =? 16 then 2 else 0) else 0)) as Hpre.
  { destruct (negb (u =? 0) && altfmt (sp_flags sp)); [|done]. destruct (base =? 8); [done|]. by destruct (base =? 16). }
  set (prefix := if _ && _ then _ else []) in *. rewrite <- Hpre. clearbody prefix. clear Hpre.
  rewrite !length_app. unfold pad.
  destruct Hpad as [-> | ->]; [change (32 =? 32) with true; change (32 =? 48) with false|change (48 =? 32) with false; change (48 =? 48) with true];
    destruct (ladjust (sp_flags sp)); cbn [andb negb]; rewrite ?length_replicate; destruct (sc =? 0); cbn [length];
    destruct (Z.ltb_spec 0 (sp_prec sp - Z.of_nat (length ds))); lia.
Qed.

(** A string cut by its precision and adjusted to the left in a wider field
    is printed one character too short: the field gets [length - 1]
    characters (doprnt.c:365). *)
Theorem print_string_short sp s : ladjust (sp_flags sp) = true -> 0 <= sp_prec sp < Z.of_nat (length s) ->
  sp_prec sp + 1 < sp_length sp -> Z.of_nat (length (print_string sp s)) = sp_length sp - 1.
Proof.
  intros Hl Hp Hw. unfold print_string. destruct (Z.eqb_spec (sp_prec sp) (-1)); [lia|]. rewrite Hl, andb_false_r, andb_true_r.
  destruct (Z.ltb_spec (sp_prec sp) (Z.of_nat (length s))); [|lia]. destruct (Z.ltb_spec 0 (Z.of_nat (length s))); [|lia]. cbn [andb app].
  destruct (Z.ltb_spec (Z.max 0 (sp_prec sp) + 1) (sp_length sp)); [|lia].
  destruct (Z.leb_spec (Z.of_nat (length s)) (sp_prec sp)); [lia|]. unfold pad. rewrite length_app, length_take, length_replicate. lia.
Qed.

(** The characters kept by savechar. *)
Lemma savechar_fold out st : sp_max st <> SPRINTF_UNLIMITED -> 0 <= sp_len st <= sp_max st -> sp_max st < 2 ^ 32 ->
  let st' := fold_left savechar out st in
  let n := Nat.min (length out) (Z.to_nat (sp_max st - sp_len st)) in
  sp_len st' = sp_len st + Z.of_nat n /\ sp_buf st' = sp_buf st + Z.of_nat n /\ sp_max st' = sp_max st /\
  (forall x, load8 (sp_mem st') x = if decide (sp_buf st <= x < sp_buf st + Z.of_nat n) then u8 (nth (Z.to_nat (x - sp_buf st)) out 0) else load8 (sp_mem st) x).
Proof.
  revert st. induction out as [|c out IH]; intros st Hm Hl Hmx; cbn [fold_left length].
  - split_and!; try lia. intros x. by rewrite decide_False by lia.
  - destruct (decide (sp_len st = sp_max st)) as [E|E].
    + assert (savechar st c = st) as -> by (unfold savechar; apply Z.eqb_neq in Hm; by rewrite Hm, E, Z.eqb_refl).
      destruct (IH st Hm Hl Hmx) as (H1 & H2 & H3 & H4). rewrite E, Z.sub_diag in *. change (Z.to_nat 0) with 0%nat in *. rewrite Nat.min_0_r in *.
      split_and!; [done..|]. intros x. rewrite H4. by rewrite !decide_False by lia.
    + assert (savechar st c = mk_sprintf (store8 (sp_mem st) (sp_buf st) c) (sp_buf st + 1) (sp_len st + 1) (sp_max st)) as ->.
      { unfold savechar. apply Z.eqb_neq in E. rewrite E, andb_false_r. f_equal. apply Z.eqb_neq in E. apply uwrap_small. lia. }
      destruct (IH (mk_sprintf (store8 (sp_mem st) (sp_buf st) c) (sp_buf st + 1) (sp_len st + 1) (sp_max st))) as (H1 & H2 & H3 & H4);
        [done|simpl; lia|done|]. cbn [sp_len sp_buf sp_max sp_mem] in *. split_and!; [lia|lia|done|]. intros x. rewrite H4, load8_store8.
      repeat case_decide; try lia; try done.
      * replace (Z.to_nat (x - sp_buf st)) with (S (Z.to_nat (x - (sp_buf st + 1)))) by lia. done.
      * replace (x - sp_buf st) with 0 by lia. done.
Qed.

(** C31: vsnprintf stores at most [size] characters and returns how many, and
    then stores the final zero after them: when the output has [size]
    characters or more it writes the byte after the [size] bytes it was
    given (sprintf.c:90). *)
Theorem vsnprintf_writes m s size fmt args out : 0 <= size < SPRINTF_UNLIMITED -> _doprnt str fmt args 0 = Ok out ->
  exists m', let n := Nat.min (length out) (Z.to_nat size) in
    vsnprintf str m s size fmt args = Ok (Z.of_nat n, m') /\
    (forall i, 0 <= i < Z.of_nat n -> load8 m' (s + i) = u8 (nth (Z.to_nat i) out 0)) /\
    load8 m' (s + Z.of_nat n) = 0 /\
    (size <= Z.of_nat (length out) -> load8 m' (s + size) = 0) /\
    forall x, x < s \/ s + Z.of_nat n < x -> load8 m' x = load8 m x.
Proof.
  intros Hs E. assert (SPRINTF_UNLIMITED < 2 ^ 31) as Hlim by done. unfold vsnprintf, vsprintf_max. rewrite E. cbn [rbind]. rewrite (uwrap_small 32) by lia.
  destruct (savechar_fold out (mk_sprintf m s 0 size)) as (H1 & H2 & H3 & H4); cbn [sp_max sp_len]; [lia..|].
  cbn [sp_max sp_len sp_buf sp_mem] in *. rewrite Z.sub_0_r in *. eexists. split; [|split_and!].
  - rewrite H1. f_equal. f_equal. apply swrap_small; lia.
  - intros i Hi. rewrite load8_store8_ne, H4, decide_True by lia. do 3 f_equal. lia.
  - rewrite H2. apply load8_store8_eq.
  - intros Hle. rewrite H2. rewrite Nat.min_r by lia. rewrite Z2Nat.id by lia. apply load8_store8_eq.
  - intros x Hx. rewrite load8_store8_ne, H4, decide_False by lia. done.
Qed.

(** Vprintf's buffer is transparent: the bytes it sends to the console,
    call after call, are the characters of the formatted output in order, and
    no call sends more than its 128-byte buffer. *)
Theorem vprintf_transparent fmt args out : _doprnt str fmt args 0 = Ok out ->
  exists calls, vprintf str fmt args = Ok calls /\ concat calls = out /\ Forall (fun l => (length l <= PRINTF_BUFMAX)%nat) calls.
Proof.
  intros E. unfold vprintf. rewrite E. cbn [rbind].
  assert (forall l st, (length (pf_buf st) <= PRINTF_BUFMAX)%nat -> Forall (fun l => (length l <= PRINTF_BUFMAX)%nat) (pf_calls st) ->
    let st' := fold_left printf_char l st in
    concat (pf_calls st') ++ pf_buf st' = concat (pf_calls st) ++ pf_buf st ++ l /\ (length (pf_buf st') <= PRINTF_BUFMAX)%nat /\
    Forall (fun l => (length l <= PRINTF_BUFMAX)%nat) (pf_calls st')) as Hfold.
  { induction l as [|c l IH]; intros st Hb Hc; cbn [fold_left]; [by rewrite app_nil_r|].
    destruct ((c =? 0) || (c =? 10) || (PRINTF_BUFMAX <=? length (pf_buf st))%nat) eqn:Eb.
    - assert (printf_char st c = mk_printf [] ((pf_calls st ++ [pf_buf st]) ++ [[c]])) as -> by (unfold printf_char; by rewrite Eb).
      destruct (IH (mk_printf [] ((pf_calls st ++ [pf_buf st]) ++ [[c]]))) as (H1 & H2 & H3); [simpl; lia| |].
      + cbn [pf_calls]. rewrite !Forall_app. split_and!; [done|by apply Forall_singleton|apply Forall_singleton; unfold PRINTF_BUFMAX; simpl; lia].
      + split_and!; [|done|done]. rewrite H1. cbn [pf_calls pf_buf app]. rewrite !concat_app. simpl. rewrite !app_nil_r, <- !app_assoc. done.
    - assert (printf_char st c = mk_printf (pf_buf st ++ [c]) (pf_calls st)) as -> by (unfold printf_char; by rewrite Eb).
      apply orb_false_iff in Eb as [_ Hlt%Nat.leb_gt]. destruct (IH (mk_printf (pf_buf st ++ [c]) (pf_calls st))) as (H1 & H2 & H3); [|done|].
      + cbn [pf_buf]. rewrite length_app. simpl. lia.
      + split_and!; [|done|done]. rewrite H1. cbn [pf_calls pf_buf]. by rewrite <- !app_assoc. }
  destruct (Hfold out (mk_printf [] [])) as (H1 & H2 & H3); [simpl; lia|constructor|]. cbn [pf_calls pf_buf concat app] in H1.
  eexists. split; [done|]. case_bool_decide as Eb; [rewrite Eb, app_nil_r in H1; done|]. unfold flush. cbn [pf_calls].
  split; [by rewrite concat_app; simpl; rewrite app_nil_r|]. apply Forall_app. split; [done|by apply Forall_singleton].
Qed.
End Properties.

(** ** Concrete uses *)

Definition no_strings (a : Z) : list Z := [].

Lemma printf_strtol_roundtrip_witness : exists out, _doprnt no_strings [37; 100] [-42] 0 = Ok out /\ strtol out 10 = (-42, []).
Proof. apply (printf_strtol_roundtrip no_strings (-42)). lia. Defined.

Lemma printf_strtoul_roundtrip_witness : exists out, _doprnt no_strings [37; 120] [0xdeadbeef] 0 = Ok out /\ strtoul out 16 = (0xdeadbeef, []).
Proof. apply (printf_strtoul_roundtrip no_strings 120 16 0xdeadbeef); [do 2 apply list_elem_of_further; apply list_elem_of_here|lia]. Defined.

Lemma print_num_width_witness :
  exists out, print_num (mk_spec (mk_flags false false 0) 48 6 (-1)) 45 42 10 = Ok out /\ length out = 6%nat.
Proof.
  destruct (print_num (mk_spec (mk_flags false false 0) 48 6 (-1)) 45 42 10) as [out|e] eqn:E; [|vm_compute in E; discriminate E].
  exists out. split; [reflexivity|].
  destruct (print_num_width (mk_spec (mk_flags false false 0) 48 6 (-1)) 45 42 10 out (or_intror eq_refl) E) as (ds & Ed & Hw).
  vm_compute in Ed. injection Ed as <-. cbv zeta in Hw. apply Nat2Z.inj. rewrite Hw. reflexivity.
Defined.

Lemma print_string_short_witness :
  Z.of_nat (length (print_string (mk_spec (mk_flags false true 0) 32 6 1) [97; 98])) = 5.
Proof. apply (print_string_short (mk_spec (mk_flags false true 0) 32 6 1) [97; 98]); [reflexivity|simpl; lia|simpl; lia]. Defined.

Lemma vsnprintf_writes_witness :
  exists m', vsnprintf no_strings (store8 ∅ 103 7) 100 3 [97; 98; 99; 100] [] = Ok (3, m') /\ load8 m' 103 = 0.
Proof.
  destruct (vsnprintf_writes no_strings (store8 ∅ 103 7) 100 3 [97; 98; 99; 100] [] [97; 98; 99; 100]) as (m' & E & _ & _ & H & _).
  - unfold SPRINTF_UNLIMITED. lia.
  - reflexivity.
  - exists m'. split; [exact E|]. apply H. simpl. lia.
Defined.

Lemma vprintf_transparent_witness : exists calls, vprintf no_strings [97; 10; 98] [] = Ok calls /\ concat calls = [97; 10; 98].
Proof. destruct (vprintf_transparent no_strings [97; 10; 98] [] [97; 10; 98] eq_refl) as (calls & E & H & _). exists calls. split; [exact E|exact H]. Defined.

(** Strtol does not skip a plus sign: it returns 0 for "+5" and leaves the
    sign unread (strtol.c:30). *)
Theorem strtol_plus_sign : strtol [43; 53] 10 = (0, [43; 53]).
Proof. reflexivity. Qed.
