(* ===== verification/Div64.v ===== *)
(** * 64-bit division (shared/div64.c)

    [do_div64] on 32-bit halves with the i386 shift and divide instructions,
    and that it divides, except by divisors on which it raises a divide
    error. *)

From S2P Require Import Prelude.

Local Open Scope res_scope.

(** [bsr]: the position of the highest bit. *)
Definition hard_bsr (n : Z) : Z := Z.log2 n.

(** [shrdl %0,%1; shrl; testb $32]: counts are taken modulo 32 by the
    instructions, and a count of 32 is done by the moves. *)
Definition shrd (hi lo n : Z) : Z := u32 (Z.shiftr (hi * 2 ^ 32 + lo) (n mod 32)).
Definition shr (a n : Z) : Z := Z.shiftr a (n mod 32).
Definition rshift64 (x1 x0 n : Z) : Z * Z :=
  let x0 := shrd x1 x0 n in
  let x1 := shr x1 n in
  if Z.land n 32 =? 0 then (x1, x0) else (0, x1).
Definition rshift64_32 (x1 x0 n : Z) : Z :=
  let x0 := shrd x1 x0 n in
  if Z.land n 32 =? 0 then x0 else x1.

(** [divl]: remainder and quotient; a null divisor or a quotient that does not
    fit raises a divide error. *)
Definition div64_32 (x1 x0 y : Z) : result (Z * Z) :=
  let x := x1 * 2 ^ 32 + x0 in
  if (y =? 0) || (2 ^ 32 <=? x / y) then Err Faulted else Ok (x mod y, x / y).

(** [while (r >= y)]; each round takes [y] off [r]. *)
Fixpoint correct_loop (fuel : nat) (r y x0 : Z) : result (Z * Z) :=
  match fuel with
  | O => Err Diverged
  | S fuel' => if y <=? r then correct_loop fuel' (u64 (r - y)) y (u32 (x0 + 1)) else Ok (x0, r)
  end.

(** The quotient and the remainder. *)
Definition do_div64 (x y : Z) : result (Z * Z) :=
  let y1 := u32 (Z.shiftr y 32) in
  let y0 := u32 (Z.land y 0xffffffff) in
  let x1 := u32 (Z.shiftr x 32) in
  let x0 := u32 (Z.land x 0xffffffff) in
  if negb (y1 =? 0) then
    let l := u32 (hard_bsr y1 + 1) in
    let y0 := rshift64_32 y1 y0 l in
    let '(x1, x0) := rshift64 x1 x0 l in
    let? '(_, x0) := div64_32 x1 x0 (u32 (y0 + 1)) in
    let r := u64 (x - u64 (y * x0)) in
    correct_loop (S (Z.to_nat (r / y))) r y x0
  else if x1 <? y0 then
    let? '(rem, x0) := div64_32 x1 x0 y0 in Ok (x0, rem)
  else if negb (y0 =? 0) then
    let? '(x2, x1) := div64_32 0 x1 y0 in
    let? '(x2, x0) := div64_32 x2 x0 y0 in
    Ok (u64 (Z.shiftl x1 32 + x0), x2)
  else Ok (0, x).

Section Correct.
Lemma halves x : 0 <= x < 2 ^ 64 ->
  u32 (Z.shiftr x 32) = x / 2 ^ 32 /\ u32 (Z.land x 0xffffffff) = x mod 2 ^ 32 /\ x / 2 ^ 32 * 2 ^ 32 + x mod 2 ^ 32 = x /\
  0 <= x / 2 ^ 32 < 2 ^ 32 /\ 0 <= x mod 2 ^ 32 < 2 ^ 32.
Proof.
  intros Hx. assert (0 <= x / 2 ^ 32 < 2 ^ 32) as Hh by (split; [apply Z.div_pos; lia|apply Z.div_lt_upper_bound; lia]).
  pose proof (Z.mod_pos_bound x (2 ^ 32) ltac:(lia)). rewrite Z.shiftr_div_pow2 by lia.
  change 0xffffffff with (Z.ones 32). rewrite Z.land_ones by lia. rewrite !uwrap_small by done.
  pose proof (Z.div_mod x (2 ^ 32)). lia.
Qed.

Lemma count_below_32 l : 0 < l < 32 -> Z.land l 32 = 0.
Proof.
  intros Hl. apply Z.bits_inj'. intros i Hi. rewrite Z.land_spec, Z.bits_0. change 32 with (2 ^ 5). rewrite Z.pow2_bits_eqb by lia.
  destruct (Z.eqb_spec 5 i) as [<-|]; [|apply andb_false_r]. rewrite andb_true_r. apply Z.bits_above_log2; [lia|]. apply Z.log2_lt_pow2; lia.
Qed.

(** The shifts, for a count from 1 to 32. *)
Lemma rshift64_ok x1 x0 l : 0 <= x1 < 2 ^ 32 -> 0 <= x0 < 2 ^ 32 -> 1 <= l <= 32 ->
  let '(h, lo) := rshift64 x1 x0 l in h * 2 ^ 32 + lo = (x1 * 2 ^ 32 + x0) / 2 ^ l /\ 0 <= lo < 2 ^ 32 /\ 0 <= h.
Proof.
  intros H1 H0 Hl. unfold rshift64, shrd, shr. destruct (decide (l = 32)) as [->|].
  - change (Z.land 32 32 =? 0) with false. cbv iota. change (32 mod 32) with 0. rewrite Z.shiftr_0_r.
    rewrite Z.mul_comm, Z.div_add_l, (Z.div_small x0) by lia. lia.
  - rewrite Z.mod_small, count_below_32 by lia.
    simpl Z.eqb. cbv iota. rewrite !Z.shiftr_div_pow2 by lia. unfold uwrap. set (x := x1 * 2 ^ 32 + x0).
    assert (x1 / 2 ^ l = x / 2 ^ 32 / 2 ^ l) as -> by (f_equal; unfold x; rewrite Z.div_add_l, (Z.div_small x0) by lia; lia).
    rewrite Z.div_div, (Z.mul_comm (2 ^ 32)), <- Z.div_div by lia.
    pose proof (Z.div_mod (x / 2 ^ l) (2 ^ 32)). pose proof (Z.mod_pos_bound (x / 2 ^ l) (2 ^ 32)). split; [lia|]. split; [lia|].
    apply Z.div_pos; [apply Z.div_pos|]; lia.
Qed.

Lemma rshift64_32_low x1 x0 l : 0 <= x1 < 2 ^ 32 -> 0 <= x0 < 2 ^ 32 -> 1 <= l <= 32 -> (x1 * 2 ^ 32 + x0) / 2 ^ l < 2 ^ 32 ->
  rshift64_32 x1 x0 l = (x1 * 2 ^ 32 + x0) / 2 ^ l.
Proof.
  intros H1 H0 Hl Hs. pose proof (rshift64_ok x1 x0 l H1 H0 Hl) as H. unfold rshift64, rshift64_32 in *.
  destruct (Z.land l 32 =? 0) eqn:E.
  - assert (shr x1 l = 0); [|lia]. destruct H as (H & ? & ?). lia.
  - assert (shr x1 l = x1); [|lia]. assert (l = 32) as ->; [|unfold shr; apply Z.shiftr_0_r].
    destruct (decide (l = 32)) as [|Hne]; [done|]. by rewrite count_below_32 in E by lia.
Qed.

Lemma correct_loop_ok fuel r y q : 2 ^ 32 <= y < 2 ^ 64 -> 0 <= r < 2 ^ 64 -> 0 <= q -> q + r / y < 2 ^ 32 -> r / y < Z.of_nat fuel ->
  correct_loop fuel r y q = Ok (q + r / y, r mod y).
Proof.
  intros Hy. revert r q. induction fuel as [|fuel IH]; intros r q Hr Hq Hs Hf; [pose proof (Z.div_pos r y); lia|]. cbn [correct_loop].
  destruct (Z.leb_spec y r).
  - assert (r / y = (r - y) / y + 1) as E by (rewrite <- Z.div_add by lia; f_equal; lia). pose proof (Z.div_pos (r - y) y).
    rewrite (uwrap_small 64 (r - y)), (uwrap_small 32 (q + 1)) by lia. rewrite IH by lia. f_equal. f_equal; [lia|].
    rewrite <- (Z.mod_add (r - y) 1 y) by lia. f_equal. lia.
  - rewrite Z.div_small, Z.mod_small by lia. do 2 f_equal. lia.
Qed.

(** What the divisor must not be: its 32 leading bits all ones. *)
Definition leading_bits (y : Z) : Z := Z.shiftr y (Z.log2 y - 31).

(** A divisor of one word: one or two divisions. *)
Lemma do_div64_small x y : 0 <= x < 2 ^ 64 -> 0 < y < 2 ^ 32 -> do_div64 x y = Ok (x / y, x mod y).
Proof.
  intros Hx Hy. unfold do_div64. destruct (halves x Hx) as (-> & -> & Ex & Hx1 & Hx0). destruct (halves y) as (-> & -> & Ey & Hy1 & Hy0); [lia|].
  set (x1 := x / 2 ^ 32) in *. set (x0 := x mod 2 ^ 32) in *. set (y1 := y / 2 ^ 32) in *. set (y0 := y mod 2 ^ 32) in *.
  assert (y1 = 0) as Ey1 by (apply Z.div_small; lia). destruct (Z.eqb_spec y1 0); [|done]. simpl negb; cbv iota.
  assert (y = y0) as Ey0 by lia. destruct (Z.ltb_spec x1 y0).
  - unfold div64_32. rewrite Ex. destruct (Z.eqb_spec y0 0); [lia|]. assert (x / y0 < 2 ^ 32) by (apply Z.div_lt_upper_bound; lia).
    destruct (Z.leb_spec (2 ^ 32) (x / y0)); [lia|]. cbn. by rewrite Ey0.
  - destruct (Z.eqb_spec y0 0); [lia|]. simpl negb. cbv iota. unfold div64_32. rewrite Z.mul_0_l, Z.add_0_l. destruct (Z.eqb_spec y0 0); [lia|].
    pose proof (Z.mod_pos_bound x1 y0 ltac:(lia)). pose proof (Z.div_mod x1 y0 ltac:(lia)).
    assert (0 <= x1 / y0 < 2 ^ 32) as Hq by (split; [apply Z.div_pos; lia|apply Z.div_lt_upper_bound; nia]).
    destruct (Z.leb_spec (2 ^ 32) (x1 / y0)); [lia|]. cbn [orb rbind].
    assert (0 <= (x1 mod y0 * 2 ^ 32 + x0) / y0 < 2 ^ 32) as Hq2 by (split; [apply Z.div_pos; lia|apply Z.div_lt_upper_bound; lia]).
    destruct (Z.leb_spec (2 ^ 32) ((x1 mod y0 * 2 ^ 32 + x0) / y0)); [lia|]. cbn [orb rbind].
    assert (x = (x1 / y0 * 2 ^ 32) * y0 + (x1 mod y0 * 2 ^ 32 + x0)) as Exd by lia.
    rewrite Z.shiftl_mul_pow2, uwrap_small by lia. rewrite Ey0. f_equal. f_equal.
    + rewrite Exd, Z.div_add_l by lia. done.
    + rewrite Exd, (Z.add_comm (x1 / y0 * 2 ^ 32 * y0)), Z.mod_add by lia. done.
Qed.

(** A divisor of two words: a first quotient from the leading bits, corrected. *)
Lemma do_div64_large x y : 0 <= x < 2 ^ 64 -> 2 ^ 32 <= y < 2 ^ 64 -> leading_bits y <> 2 ^ 32 - 1 -> do_div64 x y = Ok (x / y, x mod y).
Proof.
  intros Hx Hy Hlead. unfold do_div64. destruct (halves x Hx) as (-> & -> & Ex & Hx1 & Hx0). destruct (halves y) as (-> & -> & Ey & Hy1 & Hy0); [lia|].
  set (x1 := x / 2 ^ 32) in *. set (x0 := x mod 2 ^ 32) in *. set (y1 := y / 2 ^ 32) in *. set (y0 := y mod 2 ^ 32) in *.
  assert (y1 <> 0) as Ey1 by (pose proof (Z.div_le_lower_bound y (2 ^ 32) 1); unfold y1; lia). destruct (Z.eqb_spec y1 0); [done|]. simpl negb; cbv iota.
  unfold hard_bsr. set (l := Z.log2 y1 + 1). assert (0 <= Z.log2 y1 < 32) as Hlg by (split; [apply Z.log2_nonneg|apply Z.log2_lt_pow2; lia]).
  assert (u32 l = l) as -> by (apply uwrap_small; unfold l; lia).
  assert (2 ^ (l - 1) <= y1 < 2 ^ l) as Hy1l by (unfold l; rewrite Z.add_simpl_r; apply Z.log2_spec; lia).
  assert (2 ^ (l + 31) <= y < 2 ^ (l + 32)) as Hyl.
  { replace (l + 31) with (l - 1 + 32) by lia. rewrite !Z.pow_add_r by lia. lia. }
  assert (leading_bits y = y / 2 ^ l) as Hlb.
  { unfold leading_bits. rewrite (Z.log2_unique y (l + 31)) by (replace (Z.succ (l + 31)) with (l + 32) by lia; unfold l in *; lia).
    rewrite Z.shiftr_div_pow2 by (unfold l in *; lia). do 2 f_equal. lia. }
  assert (0 < 2 ^ l) as Hpl by (unfold l in *; lia).
  assert (2 ^ 31 <= y / 2 ^ l < 2 ^ 32) as Hyq.
  { rewrite !Z.pow_add_r in Hyl by (unfold l in *; lia). split; [apply Z.div_le_lower_bound; lia|apply Z.div_lt_upper_bound; lia]. }
  rewrite rshift64_32_low by (rewrite ?Ey; unfold l in *; lia). rewrite Ey.
  pose proof (rshift64_ok x1 x0 l Hx1 Hx0 ltac:(unfold l in *; lia)) as Hsh. destruct (rshift64 x1 x0 l) as [h lo]. rewrite Ex in Hsh.
  destruct Hsh as (Ehl & Hlo & Hh). rewrite Hlb in Hlead. rewrite (uwrap_small 32) by lia. set (yq := y / 2 ^ l) in *.
  unfold div64_32. rewrite Ehl. destruct (Z.eqb_spec (yq + 1) 0); [lia|].
  pose proof (Z.div_mod y (2 ^ l)) as Hyd. pose proof (Z.mod_pos_bound y (2 ^ l)) as Hym. fold yq in Hyd.
  pose proof (Z.div_mod x (2 ^ l)) as Hxd. pose proof (Z.mod_pos_bound x (2 ^ l)) as Hxm. set (xq := x / 2 ^ l) in *.
  assert (0 <= xq) by (apply Z.div_pos; lia). set (q0 := xq / (yq + 1)).
  assert (0 <= q0) by (apply Z.div_pos; lia). pose proof (Z.div_mod xq (yq + 1)) as Hq. fold q0 in Hq. pose proof (Z.mod_pos_bound xq (yq + 1)).
  assert (q0 * y <= x) as Hqy.
  { assert (q0 * y <= q0 * ((yq + 1) * 2 ^ l)) by (apply Z.mul_le_mono_nonneg_l; lia).
    assert (q0 * (yq + 1) * 2 ^ l <= xq * 2 ^ l) by (apply Z.mul_le_mono_nonneg_r; lia). lia. }
  assert (x / y < 2 ^ 32) as Hxy. { apply Z.div_lt_upper_bound; [lia|]. assert (2 ^ 32 <= y) by (unfold y1 in *; lia). nia. }
  assert (q0 <= x / y) as Hq0 by (apply Z.div_le_lower_bound; lia).
  destruct (Z.leb_spec (2 ^ 32) q0); [lia|]. cbn [orb rbind].
  rewrite (uwrap_small 64 (y * q0)) by lia. rewrite (uwrap_small 64) by lia.
  assert ((x - y * q0) / y = x / y - q0) as Er. { replace (x - y * q0) with (x + - q0 * y) by lia. rewrite Z.div_add by lia. lia. }
  rewrite correct_loop_ok; try lia. f_equal. f_equal; [lia|]. replace (x - y * q0) with (x + - q0 * y) by lia. by rewrite Z.mod_add by lia.
Qed.

(** C40: do_div64 returns the quotient and the remainder of any two 64-bit
    numbers when the divisor is not null and is below 2^32 or has a zero among
    its 32 leading bits. *)
Theorem do_div64_correct x y : 0 <= x < 2 ^ 64 -> 0 < y < 2 ^ 64 -> y < 2 ^ 32 \/ leading_bits y <> 2 ^ 32 - 1 ->
  do_div64 x y = Ok (x / y, x mod y).
Proof.
  intros Hx Hy Hlead. destruct (Z.lt_ge_cases y (2 ^ 32)); [apply do_div64_small; lia|].
  destruct Hlead; [lia|]. apply do_div64_large; [done|lia|done].
Qed.

(** When the 32 leading bits of the divisor are all ones, do_div64 adds one
    to them, gets 0, and divides by it: the processor raises a divide error
    (div64.c:39). *)
Theorem do_div64_divide_error x : 0 <= x < 2 ^ 64 -> do_div64 x 0x1ffffffff = Err Faulted.
Proof. intros Hx. unfold do_div64. destruct (halves x Hx) as (-> & -> & _). vm_compute (negb _). cbv iota. destruct (rshift64 _ _ _). reflexivity. Qed.
End Correct.

Lemma do_div64_correct_witness : do_div64 (2 ^ 63 + 5) (2 ^ 33 + 1) = Ok ((2 ^ 63 + 5) / (2 ^ 33 + 1), (2 ^ 63 + 5) mod (2 ^ 33 + 1)).
Proof. apply (do_div64_correct (2 ^ 63 + 5) (2 ^ 33 + 1)); [lia|lia|]. right. vm_compute. discriminate. Defined.

Lemma do_div64_divide_error_witness : do_div64 7 0x1ffffffff = Err Faulted.
Proof. apply (do_div64_divide_error 7). lia. Defined.
