(* ===== verification/Mmu.v ===== *)
(** * Paging (kernel/mmu.c)

    The free list of physical frames, the page directories and page tables,
    and the operations that map, copy and release pages.  The kernel runs with
    the first 256 MB identity mapped (see [EarlyMm]), so the pointers it
    follows here are physical addresses; the first page is not mapped, so a
    null dereference faults. *)

From S2P Require Import Prelude Memory Cstring.

Local Open Scope st_scope.

(** kernel/mmu.h, kernel/consts.h *)
Definition MEMORY_START : Z := 0x04000000.
Definition MEMORY_END : Z := 0x10000000.
Definition PAGE_TABLE_RO : Z := 1.
Definition PAGE_TABLE_RW : Z := 3.
Definition PAGE_TABLE_USER_RO : Z := 5.
Definition PAGE_TABLE_USER_RW : Z := 7.
Definition ONE_GIGABYTE : Z := 0x40000000.
Definition TWO_GIGABYTES : Z := 0x80000000.
Definition THREE_GIGABYTES : Z := 0xC0000000.
Definition sizeof_int : Z := 4.

(** [address & 0xFFFFF000] *)
Definition page_base (a : Z) : Z := Z.land a 0xFFFFF000.
Definition pd_index (va : Z) : Z := Z.shiftr va 22.
Definition pt_index (va : Z) : Z := Z.land (Z.shiftr va 12) 0x3FF.

Record mmu := mk_mmu {
  memory : mem;
  PHYSICAL_MEMORY_HEAD : Z;
  next_virtual_address : Z;
  cr3 : Z
}.

Definition set_memory (m : mem) (s : mmu) : mmu :=
  mk_mmu m (PHYSICAL_MEMORY_HEAD s) (next_virtual_address s) (cr3 s).
Definition set_head (h : Z) (s : mmu) : mmu :=
  mk_mmu (memory s) h (next_virtual_address s) (cr3 s).
Definition set_next_virtual (a : Z) (s : mmu) : mmu :=
  mk_mmu (memory s) (PHYSICAL_MEMORY_HEAD s) a (cr3 s).
Definition set_cr3 (a : Z) (s : mmu) : mmu :=
  mk_mmu (memory s) (PHYSICAL_MEMORY_HEAD s) (next_virtual_address s) a.

Abbreviation MMU := (ST mmu).

(** Word accesses through a kernel pointer. *)
Definition read32 (a : Z) : MMU Z :=
  fun s => if (a <? 4096) then Err Faulted else Ok (load32 (memory s) a, s).
Definition write32 (a v : Z) : MMU unit :=
  fun s => if (a <? 4096) then Err Faulted else Ok (tt, set_memory (store32 (memory s) a v) s).

(** ** The free list *)

(** [address] is an [int *]: [address + 4096] is 4096 ints further. *)
Fixpoint init_free_list_loop (fuel : nat) (address : Z) : MMU Z :=
  match fuel with
  | O => fail Diverged
  | S fuel' =>
      if address + 4096 * sizeof_int <? MEMORY_END
      then do! write32 address (address + 4096 * sizeof_int) in
           init_free_list_loop fuel' (address + 4096 * sizeof_int)
      else ret address
  end.

(** 12288 iterations: one frame every 16 KB between 64 MB and 256 MB. *)
Definition init_free_list : MMU unit :=
  let! address := init_free_list_loop (Z.to_nat 12288) MEMORY_START in
  write32 address 0.

Definition free_physical_memory_address (address : Z) : MMU unit :=
  let! h := gets PHYSICAL_MEMORY_HEAD in
  do! write32 address h in
  modify (set_head address).

Definition allocate_physical_memory_address : MMU Z :=
  let! allocated_address := gets PHYSICAL_MEMORY_HEAD in
  let! h := read32 allocated_address in
  do! modify (set_head h) in
  ret allocated_address.

(** ** Page tables *)

Definition set_table_permission (address pgdir flags : Z) : MMU unit :=
  let pdirectory := pgdir + 4 * pd_index address in
  let! e := read32 pdirectory in
  write32 pdirectory (Z.lor (page_base e) flags).

(** Writes zero to [n] consecutive words. *)
Fixpoint clear_words (n : nat) (a : Z) : MMU unit :=
  match n with
  | O => ret tt
  | S n' => do! write32 a 0 in clear_words n' (a + 4)
  end.

Definition get_ptable_entry_from_virtual_address
    (virtual_address pgdir : Z) (create_if_not_present : bool) (flags : Z) : MMU Z :=
  let! pde := read32 (pgdir + 4 * pd_index virtual_address) in
  let ptable := page_base pde in
  let! ptable :=
    if (ptable =? 0) then
      if negb create_if_not_present then fail Panicked else
      let! ptable := allocate_physical_memory_address in
      if (ptable =? 0) then fail Panicked else
      do! clear_words 1024 ptable in
      do! write32 (pgdir + 4 * pd_index virtual_address) (Z.lor (page_base ptable) flags) in
      ret ptable
    else ret ptable in
  do! (if (create_if_not_present && negb (flags =? 0))
       then set_table_permission virtual_address pgdir flags else ret tt) in
  ret (ptable + 4 * pt_index virtual_address).

Definition map_page_from_virtual_address (pdir virtual_address flags : Z) : MMU unit :=
  let! ptable_entry := get_ptable_entry_from_virtual_address virtual_address pdir true flags in
  let! h := gets PHYSICAL_MEMORY_HEAD in
  do! write32 ptable_entry (Z.lor (page_base h) flags) in
  let! next_physical_memory_head := read32 h in
  modify (set_head next_physical_memory_head).

(** [for (total = 0; total <= size; total += 4096)]; [n] bounds the passes. *)
Fixpoint map_region_loop (n : nat) (pdir initial flags size total : Z) : MMU unit :=
  match n with
  | O => fail Diverged
  | S n' =>
      if total <=? size then
        do! map_page_from_virtual_address pdir (u32 (initial + total)) flags in
        map_region_loop n' pdir initial flags size (u32 (total + 4096))
      else ret tt
  end.

Definition map_region (pdir initial_virtual_address flags size : Z) : MMU unit :=
  map_region_loop (S (Z.to_nat (size / 4096 + 1))) pdir initial_virtual_address flags size 0.

Fixpoint copy_words (n : nat) (dst src : Z) : MMU unit :=
  match n with
  | O => ret tt
  | S n' => let! w := read32 src in do! write32 dst w in copy_words n' (dst + 4) (src + 4)
  end.

(** The 64 entries of the kernel, then 960 null entries. *)
Definition fill_new_pgdir (pagedir source_pagedir : Z) : MMU unit :=
  do! copy_words 64 pagedir source_pagedir in
  clear_words 960 (pagedir + 4 * 64).

Definition get_current_pagedir : MMU Z := gets cr3.

(** Loop of virtual_malloc after [nb] pages; [initial] is
    [initial_virtual_address]. *)
Fixpoint virtual_malloc_loop (n : nat) (nb size initial : Z) : MMU Z :=
  match n with
  | O => fail Diverged
  | S n' =>
      if nb * 4096 <? size then
        let! allocated_address := allocate_physical_memory_address in
        if (allocated_address =? 0) then ret 0 else
        let initial := if (initial =? 0) then allocated_address else initial in
        let! pd := get_current_pagedir in
        let! ptable_entry := get_ptable_entry_from_virtual_address allocated_address pd true PAGE_TABLE_USER_RW in
        do! write32 ptable_entry (Z.lor (page_base allocated_address) PAGE_TABLE_USER_RW) in
        virtual_malloc_loop n' (nb + 1) size initial
      else ret initial
  end.

Definition virtual_malloc (size : Z) : MMU Z :=
  virtual_malloc_loop (S (Z.to_nat (size / 4096 + 1))) 0 size 0.

Fixpoint virtual_free_loop (n : nat) (address nb size : Z) : MMU unit :=
  match n with
  | O => fail Diverged
  | S n' =>
      if nb * 4096 <? size then
        let! pd := get_current_pagedir in
        let! ptable_entry := get_ptable_entry_from_virtual_address address pd false 0 in
        let! e := read32 ptable_entry in
        let physical_address := page_base e in
        do! free_physical_memory_address physical_address in
        do! write32 ptable_entry (Z.lor (page_base physical_address) PAGE_TABLE_RW) in
        virtual_free_loop n' (u32 (address + 4096)) (nb + 1) size
      else ret tt
  end.

Definition virtual_free (address size : Z) : MMU unit :=
  virtual_free_loop (S (Z.to_nat (size / 4096 + 1))) address 0 size.

Fixpoint pgdir_copy_loop (n : nat) (source_pgdir dest_pgdir source_address dest_address i size : Z) : MMU unit :=
  match n with
  | O => fail Diverged
  | S n' =>
      if i * 4096 <? size then
        let! source_ptable_entry :=
          get_ptable_entry_from_virtual_address (u32 (source_address + 4096 * i)) source_pgdir false 0 in
        let! dest_ptable_entry :=
          get_ptable_entry_from_virtual_address (u32 (dest_address + 4096 * i)) dest_pgdir true PAGE_TABLE_USER_RW in
        let! e := read32 source_ptable_entry in
        do! write32 dest_ptable_entry (Z.lor (page_base e) PAGE_TABLE_USER_RW) in
        pgdir_copy_loop n' source_pgdir dest_pgdir source_address dest_address (i + 1) size
      else ret tt
  end.

Definition pgdir_copy (source_pgdir dest_pgdir source_address dest_address size : Z) : MMU unit :=
  pgdir_copy_loop (S (Z.to_nat (size / 4096 + 1))) source_pgdir dest_pgdir source_address dest_address 0 size.

Definition get_physical_address_from_virtual_address (virtual_address pgdir : Z) : MMU Z :=
  let! ptable_entry := get_ptable_entry_from_virtual_address virtual_address pgdir false 0 in
  let! e := read32 ptable_entry in
  ret (u32 (page_base e + Z.land virtual_address 0xFFF)).

Fixpoint map_region_to_other_region_loop (n : nat) (source_address dest_address : Z) : MMU unit :=
  match n with
  | O => ret tt
  | S n' =>
      let! pd := get_current_pagedir in
      let! source_ptable_entry := get_ptable_entry_from_virtual_address source_address pd false 0 in
      let! dest_ptable_entry := get_ptable_entry_from_virtual_address dest_address pd true PAGE_TABLE_USER_RW in
      let! e := read32 source_ptable_entry in
      do! write32 dest_ptable_entry e in
      map_region_to_other_region_loop n' (u32 (source_address + 4096)) (u32 (dest_address + 4096))
  end.

Definition map_region_to_other_region (source_address dest_address nb_of_pages : Z) : MMU unit :=
  map_region_to_other_region_loop (Z.to_nat nb_of_pages) source_address dest_address.

Definition set_address_permission (address pgdir flags : Z) : MMU unit :=
  let! ptable_entry := get_ptable_entry_from_virtual_address address pgdir true PAGE_TABLE_USER_RW in
  let! e := read32 ptable_entry in
  write32 ptable_entry (Z.lor (page_base e) flags).

(** The message get_permission_of_page prints. *)
Inductive permission := USER_RW | USER_RO | KERNEL_RW | KERNEL_RO | UNKNOWN.
#[export] Instance permission_eq_dec : EqDecision permission.
Proof. solve_decision. Defined.

Definition get_permission_of_page (pgdir virtual_address : Z) : MMU permission :=
  let! ptable := read32 (pgdir + 4 * pd_index virtual_address) in
  let ptable_entry := u32 (ptable + pt_index virtual_address) in
  let flags := Z.land ptable_entry 7 in
  ret (if flags =? PAGE_TABLE_USER_RW then USER_RW
       else if flags =? PAGE_TABLE_USER_RO then USER_RO
       else if flags =? PAGE_TABLE_RW then KERNEL_RW
       else if flags =? PAGE_TABLE_RO then KERNEL_RO
       else UNKNOWN).

Definition allocate_virtual_memory_address : MMU Z :=
  let! allocated_address := gets next_virtual_address in
  do! modify (set_next_virtual (u32 (allocated_address + 4096 * sizeof_int))) in
  ret allocated_address.

(** ** Address arithmetic *)

Lemma page_base_eq a : 0 <= a < 2 ^ 32 -> page_base a = a / 4096 * 4096.
Proof. intros Ha. exact (land_high_mask 32 12 a ltac:(lia) Ha). Qed.

Lemma page_base_aligned a : 0 <= a < 2 ^ 32 -> a mod 4096 = 0 -> page_base a = a.
Proof. intros Ha Hm. rewrite page_base_eq by done. Z.to_euclidean_division_equations. lia. Qed.

(** An entry made of a frame and flags. *)
Lemma entry_add f flags : 0 <= f < 2 ^ 32 -> f mod 4096 = 0 -> 0 <= flags < 4096 ->
  Z.lor (page_base f) flags = f + flags.
Proof. intros. rewrite page_base_aligned by done. by apply (lor_low_add 12). Qed.

Lemma page_base_entry f flags : 0 <= f < 2 ^ 32 -> f mod 4096 = 0 -> 0 <= flags < 4096 ->
  page_base (f + flags) = f.
Proof.
  intros. rewrite page_base_eq; Z.to_euclidean_division_equations; lia.
Qed.

Lemma pd_index_eq va : pd_index va = va / 2 ^ 22.
Proof. unfold pd_index. by rewrite Z.shiftr_div_pow2. Qed.

Lemma pt_index_eq va : pt_index va = va / 2 ^ 12 mod 1024.
Proof. unfold pt_index. rewrite Z.shiftr_div_pow2 by lia. exact (Z.land_ones _ 10 ltac:(lia)). Qed.

Lemma pd_index_range va : 0 <= va < 2 ^ 32 -> 0 <= pd_index va < 1024.
Proof. intros. rewrite pd_index_eq. Z.to_euclidean_division_equations. lia. Qed.

Lemma pt_index_range va : 0 <= pt_index va < 1024.
Proof. rewrite pt_index_eq. apply Z.mod_pos_bound. lia. Qed.

Lemma same_indices va va' : pd_index va = pd_index va' -> pt_index va = pt_index va' ->
  va / 4096 = va' / 4096.
Proof. rewrite !pd_index_eq, !pt_index_eq. Z.to_euclidean_division_equations. lia. Qed.

(** ** What the processor does with the tables *)

(** The page walk of the i386 in [m] with the directory at [pgdir]. *)
Definition translate (m : mem) (pgdir va : Z) : option Z :=
  let pde := load32 m (pgdir + 4 * pd_index va) in
  if Z.testbit pde 0 then
    let pte := load32 m (page_base pde + 4 * pt_index va) in
    if Z.testbit pte 0 then Some (page_base pte + Z.land va 0xFFF) else None
  else None.

(** ** The free list is a list of frames *)

Fixpoint free_list (m : mem) (h : Z) (l : list Z) : Prop :=
  match l with
  | [] => h = 0
  | a :: l' => h = a /\ free_list m (load32 m a) l'
  end.

Definition frame (a : Z) : Prop := 4096 <= a < 2 ^ 32 /\ a mod 4096 = 0.

Lemma free_list_frame m m' h l :
  (forall a, a ∈ l -> load32 m' a = load32 m a) -> free_list m h l -> free_list m' h l.
Proof.
  revert h. induction l as [|a l IH]; intros h Hm; simpl; [done|].
  intros [-> HF]. split; [done|]. rewrite Hm by set_solver. apply IH; set_solver.
Qed.

Lemma free_list_head m h l : free_list m h l -> h = default 0 (head l).
Proof. destruct l; simpl; [done|]. by intros [-> _]. Qed.

(** Frames are pages: a word of one is not a word of another. *)
Lemma frame_disjoint a b i j : frame a -> frame b -> a <> b -> 0 <= i < 1024 -> 0 <= j < 1024 ->
  a + 4 * i + 4 <= b + 4 * j \/ b + 4 * j + 4 <= a + 4 * i.
Proof. unfold frame. intros. Z.to_euclidean_division_equations. lia. Qed.

(** Word [i] of the frame [a]. *)
Definition word (m : mem) (a i : Z) : Z := load32 m (a + 4 * i).

Lemma word_range m a i : 0 <= word m a i < 2 ^ 32.
Proof. apply load32_range. Qed.

Lemma word_0 m a : word m a 0 = load32 m a.
Proof. unfold word. f_equal. lia. Qed.

(** Reading a frame after writing a word of one. *)
Lemma word_store m a i v b j : frame a -> frame b -> 0 <= i < 1024 -> 0 <= j < 1024 ->
  word (store32 m (a + 4 * i) v) b j = if decide (a = b /\ i = j) then u32 v else word m b j.
Proof.
  intros Ha Hb Hi Hj. unfold word. case_decide as E.
  - destruct E as [-> ->]. apply load32_store32_eq.
  - apply load32_store32_ne. destruct (decide (a = b)) as [->|Hab].
    + assert (i <> j) by naive_solver. lia.
    + pose proof (frame_disjoint a b i j Ha Hb Hab Hi Hj). lia.
Qed.

Lemma read32_ok s a : 4096 <= a -> read32 a s = Ok (load32 (memory s) a, s).
Proof. intros. unfold read32. destruct (Z.ltb_spec a 4096); [lia|done]. Qed.

Lemma write32_ok s a v : 4096 <= a -> write32 a v s = Ok (tt, set_memory (store32 (memory s) a v) s).
Proof. intros. unfold write32. destruct (Z.ltb_spec a 4096); [lia|done]. Qed.

Lemma clear_words_ok n a s : 4096 <= a ->
  exists m', clear_words n a s = Ok (tt, set_memory m' s)
    /\ (forall k, 0 <= k < Z.of_nat n -> load32 m' (a + 4 * k) = 0)
    /\ (forall b, b + 4 <= a \/ a + 4 * Z.of_nat n <= b -> load32 m' b = load32 (memory s) b).
Proof.
  revert a s. induction n as [|n IH]; intros a s Ha; simpl.
  - exists (memory s). split_and!; [by destruct s|lia|done].
  - unfold bind. rewrite write32_ok by done.
    destruct (IH (a + 4) (set_memory (store32 (memory s) a 0) s)) as (m' & E & Hin & Hout); [lia|].
    exists m'. split_and!.
    + rewrite E. by destruct s.
    + intros k Hk. destruct (decide (k = 0)) as [->|].
      * rewrite Z.add_0_r, Hout by lia. simpl. by rewrite load32_store32_eq.
      * replace (a + 4 * k) with (a + 4 + 4 * (k - 1)) by lia. apply Hin. lia.
    + intros b Hb. rewrite Hout by lia. simpl. apply load32_store32_ne. lia.
Qed.

(** Clearing a frame. *)
Lemma clear_frame a s : frame a ->
  exists m', clear_words 1024 a s = Ok (tt, set_memory m' s)
    /\ (forall b j, frame b -> 0 <= j < 1024 -> word m' b j = if decide (b = a) then 0 else word (memory s) b j).
Proof.
  intros Ha. destruct (clear_words_ok 1024 a s) as (m' & E & Hin & Hout); [unfold frame in Ha; lia|].
  exists m'. split; [exact E|]. intros b j Hb Hj. unfold word. case_decide as Eb.
  - subst b. apply Hin. lia.
  - apply Hout. unfold frame in *. Z.to_euclidean_division_equations. lia.
Qed.

(** ** Well-formed address spaces

    [WF pd s l]: [pd] is a page directory of [s] whose free frames are [l],
    in order.  Each entry of [pd] is null or present; the tables of the
    present entries are distinct frames, none of which is free or [pd]. *)

Definition table_of (m : mem) (pd i : Z) : Z := page_base (word m pd i).

Record WF (pd : Z) (s : mmu) (l : list Z) : Prop := {
  wf_free : free_list (memory s) (PHYSICAL_MEMORY_HEAD s) l;
  wf_frames : Forall frame l;
  wf_nodup : NoDup l;
  wf_pd : frame pd;
  wf_pd_free : pd ∉ l;
  wf_present : forall i, 0 <= i < 1024 -> word (memory s) pd i <> 0 ->
    Z.testbit (word (memory s) pd i) 0 = true;
  wf_table : forall i, 0 <= i < 1024 -> word (memory s) pd i <> 0 ->
    frame (table_of (memory s) pd i) /\ (table_of (memory s) pd i ∉ l) /\ table_of (memory s) pd i <> pd;
  wf_inj : forall i j, 0 <= i < 1024 -> 0 <= j < 1024 -> i <> j ->
    word (memory s) pd i <> 0 -> word (memory s) pd j <> 0 ->
    table_of (memory s) pd i <> table_of (memory s) pd j
}.

Lemma frame_range a : frame a -> 0 <= a < 2 ^ 32 /\ a mod 4096 = 0.
Proof. unfold frame. lia. Qed.

(** The entry a present page is given. *)
Definition present_flags (flags : Z) : Prop := 0 <= flags < 4096 /\ Z.testbit flags 0 = true.

Lemma testbit0_add f flags : f mod 4096 = 0 -> Z.testbit (f + flags) 0 = Z.testbit flags 0.
Proof.
  intros Hf. rewrite !Z.bit0_odd, Z.odd_add. replace (Z.odd f) with false; [by destruct (Z.odd flags)|].
  symmetry. rewrite (Z.div_mod f 4096), Hf by lia. rewrite Z.add_0_r, Z.odd_mul. done.
Qed.

Lemma free_list_0 m l : free_list m 0 l -> Forall frame l -> l = [].
Proof.
  destruct l as [|a l]; [done|]. intros [<- _] [Ha _]%Forall_cons. unfold frame in Ha. lia.
Qed.

Lemma page_base_0 : page_base 0 = 0.
Proof. reflexivity. Qed.

(** A null entry is the only one whose table is null. *)
Lemma wf_table_0 pd s l i : WF pd s l -> 0 <= i < 1024 ->
  (page_base (word (memory s) pd i) =? 0) = bool_decide (word (memory s) pd i = 0).
Proof.
  intros HW Hi. case_bool_decide as E.
  - by rewrite E.
  - destruct (wf_table _ _ _ HW i Hi E) as [HF _]. unfold frame, table_of in HF.
    apply Z.eqb_neq. lia.
Qed.

Lemma translate_words m pd va :
  translate m pd va =
    if Z.testbit (word m pd (pd_index va)) 0 then
      let pte := word m (table_of m pd (pd_index va)) (pt_index va) in
      if Z.testbit pte 0 then Some (page_base pte + Z.land va 0xFFF) else None
    else None.
Proof. reflexivity. Qed.

(** The state of [s] with other memory and free list. *)
Definition upd (m : mem) (h : Z) (s : mmu) : mmu := mk_mmu m h (next_virtual_address s) (cr3 s).

Section Entry.
Context (pd : Z) (s : mmu) (l : list Z) (va flags : Z).
Hypothesis HW : WF pd s l.
Hypothesis Hva : 0 <= va < 2 ^ 32.
Hypothesis Hflags : present_flags flags.

Let i := pd_index va.
Let pde := word (memory s) pd i.

(** What finding or creating the entry of [va] leaves in the memory, [t]
    being the table. *)
Definition created (m' : mem) (t : Z) : Prop :=
  forall b j, frame b -> 0 <= j < 1024 ->
    word m' b j = if decide (b = pd /\ j = i) then t + flags
                  else if decide (b = t /\ pde = 0) then 0 else word (memory s) b j.

Lemma index_range : 0 <= i < 1024.
Proof. by apply pd_index_range. Qed.

Lemma set_permission_entry s1 t : frame t -> page_base (word (memory s1) pd i) = t ->
  set_table_permission va pd flags s1
    = Ok (tt, set_memory (store32 (memory s1) (pd + 4 * i) (t + flags)) s1).
Proof.
  intros Ht E. pose proof index_range. pose proof (wf_pd _ _ _ HW) as Hpd.
  pose proof (frame_range _ Ht) as [_ Ht0]. destruct Hflags as [Hf _].
  unfold set_table_permission, bind. fold i.
  rewrite read32_ok by (unfold frame in *; lia). rewrite write32_ok by (unfold frame in *; lia).
  change (load32 (memory s1) (pd + 4 * i)) with (word (memory s1) pd i). rewrite E.
  by rewrite (lor_low_add 12).
Qed.

Lemma get_entry_create :
  (pde = 0 -> l <> []) ->
  exists m' t l',
    get_ptable_entry_from_virtual_address va pd true flags s
      = Ok (t + 4 * pt_index va, upd m' (default 0 (head l')) s)
    /\ created m' t /\ frame t
    /\ (if decide (pde = 0) then l = t :: l' else t = page_base pde /\ l' = l).
Proof.
  intros Hl. pose proof index_range as Hi. pose proof (wf_pd _ _ _ HW) as Hpd.
  pose proof (wf_table_0 _ _ _ i HW Hi) as Hz. destruct Hflags as [Hf1 Hf0].
  assert (flags <> 0) as Hf by (intros ->; done).
  pose proof (word_range (memory s) pd i) as Hpde.
  unfold get_ptable_entry_from_virtual_address. unfold bind at 1. fold i.
  rewrite read32_ok by (unfold frame in *; lia).
  change (load32 (memory s) (pd + 4 * i)) with pde. fold pde in Hz. rewrite Hz.
  replace (true && negb (flags =? 0)) with true by (symmetry; apply negb_true_iff; lia).
  case_bool_decide as E0; simpl negb; cbn [negb].
  - assert (exists t l', l = t :: l') as (t & l' & El) by (destruct l; [by destruct Hl|eauto]).
    pose proof (wf_free _ _ _ HW) as HF. pose proof (wf_frames _ _ _ HW) as HFr.
    pose proof (wf_nodup _ _ _ HW) as Hnd. pose proof (wf_pd_free _ _ _ HW) as Hpdl.
    rewrite El in HF, HFr, Hnd, Hpdl. destruct HF as [Hh HF]. apply Forall_cons in HFr as [Ht HFr].
    apply NoDup_cons in Hnd as [Htl Hnd].
    pose proof (frame_range _ Ht) as [Htr Ht0].
    unfold allocate_physical_memory_address, bind, gets, modify, ret. rewrite Hh.
    rewrite read32_ok by (unfold frame in *; lia).
    destruct (Z.eqb_spec t 0) as [->|_]; [unfold frame in Ht; lia|].
    destruct (clear_frame t (set_head (load32 (memory s) t) s) Ht) as (m1 & -> & Hm1).
    rewrite write32_ok by (unfold frame in *; lia). simpl.
    rewrite entry_add by done.
    assert (u32 (t + flags) = t + flags) as Hw.
    { apply uwrap_small. Z.to_euclidean_division_equations. lia. }
    rewrite (set_permission_entry _ t Ht).
    2: { simpl. rewrite word_store, decide_True by done. rewrite Hw. by apply page_base_entry. }
    exists (store32 (store32 m1 (pd + 4 * i) (t + flags)) (pd + 4 * i) (t + flags)), t, l'.
    split_and!; [| |done|by rewrite decide_True].
    + unfold upd, set_memory. simpl. by rewrite (free_list_head _ _ _ HF).
    + intros b j Hb Hj. rewrite !word_store, Hm1, Hw by done. simpl.
      assert (t <> pd) by set_solver. repeat case_decide; naive_solver.
  - unfold ret, bind. destruct (wf_table _ _ _ HW i Hi E0) as (Ht & Htl & Htp).
    fold pde in Ht, Htl, Htp. unfold table_of in *. fold pde in Ht, Htl, Htp.
    pose proof (frame_range _ Ht) as [Htr Ht0].
    rewrite (set_permission_entry _ (page_base pde)) by done.
    eexists _, (page_base pde), l. split_and!; [| |done|by rewrite decide_False].
    + unfold upd, set_memory. by rewrite <- (free_list_head _ _ _ (wf_free _ _ _ HW)).
    + intros b j Hb Hj. rewrite word_store by done.
      assert (u32 (page_base pde + flags) = page_base pde + flags) as ->
        by (apply uwrap_small; Z.to_euclidean_division_equations; lia).
      repeat case_decide; naive_solver.
Qed.
End Entry.

(** Finding or creating an entry changes no translation and keeps the address
    space well formed; the table of [va] is [t] afterwards. *)
Section Created.
Context (pd : Z) (s : mmu) (l : list Z) (va flags : Z) (m' : mem) (t : Z) (l' : list Z).
Hypothesis HW : WF pd s l.
Hypothesis Hva : 0 <= va < 2 ^ 32.
Hypothesis Hflags : present_flags flags.
Hypothesis Hc : created pd s va flags m' t.
Hypothesis Ht : frame t.
Let i := pd_index va.
Let pde := word (memory s) pd i.
Hypothesis Hl : if decide (pde = 0) then l = t :: l' else t = page_base pde /\ l' = l.

Lemma created_l' : forall x, x ∈ l' -> x ∈ l.
Proof. case_decide; [by subst l; intros; right|by destruct Hl as [_ ->]]. Qed.

Lemma created_t : (t ∉ l') /\ t <> pd /\ (forall j, 0 <= j < 1024 -> j <> i ->
  word (memory s) pd j <> 0 -> table_of (memory s) pd j <> t).
Proof.
  pose proof (pd_index_range va Hva) as Hi. fold i in Hi.
  destruct HW as [_ _ Hnd _ Hpdl _ HT Hinj]. case_decide as E.
  - rewrite Hl in Hnd, Hpdl. apply NoDup_cons in Hnd as [Hn _]. split_and!; [done|set_solver|].
    intros j Hj Hji Hw Ej. destruct (HT j Hj Hw) as (_ & Hn' & _). rewrite Hl, Ej in Hn'. set_solver.
  - destruct Hl as [-> ->]. destruct (HT i Hi E) as (_ & H1 & H2). split_and!; [done|done|].
    intros j Hj Hji Hw. by apply Hinj.
Qed.

Lemma created_pde j : 0 <= j < 1024 ->
  word m' pd j = if decide (j = i) then t + flags else word (memory s) pd j.
Proof.
  intros Hj. rewrite Hc by (done || apply (wf_pd _ _ _ HW)). destruct created_t as (_ & Hn & _).
  repeat case_decide; naive_solver.
Qed.

Lemma created_table_of : table_of m' pd i = t.
Proof.
  unfold table_of. rewrite created_pde, decide_True by (done || by apply pd_index_range).
  destruct (frame_range _ Ht). apply page_base_entry; try done. apply Hflags.
Qed.

Lemma entry_nonzero : t + flags <> 0.
Proof. unfold frame in Ht. destruct Hflags. lia. Qed.

Lemma created_wf : WF pd (upd m' (default 0 (head l')) s) l'.
Proof.
  pose proof created_t as (Hn1 & Hn2 & Hn3). pose proof created_l' as Hsub.
  pose proof (wf_frames _ _ _ HW) as HFr. rewrite Forall_forall in HFr.
  pose proof (wf_pd _ _ _ HW) as Hpd.
  split; cbn [memory upd PHYSICAL_MEMORY_HEAD].
  - assert (exists h, free_list (memory s) h l') as [h HF].
    { pose proof (wf_free _ _ _ HW) as HF. case_decide; [rewrite Hl in HF; destruct HF|destruct Hl; subst]; eauto. }
    rewrite <- (free_list_head _ _ _ HF). apply (free_list_frame (memory s)); [|done].
    intros a Ha. rewrite <- !word_0, Hc by (try lia; eauto). pose proof (wf_pd_free _ _ _ HW).
    repeat case_decide; naive_solver.
  - apply Forall_forall. eauto.
  - pose proof (wf_nodup _ _ _ HW) as Hnd. case_decide; [rewrite Hl in Hnd; by inv Hnd|by destruct Hl as [_ ->]].
  - done.
  - pose proof (wf_pd_free _ _ _ HW). eauto.
  - intros j Hj. rewrite created_pde by done. destruct (decide (j = i)) as [Ej|Ej].
    + intros _. rewrite testbit0_add; [apply Hflags|apply Ht].
    + by apply (wf_present _ _ _ HW).
  - intros j Hj. destruct (decide (j = i)) as [->|Hji].
    + intros _. by rewrite created_table_of.
    + unfold table_of. rewrite created_pde, decide_False by done. intros Hw.
      destruct (wf_table _ _ _ HW j Hj Hw) as (? & ? & ?). split_and!; eauto.
  - intros j k Hj Hk Hjk. destruct (decide (j = i)) as [->|Hji]; [|destruct (decide (k = i)) as [->|Hki]].
    + rewrite created_table_of. unfold table_of. rewrite !created_pde, decide_True, decide_False by (done || lia).
      intros _ Hw E. by apply (Hn3 k).
    + rewrite created_table_of. unfold table_of. rewrite !created_pde, decide_False, decide_True by (done || lia).
      intros Hw _. by apply Hn3.
    + unfold table_of. rewrite !created_pde, !decide_False by done. by apply (wf_inj _ _ _ HW).
Qed.

Lemma created_translate va' : 0 <= va' < 2 ^ 32 -> translate m' pd va' = translate (memory s) pd va'.
Proof.
  intros Hva'. pose proof created_t as (Hn1 & Hn2 & Hn3). pose proof (pt_index_range va').
  rewrite !translate_words. pose proof (pd_index_range va' Hva') as Hj.
  destruct (decide (pd_index va' = i)) as [E|Hji].
  - rewrite E, created_table_of, created_pde, decide_True by (done || lia).
    rewrite testbit0_add by apply Ht. destruct Hflags as [_ ->]. rewrite Hc by done.
    rewrite decide_False by (intros [? _]; done).
    change (word (memory s) pd (pd_index va)) with pde. destruct (decide (t = t /\ pde = 0)) as [E1|E1].
    + destruct E1 as [_ E1]. change (word (memory s) pd i) with pde. rewrite E1. reflexivity.
    + assert (pde <> 0) as Hp by naive_solver. rewrite decide_False in Hl by done. destruct Hl as [Et _].
      rewrite (wf_present _ _ _ HW i) by (done || lia). unfold table_of. fold pde. by rewrite <- Et.
  - rewrite created_pde, decide_False by done. destruct (Z.testbit _ 0) eqn:Eb; [|done].
    assert (word (memory s) pd (pd_index va') <> 0) as Hw by (intros E; by rewrite E in Eb).
    destruct (wf_table _ _ _ HW _ Hj Hw) as (H1 & H2 & H3).
    assert (table_of m' pd (pd_index va') = table_of (memory s) pd (pd_index va')) as ->
      by (unfold table_of; by rewrite created_pde, decide_False).
    rewrite Hc, !decide_False by (done || naive_solver). done.
Qed.
End Created.

(** Writing an entry of a table changes the translation of its page only. *)
Section WriteEntry.
Context (pd : Z) (s : mmu) (l : list Z) (va v : Z).
Hypothesis HW : WF pd s l.
Hypothesis Hva : 0 <= va < 2 ^ 32.
Hypothesis Hv : 0 <= v < 2 ^ 32.
Let i := pd_index va.
Let t := table_of (memory s) pd i.
Hypothesis Hp : word (memory s) pd i <> 0.
Let m' := store32 (memory s) (t + 4 * pt_index va) v.

Lemma write_entry_table : frame t /\ (t ∉ l) /\ t <> pd.
Proof. apply (wf_table _ _ _ HW); [by apply pd_index_range|done]. Qed.

Lemma write_entry_word b j : frame b -> 0 <= j < 1024 ->
  word m' b j = if decide (b = t /\ j = pt_index va) then v else word (memory s) b j.
Proof.
  intros Hb Hj. destruct write_entry_table as (Ht & _). unfold m'.
  rewrite word_store by (done || apply pt_index_range). rewrite uwrap_small by lia.
  repeat case_decide; naive_solver.
Qed.

Lemma write_entry_pd j : 0 <= j < 1024 -> word m' pd j = word (memory s) pd j.
Proof.
  intros. destruct write_entry_table as (_ & _ & Hn). rewrite write_entry_word by (done || apply (wf_pd _ _ _ HW)).
  rewrite decide_False; naive_solver.
Qed.

Lemma write_entry_wf : WF pd (set_memory m' s) l.
Proof.
  destruct write_entry_table as (Ht & Htl & Htp).
  pose proof (wf_frames _ _ _ HW) as HFr. rewrite Forall_forall in HFr.
  split; cbn [set_memory memory PHYSICAL_MEMORY_HEAD]; try apply HW; unfold table_of.
  - apply (free_list_frame (memory s)); [|apply HW]. intros a Ha.
    rewrite <- !word_0, write_entry_word, decide_False by (auto with lia || naive_solver). done.
  - intros j Hj. rewrite write_entry_pd by done. by apply HW.
  - intros j Hj. rewrite write_entry_pd by done. by apply (wf_table _ _ _ HW).
  - intros j k Hj Hk. rewrite !write_entry_pd by done. by apply (wf_inj _ _ _ HW).
Qed.

Lemma write_entry_translate va' : 0 <= va' < 2 ^ 32 ->
  translate m' pd va' =
    if decide (va' / 4096 = va / 4096)
    then (if Z.testbit v 0 then Some (page_base v + Z.land va' 0xFFF) else None)
    else translate (memory s) pd va'.
Proof.
  intros Hva'. pose proof (pd_index_range va Hva) as Hi. pose proof (pd_index_range va' Hva') as Hj.
  rewrite !translate_words. unfold table_of. rewrite write_entry_pd by done. case_decide as E.
  - assert (pd_index va' = i /\ pt_index va' = pt_index va) as [-> ->].
    { unfold i. rewrite !pd_index_eq, !pt_index_eq. Z.to_euclidean_division_equations. lia. }
    rewrite (wf_present _ _ _ HW) by done. fold (table_of (memory s) pd i). fold t.
    rewrite write_entry_word, decide_True by (done || apply write_entry_table || apply pt_index_range). done.
  - destruct (Z.testbit _ 0) eqn:Eb; [|done].
    assert (word (memory s) pd (pd_index va') <> 0) as Hw by (intros E'; by rewrite E' in Eb).
    destruct (wf_table _ _ _ HW _ Hj Hw) as (H1 & H2 & H3). unfold table_of in H1.
    rewrite write_entry_word by (done || apply pt_index_range). case_decide as E1; [|done].
    destruct E1 as [E1 E2]. exfalso. apply E. apply same_indices; [|done].
    destruct (decide (pd_index va' = i)) as [|Hne]; [done|]. exfalso. by apply (wf_inj _ _ _ HW _ _ Hj Hi Hne).
Qed.
End WriteEntry.

Lemma land_fff a : Z.land a 0xFFF = a mod 4096.
Proof. exact (Z.land_ones a 12 ltac:(lia)). Qed.

(** Mapping the page of [va] under a well-formed directory: the page is given
    the head of the free list, after one frame for its table when [pd] has
    none; no other page of the address space moves, the address space stays
    well formed, and frames other than the directory, the table of [va] and
    the free ones are not written. *)
Definition mapped (pd : Z) (s : mmu) (l : list Z) (va f : Z) (s' : mmu) (l' : list Z) : Prop :=
  WF pd s' l'
  /\ (l = f :: l' \/ exists t, l = t :: f :: l')
  /\ translate (memory s') pd va = Some (f + va mod 4096)
  /\ (forall va', 0 <= va' < 2 ^ 32 -> va' / 4096 <> va / 4096 ->
        translate (memory s') pd va' = translate (memory s) pd va')
  /\ (forall b j, frame b -> 0 <= j < 1024 -> b ∉ l -> b <> pd ->
        b <> table_of (memory s') pd (pd_index va) -> word (memory s') b j = word (memory s) b j)
  /\ (forall j, 0 <= j < 1024 -> j <> pd_index va -> word (memory s') pd j = word (memory s) pd j)
  /\ (if decide (word (memory s) pd (pd_index va) = 0)
      then table_of (memory s') pd (pd_index va) ∈ l
      else table_of (memory s') pd (pd_index va) = table_of (memory s) pd (pd_index va))
  /\ word (memory s') pd (pd_index va) <> 0
  /\ cr3 s' = cr3 s.

Lemma map_page_mapped pd s l va flags :
  WF pd s l -> 0 <= va < 2 ^ 32 -> present_flags flags -> (2 <= length l)%nat ->
  exists s' f l', map_page_from_virtual_address pd va flags s = Ok (tt, s') /\ mapped pd s l va f s' l'.
Proof.
  intros HW Hva Hfl Hlen.
  destruct (get_entry_create pd s l va flags HW Hva Hfl) as (m1 & t & l1 & E1 & Hc & Ht & Hl).
  { intros _ ->. simpl in Hlen. lia. }
  pose proof (created_wf _ _ _ _ _ _ _ _ HW Hva Hfl Hc Ht Hl) as HW1.
  pose proof (created_table_of _ _ _ _ _ _ _ _ HW Hva Hfl Hc Ht Hl) as Et.
  pose proof (created_pde _ _ _ _ _ _ _ _ HW Hva Hfl Hc Ht Hl (pd_index va) (pd_index_range va Hva)) as Epd.
  rewrite decide_True in Epd by done.
  destruct l1 as [|f l1]; [case_decide; [subst l|destruct Hl; subst l]; simpl in Hlen; lia|].
  pose proof (wf_frames _ _ _ HW1) as [Hf HFr]%Forall_cons. destruct (frame_range _ Hf) as [Hfr Hf0].
  assert (0 <= f + flags < 2 ^ 32) as Hfv.
  { destruct Hfl. Z.to_euclidean_division_equations. lia. }
  pose proof (write_entry_wf _ _ _ va (f + flags) HW1 Hva Hfv) as HW2.
  pose proof (write_entry_translate _ _ _ va (f + flags) HW1 Hva Hfv) as HT2.
  pose proof (write_entry_word _ _ _ va (f + flags) HW1 Hva Hfv) as Hw2.
  cbn [upd memory] in HW2, HT2, Hw2. rewrite Et, Epd in HW2, HT2, Hw2.
  assert (t + flags <> 0) as Hnz by (by apply (entry_nonzero pd s va)). specialize (HW2 Hnz). specialize (HT2 Hnz). specialize (Hw2 Hnz).
  set (m2 := store32 m1 (t + 4 * pt_index va) (f + flags)) in *.
  assert (t <> f /\ f ∉ l1) as [Htf Hfl1].
  { pose proof (created_t _ _ _ _ _ _ _ _ HW Hva Hfl Hc Ht Hl) as (H & _). pose proof (wf_nodup _ _ _ HW1) as Hnd%NoDup_cons. set_solver. }
  assert (load32 m2 f = default 0 (head l1)) as Hh.
  { pose proof (wf_free _ _ _ HW2) as [_ HF]. by apply free_list_head in HF. }
  pose proof (write_entry_pd _ _ _ va (f + flags) HW1 Hva Hfv) as Hpdw. cbn [upd memory] in Hpdw.
  rewrite Et, Epd in Hpdw. specialize (Hpdw Hnz). fold m2 in Hpdw.
  assert (table_of m2 pd (pd_index va) = t) as E2.
  { unfold table_of. rewrite Hpdw by (by apply pd_index_range). exact Et. }
  exists (upd m2 (default 0 (head l1)) s), f, l1. split; [|split_and!].
  - unfold map_page_from_virtual_address. unfold bind at 1. rewrite E1. unfold bind, gets, modify. simpl.
    pose proof (pt_index_range va). rewrite entry_add by (done || apply Hfl).
    rewrite write32_ok by (unfold frame in Ht; lia). simpl.
    rewrite read32_ok by (unfold frame in Hf; lia). simpl. fold m2. by rewrite Hh.
  - destruct HW2 as [[_ HF] [? ?]%Forall_cons [? ?]%NoDup_cons H4 H5 H6 H7 H8]. split; simpl in *; try done.
    + rewrite <- Hh. done.
    + set_solver.
    + intros i Hi Hw. destruct (H7 i Hi Hw) as (? & ? & ?). set_solver.
  - case_decide; [|destruct Hl; by left]. right. by exists t.
  - cbn [upd memory]. rewrite HT2, decide_True by done.
    rewrite testbit0_add by done. destruct Hfl as [Hfl1' Hfl2]. rewrite Hfl2, page_base_entry by done.
    by rewrite land_fff.
  - intros va' Hva' Hne. cbn [upd memory]. rewrite HT2, decide_False by done.
    by apply (created_translate _ _ _ _ _ _ _ _ HW Hva Hfl Hc Ht Hl).
  - cbn [upd memory]. intros b j Hb Hj Hbl Hbp Hbt.
    rewrite E2 in Hbt. rewrite Hw2, decide_False by (done || naive_solver).
    rewrite Hc by done. repeat case_decide; naive_solver.
  - cbn [upd memory]. intros j Hj Hne. pose proof (wf_pd _ _ _ HW) as Hpd.
    pose proof (created_t _ _ _ _ _ _ _ _ HW Hva Hfl Hc Ht Hl) as (_ & Hn & _).
    rewrite Hw2, decide_False by (done || naive_solver). rewrite Hc by done. repeat case_decide; naive_solver.
  - cbn [upd memory]. rewrite E2. case_decide; [subst l; set_solver|]. unfold table_of. by destruct Hl.
  - cbn [upd memory]. rewrite Hpdw, Epd by (by apply pd_index_range). done.
  - done.
Qed.

Lemma mapped_frame pd s l va f s' l' : WF pd s l -> mapped pd s l va f s' l' -> (f ∈ l) /\ (f ∉ l').
Proof.
  intros HW (_ & Hl & _). pose proof (wf_nodup _ _ _ HW) as Hnd.
  destruct Hl as [->|[t ->]]; rewrite !NoDup_cons in Hnd; set_solver.
Qed.

(** ** Regions *)

Definition pages (size : Z) : Z := size / 4096 + 1.

(** What mapping the [n] pages from that of [va] on must give. *)
Record region_mapped (pd : Z) (s : mmu) (l : list Z) (va n : Z) (s' : mmu) (l' : list Z) : Prop := {
  rm_wf : WF pd s' l';
  rm_suffix : exists l0, l = l0 ++ l' /\ (length l0 <= 2 * Z.to_nat n)%nat;
  rm_in : forall k, 0 <= k < n -> exists f, (f ∈ l) /\ (f ∉ l') /\
    forall o, 0 <= o < 4096 -> translate (memory s') pd ((va / 4096 + k) * 4096 + o) = Some (f + o);
  rm_inj : forall k k' f, 0 <= k < n -> 0 <= k' < n ->
    translate (memory s') pd ((va / 4096 + k) * 4096) = Some f ->
    translate (memory s') pd ((va / 4096 + k') * 4096) = Some f -> k = k';
  rm_out : forall va', 0 <= va' < 2 ^ 32 -> (va' / 4096 < va / 4096 \/ va / 4096 + n <= va' / 4096) ->
    translate (memory s') pd va' = translate (memory s) pd va'
}.

Lemma translate_page m pd va va' : 0 <= va < 2 ^ 32 -> va / 4096 = va' / 4096 ->
  translate m pd va' = (fun f => f - va mod 4096 + va' mod 4096) <$> translate m pd va.
Proof.
  intros Hva E. rewrite !translate_words.
  assert (pd_index va' = pd_index va /\ pt_index va' = pt_index va) as [-> ->].
  { rewrite !pd_index_eq, !pt_index_eq. Z.to_euclidean_division_equations. lia. }
  rewrite !land_fff. destruct (Z.testbit (word m pd _) 0); [|done]. simpl. destruct (Z.odd _); [|done].
  simpl. f_equal. lia.
Qed.

(** One page, then the following ones. *)
Section RegionCons.
Context (pd : Z) (s : mmu) (l : list Z) (va f : Z) (s1 : mmu) (l1 : list Z) (n : Z) (s' : mmu) (l' : list Z).
Hypothesis HW : WF pd s l.
Hypothesis Hn : 0 <= n.
Hypothesis Hva : 0 <= va < 2 ^ 32.
Hypothesis HM : mapped pd s l va f s1 l1.
Hypothesis HR : region_mapped pd s1 l1 (va + 4096) n s' l'.
Let b := va / 4096.

Lemma cons_base : (va + 4096) / 4096 = b + 1.
Proof. unfold b. Z.to_euclidean_division_equations. lia. Qed.

Lemma cons_list : exists l0, l = l0 ++ f :: l1 /\ (length l0 <= 1)%nat.
Proof.
  destruct HM as (_ & [->|[t ->]] & _).
  - exists []. split; [done|simpl; lia].
  - exists [t]. split; [done|simpl; lia].
Qed.

Lemma cons_frame : (f ∈ l) /\ (f ∉ l1).
Proof.
  exact (mapped_frame _ _ _ _ _ _ _ HW HM).
Qed.

Lemma cons_first o : 0 <= o < 4096 -> translate (memory s') pd (b * 4096 + o) = Some (f + o).
Proof.
  intros Ho. pose proof cons_base as Eb. destruct HM as (_ & _ & HT & _).
  rewrite (rm_out _ _ _ _ _ _ _ HR) by (unfold b in *; Z.to_euclidean_division_equations; lia).
  rewrite (translate_page _ _ va) by (unfold b in *; Z.to_euclidean_division_equations; lia).
  rewrite HT. simpl. f_equal. unfold b. Z.to_euclidean_division_equations. lia.
Qed.

Lemma cons_rest k : 0 < k < n + 1 -> exists f', (f' ∈ l1) /\ (f' ∉ l') /\
  forall o, 0 <= o < 4096 -> translate (memory s') pd ((b + k) * 4096 + o) = Some (f' + o).
Proof.
  intros Hk. destruct (rm_in _ _ _ _ _ _ _ HR (k - 1)) as (f' & ? & ? & Hf); [lia|].
  exists f'. split_and!; [done..|]. intros o Ho. rewrite <- Hf, cons_base by done. f_equal. lia.
Qed.

Lemma cons_inj k k' g : 0 <= k < n + 1 -> 0 <= k' < n + 1 ->
  translate (memory s') pd ((b + k) * 4096) = Some g ->
  translate (memory s') pd ((b + k') * 4096) = Some g -> k = k'.
Proof.
  intros Hk Hk' E E'. pose proof (cons_first 0 ltac:(lia)) as H0. rewrite !Z.add_0_r in H0.
  assert (forall j, 0 < j < n + 1 -> translate (memory s') pd ((b + j) * 4096) = Some f -> False) as Hne.
  { intros j Hj Ej. destruct (cons_rest j Hj) as (f' & Hf' & _ & Ef'). specialize (Ef' 0 ltac:(lia)).
    rewrite !Z.add_0_r in Ef'. destruct cons_frame. rewrite Ej in Ef'. by simplify_eq. }
  destruct (decide (k = 0)) as [->|]; destruct (decide (k' = 0)) as [->|]; [done| | |].
  - exfalso. rewrite Z.add_0_r, H0 in E. simplify_eq. apply (Hne k'); [lia|done].
  - exfalso. rewrite Z.add_0_r, H0 in E'. simplify_eq. apply (Hne k); [lia|done].
  - assert (k - 1 = k' - 1); [|lia]. apply (rm_inj _ _ _ _ _ _ _ HR _ _ g); try lia; rewrite cons_base.
    + rewrite <- E. f_equal. lia.
    + rewrite <- E'. f_equal. lia.
Qed.

Lemma region_mapped_cons : region_mapped pd s l va (n + 1) s' l'.
Proof.
  pose proof cons_frame as [Hfl Hfl1]. pose proof cons_base as Eb.
  destruct (rm_suffix _ _ _ _ _ _ _ HR) as (l2 & E2 & Hlen2). split.
  - apply (rm_wf _ _ _ _ _ _ _ HR).
  - destruct cons_list as (l0 & El & Hl0). exists (l0 ++ f :: l2).
    split; [by rewrite El, E2, <- app_assoc|]. rewrite length_app. simpl. lia.
  - intros k Hk. destruct (decide (k = 0)) as [->|].
    + exists f. rewrite Z.add_0_r. split_and!; [done|set_solver|apply cons_first].
    + destruct (cons_rest k) as (f' & ? & ? & ?); [lia|]. destruct cons_list as (l0 & El & _).
      exists f'. split_and!; [set_solver|done|done].
  - apply cons_inj.
  - intros va' Hva' Hr. fold b in Hr. rewrite (rm_out _ _ _ _ _ _ _ HR) by lia.
    destruct HM as (_ & _ & _ & HO & _). apply HO; [lia|]. fold b. lia.
Qed.
End RegionCons.

Lemma map_region_loop_mapped n : forall fuel pd s l va flags size total,
  WF pd s l -> 0 <= va -> 0 <= total -> total mod 4096 = 0 -> va + size + 4096 < 2 ^ 32 -> present_flags flags ->
  size / 4096 - total / 4096 + 1 = Z.of_nat n -> (n < fuel)%nat -> (2 * n <= length l)%nat ->
  exists s' l', map_region_loop fuel pd va flags size total s = Ok (tt, s')
    /\ region_mapped pd s l (va + total) (Z.of_nat n) s' l'.
Proof.
  induction n as [|n IH]; intros fuel pd s l va flags size total HW Hva Ht Hta Hmax Hfl Hn Hfuel Hl;
    destruct fuel as [|fuel]; try lia; simpl map_region_loop.
  - destruct (Z.leb_spec total size); [Z.to_euclidean_division_equations; lia|].
    exists s, l. split; [done|]. split; try lia; try done.
    exists []. split; [done|simpl; lia].
  - destruct (Z.leb_spec total size); [|Z.to_euclidean_division_equations; lia].
    rewrite (uwrap_small 32 (va + total)) by lia.
    destruct (map_page_mapped pd s l (va + total) flags HW) as (s1 & f & l1 & E1 & HM); [lia|done|lia|].
    unfold bind. rewrite E1. rewrite (uwrap_small 32 (total + 4096)) by lia.
    destruct (IH fuel pd s1 l1 va flags size (total + 4096)) as (s' & l' & E & HR); try done; try lia;
      try (Z.to_euclidean_division_equations; lia).
    { by apply HM. }
    { destruct HM as (_ & [->|[t ->]] & _); simpl in *; lia. }
    exists s', l'. split; [done|]. replace (Z.of_nat (S n)) with (Z.of_nat n + 1) by lia.
    apply (region_mapped_cons pd s l _ f s1 l1); try done; [lia|lia|].
    by replace (va + total + 4096) with (va + (total + 4096)) by lia.
Qed.

(** ** Several address spaces

    The directories of the kernel and of every process share the kernel's 64
    tables; the tables of their user parts are their own. *)

Definition separate (m : mem) (pd1 pd2 : Z) : Prop :=
  pd1 <> pd2
  /\ (forall j, 0 <= j < 1024 -> word m pd2 j <> 0 -> table_of m pd2 j <> pd1)
  /\ (forall i j, 64 <= i < 1024 -> 0 <= j < 1024 -> word m pd1 i <> 0 -> word m pd2 j <> 0 ->
        table_of m pd1 i <> table_of m pd2 j).

Record Spaces (s : mmu) (l pds : list Z) : Prop := {
  sp_wf : forall pd, pd ∈ pds -> WF pd s l;
  sp_separate : forall pd1 pd2, pd1 ∈ pds -> pd2 ∈ pds -> pd1 <> pd2 -> separate (memory s) pd1 pd2
}.

(** A directory whose words, and the words of whose tables, are unchanged. *)
Lemma translate_frame m m' pd va : 0 <= va < 2 ^ 32 ->
  word m' pd (pd_index va) = word m pd (pd_index va) ->
  (Z.testbit (word m pd (pd_index va)) 0 = true ->
   word m' (table_of m pd (pd_index va)) (pt_index va) = word m (table_of m pd (pd_index va)) (pt_index va)) ->
  translate m' pd va = translate m pd va.
Proof.
  intros Hva E1 E2. rewrite !translate_words. unfold table_of. rewrite E1.
  destruct (Z.testbit (word m pd _) 0) eqn:Eb; [|done]. fold (table_of m pd (pd_index va)). by rewrite E2.
Qed.

Section Isolation.
Context (pd : Z) (s : mmu) (l : list Z) (va f : Z) (s' : mmu) (l' : list Z).
Hypothesis HW : WF pd s l.
Hypothesis Hva : 2 ^ 28 <= va < 2 ^ 32.
Hypothesis HM : mapped pd s l va f s' l'.
Let i := pd_index va.

Lemma user_index : 64 <= i < 1024.
Proof. unfold i. rewrite pd_index_eq. Z.to_euclidean_division_equations. lia. Qed.

Lemma mapped_sub x : x ∈ l' -> x ∈ l.
Proof. destruct HM as (_ & [->|[t ->]] & _); set_solver. Qed.

(** The entries of [pd] and their tables, before and after. *)
Lemma mapped_pd j : 0 <= j < 1024 -> word (memory s') pd j <> 0 ->
  (word (memory s) pd j <> 0 /\ table_of (memory s') pd j = table_of (memory s) pd j)
  \/ (j = i /\ table_of (memory s') pd j ∈ l).
Proof.
  intros Hj Hw. destruct HM as (_ & _ & _ & _ & _ & Hpd & Ht & _). fold i in Hpd, Ht.
  destruct (decide (j = i)) as [->|].
  - case_decide as E; [by right|by left].
  - unfold table_of. rewrite Hpd in * by done. by left.
Qed.

Context (pd2 : Z).
Hypothesis HW2 : WF pd2 s l.
Hypothesis Hsep : separate (memory s) pd pd2.
Hypothesis Hsep' : separate (memory s) pd2 pd.

(** The other directory and its tables are not written. *)
Lemma other_word j : 0 <= j < 1024 -> word (memory s') pd2 j = word (memory s) pd2 j.
Proof.
  intros Hj. destruct HM as (HW' & _ & _ & _ & Hfr & _ & Ht & Hnz & _).
  destruct Hsep as (Hne & _ & _). destruct (decide (pd2 = table_of (memory s') pd i)) as [E|E].
  - exfalso. pose proof user_index. fold i in Ht. case_decide as E0.
    + rewrite <- E in Ht. by apply (wf_pd_free _ _ _ HW2).
    + destruct Hsep' as (_ & Hn & _). rewrite Ht in E. apply (Hn i); [lia|done|done].
  - apply Hfr; try done; [apply (wf_pd _ _ _ HW2)|apply (wf_pd_free _ _ _ HW2)].
Qed.

Lemma other_table_of j : 0 <= j < 1024 -> table_of (memory s') pd2 j = table_of (memory s) pd2 j.
Proof. intros. unfold table_of. by rewrite other_word. Qed.

Lemma other_table j k : 0 <= j < 1024 -> 0 <= k < 1024 -> word (memory s) pd2 j <> 0 ->
  word (memory s') (table_of (memory s) pd2 j) k = word (memory s) (table_of (memory s) pd2 j) k.
Proof.
  intros Hj Hk Hw. destruct (wf_table _ _ _ HW2 j Hj Hw) as (H1 & H2 & H3). pose proof user_index.
  destruct HM as (HW' & _ & _ & _ & Hfr & _ & Ht & Hnz & _). fold i in Ht.
  destruct Hsep as (Hne & Hn1 & Hn2). apply Hfr; try done; [by apply Hn1|]. fold i. case_decide as E.
  - by intros E'; rewrite <- E' in Ht.
  - rewrite Ht. intros E'. by apply (Hn2 i j).
Qed.

Lemma other_translate va' : 0 <= va' < 2 ^ 32 ->
  translate (memory s') pd2 va' = translate (memory s) pd2 va'.
Proof.
  intros Hva'. pose proof (pd_index_range va' Hva'). apply translate_frame; [done|by apply other_word|].
  intros Eb. apply other_table; [done|apply pt_index_range|]. intros E. by rewrite E in Eb.
Qed.

Lemma other_wf : WF pd2 s' l'.
Proof.
  destruct HM as (HW' & _). destruct HW' as [? ? ? _ _ _ _ _]. destruct HW2. pose proof mapped_sub.
  split; try done.
  - eauto.
  - intros j Hj. rewrite other_word by done. auto.
  - intros j Hj. rewrite other_word, other_table_of by done. intros Hw.
    destruct (wf_table0 j Hj Hw) as (? & ? & ?). split_and!; eauto.
  - intros j k Hj Hk. rewrite !other_word, !other_table_of by done. auto.
Qed.

Lemma other_separate : separate (memory s') pd pd2 /\ separate (memory s') pd2 pd.
Proof.
  destruct Hsep as (Hne & Hn1 & Hn2). destruct Hsep' as (_ & Hn1' & Hn2'). pose proof user_index.
  split; split_and!; try done.
  - intros j Hj. rewrite other_word, other_table_of by done. auto.
  - intros j k Hj Hk Hwj. rewrite other_word, other_table_of by done. intros Hwk E.
    destruct (mapped_pd j) as [[Hw Et]|[-> Et]]; [lia|done| |].
    + rewrite Et in E. by apply (Hn2 j k).
    + rewrite E in Et. by destruct (wf_table _ _ _ HW2 k Hk Hwk) as (_ & ? & _).
  - intros j Hj Hwj E. destruct (mapped_pd j) as [[Hw Et]|[-> Et]]; [lia|done| |].
    + rewrite Et in E. by apply (Hn1' j).
    + rewrite E in Et. by apply (wf_pd_free _ _ _ HW2).
  - intros j k Hj Hk. rewrite other_word, other_table_of by lia. intros Hwj Hwk E.
    destruct (mapped_pd k) as [[Hw Et]|[-> Et]]; [lia|done| |].
    + rewrite Et in E. by apply (Hn2' j k).
    + rewrite <- E in Et. by destruct (wf_table _ _ _ HW2 j ltac:(lia) Hwj) as (_ & ? & _).
Qed.
End Isolation.

(** The other spaces among themselves. *)
Lemma mapped_spaces pd s l va f s' l' pds : 2 ^ 28 <= va < 2 ^ 32 ->
  Spaces s l pds -> pd ∈ pds -> mapped pd s l va f s' l' -> Spaces s' l' pds.
Proof.
  intros Hva [HWs HS] Hpd HM.
  assert (forall pd2, pd2 ∈ pds -> pd <> pd2 -> separate (memory s) pd pd2 /\ separate (memory s) pd2 pd) as HS2 by auto.
  split.
  - intros pd2 Hpd2. destruct (decide (pd = pd2)) as [<-|Hne]; [apply HM|].
    destruct (HS2 pd2 Hpd2 Hne). apply (other_wf pd s l va f s' l'); auto.
  - intros pd1 pd2 H1 H2 Hne. destruct (decide (pd1 = pd)) as [->|]; [|destruct (decide (pd2 = pd)) as [->|]].
    + destruct (HS2 pd2 H2 Hne). apply (other_separate pd s l va f s' l'); auto.
    + destruct (HS2 pd1 H1 ltac:(auto)). apply (other_separate pd s l va f s' l'); auto.
    + destruct (HS2 pd1 H1 ltac:(auto)), (HS2 pd2 H2 ltac:(auto)), (HS pd1 pd2 H1 H2 Hne) as (_ & Hn1 & Hn2).
      split_and!; [done| |].
      * intros j Hj. rewrite (other_word pd s l va f s' l'), (other_table_of pd s l va f s' l') by eauto. auto.
      * intros j k Hj Hk. assert (0 <= j < 1024) by lia.
        rewrite !(other_word pd s l va f s' l'), !(other_table_of pd s l va f s' l') by eauto. auto.
Qed.

(** ** A new address space *)

Lemma copy_words_ok n : forall dst src s, 4096 <= dst -> 4096 <= src ->
  dst + 4 * Z.of_nat n <= src \/ src + 4 * Z.of_nat n <= dst ->
  exists m', copy_words n dst src s = Ok (tt, set_memory m' s)
    /\ (forall k, 0 <= k < Z.of_nat n -> load32 m' (dst + 4 * k) = load32 (memory s) (src + 4 * k))
    /\ (forall b, b + 4 <= dst \/ dst + 4 * Z.of_nat n <= b -> load32 m' b = load32 (memory s) b).
Proof.
  induction n as [|n IH]; intros dst src s Hd Hs Hdis; simpl.
  - exists (memory s). split_and!; [by destruct s|lia|done].
  - unfold bind. rewrite read32_ok, write32_ok by done. set (w := load32 (memory s) src).
    destruct (IH (dst + 4) (src + 4) (set_memory (store32 (memory s) dst w) s)) as (m' & E & Hin & Hout); [lia..|].
    simpl in Hin, Hout. exists m'. split_and!.
    + rewrite E. by destruct s.
    + intros k Hk. destruct (decide (k = 0)) as [->|].
      * rewrite !Z.add_0_r, Hout by lia. rewrite load32_store32_eq. apply uwrap_small, load32_range.
      * replace (dst + 4 * k) with (dst + 4 + 4 * (k - 1)) by lia. rewrite Hin by lia.
        rewrite load32_store32_ne by lia. f_equal. lia.
    + intros b Hb. rewrite Hout by lia. apply load32_store32_ne. lia.
Qed.

(** What a directory filled from [src] holds. *)
Definition filled (m m' : mem) (a src : Z) : Prop :=
  forall b j, frame b -> 0 <= j < 1024 ->
    word m' b j = if decide (b = a) then (if j <? 64 then word m src j else 0) else word m b j.

Lemma fill_new_pgdir_filled a src s : frame a -> frame src -> a <> src ->
  exists m', fill_new_pgdir a src s = Ok (tt, set_memory m' s) /\ filled (memory s) m' a src.
Proof.
  intros Ha Hs Hne. assert (a + 4096 <= src \/ src + 4096 <= a) as Hdis.
  { unfold frame in *. Z.to_euclidean_division_equations. lia. }
  destruct (copy_words_ok 64 a src s) as (m1 & E1 & Hin1 & Hout1); [unfold frame in *; lia..|].
  destruct (clear_words_ok 960 (a + 4 * 64) (set_memory m1 s)) as (m2 & E2 & Hin2 & Hout2); [unfold frame in *; lia|].
  exists m2. split.
  - unfold fill_new_pgdir, bind. rewrite E1, E2. by destruct s.
  - simpl in Hout2. intros b j Hb Hj. unfold word. case_decide as Eb; [subst b; destruct (Z.ltb_spec j 64)|].
    + rewrite Hout2, Hin1 by lia. done.
    + replace (a + 4 * j) with (a + 4 * 64 + 4 * (j - 64)) by lia. apply Hin2. lia.
    + assert (b + 4096 <= a \/ a + 4096 <= b) by (unfold frame in *; Z.to_euclidean_division_equations; lia).
      rewrite Hout2, Hout1 by lia. done.
Qed.

Section NewSpace.
Context (s : mmu) (a : Z) (l pds : list Z) (src : Z) (m' : mem).
Hypothesis HS : Spaces s (a :: l) pds.
Hypothesis Hsrc : src ∈ pds.
Hypothesis Hfill : filled (memory s) m' a src.
Let s' := upd m' (default 0 (head l)) s.

Lemma new_frame : frame a /\ a ∉ l.
Proof.
  pose proof (sp_wf _ _ _ HS src Hsrc) as HW. pose proof (wf_frames _ _ _ HW) as [? _]%Forall_cons.
  pose proof (wf_nodup _ _ _ HW) as [? _]%NoDup_cons. done.
Qed.

Lemma new_other pd j : pd ∈ pds -> 0 <= j < 1024 -> word m' pd j = word (memory s) pd j.
Proof.
  intros Hpd Hj. pose proof (sp_wf _ _ _ HS pd Hpd) as HW. rewrite Hfill by (done || apply (wf_pd _ _ _ HW)).
  rewrite decide_False; [done|]. intros ->. apply (wf_pd_free _ _ _ HW). set_solver.
Qed.

Lemma new_other_table_of pd j : pd ∈ pds -> 0 <= j < 1024 -> table_of m' pd j = table_of (memory s) pd j.
Proof. intros. unfold table_of. by rewrite new_other. Qed.

Lemma new_table pd j k : pd ∈ pds -> 0 <= j < 1024 -> 0 <= k < 1024 -> word (memory s) pd j <> 0 ->
  word m' (table_of (memory s) pd j) k = word (memory s) (table_of (memory s) pd j) k.
Proof.
  intros Hpd Hj Hk Hw. destruct (wf_table _ _ _ (sp_wf _ _ _ HS pd Hpd) j Hj Hw) as (H1 & H2 & H3).
  rewrite Hfill, decide_False by (done || set_solver). done.
Qed.

Lemma new_word j : 0 <= j < 1024 -> word m' a j = if j <? 64 then word (memory s) src j else 0.
Proof. intros. destruct new_frame. by rewrite Hfill, decide_True. Qed.

Lemma new_word_nz j : 0 <= j < 1024 -> word m' a j <> 0 ->
  j < 64 /\ word (memory s) src j <> 0 /\ table_of m' a j = table_of (memory s) src j.
Proof. intros Hj. unfold table_of. rewrite new_word by done. destruct (Z.ltb_spec j 64); [done|lia]. Qed.

Lemma new_other_wf pd : pd ∈ pds -> WF pd s' l.
Proof.
  intros Hpd. destruct new_frame as [Ha Hal]. destruct (sp_wf _ _ _ HS pd Hpd) as [[? HF] [? HFr]%Forall_cons [? ?]%NoDup_cons ? ? ? HT ?].
  split; unfold s'; cbn [upd memory PHYSICAL_MEMORY_HEAD]; try done.
  - rewrite <- (free_list_head _ _ _ HF). apply (free_list_frame (memory s)); [|done].
    intros b Hb. rewrite Forall_forall in HFr. rewrite <- !word_0, Hfill, decide_False by (lia || set_solver). done.
  - set_solver.
  - intros j Hj. rewrite new_other by done. auto.
  - intros j Hj. rewrite new_other, new_other_table_of by done. intros Hw. destruct (HT j Hj Hw) as (? & ? & ?). set_solver.
  - intros j k Hj Hk. rewrite !new_other, !new_other_table_of by done. auto.
Qed.

Lemma new_wf : WF a s' l.
Proof.
  destruct new_frame as [Ha Hal]. destruct (new_other_wf src Hsrc) as [? ? ? _ _ _ _ _].
  destruct (sp_wf _ _ _ HS src Hsrc) as [_ _ _ _ _ HP HT HI].
  split; unfold s' in *; cbn [upd memory PHYSICAL_MEMORY_HEAD] in *; try done.
  - intros j Hj Hw. destruct (new_word_nz j Hj Hw) as (? & ? & ?). rewrite new_word by done.
    destruct (Z.ltb_spec j 64); [by apply HP|lia].
  - intros j Hj Hw. destruct (new_word_nz j Hj Hw) as (? & Hw' & ->). destruct (HT j Hj Hw') as (? & ? & ?). set_solver.
  - intros j k Hj Hk Hne Hwj Hwk. destruct (new_word_nz j Hj Hwj) as (? & ? & ->).
    destruct (new_word_nz k Hk Hwk) as (? & ? & ->). auto.
Qed.

Lemma new_separate pd : pd ∈ pds -> separate m' a pd /\ separate m' pd a.
Proof.
  intros Hpd. destruct (sp_wf _ _ _ HS pd Hpd) as [_ _ _ _ Hn _ HT HI].
  assert (a <> pd) by set_solver. split; split_and!; try done.
  - intros j Hj. rewrite new_other, new_other_table_of by done. intros Hw. destruct (HT j Hj Hw). set_solver.
  - intros i j Hi Hj Hw. destruct (new_word_nz i) as (? & _); [lia|done|lia].
  - intros j Hj Hw. destruct (new_word_nz j Hj Hw) as (? & Hw' & ->). destruct (decide (pd = src)) as [->|Hne].
    + by apply HT.
    + destruct (sp_separate _ _ _ HS pd src Hpd Hsrc Hne) as (_ & Hn1 & _). auto.
  - intros i j Hi Hj. rewrite new_other, new_other_table_of by (done || lia). intros Hwi Hw.
    destruct (new_word_nz j Hj Hw) as (? & Hw' & ->). destruct (decide (pd = src)) as [->|Hne].
    + apply HI; (done || lia).
    + destruct (sp_separate _ _ _ HS pd src Hpd Hsrc Hne) as (_ & _ & Hn2). auto.
Qed.

Lemma new_spaces : Spaces s' l (a :: pds).
Proof.
  split.
  - intros pd [->|Hpd]%elem_of_cons; [apply new_wf|by apply new_other_wf].
  - intros pd1 pd2 [->|H1]%elem_of_cons [->|H2]%elem_of_cons Hne; [done|by apply new_separate|by apply new_separate|].
    destruct (sp_separate _ _ _ HS pd1 pd2 H1 H2 Hne) as (_ & Hn1 & Hn2). unfold s'; cbn [upd memory].
    split_and!; [done| |].
    + intros j Hj. rewrite new_other, new_other_table_of by done. auto.
    + intros i j Hi Hj. assert (0 <= i < 1024) by lia. rewrite !new_other, !new_other_table_of by done. auto.
Qed.

Lemma new_translate_other pd va : pd ∈ pds -> 0 <= va < 2 ^ 32 -> translate m' pd va = translate (memory s) pd va.
Proof.
  intros Hpd Hva. pose proof (pd_index_range va Hva). apply translate_frame; [done|by apply new_other|].
  intros Eb. apply new_table; try done; [apply pt_index_range|]. intros E. by rewrite E in Eb.
Qed.

Lemma new_translate va : 0 <= va < 2 ^ 32 ->
  translate m' a va = if va <? 2 ^ 28 then translate (memory s) src va else None.
Proof.
  intros Hva. pose proof (pd_index_range va Hva) as Hi. pose proof (new_translate_other src va Hsrc Hva) as Ho.
  rewrite !translate_words in *. unfold table_of in *. rewrite new_other in Ho by done. rewrite new_word by done.
  assert ((pd_index va <? 64) = (va <? 2 ^ 28)) as ->; [|by destruct (va <? 2 ^ 28)].
  rewrite pd_index_eq. destruct (Z.ltb_spec va (2 ^ 28)); [apply Z.ltb_lt|apply Z.ltb_ge];
    Z.to_euclidean_division_equations; lia.
Qed.
End NewSpace.

(** ** The free list at boot *)

(** The frames of the list: one every 16 KB from MEMORY_START on. *)
Definition frames_from (a : Z) (n : nat) : list Z := (fun k => a + 16384 * Z.of_nat k) <$> seq 0 n.

Lemma frames_from_S a n : frames_from a (S n) = a :: frames_from (a + 16384) n.
Proof.
  unfold frames_from. cbn [seq fmap list_fmap]. f_equal; [lia|]. rewrite <- fmap_S_seq, <- list_fmap_compose.
  apply list_fmap_ext. intros i k _. simpl. lia.
Qed.

Lemma init_free_list_loop_unfold n a s : init_free_list_loop (S n) a s =
  if a + 4096 * 4 <? MEMORY_END
  then bind (write32 a (a + 4096 * 4)) (fun _ => init_free_list_loop n (a + 4096 * 4)) s
  else Ok (a, s).
Proof. cbn [init_free_list_loop]. unfold sizeof_int. by destruct (_ <? _). Qed.

Lemma init_free_list_loop_ok n : forall a s, 4096 <= a ->
  MEMORY_END - a = 16384 * Z.of_nat (S n) ->
  exists m' b, init_free_list_loop (S n) a s = Ok (b, set_memory m' s)
    /\ a <= b
    /\ (forall c, c + 4 <= a -> load32 m' c = load32 (memory s) c)
    /\ free_list (store32 m' b 0) a (frames_from a (S n)).
Proof.
  induction n as [|n IH]; intros a s Ha Hend; rewrite init_free_list_loop_unfold;
    destruct (Z.ltb_spec (a + 4096 * 4) MEMORY_END); try lia.
  - exists (memory s), a. split_and!; [by destruct s|lia|done|]. rewrite frames_from_S.
    split; [done|]. exact (load32_store32_eq _ _ 0).
  - unfold bind. rewrite write32_ok by done.
    destruct (IH (a + 4096 * 4) (set_memory (store32 (memory s) a (a + 4096 * 4)) s)) as (m' & b & E & Hb & Hlow & HF); [lia..|].
    exists m', b. simpl in Hlow. split_and!; [rewrite E; by destruct s|lia| |].
    + intros c Hc. rewrite Hlow by lia. apply load32_store32_ne. lia.
    + rewrite frames_from_S. split; [done|].
      rewrite load32_store32_ne, Hlow, load32_store32_eq by lia.
      rewrite uwrap_small by (unfold MEMORY_END in *; lia). done.
Qed.

Lemma frames_from_frame n a x : a mod 4096 = 0 -> 4096 <= a -> a + 16384 * Z.of_nat n <= 2 ^ 32 ->
  x ∈ frames_from a n -> frame x /\ a <= x.
Proof.
  intros Ha Hr Hmax Hx. unfold frames_from in Hx. apply list_elem_of_fmap in Hx as (k & -> & Hk).
  apply elem_of_seq in Hk. unfold frame. split; [|lia]. split; [lia|]. Z.to_euclidean_division_equations. lia.
Qed.

Lemma frames_from_nodup n a : NoDup (frames_from a n).
Proof. apply NoDup_fmap_2_strong; [|apply NoDup_seq]. intros. lia. Qed.

(** The directory built before paging starts: its tables are below the free
    memory. *)
Definition boot_directory (pd : Z) (m : mem) : Prop :=
  frame pd /\ pd < MEMORY_START
  /\ (forall i, 0 <= i < 1024 -> word m pd i <> 0 -> Z.testbit (word m pd i) 0 = true
        /\ frame (table_of m pd i) /\ table_of m pd i < MEMORY_START /\ table_of m pd i <> pd)
  /\ (forall i j, 0 <= i < 1024 -> 0 <= j < 1024 -> i <> j -> word m pd i <> 0 -> word m pd j <> 0 ->
        table_of m pd i <> table_of m pd j).

Lemma init_free_list_spaces pd s n : Z.to_nat 12288 = S n ->
  boot_directory pd (memory s) -> PHYSICAL_MEMORY_HEAD s = MEMORY_START ->
  exists s', init_free_list s = Ok (tt, s')
    /\ free_list (memory s') MEMORY_START (frames_from MEMORY_START (S n))
    /\ Spaces s' (frames_from MEMORY_START (S n)) [pd]
    /\ (forall va, 0 <= va < 2 ^ 32 -> translate (memory s') pd va = translate (memory s) pd va).
Proof.
  intros En (Hpd & Hlow & HT & HI) Hh.
  destruct (init_free_list_loop_ok n MEMORY_START s) as (m' & b & E & Hb & Hl & HF); [unfold MEMORY_START; lia|unfold MEMORY_END, MEMORY_START; lia|].
  set (m2 := store32 m' b 0) in *.
  assert (init_free_list s = Ok (tt, set_memory m2 s)) as E2.
  { unfold init_free_list. rewrite En. unfold bind. rewrite E.
    rewrite write32_ok by (unfold MEMORY_START in *; lia). by destruct s. }
  assert (forall a j, frame a -> a < MEMORY_START -> 0 <= j < 1024 -> word m2 a j = word (memory s) a j) as Hw.
  { intros a j Ha Ha2 Hj. assert (a + 4096 <= MEMORY_START) by (unfold frame, MEMORY_START in *; Z.to_euclidean_division_equations; lia).
    unfold word, m2. rewrite load32_store32_ne, Hl by lia. done. }
  assert (forall x, x ∈ frames_from MEMORY_START (S n) -> frame x /\ MEMORY_START <= x) as HFr.
  { intros x. apply frames_from_frame; unfold MEMORY_START; lia || done. }
  exists (set_memory m2 s). split; [exact E2|]. clear En E E2. split_and!; [exact HF| |].
  - split; [|intros ? ? ->%list_elem_of_singleton ->%list_elem_of_singleton Hne; exfalso; exact (Hne eq_refl)].
    intros ? ->%list_elem_of_singleton. split; cbn [set_memory memory PHYSICAL_MEMORY_HEAD]; try done.
    + by rewrite Hh.
    + apply Forall_forall. intros x Hx. by apply HFr.
    + apply frames_from_nodup.
    + intros Hin. apply HFr in Hin as [_ Hin]. lia.
    + intros i Hi. rewrite Hw by done. by apply HT.
    + intros i Hi. unfold table_of. rewrite Hw by done. intros Hwi. destruct (HT i Hi Hwi) as (_ & ? & ? & ?).
      split_and!; try done. intros Hin. apply HFr in Hin as [_ Hin]. unfold table_of in *. lia.
    + intros i j Hi Hj. unfold table_of. rewrite !Hw by done. by apply HI.
  - intros va Hva. pose proof (pd_index_range va Hva) as Hi. apply translate_frame; [done|by apply Hw|].
    intros Eb. assert (word (memory s) pd (pd_index va) <> 0) as Hnz by (intros E'; by rewrite E' in Eb).
    destruct (HT _ Hi Hnz) as (_ & ? & ? & ?). apply Hw; try done. apply pt_index_range.
Qed.

(** [init_free_list] returns, and leaves a free list of 12288 distinct
    page-aligned frames, 16 KB apart between 64 MB and 256 MB (the pointer
    increments count ints: the comment of the function says 4 KB), without
    writing below 64 MB: the boot directory becomes a well-formed address
    space. *)
Theorem init_free_list_correct pd s :
  boot_directory pd (memory s) -> PHYSICAL_MEMORY_HEAD s = MEMORY_START ->
  exists s', init_free_list s = Ok (tt, s')
    /\ free_list (memory s') MEMORY_START (frames_from MEMORY_START (Z.to_nat 12288))
    /\ Spaces s' (frames_from MEMORY_START (Z.to_nat 12288)) [pd]
    /\ (forall va, 0 <= va < 2 ^ 32 -> translate (memory s') pd va = translate (memory s) pd va).
Proof.
  destruct (Z.to_nat 12288) as [|n] eqn:En; [lia|]. by apply init_free_list_spaces.
Qed.

(** ** A concrete machine

    A directory at 0x10000 with one table, at 0x11000, and four free frames. *)

Definition demo_mem : mem :=
  store32 (store32 (store32 (store32 (store32 ∅ (0x10000 + 4 * 0) 0x11003)
    (0x4000000 + 4 * 0) 0x4004000) (0x4004000 + 4 * 0) 0x4008000) (0x4008000 + 4 * 0) 0x400C000)
    (0x400C000 + 4 * 0) 0.
Definition demo : mmu := mk_mmu demo_mem 0x4000000 0xC0000000 0x10000.
Definition demo_free : list Z := [0x4000000; 0x4004000; 0x4008000; 0x400C000].

Lemma demo_pd_word j : 0 <= j < 1024 -> word demo_mem 0x10000 j = if decide (j = 0) then 0x11003 else 0.
Proof.
  intros Hj. unfold demo_mem. rewrite !word_store by (unfold frame; lia || done).
  rewrite !decide_False by lia. case_decide as E; [rewrite decide_True by lia; done|].
  rewrite decide_False by naive_solver. done.
Qed.

Lemma demo_wf : WF 0x10000 demo demo_free.
Proof.
  assert (forall i, 0 <= i < 1024 -> word demo_mem 0x10000 i <> 0 -> i = 0) as H0.
  { intros i Hi. rewrite demo_pd_word by done. case_decide; done. }
  split; cbn [demo memory PHYSICAL_MEMORY_HEAD].
  - by vm_compute.
  - repeat constructor; done.
  - by apply (bool_decide_unpack _); vm_compute.
  - done.
  - by apply (bool_decide_unpack _); vm_compute.
  - intros i Hi Hw. by rewrite (H0 i Hi Hw).
  - intros i Hi Hw. rewrite (H0 i Hi Hw). split_and!; [done| |done]. by apply (bool_decide_unpack _); vm_compute.
  - intros i j Hi Hj Hne Hwi Hwj. by rewrite (H0 i Hi Hwi), (H0 j Hj Hwj) in Hne.
Qed.

Lemma demo_spaces : Spaces demo demo_free [0x10000].
Proof.
  split; [intros pd ->%list_elem_of_singleton; apply demo_wf|].
  intros ? ? ->%list_elem_of_singleton ->%list_elem_of_singleton Hne. by destruct Hne.
Qed.



(** [map_region] of a region that does not reach the end of the address
    space, with two free frames per page, returns and maps
    [size / 4096 + 1] consecutive pages (one more than [size] needs when it
    is a multiple of 4096) to frames of the free list, two pages never to the
    same frame, and leaves the translation of every other page alone. *)
Theorem map_region_correct pd s l va flags size :
  WF pd s l -> 0 <= va -> 0 <= size -> va + size + 4096 < 2 ^ 32 -> present_flags flags ->
  2 * pages size <= Z.of_nat (length l) ->
  exists s' l', map_region pd va flags size s = Ok (tt, s') /\ region_mapped pd s l va (pages size) s' l'.
Proof.
  intros HW Hva Hs Hmax Hfl Hlen. unfold pages in *.
  destruct (map_region_loop_mapped (Z.to_nat (size / 4096 + 1)) (S (Z.to_nat (size / 4096 + 1))) pd s l va flags size 0)
    as (s' & l' & E & HR); try done; try lia.
  { rewrite Z2Nat.id; [|Z.to_euclidean_division_equations; lia]. change (0 / 4096) with 0. lia. }
  exists s', l'. split; [done|]. rewrite Z.add_0_r, Z2Nat.id in HR; [done|]. Z.to_euclidean_division_equations. lia.
Qed.

Lemma map_region_correct_witness :
  exists s' l', map_region 0x10000 0x40000000 PAGE_TABLE_USER_RW 4096 demo = Ok (tt, s')
    /\ region_mapped 0x10000 demo demo_free 0x40000000 2 s' l'.
Proof.
  apply (map_region_correct 0x10000 demo demo_free 0x40000000 PAGE_TABLE_USER_RW 4096 demo_wf).
  - lia.
  - lia.
  - lia.
  - split; [split; by vm_compute|reflexivity].
  - by vm_compute.
Defined.

(** A directory made for a new process from an existing one
    ([allocate_physical_memory_address] then [fill_new_pgdir]): it becomes one
    more well-formed address space, which translates the kernel's 256 MB as
    the source does and nothing above; the translations of the existing spaces
    do not change. *)
Theorem new_pgdir_correct s a l pds src :
  Spaces s (a :: l) pds -> src ∈ pds ->
  exists s', bind allocate_physical_memory_address
               (fun pagedir => bind (fill_new_pgdir pagedir src) (fun _ => ret pagedir)) s = Ok (a, s')
    /\ Spaces s' l (a :: pds)
    /\ (forall va, 0 <= va < 2 ^ 32 ->
          translate (memory s') a va = if va <? 2 ^ 28 then translate (memory s) src va else None)
    /\ (forall pd va, pd ∈ pds -> 0 <= va < 2 ^ 32 -> translate (memory s') pd va = translate (memory s) pd va).
Proof.
  intros HS Hsrc. pose proof (sp_wf _ _ _ HS src Hsrc) as HW. destruct (new_frame s a l pds src HS Hsrc) as [Ha Hal].
  destruct (fill_new_pgdir_filled a src (set_head (load32 (memory s) a) s)) as (m' & E & Hf);
    [done|apply (wf_pd _ _ _ HW)| |].
  { pose proof (wf_pd_free _ _ _ HW). set_solver. }
  exists (upd m' (default 0 (head l)) s). split_and!.
  - unfold allocate_physical_memory_address, bind, gets, modify, ret. destruct (wf_free _ _ _ HW) as [-> HF].
    rewrite read32_ok by (unfold frame in Ha; lia). rewrite E. unfold set_memory, upd. simpl.
    by rewrite (free_list_head _ _ _ HF).
  - by apply (new_spaces s a l pds src m').
  - intros va Hva. by apply (new_translate s a l pds src m').
  - intros pd va Hpd Hva. by apply (new_translate_other s a l pds src m').
Qed.

Lemma new_pgdir_correct_witness :
  exists s', bind allocate_physical_memory_address
               (fun pagedir => bind (fill_new_pgdir pagedir 0x10000) (fun _ => ret pagedir)) demo = Ok (0x4000000, s')
    /\ Spaces s' [0x4004000; 0x4008000; 0x400C000] [0x4000000; 0x10000].
Proof.
  destruct (new_pgdir_correct demo 0x4000000 [0x4004000; 0x4008000; 0x400C000] [0x10000] 0x10000 demo_spaces)
    as (s' & E & HS & _); [left|].
  exists s'. split; [exact E|exact HS].
Defined.

Lemma demo_boot : boot_directory 0x10000 (memory demo).
Proof.
  pose proof demo_wf as [_ _ _ ? _ HP HT HI]. split_and!; [done|done| |exact HI].
  intros i Hi Hw. destruct (HT i Hi Hw) as (? & ? & ?). split_and!; try done; [by apply HP|].
  revert Hw. cbn [demo memory]. unfold table_of. rewrite demo_pd_word by done. by case_decide.
Qed.

Lemma init_free_list_correct_witness :
  exists s', init_free_list demo = Ok (tt, s') /\ Spaces s' (frames_from MEMORY_START (Z.to_nat 12288)) [0x10000].
Proof.
  destruct (init_free_list_correct 0x10000 demo demo_boot eq_refl) as (s' & E & _ & HS & _).
  exists s'. split; [exact E|exact HS].
Defined.

(** [get_physical_address_from_virtual_address] computes the page walk of
    the processor on every mapped address without changing the state, and
    panics on an address whose directory entry is null. *)
Theorem get_physical_address_correct pd s l va :
  WF pd s l -> 0 <= va < 2 ^ 32 ->
  get_physical_address_from_virtual_address va pd s =
    if decide (word (memory s) pd (pd_index va) = 0) then Err Panicked
    else Ok (match translate (memory s) pd va with
             | Some pa => pa
             | None => page_base (word (memory s) (table_of (memory s) pd (pd_index va)) (pt_index va)) + va mod 4096
             end, s).
Proof.
  intros HW Hva. pose proof (pd_index_range va Hva) as Hi. pose proof (wf_pd _ _ _ HW) as Hpd. pose proof (pt_index_range va).
  unfold get_physical_address_from_virtual_address, get_ptable_entry_from_virtual_address, bind.
  rewrite read32_ok by (unfold frame in *; lia). change (load32 (memory s) (pd + 4 * pd_index va)) with (word (memory s) pd (pd_index va)).
  rewrite (wf_table_0 _ _ _ _ HW Hi). case_bool_decide as E; [by rewrite decide_True|]. rewrite decide_False by done.
  destruct (wf_table _ _ _ HW _ Hi E) as (Ht & _). unfold ret. rewrite andb_false_l.
  change (page_base (word (memory s) pd (pd_index va))) with (table_of (memory s) pd (pd_index va)).
  rewrite read32_ok by (unfold frame in *; lia).
  rewrite translate_words, (wf_present _ _ _ HW _ Hi E). cbv zeta.
  set (pte := word (memory s) (table_of (memory s) pd (pd_index va)) (pt_index va)).
  change (load32 (memory s) (table_of (memory s) pd (pd_index va) + 4 * pt_index va)) with pte.
  rewrite land_fff, uwrap_small; [by destruct (Z.testbit pte 0)|].
  pose proof (word_range (memory s) (table_of (memory s) pd (pd_index va)) (pt_index va)) as Hpte. fold pte in Hpte.
  rewrite page_base_eq by done. Z.to_euclidean_division_equations. lia.
Qed.

Lemma get_physical_address_correct_witness :
  get_physical_address_from_virtual_address 0x40000000 0x10000 demo = Err Panicked
  /\ get_physical_address_from_virtual_address 0x123 0x10000 demo = Ok (0x123, demo).
Proof.
  split.
  - rewrite (get_physical_address_correct 0x10000 demo demo_free 0x40000000 demo_wf) by lia. by vm_compute.
  - rewrite (get_physical_address_correct 0x10000 demo demo_free 0x123 demo_wf) by lia.
    rewrite decide_False by (by vm_compute). do 2 f_equal.
Defined.

(** When no frame is left, an allocation dereferences the null head of the
    free list: [virtual_malloc] and [map_page_from_virtual_address] fault, and
    the test of [virtual_malloc] for a null frame is never true. *)
Theorem exhausted_memory_faults s size :
  PHYSICAL_MEMORY_HEAD s = 0 -> 0 < size ->
  allocate_physical_memory_address s = Err Faulted /\ virtual_malloc size s = Err Faulted.
Proof.
  intros Hh Hs. assert (allocate_physical_memory_address s = Err Faulted) as E.
  { unfold allocate_physical_memory_address, bind, gets, read32. by rewrite Hh. }
  split; [done|]. unfold virtual_malloc. cbn [virtual_malloc_loop].
  destruct (Z.ltb_spec (0 * 4096) size); [|lia]. unfold bind. by rewrite E.
Qed.

Lemma exhausted_memory_faults_witness : virtual_malloc 1 (mk_mmu ∅ 0 0 0) = Err Faulted.
Proof. apply (exhausted_memory_faults (mk_mmu ∅ 0 0 0) 1); [reflexivity|lia]. Defined.

(** Two identity mapped pages and two free frames: the kernel's map of the
    start of the free memory. *)
Definition demo2 : mmu :=
  mk_mmu (store32 (store32 (store32 (store32 (store32 ∅ (0x10000 + 4 * 16) 0x11003)
    0x11000 0x4000003) 0x11004 0x4001003) 0x4000000 0x4004000) 0x4004000 0)
    0x4000000 0xC0000000 0x10000.

(** Releasing an area of two pages obtained from [virtual_malloc] does not
    release its second frame (the frames of an area are 16 KB apart), and
    puts on the free list a page that was never allocated. *)
Theorem virtual_free_two_pages :
  exists s, bind (virtual_malloc 8192) (fun a => virtual_free a 8192) demo2 = Ok (tt, s)
    /\ free_list (memory demo2) (PHYSICAL_MEMORY_HEAD demo2) [0x4000000; 0x4004000]
    /\ free_list (memory s) (PHYSICAL_MEMORY_HEAD s) [0x4001000; 0x4000000].
Proof. eexists. split; [vm_compute; reflexivity|]. split; by vm_compute. Qed.
