(* ===== verification/Kernel.v ===== *)
(** * Kernel state

    The global variables of process.c, message_queue.c, semaphore.c and time.c
    as one record, the allocator wrapper of malloc.c, and the context switch.
    The code is written against [QueueOps]: the links of the queues are a
    parameter, instantiated with the pointer code of queue.h or with lists.

    A process that loses the processor inside the kernel leaves, in its
    [registers], the code it still has to run; it is a constructor of [Cont].
    A handler runs until it returns to user mode or switches ([control]). *)

From S2P Require Import Prelude Queue Memory Cstring Mmu.

Local Open Scope st_scope.

(** ** Data *)

(** The queue heads: the three lists of process.c and the [waiting_process]
    field of the message queue or semaphore at an address. *)
Inductive qid := QAct | QFin | QWait | QMsg (a : Z) | QSem (a : Z).

#[export] Instance qid_eq_dec : EqDecision qid.
Proof. solve_decision. Defined.

#[export] Instance qid_countable : Countable qid.
Proof.
  refine (inj_countable'
    (fun q => match q with
              | QAct => inl 0%nat | QFin => inl 1%nat | QWait => inl 2%nat
              | QMsg a => inr (true, a) | QSem a => inr (false, a) end)
    (fun x => match x with
              | inl O => QAct | inl 1%nat => QFin | inl _ => QWait
              | inr (true, a) => QMsg a | inr (false, a) => QSem a end) _).
  by intros [].
Defined.

(** kernel/process.h *)
Inductive State := ELECTED | ACTIVABLE | ASLEEP | ZOMBIE | FINISHED | WAITING_PID | IN_MSGQUEUE | IN_SEM.

#[export] Instance State_eq_dec : EqDecision State.
Proof. solve_decision. Defined.

(** What a switched-out process does when it gets the processor back.
    [CStart]: new_process_start_function, for a process that never ran.
    [CReturn v]: return [v] from the system call.  [CStarted p]: the end of
    [start].  [CWaitpid]: the end of [waitpid], with the pid asked for or none.
    [CPsend], [CPreceive], [CSemWait]: the ends of [psend], [preceive] and
    [wait].  [CExit]: the endless loop of [exit].  [CTick]: the end of
    [tic_PIT]. *)
Inductive Cont :=
| CStart
| CReturn (v : Z)
| CStarted (p : Z)
| CWaitpid (pid : option Z) (retvalp : Z)
| CPsend (p : Z)
| CPreceive (p q message : Z)
| CSemWait (s : Z)
| CExit
| CTick.

#[export] Instance Cont_eq_dec : EqDecision Cont.
Proof. solve_decision. Defined.

Record Child := mk_child { child_addr : Z; child_pid : Z; child_priority : Z }.

Record Process := mk_process {
  pid : Z;
  name : Z * list Z;      (* the address of the string, its bytes *)
  kernel_stack : Z;
  user_stack : Z;
  registers : Cont;
  state : State;
  initial_kernel_stack : Z;
  kernel_stack_size : Z;
  user_stack_size : Z;
  priority : Z;
  wakeup_date : Z;
  father_pid : Z;
  children : list Child;
  waited_pid : Z;
  message : Z;
  skip_message : bool;
  waited_sem : Z;
  retval : Z;
  p_cr3 : Z
}.

(** kernel/message_queue.h *)
Record MessageQueue := mk_msgq {
  fid : Z;
  capacity : Z;
  nb_msg : Z;
  msg_head : Z;
  msg_tail : Z;
  buffer_addr : Z;
  buffer : list Z
}.

(** kernel/semaphore.h; [count] is a [short]. *)
Record Semaphore := mk_sem {
  sid : Z;
  count : Z;
  was_reset : bool;
  was_deleted : bool
}.

Definition NBPROC : Z := 30.
Definition MAXPRIO : Z := 256.
Definition NBQUEUE : Z := 10.
Definition QUEUE_MAX_SIZE : Z := 1000.
Definition NBSEMAPHORE : Z := 10000.
Definition SEMAPHORE_MAX_SIZE : Z := 32767.
Definition sizeof_Process : Z := 108.
Definition sizeof_Child : Z := 16.
Definition sizeof_MessageQueue : Z := 32.
Definition sizeof_Semaphore : Z := 20.

(** kernel/userspace_apps.h *)
Record uapps := mk_uapps { app_name : list Z; app_start : Z; app_end : Z }.

(** What the build provides: the table of user programs, the address of the
    kernel's page directory and of the entry code of new processes, and the
    allocator under mem_alloc (the table of live blocks and a size to an
    address, or none). *)
Class Config := {
  symbols_table : list uapps;
  pgdir : Z;
  start_address : Z;
  malloc : gmap Z Z -> Z -> option Z
}.

(** What the kernel relies on of the allocator: a live block is not given
    twice, and blocks lie in the kernel's heap, between the null address and
    the frames of [Mmu]. *)
Class MallocLaws (C : Config) : Prop := {
  malloc_fresh h n a : malloc h n = Some a -> h !! a = None;
  malloc_region h n a : malloc h n = Some a -> 0 < a < MEMORY_START
}.

(** What a live block of the allocator was asked for.  The code does not
    record it: it is a ghost value the invariant speaks of, and no operation
    reads it. *)
Inductive owner := OProcess | OName (p : Z) | OStack (p : Z) | OChild | OMsgq | OBuffer (q : Z) | OSem | OHash | OTable | OKey.

Record kernel (S : Type) := mk_kernel {
  queues : S;
  procs : gmap Z Process;
  process_table : gmap Z Z;
  current_pid : Z;
  msgqs : gmap Z MessageQueue;
  queue_table : gmap Z Z;
  sems : gmap Z Semaphore;
  semaphore_table : gmap Z Z;
  time_count : Z;
  heap : gmap Z (Z * owner);
  vm : mmu;
  tss_cr3 : Z;
  tss_esp0 : Z
}.
Arguments mk_kernel {S}.
Arguments queues {S} k. Arguments procs {S} k. Arguments process_table {S} k.
Arguments current_pid {S} k. Arguments msgqs {S} k. Arguments queue_table {S} k.
Arguments sems {S} k. Arguments semaphore_table {S} k. Arguments time_count {S} k.
Arguments heap {S} k. Arguments vm {S} k. Arguments tss_cr3 {S} k. Arguments tss_esp0 {S} k.

Section Setters.
Context {S T : Type}.
Implicit Types k : kernel S.
Definition set_queues (x : T) k : kernel T := mk_kernel x (procs k) (process_table k) (current_pid k) (msgqs k) (queue_table k) (sems k) (semaphore_table k) (time_count k) (heap k) (vm k) (tss_cr3 k) (tss_esp0 k).
Definition set_procs x k := mk_kernel (queues k) x (process_table k) (current_pid k) (msgqs k) (queue_table k) (sems k) (semaphore_table k) (time_count k) (heap k) (vm k) (tss_cr3 k) (tss_esp0 k).
Definition set_process_table x k := mk_kernel (queues k) (procs k) x (current_pid k) (msgqs k) (queue_table k) (sems k) (semaphore_table k) (time_count k) (heap k) (vm k) (tss_cr3 k) (tss_esp0 k).
Definition set_current_pid x k := mk_kernel (queues k) (procs k) (process_table k) x (msgqs k) (queue_table k) (sems k) (semaphore_table k) (time_count k) (heap k) (vm k) (tss_cr3 k) (tss_esp0 k).
Definition set_msgqs x k := mk_kernel (queues k) (procs k) (process_table k) (current_pid k) x (queue_table k) (sems k) (semaphore_table k) (time_count k) (heap k) (vm k) (tss_cr3 k) (tss_esp0 k).
Definition set_queue_table x k := mk_kernel (queues k) (procs k) (process_table k) (current_pid k) (msgqs k) x (sems k) (semaphore_table k) (time_count k) (heap k) (vm k) (tss_cr3 k) (tss_esp0 k).
Definition set_sems x k := mk_kernel (queues k) (procs k) (process_table k) (current_pid k) (msgqs k) (queue_table k) x (semaphore_table k) (time_count k) (heap k) (vm k) (tss_cr3 k) (tss_esp0 k).
Definition set_semaphore_table x k := mk_kernel (queues k) (procs k) (process_table k) (current_pid k) (msgqs k) (queue_table k) (sems k) x (time_count k) (heap k) (vm k) (tss_cr3 k) (tss_esp0 k).
Definition set_time_count x k := mk_kernel (queues k) (procs k) (process_table k) (current_pid k) (msgqs k) (queue_table k) (sems k) (semaphore_table k) x (heap k) (vm k) (tss_cr3 k) (tss_esp0 k).
Definition set_heap x k := mk_kernel (queues k) (procs k) (process_table k) (current_pid k) (msgqs k) (queue_table k) (sems k) (semaphore_table k) (time_count k) x (vm k) (tss_cr3 k) (tss_esp0 k).
Definition set_vm x k := mk_kernel (queues k) (procs k) (process_table k) (current_pid k) (msgqs k) (queue_table k) (sems k) (semaphore_table k) (time_count k) (heap k) x (tss_cr3 k) (tss_esp0 k).
Definition set_tss (c e : Z) k := mk_kernel (queues k) (procs k) (process_table k) (current_pid k) (msgqs k) (queue_table k) (sems k) (semaphore_table k) (time_count k) (heap k) (vm k) c e.
End Setters.

Section ProcessSetters.
Implicit Types p : Process.
Definition set_registers x p := mk_process (pid p) (name p) (kernel_stack p) (user_stack p) x (state p) (initial_kernel_stack p) (kernel_stack_size p) (user_stack_size p) (priority p) (wakeup_date p) (father_pid p) (children p) (waited_pid p) (message p) (skip_message p) (waited_sem p) (retval p) (p_cr3 p).
Definition set_state x p := mk_process (pid p) (name p) (kernel_stack p) (user_stack p) (registers p) x (initial_kernel_stack p) (kernel_stack_size p) (user_stack_size p) (priority p) (wakeup_date p) (father_pid p) (children p) (waited_pid p) (message p) (skip_message p) (waited_sem p) (retval p) (p_cr3 p).
Definition set_priority x p := mk_process (pid p) (name p) (kernel_stack p) (user_stack p) (registers p) (state p) (initial_kernel_stack p) (kernel_stack_size p) (user_stack_size p) x (wakeup_date p) (father_pid p) (children p) (waited_pid p) (message p) (skip_message p) (waited_sem p) (retval p) (p_cr3 p).
Definition set_wakeup_date x p := mk_process (pid p) (name p) (kernel_stack p) (user_stack p) (registers p) (state p) (initial_kernel_stack p) (kernel_stack_size p) (user_stack_size p) (priority p) x (father_pid p) (children p) (waited_pid p) (message p) (skip_message p) (waited_sem p) (retval p) (p_cr3 p).
Definition set_father_pid x p := mk_process (pid p) (name p) (kernel_stack p) (user_stack p) (registers p) (state p) (initial_kernel_stack p) (kernel_stack_size p) (user_stack_size p) (priority p) (wakeup_date p) x (children p) (waited_pid p) (message p) (skip_message p) (waited_sem p) (retval p) (p_cr3 p).
Definition set_children x p := mk_process (pid p) (name p) (kernel_stack p) (user_stack p) (registers p) (state p) (initial_kernel_stack p) (kernel_stack_size p) (user_stack_size p) (priority p) (wakeup_date p) (father_pid p) x (waited_pid p) (message p) (skip_message p) (waited_sem p) (retval p) (p_cr3 p).
Definition set_waited_pid x p := mk_process (pid p) (name p) (kernel_stack p) (user_stack p) (registers p) (state p) (initial_kernel_stack p) (kernel_stack_size p) (user_stack_size p) (priority p) (wakeup_date p) (father_pid p) (children p) x (message p) (skip_message p) (waited_sem p) (retval p) (p_cr3 p).
Definition set_message x p := mk_process (pid p) (name p) (kernel_stack p) (user_stack p) (registers p) (state p) (initial_kernel_stack p) (kernel_stack_size p) (user_stack_size p) (priority p) (wakeup_date p) (father_pid p) (children p) (waited_pid p) x (skip_message p) (waited_sem p) (retval p) (p_cr3 p).
Definition set_skip_message x p := mk_process (pid p) (name p) (kernel_stack p) (user_stack p) (registers p) (state p) (initial_kernel_stack p) (kernel_stack_size p) (user_stack_size p) (priority p) (wakeup_date p) (father_pid p) (children p) (waited_pid p) (message p) x (waited_sem p) (retval p) (p_cr3 p).
Definition set_waited_sem x p := mk_process (pid p) (name p) (kernel_stack p) (user_stack p) (registers p) (state p) (initial_kernel_stack p) (kernel_stack_size p) (user_stack_size p) (priority p) (wakeup_date p) (father_pid p) (children p) (waited_pid p) (message p) (skip_message p) x (retval p) (p_cr3 p).
Definition set_retval x p := mk_process (pid p) (name p) (kernel_stack p) (user_stack p) (registers p) (state p) (initial_kernel_stack p) (kernel_stack_size p) (user_stack_size p) (priority p) (wakeup_date p) (father_pid p) (children p) (waited_pid p) (message p) (skip_message p) (waited_sem p) x (p_cr3 p).
End ProcessSetters.

(** ** Primitives *)

Section Primitives.
Context {S : Type} {ops : QueueOps qid Z S} {C : Config}.
Abbreviation K := (ST (kernel S)).

Definition lift_res {A} (f : kernel S -> result A) : K A :=
  fun k => match f k with Ok a => Ok (a, k) | Err e => Err e end.

(** [a->...] through a pointer to a process; a null or dangling pointer faults. *)
Definition proc (a : Z) : K Process := fun k => lift_opt Faulted (procs k !! a) k.
Definition put_proc (a : Z) (p : Process) : K unit := modify (fun k => set_procs (<[a := p]> (procs k)) k).
Definition upd_proc (a : Z) (f : Process -> Process) : K unit :=
  let! p := proc a in put_proc a (f p).

(** [process_table[i]], dereferenced. *)
Definition process_at (i : Z) : K Z := fun k => lift_opt Faulted (process_table k !! i) k.
Definition current : K Z := fun k => process_at (current_pid k) k.

Definition msgq (a : Z) : K MessageQueue := fun k => lift_opt Faulted (msgqs k !! a) k.
Definition put_msgq (a : Z) (q : MessageQueue) : K unit := modify (fun k => set_msgqs (<[a := q]> (msgqs k)) k).
Definition semaphore (a : Z) : K Semaphore := fun k => lift_opt Faulted (sems k !! a) k.
Definition put_sem (a : Z) (s : Semaphore) : K unit := modify (fun k => set_sems (<[a := s]> (sems k)) k).

(** The queue macros on processes, ordered by their [priority] field. *)
Definition prio_of (k : kernel S) (a : Z) : Z := from_option priority 0 (procs k !! a).

Definition lift_queue (f : kernel S -> result S) : K unit :=
  fun k => match f k with Ok q => Ok (tt, set_queues q k) | Err e => Err e end.
Definition queue_add (a : Z) (h : qid) : K unit := lift_queue (fun k => q_add (prio_of k) a h (queues k)).
Definition queue_del (a : Z) : K unit := lift_queue (fun k => q_del a (queues k)).
Definition init_list_head (h : qid) : K unit := lift_queue (fun k => q_init_head h (queues k)).
Definition queue_out (h : qid) : K (option Z) :=
  fun k => match q_out h (queues k) with Ok (e, q) => Ok (e, set_queues q k) | Err e => Err e end.
Definition queue_top (h : qid) : K (option Z) := lift_res (fun k => q_top h (queues k)).
Definition queue_empty (h : qid) : K bool := lift_res (fun k => q_empty h (queues k)).
Definition queue_elems (h : qid) : K (list Z) := lift_res (fun k => q_elems h (queues k)).
Definition queue_initialized (a : Z) : K bool := gets (fun k => q_initialized a (queues k)).

(** A memory management operation. *)
Definition lift_mmu {A} (m : MMU A) : K A :=
  fun k => match m (vm k) with Ok (a, v) => Ok (a, set_vm v k) | Err e => Err e end.

(** [*va = v] through the current page directory, byte by byte. *)
Definition store_user8 (va v : Z) : MMU unit :=
  fun s => match translate (memory s) (cr3 s) va with
           | Some pa => Ok (tt, set_memory (store8 (memory s) pa v) s)
           | None => Err Faulted
           end.
Definition store_user32 (va v : Z) : MMU unit :=
  do! store_user8 va v in
  do! store_user8 (u32 (va + 1)) (v / 2 ^ 8) in
  do! store_user8 (u32 (va + 2)) (v / 2 ^ 16) in
  store_user8 (u32 (va + 3)) (v / 2 ^ 24).

(** malloc.c: mem_alloc rounds up, adds four guard words, refuses a null or
    overflowing length; mem_free checks the guards, which only a block that
    is live with this length has, and faults ([mem_bug]) otherwise.  The
    memory is zeroed by both. *)
Definition mem_alloc (length : Z) (o : owner) : K Z :=
  fun k =>
    let l := u32 (u32 (length + 4 - 1) / 4 + 4) in
    let l2 := u32 (l * 4) in
    if length =? 0 then Ok (0, k) else
    if l2 <=? length then Ok (0, k) else
    match malloc (fst <$> heap k) l2 with
    | None => Ok (0, k)
    | Some p => Ok (p, set_heap (<[p := (length, o)]> (heap k)) k)
    end.

Definition mem_free (zone length : Z) : K unit :=
  fun k =>
    if length =? 0 then Ok (tt, k) else
    if bool_decide (fst <$> heap k !! zone = Some length) then Ok (tt, set_heap (delete zone (heap k)) k)
    else Err Faulted.
End Primitives.
Abbreviation K S := (ST (kernel S)).

(** ** Context switch *)

(** How a handler ends: it returns to its caller, or the processor is given to
    a process that continues with [c]. *)
Inductive control := Return (v : Z) | Resume (c : Cont).

Section Switch.
Context {S : Type} {ops : QueueOps qid Z S} {C : Config}.

(** [k] is the code [old_process] still has to run. *)
Definition virtual_ctx_sw (old_process new_process : Z) (k : Cont) : K S control :=
  let! n := proc new_process in
  do! lift_mmu (modify (set_cr3 (p_cr3 n))) in
  do! modify (set_tss (p_cr3 n) (u32 (kernel_stack n + 4 * kernel_stack_size n))) in
  do! upd_proc old_process (set_registers k) in
  let! n := proc new_process in
  ret (Resume (registers n)).
End Switch.
