(* ===== verification/Process.v ===== *)
(** * Processes and scheduling (kernel/process.c)

    Every function of process.c over the state of [Kernel].  A function that
    calls __scheduler takes or builds the continuation of its caller. *)

From S2P Require Import Prelude Queue Memory Cstring Mmu Kernel.

Local Open Scope st_scope.

Section Process.
Context {S : Type} {ops : QueueOps qid Z S} {C : Config}.
Abbreviation KM := (ST (kernel S)).

(** The first [i] at or above [i0] that a table of [n] entries leaves free. *)
Fixpoint first_free (n : nat) (i : Z) (table : gmap Z Z) : Z :=
  match n with
  | O => -1
  | Datatypes.S n' => match table !! i with None => i | Some _ => first_free n' (i + 1) table end
  end.

Definition __get_free_pid : KM Z := gets (fun k => first_free (Z.to_nat NBPROC) 0 (process_table k)).

Definition __is_valid_pid (pid : Z) : KM bool :=
  gets (fun k => (pid <? NBPROC) && (0 <=? pid) && bool_decide (is_Some (process_table k !! pid))).

Definition current_clock : KM Z := gets time_count.

(** ** Freeing *)

Definition __free_process (p : Z) : KM unit :=
  let! pr := proc p in
  let! cur := gets current_pid in
  if pid pr =? cur then fail Panicked else
  do! mem_free (initial_kernel_stack pr) (kernel_stack_size pr) in
  do! mem_free (name pr).1 (Z.of_nat (length (name pr).2) + 1) in
  do! mem_free p sizeof_Process in
  modify (fun k => set_procs (delete p (procs k)) k).

(** The first element a queue_for_each loop finds. *)
Fixpoint find_proc (test : Process -> bool) (l : list Z) : KM (option Z) :=
  match l with
  | [] => ret None
  | a :: l' => let! p := proc a in if test p then ret (Some a) else find_proc test l'
  end.

(** [while (!queue_empty(&finished_list)) __free_process(queue_out(...))] *)
Fixpoint free_all_finished (fuel : nat) : KM unit :=
  match fuel with
  | O => fail Diverged
  | Datatypes.S fuel' =>
      let! e := queue_empty QFin in
      if e then ret tt else
      let! f := queue_out QFin in
      let! finished := lift_opt Faulted f in
      do! __free_process finished in
      free_all_finished fuel'
  end.

(** Each pass removes one element of the queue. *)
Definition __free_finished_process : KM unit :=
  let! l := queue_elems QFin in
  let! cur := gets current_pid in
  let! found := find_proc (fun p => pid p =? cur) l in
  do! match found with Some c => queue_del c | None => ret tt end in
  do! free_all_finished (Datatypes.S (length l)) in
  match found with Some c => queue_add c QFin | None => ret tt end.

(** ** The scheduler *)

Definition wakeup_one (i : Z) : KM unit :=
  let! table := gets process_table in
  match table !! i with
  | None => ret tt
  | Some a =>
      let! p := proc a in
      let! now := current_clock in
      if bool_decide (state p = ASLEEP) && (wakeup_date p <=? now) then
        do! upd_proc a (set_state ACTIVABLE) in
        queue_add a QAct
      else ret tt
  end.

Definition __wakeup_process : KM unit := for_each (seqZ 0 NBPROC) wakeup_one.

Definition __scheduler (k : Cont) : KM control :=
  do! __free_finished_process in
  do! __wakeup_process in
  let! o := queue_out QAct in
  let! new_process := lift_opt Faulted o in
  do! upd_proc new_process (set_state ELECTED) in
  let! e := queue_empty QFin in
  let! old_process :=
    (if e then current else let! t := queue_top QFin in lift_opt Faulted t) in
  let! n := proc new_process in
  do! modify (set_current_pid (pid n)) in
  virtual_ctx_sw old_process new_process k.

(** The current process becomes activable and the processor is scheduled:
    the tail of several system calls. *)
Definition yield_cpu (k : Cont) : KM control :=
  let! a := current in
  do! upd_proc a (set_state ACTIVABLE) in
  do! queue_add a QAct in
  __scheduler k.

(** ** The end of processes *)

Definition __finish_fatherless (pid : Z) : KM unit :=
  let! a := process_at pid in
  do! upd_proc a (set_state FINISHED) in
  do! queue_add a QFin in
  modify (fun k => set_process_table (delete pid (process_table k)) k).

Definition __awake_father (child_pid : Z) : KM unit :=
  let! l := queue_elems QWait in
  let! c := gets (fun k => process_table k !! child_pid) in
  let! child := match c with Some a => proc a | None => fail Faulted end in
  let! found := find_proc (fun p => pid p =? father_pid child) l in
  match found with
  | None => ret tt
  | Some current_waiting =>
      do! queue_del current_waiting in
      do! upd_proc current_waiting (set_waited_pid child_pid) in
      do! upd_proc current_waiting (set_state ACTIVABLE) in
      queue_add current_waiting QAct
  end.

Definition __remove_from_children (pid father_pid : Z) : KM unit :=
  if father_pid =? -1 then ret tt else
  let! father := process_at father_pid in
  upd_proc father (fun p =>
    match list_find (fun c => child_pid c = pid) (children p) with
    | Some (i, _) => set_children (delete i (children p)) p
    | None => p
    end).

Definition orphan_child (c : Child) : KM unit :=
  let! a := process_at (child_pid c) in
  do! upd_proc a (set_father_pid (-1)) in
  let! p := proc a in
  if bool_decide (state p = ZOMBIE) then __finish_fatherless (child_pid c) else ret tt.

(** [k] is where the caller continues if the process that ends is the
    current one; the caller returns otherwise. *)
Definition __process_end (pid : Z) (k : Cont) : KM (option control) :=
  let! ending_process := process_at pid in
  let! p := proc ending_process in
  do! (if negb (father_pid p =? -1) then
         do! upd_proc ending_process (set_state ZOMBIE) in
         __awake_father pid
       else __finish_fatherless pid) in
  let! p := proc ending_process in
  do! for_each (children p) orphan_child in
  let! cur := gets current_pid in
  if pid =? cur then let! c := __scheduler k in ret (Some c) else ret None.

Definition __finish_zombie (pid retvalp : Z) : KM unit :=
  do! (if negb (retvalp =? 0) then
         if u32 retvalp <? 0x4000000 then fail Panicked
         else let! a := process_at pid in
              let! p := proc a in
              lift_mmu (store_user32 retvalp (retval p))
       else ret tt) in
  let! cur := gets current_pid in
  do! __remove_from_children pid cur in
  let! a := process_at pid in
  do! upd_proc a (set_state FINISHED) in
  do! queue_add a QFin in
  modify (fun k => set_process_table (delete pid (process_table k)) k).

(** ** System calls *)

Definition getprio (pid : Z) : KM Z :=
  let! v := __is_valid_pid pid in
  if negb v then ret (-1) else
  let! a := process_at pid in
  let! p := proc a in
  if bool_decide (state p = ZOMBIE) then ret (-1) else ret (priority p).

Definition getpid : KM Z := gets current_pid.

(** Whether a queue_for_each loop meets a process with this pid. *)
Definition has_pid (pid0 : Z) (h : qid) : KM bool :=
  let! l := queue_elems h in
  let! o := find_proc (fun p => pid p =? pid0) l in
  ret (bool_decide (is_Some o)).

(** The loops of __get_queue over queue_table and semaphore_table. *)
Fixpoint search_queues (n : nat) (i : Z) (table : gmap Z Z) (q : Z -> qid) (pid0 : Z) : KM (option qid) :=
  match n with
  | O => ret None
  | Datatypes.S n' =>
      match table !! i with
      | None => search_queues n' (i + 1) table q pid0
      | Some a =>
          let! b := has_pid pid0 (q a) in
          if b then ret (Some (q a)) else search_queues n' (i + 1) table q pid0
      end
  end.

Definition __get_queue (process : Z) : KM (option qid) :=
  let! p := proc process in
  match state p with
  | ELECTED | ASLEEP | ZOMBIE | FINISHED => ret None
  | ACTIVABLE => ret (Some QAct)
  | WAITING_PID => ret (Some QWait)
  | IN_MSGQUEUE =>
      let! t := gets queue_table in search_queues (Z.to_nat NBQUEUE) 0 t QMsg (pid p)
  | IN_SEM =>
      let! t := gets semaphore_table in search_queues (Z.to_nat NBSEMAPHORE) 0 t QSem (pid p)
  end.

Definition chprio (pid newprio : Z) : KM control :=
  let! v := __is_valid_pid pid in
  if negb v || (MAXPRIO <? newprio) || (newprio <=? 0) || (pid =? 0) then ret (Return (-1)) else
  let! a := process_at pid in
  let! p := proc a in
  if bool_decide (state p = ZOMBIE) || bool_decide (state p = FINISHED) then ret (Return (-1)) else
  let old_prio := priority p in
  let! free := queue_initialized a in
  do! (if negb free then
         let! o := __get_queue a in
         match o with
         | None => fail Panicked
         | Some queue =>
             do! queue_del a in
             do! upd_proc a (set_priority newprio) in
             queue_add a queue
         end
       else upd_proc a (set_priority newprio)) in
  yield_cpu (CReturn old_prio).

Definition wait_clock (wakeup : Z) : KM control :=
  let! a := current in
  do! upd_proc a (set_state ASLEEP) in
  do! upd_proc a (set_wakeup_date wakeup) in
  __scheduler (CReturn 0).

Definition exit (retval : Z) : KM control :=
  let! a := current in
  do! upd_proc a (set_retval retval) in
  let! cur := getpid in
  let! c := __process_end cur CExit in
  match c with Some c => ret c | None => fail Diverged end.

Definition kill (pid : Z) : KM control :=
  let! v := __is_valid_pid pid in
  if negb v || (pid =? 0) then ret (Return (-1)) else
  let! a := process_at pid in
  let! p := proc a in
  if bool_decide (state p = ZOMBIE) then ret (Return (-1)) else
  let! free := queue_initialized a in
  do! (if negb free then
         do! queue_del a in
         if bool_decide (state p = IN_SEM) then
           let! t := gets semaphore_table in
           let! sa := lift_opt Faulted (t !! waited_sem p) in
           let! s := semaphore sa in
           put_sem sa (mk_sem (sid s) (s16 (count s + 1)) (was_reset s) (was_deleted s))
         else ret tt
       else ret tt) in
  do! upd_proc a (set_retval 0) in
  let! c := __process_end pid (CReturn 0) in
  match c with Some c => ret c | None => ret (Return 0) end.

(** The first child of the list that is a zombie. *)
Fixpoint find_zombie (l : list Child) : KM (option Z) :=
  match l with
  | [] => ret None
  | c :: l' =>
      let! a := process_at (child_pid c) in
      let! p := proc a in
      if bool_decide (state p = ZOMBIE) then ret (Some (child_pid c)) else find_zombie l'
  end.

Definition wait_for_child (k : Cont) : KM control :=
  let! a := current in
  do! upd_proc a (set_state WAITING_PID) in
  do! queue_add a QWait in
  __scheduler k.

Definition waitpid (pid retvalp : Z) : KM control :=
  if negb (retvalp =? 0) && (u32 retvalp <? 0x4000000) then ret (Return (-1)) else
  if NBPROC <=? pid then ret (Return (-1)) else
  if pid <? 0 then
    let! a := current in
    let! p := proc a in
    match children p with
    | [] => ret (Return (-1))
    | _ =>
        let! z := find_zombie (children p) in
        match z with
        | Some c => do! __finish_zombie c retvalp in ret (Return c)
        | None => wait_for_child (CWaitpid None retvalp)
        end
    end
  else
    let! t := gets process_table in
    match t !! pid with
    | None => ret (Return (-1))
    | Some a =>
        let! p := proc a in
        let! cur := gets current_pid in
        if negb (father_pid p =? cur) then ret (Return (-1)) else
        if bool_decide (state p = ZOMBIE) then
          do! __finish_zombie pid retvalp in ret (Return pid)
        else wait_for_child (CWaitpid (Some pid) retvalp)
    end.

(** The end of waitpid, when the father runs again. *)
Definition waitpid_resume (pid : option Z) (retvalp : Z) : KM Z :=
  let! finished_pid :=
    match pid with
    | Some p => ret p
    | None => let! a := current in let! p := proc a in ret (waited_pid p)
    end in
  do! __finish_zombie finished_pid retvalp in
  ret finished_pid.

(** ** Starting *)

(** strcmp == 0 on the names; panics when no program has the name. *)
Definition get_symbol_from_name (nm : list Z) : KM uapps :=
  match list_find (fun u => app_name u = nm) symbols_table with
  | Some (_, u) => ret u
  | None => fail Panicked
  end.

(** Steps 2 to 7 of [start]: code and stack, in a new page directory.
    Returns the directory and the top of the stack in the kernel's mapping. *)
Definition load_program (u : uapps) (ssize : Z) : MMU (Z * Z) :=
  let size_to_map := s32 (app_end u - app_start u) in
  let! process_code := virtual_malloc size_to_map in
  let! new_pgdir := allocate_physical_memory_address in
  do! fill_new_pgdir new_pgdir pgdir in
  do! modify (fun s => set_memory (memcpy (memory s) process_code (app_start u) (u32 size_to_map)) s) in
  do! pgdir_copy pgdir new_pgdir process_code ONE_GIGABYTE size_to_map in
  let! stack := virtual_malloc (s32 (ssize + 8)) in
  let user_stack := u32 (stack + ssize + 4) in
  do! pgdir_copy pgdir new_pgdir user_stack TWO_GIGABYTES (s32 (ssize + 8)) in
  ret (new_pgdir, user_stack).

(** The kernel stack: [initial_kernel_stack] is an [int *], so its size is
    counted in ints.  Three words are pushed. *)
Definition kernel_stack_top (initial size : Z) : Z := u32 (initial + 4 * (size - 8)).

Definition setup_kernel_stack (top arg : Z) : MMU unit :=
  do! write32 top arg in
  do! write32 (u32 (top - 4)) 0 in
  write32 (u32 (top - 8)) start_address.

Definition add_child (father child : Z) : KM unit :=
  let! c := mem_alloc sizeof_Child OChild in
  if c =? 0 then fail Faulted else
  let! fa := process_at father in
  upd_proc fa (fun p => set_children (ListQueue.insert_prio child_priority (mk_child c child 1) (children p)) p).

(** Whether the new process takes the processor at once. *)
Definition preempts (prio : Z) : KM bool :=
  let! cur := gets current_pid in
  if 0 <=? cur then let! a := current in let! p := proc a in ret (priority p <? prio) else ret false.

Definition elect_or_queue (p_addr : Z) : KM control :=
  let! p := proc p_addr in
  let! b := preempts (priority p) in
  if b then
    let! old_process := current in
    do! upd_proc old_process (set_state ACTIVABLE) in
    do! queue_add old_process QAct in
    do! upd_proc p_addr (set_state ELECTED) in
    do! modify (set_current_pid (pid p)) in
    virtual_ctx_sw old_process p_addr (CStarted p_addr)
  else
    do! upd_proc p_addr (set_state ACTIVABLE) in
    do! queue_add p_addr QAct in
    do! upd_proc p_addr (set_skip_message false) in
    ret (Return (pid p)).

Definition start (nm : list Z) (ssize prio arg : Z) : KM control :=
  if 0x10000000 <? ssize then ret (Return (-1)) else
  let! p := mem_alloc sizeof_Process OProcess in
  let! process_symbols := get_symbol_from_name nm in
  if p =? 0 then fail Faulted else
  let! '(new_pgdir, user_stack) := lift_mmu (load_program process_symbols ssize) in
  let! pid := __get_free_pid in
  if (pid =? -1) || (MAXPRIO <? prio) then
    do! mem_free p sizeof_Process in ret (Return (-1))
  else
  do! modify (fun k => set_process_table (<[pid := p]> (process_table k)) k) in
  let! nm_addr := mem_alloc (Z.of_nat (length nm) + 1) (OName p) in
  if nm_addr =? 0 then fail Faulted else
  let! initial_kernel_stack := mem_alloc 8192 (OStack p) in
  let top := kernel_stack_top initial_kernel_stack 8192 in
  do! lift_mmu (setup_kernel_stack top arg) in
  do! lift_mmu (write32 (u32 (user_stack - 36)) arg) in
  do! lift_mmu (pgdir_copy pgdir new_pgdir (u32 (user_stack - 4)) TWO_GIGABYTES (s32 (ssize + 8))) in
  let! father := gets current_pid in
  do! put_proc p (mk_process pid (nm_addr, nm) (u32 (top - 8)) (u32 (TWO_GIGABYTES + ssize - 4)) CStart
        ELECTED initial_kernel_stack 8192 ssize prio 0 father [] 0 0 false 0 0 new_pgdir) in
  do! (if negb (father =? -1) then add_child father pid else ret tt) in
  elect_or_queue p.

(** The end of [start] when the father runs again. *)
Definition start_resume (p : Z) : KM Z :=
  do! upd_proc p (set_skip_message false) in
  let! pr := proc p in
  ret (pid pr).

(** memcpy to a user address, through the current page directory. *)
Fixpoint memcpy_user (n : nat) (dst src : Z) : MMU unit :=
  match n with
  | O => ret tt
  | Datatypes.S n' =>
      let! b := gets (fun s => load8 (memory s) src) in
      do! store_user8 dst b in
      memcpy_user n' (u32 (dst + 1)) (src + 1)
  end.

(** The idle process is never freed: its blocks come from virtual_malloc. *)
Definition __init_idle : KM Z :=
  let! p_idle := lift_mmu (virtual_malloc sizeof_Process) in
  do! modify (fun k => set_process_table (<[0 := p_idle]> (process_table k)) k) in
  let! nm := lift_mmu (virtual_malloc 5) in
  let! kstack := lift_mmu (virtual_malloc 2048) in
  do! lift_mmu (write32 (u32 (kstack + 4 * 511)) ONE_GIGABYTE) in
  let! process_symbols := get_symbol_from_name [105; 100; 108; 101] in
  let size_to_map := s32 (app_end process_symbols - app_start process_symbols) in
  do! lift_mmu (map_region pgdir ONE_GIGABYTE PAGE_TABLE_USER_RW (u32 size_to_map)) in
  do! lift_mmu (memcpy_user (Z.to_nat size_to_map) ONE_GIGABYTE (app_start process_symbols)) in
  do! lift_mmu (map_region pgdir TWO_GIGABYTES PAGE_TABLE_USER_RW (4096 * 10)) in
  do! put_proc p_idle (mk_process 0 (nm, [105; 100; 108; 101]) kstack (TWO_GIGABYTES + 1024 * 10) CStart
        ELECTED 0 512 (1024 * 10) 1 0 0 [] 0 0 false 0 0 pgdir) in
  ret p_idle.
End Process.
