(* ===== verification/MessageQueue.v ===== *)
(** * Message queues (kernel/message_queue.c) *)

From S2P Require Import Prelude Queue Memory Mmu Kernel Process.

Local Open Scope st_scope.

Section MessageQueue.
Context {S : Type} {ops : QueueOps qid Z S} {C : Config}.
Abbreviation KM := (ST (kernel S)).

Definition __get_free_fid : KM Z := gets (fun k => first_free (Z.to_nat NBQUEUE) 0 (queue_table k)).

(** The queue a valid [fid] names: [fid < 0 || fid > NBQUEUE - 1 ||
    !queue_table[fid]] is the opposite. *)
Definition valid_fid (fid : Z) : KM (option Z) :=
  gets (fun k => if (fid <? 0) || (NBQUEUE - 1 <? fid) then None else queue_table k !! fid).

(** A null buffer is not tested: the first access to it faults, here at once. *)
Definition pcreate (count : Z) : KM Z :=
  let! fid := __get_free_fid in
  if (count <=? 0) || (fid =? -1) || (QUEUE_MAX_SIZE <? count) then ret (-1) else
  let! queue := mem_alloc sizeof_MessageQueue OMsgq in
  if queue =? 0 then fail Faulted else
  do! modify (fun k => set_queue_table (<[fid := queue]> (queue_table k)) k) in
  let! buf := mem_alloc (count * 4) (OBuffer queue) in
  if buf =? 0 then fail Faulted else
  do! put_msgq queue (mk_msgq fid count 0 0 0 buf (replicate (Z.to_nat count) 0)) in
  do! init_list_head (QMsg queue) in
  ret fid.

(** [while (!queue_empty(h)) { current = queue_out(h); f; queue_add(current, &activable_list) }];
    [fuel] bounds the passes by the length of the queue. *)
Fixpoint wake_all (fuel : nat) (h : qid) (f : Process -> Process) : KM unit :=
  match fuel with
  | O => fail Diverged
  | Datatypes.S fuel' =>
      let! e := queue_empty h in
      if e then ret tt else
      let! o := queue_out h in
      let! current := lift_opt Faulted o in
      do! upd_proc current f in
      do! queue_add current QAct in
      wake_all fuel' h f
  end.

Definition wake_waiting (h : qid) (f : Process -> Process) : KM unit :=
  let! l := queue_elems h in
  wake_all (Datatypes.S (length l)) h f.

(** [current->state = ACTIVABLE; current->skip_message = true] *)
Definition skip (p : Process) : Process := set_skip_message true (set_state ACTIVABLE p).

Definition pdelete (fid : Z) : KM control :=
  let! o := valid_fid fid in
  match o with
  | None => ret (Return (-1))
  | Some deleted =>
      do! wake_waiting (QMsg deleted) skip in
      do! modify (fun k => set_queue_table (delete fid (queue_table k)) k) in
      let! q := msgq deleted in
      do! mem_free (buffer_addr q) (capacity q * 4) in
      do! mem_free deleted sizeof_MessageQueue in
      do! modify (fun k => set_msgqs (delete deleted (msgqs k)) k) in
      yield_cpu (CReturn 0)
  end.

(** [i + 1 > capacity - 1 ? 0 : i + 1] *)
Definition next_index (q : MessageQueue) (i : Z) : Z := if capacity q - 1 <? i + 1 then 0 else i + 1.

(** [q->buffer[q->head] = message], then the head moves. *)
Definition write_head (q : MessageQueue) (msg : Z) : MessageQueue :=
  mk_msgq (fid q) (capacity q) (nb_msg q) (next_index q (msg_head q)) (msg_tail q) (buffer_addr q)
    (<[Z.to_nat (msg_head q) := msg]> (buffer q)).
Definition set_nb_msg (n : Z) (q : MessageQueue) : MessageQueue :=
  mk_msgq (fid q) (capacity q) n (msg_head q) (msg_tail q) (buffer_addr q) (buffer q).
Definition advance_tail (q : MessageQueue) : MessageQueue :=
  mk_msgq (fid q) (capacity q) (nb_msg q) (msg_head q) (next_index q (msg_tail q)) (buffer_addr q) (buffer q).

(** [q->buffer[q->tail]] *)
Definition read_tail (q : MessageQueue) : Z := nth (Z.to_nat (msg_tail q)) (buffer q) 0.

(** [if (message) *message = v] *)
Definition store_if (va v : Z) : KM unit :=
  if va =? 0 then ret tt else lift_mmu (store_user32 va v).

Definition psend (fid msg : Z) : KM control :=
  let! o := valid_fid fid in
  match o with
  | None => ret (Return (-1))
  | Some qa =>
      let! cur := current in
      do! upd_proc cur (set_message msg) in
      let! q := msgq qa in
      let! empty := queue_empty (QMsg qa) in
      if (nb_msg q =? 0) && negb empty then
        do! put_msgq qa (set_nb_msg (nb_msg q + 1) (write_head q msg)) in
        let! n := queue_out (QMsg qa) in
        let! old_process := current in
        do! upd_proc old_process (set_state ACTIVABLE) in
        do! queue_add old_process QAct in
        let! new_process := lift_opt Faulted n in
        do! upd_proc new_process (set_state ELECTED) in
        let! np := proc new_process in
        do! modify (set_current_pid (pid np)) in
        virtual_ctx_sw old_process new_process (CReturn 0)
      else if nb_msg q =? capacity q then
        do! upd_proc cur (set_state IN_MSGQUEUE) in
        do! queue_add cur (QMsg qa) in
        __scheduler (CPsend cur)
      else
        do! put_msgq qa (set_nb_msg (nb_msg q + 1) (write_head q msg)) in
        ret (Return 0)
  end.

(** [if (p->skip_message) { p->skip_message = false; return -1; } rest] *)
Definition unless_skipped (p : Z) (rest : KM Z) : KM Z :=
  let! pr := proc p in
  if skip_message pr then do! upd_proc p (set_skip_message false) in ret (-1)
  else rest.

Definition psend_resume (p : Z) : KM Z := unless_skipped p (ret 0).

Definition preceive (fid msg : Z) : KM control :=
  let! o := valid_fid fid in
  match o with
  | None => ret (Return (-1))
  | Some qa =>
      let! q := msgq qa in
      if 0 <? nb_msg q then
        do! store_if msg (read_tail q) in
        let q1 := advance_tail q in
        do! put_msgq qa q1 in
        let! empty := queue_empty (QMsg qa) in
        if (nb_msg q1 =? capacity q1) && negb empty then
          let! o := queue_out (QMsg qa) in
          let! p := lift_opt Faulted o in
          let! pr := proc p in
          do! put_msgq qa (write_head q1 (message pr)) in
          do! upd_proc p (set_state ACTIVABLE) in
          do! queue_add p QAct in
          yield_cpu (CReturn 0)
        else
          do! put_msgq qa (set_nb_msg (nb_msg q1 - 1) q1) in
          ret (Return 0)
      else
        let! p := current in
        do! upd_proc p (set_state IN_MSGQUEUE) in
        do! queue_add p (QMsg qa) in
        __scheduler (CPreceive p qa msg)
  end.

(** The end of preceive, after a direct switch from psend. *)
Definition preceive_resume (p qa msg : Z) : KM Z :=
  unless_skipped p
    (let! q := msgq qa in
     do! store_if msg (read_tail q) in
     do! put_msgq qa (set_nb_msg (nb_msg q - 1) (advance_tail q)) in
     ret 0).

Definition preset (fid : Z) : KM control :=
  let! o := valid_fid fid in
  match o with
  | None => ret (Return (-1))
  | Some qa =>
      do! wake_waiting (QMsg qa) skip in
      let! q := msgq qa in
      do! put_msgq qa (mk_msgq (Kernel.fid q) (capacity q) 0 0 0 (buffer_addr q) (buffer q)) in
      yield_cpu (CReturn 0)
  end.

Definition __nb_waiting_proc (qa : Z) : KM Z :=
  let! l := queue_elems (QMsg qa) in ret (Z.of_nat (length l)).

Definition pcount (fid count : Z) : KM Z :=
  let! o := valid_fid fid in
  match o with
  | None => ret (-1)
  | Some qa =>
      if count =? 0 then ret 0 else
      let! q := msgq qa in
      let! n := __nb_waiting_proc qa in
      do! lift_mmu (store_user32 count (if nb_msg q =? 0 then - n else n + nb_msg q)) in
      ret 0
  end.
End MessageQueue.
