(* ===== verification/Semaphore.v ===== *)
(** * Semaphores (kernel/semaphore.c) *)

From S2P Require Import Prelude Queue Memory Mmu Kernel Process MessageQueue.

Local Open Scope st_scope.

Section Semaphore.
Context {S : Type} {ops : QueueOps qid Z S} {C : Config}.
Abbreviation KM := (ST (kernel S)).

Definition __get_free_sem : KM Z := gets (fun k => first_free (Z.to_nat NBSEMAPHORE) 0 (semaphore_table k)).

Definition valid_sem (sem : Z) : KM (option Z) :=
  gets (fun k => if (sem <? 0) || (NBSEMAPHORE - 1 <? sem) then None else semaphore_table k !! sem).

Definition set_count (c : Z) (s : Semaphore) : Semaphore := mk_sem (sid s) (s16 c) (was_reset s) (was_deleted s).
Definition set_was_reset (b : bool) (s : Semaphore) : Semaphore := mk_sem (sid s) (count s) b (was_deleted s).
Definition set_was_deleted (b : bool) (s : Semaphore) : Semaphore := mk_sem (sid s) (count s) (was_reset s) b.
Definition upd_sem (a : Z) (f : Semaphore -> Semaphore) : KM unit := let! s := semaphore a in put_sem a (f s).

(** [was_deleted] is left as mem_alloc zeroed it. *)
Definition screate (count : Z) : KM Z :=
  let! sid := __get_free_sem in
  if (count <? 0) || (sid =? -1) then ret (-1) else
  let! sem := mem_alloc sizeof_Semaphore OSem in
  if sem =? 0 then fail Faulted else
  do! modify (fun k => set_semaphore_table (<[sid := sem]> (semaphore_table k)) k) in
  do! put_sem sem (mk_sem sid count false false) in
  do! init_list_head (QSem sem) in
  ret sid.

(** [semaphore_table[sem]->waiting_process], counted. *)
Definition __nb_waiting_proc2 (sem : Z) : KM Z :=
  let! t := gets semaphore_table in
  let! a := lift_opt Faulted (t !! sem) in
  let! l := queue_elems (QSem a) in
  ret (Z.of_nat (length l)).

Definition sdelete (sem : Z) : KM control :=
  let! o := valid_sem sem in
  match o with
  | None => ret (Return (-1))
  | Some deleted =>
      do! wake_waiting (QSem deleted) (set_state ACTIVABLE) in
      do! modify (fun k => set_semaphore_table (delete sem (semaphore_table k)) k) in
      let! n := __nb_waiting_proc2 sem in
      do! (if n =? 0 then
             do! mem_free deleted sizeof_Semaphore in
             modify (fun k => set_sems (delete deleted (sems k)) k)
           else upd_sem deleted (set_was_deleted true)) in
      yield_cpu (CReturn 0)
  end.

(** The first waiting process becomes activable. *)
Definition wake_one (a : Z) : KM unit :=
  let! o := queue_out (QSem a) in
  let! p := lift_opt Faulted o in
  do! upd_proc p (set_state ACTIVABLE) in
  queue_add p QAct.

Definition signal (sem : Z) : KM control :=
  let! o := valid_sem sem in
  match o with
  | None => ret (Return (-1))
  | Some a =>
      let! s := semaphore a in
      if SEMAPHORE_MAX_SIZE <=? count s then ret (Return (-2)) else
      do! upd_sem a (set_count (count s + 1)) in
      let! s := semaphore a in
      if count s <=? 0 then
        do! upd_sem a (set_was_reset false) in
        do! wake_one a in
        yield_cpu (CReturn 0)
      else ret (Return 0)
  end.

(** [for (int i = 0; i < count; i++)] *)
Fixpoint signaln_loop (n : nat) (a : Z) : KM unit :=
  match n with
  | O => ret tt
  | Datatypes.S n' =>
      let! s := semaphore a in
      do! upd_sem a (set_count (count s + 1)) in
      let! s := semaphore a in
      do! (if count s <=? 0 then wake_one a else ret tt) in
      signaln_loop n' a
  end.

Definition signaln (sem cnt : Z) : KM control :=
  let! o := valid_sem sem in
  match o with
  | None => ret (Return (-1))
  | Some a =>
      if cnt <? 0 then ret (Return (-2)) else
      let! s := semaphore a in
      if SEMAPHORE_MAX_SIZE <? count s + cnt then ret (Return (-2)) else
      do! upd_sem a (set_was_reset false) in
      do! signaln_loop (Z.to_nat cnt) a in
      yield_cpu (CReturn 0)
  end.

Definition try_wait (sem : Z) : KM Z :=
  let! o := valid_sem sem in
  match o with
  | None => ret (-1)
  | Some a =>
      let! s := semaphore a in
      if count s =? - SEMAPHORE_MAX_SIZE then ret (-2) else
      if 0 <? count s then do! upd_sem a (set_count (count s - 1)) in ret 0
      else ret (-3)
  end.

Definition wait (sem : Z) : KM control :=
  let! o := valid_sem sem in
  match o with
  | None => ret (Return (-1))
  | Some a =>
      let! s := semaphore a in
      if count s <=? - SEMAPHORE_MAX_SIZE then ret (Return (-2)) else
      do! upd_sem a (set_count (count s - 1)) in
      let! s := semaphore a in
      if count s <? 0 then
        let! cur := current in
        do! upd_proc cur (set_state IN_SEM) in
        do! upd_proc cur (set_waited_sem sem) in
        do! queue_add cur (QSem a) in
        __scheduler (CSemWait a)
      else ret (Return 0)
  end.

(** The end of wait, when the process runs again. *)
Definition wait_resume (a : Z) : KM Z :=
  let! s := semaphore a in
  if was_deleted s then
    do! mem_free a sizeof_Semaphore in
    do! modify (fun k => set_sems (delete a (sems k)) k) in
    ret (-3)
  else if was_reset s then ret (-4) else ret 0.

Definition sreset (sem cnt : Z) : KM control :=
  let! o := valid_sem sem in
  match o with
  | None => ret (Return (-1))
  | Some a =>
      if cnt <? 0 then ret (Return (-1)) else
      do! wake_waiting (QSem a) (set_state ACTIVABLE) in
      do! upd_sem a (set_count cnt) in
      do! upd_sem a (set_was_reset true) in
      yield_cpu (CReturn 0)
  end.

Definition scount (sem : Z) : KM Z :=
  let! o := valid_sem sem in
  match o with
  | None => ret (-1)
  | Some a => let! s := semaphore a in ret (Z.land (count s) 0xffff)
  end.
End Semaphore.
