(* ===== verification/System.v ===== *)
(** * The kernel as a transition system (kernel/time.c, kernel/syscall_kernel.c)

    [tic_PIT], the end of a blocked system call ([resume]), and one step of the
    kernel: a system call of the current process or a clock interrupt, run
    until a process is back in user mode.  Interrupts are disabled in the
    kernel, so a step is not interrupted. *)

From S2P Require Import Prelude Queue Memory Mmu Kernel Process MessageQueue Semaphore.

Local Open Scope st_scope.

Definition SCHEDFREQ : Z := 5.
Definition QUARTZ : Z := 0x1234DD.

(** The system calls of the process, message queue and semaphore parts
    (shared/syscall_nums.h) with their arguments. *)
Inductive call :=
| START (nm : list Z) (ssize prio arg : Z) | GETPID | GETPRIO (pid : Z) | CHPRIO (pid newprio : Z)
| KILL (pid : Z) | WAITPID (pid retvalp : Z) | EXIT (retval : Z)
| SCOUNT (sem : Z) | SCREATE (count : Z) | SDELETE (sem : Z) | SIGNAL (sem : Z) | SIGNALN (sem count : Z)
| SRESET (sem count : Z) | TRY_WAIT (sem : Z) | WAIT (sem : Z)
| PCOUNT (fid count : Z) | PCREATE (count : Z) | PDELETE (fid : Z) | PRECEIVE (fid message : Z)
| PRESET (fid : Z) | PSEND (fid message : Z)
| CURRENT_CLOCK | WAIT_CLOCK (wakeup : Z).

Inductive event := Syscall (c : call) | Tick | PageFault.

Section System.
Context {S : Type} {ops : QueueOps qid Z S} {C : Config}.
Abbreviation KM := (ST (kernel S)).

(** [time_count++] *)
Definition count_tick : KM unit := modify (fun k => set_time_count (u32 (time_count k + 1)) k).

(** The scheduling at the end of tic_PIT. *)
Definition schedule_tick : KM control :=
  let! t := gets time_count in
  if t mod SCHEDFREQ =? 0 then
    let! old_process := current in
    let! p := proc old_process in
    do! (if bool_decide (state p = ELECTED) then
           do! upd_proc old_process (set_state ACTIVABLE) in
           queue_add old_process QAct
         else ret tt) in
    __scheduler CTick
  else ret (Return 0).

(** tic_PIT without the display, which is in [Info] and added in [Machine]. *)
Definition tic_PIT : KM control := do! count_tick in schedule_tick.

(** kernel/usermode.c: the process enters user mode with its own stack. *)
Definition new_process_start_function : KM unit :=
  let! a := current in
  let! p := proc a in
  ret tt.

Definition as_return (m : KM Z) : KM control := let! v := m in ret (Return v).

(** [(short)(int)param] *)
Definition dispatch (c : call) : KM control :=
  match c with
  | START nm ssize prio arg => start nm ssize prio arg
  | GETPID => as_return getpid
  | GETPRIO pid => as_return (getprio pid)
  | CHPRIO pid newprio => chprio pid newprio
  | KILL pid => kill pid
  | WAITPID pid retvalp => waitpid pid retvalp
  | EXIT retval => exit retval
  | SCOUNT sem => as_return (scount sem)
  | SCREATE count => as_return (screate (s16 count))
  | SDELETE sem => sdelete sem
  | SIGNAL sem => signal sem
  | SIGNALN sem count => signaln sem (s16 count)
  | SRESET sem count => sreset sem (s16 count)
  | TRY_WAIT sem => as_return (try_wait sem)
  | WAIT sem => wait sem
  | PCOUNT fid count => as_return (pcount fid count)
  | PCREATE count => as_return (pcreate count)
  | PDELETE fid => pdelete fid
  | PRECEIVE fid message => preceive fid message
  | PRESET fid => preset fid
  | PSEND fid message => psend fid message
  | CURRENT_CLOCK => as_return current_clock
  | WAIT_CLOCK wakeup => wait_clock wakeup
  end.

(** What the process that got the processor does until it is in user mode;
    the value is what its system call returns. *)
Definition resume (c : Cont) : KM (option Z) :=
  match c with
  | CStart => do! new_process_start_function in ret None
  | CReturn v => ret (Some v)
  | CStarted p => let! v := start_resume p in ret (Some v)
  | CWaitpid pid retvalp => let! v := waitpid_resume pid retvalp in ret (Some v)
  | CPsend p => let! v := psend_resume p in ret (Some v)
  | CPreceive p q m => let! v := preceive_resume p q m in ret (Some v)
  | CSemWait s => let! v := wait_resume s in ret (Some v)
  | CExit => fail Diverged
  | CTick => ret None
  end.

Definition handle (e : event) : KM control :=
  match e with
  | Syscall c => dispatch c
  | Tick => tic_PIT
  | PageFault => exit 0          (* kernel/interruptions.c: pagefault_interrupt *)
  end.

Definition step (e : event) : KM (option Z) :=
  let! c := handle e in
  match c with
  | Return v => ret (match e with Syscall _ => Some v | _ => None end)
  | Resume c => resume c
  end.
End System.
