(* ===== verification/Screen.v ===== *)
(** * The console (kernel/screen.c)

    The screen is the video memory at 0xB8000, one word per character.  The
    functions of screen.c on the memory, the cursor and the ports of the video
    controller; the terminal they implement, a grid of words with a cursor;
    and that they implement it without leaving the video memory. *)

From S2P Require Import Prelude Memory Cstring.

(** kernel/screen.h, kernel/info.h *)
Definition STARTING_ADDRESS : Z := 0xB8000.
Definition NB_COLUMNS : Z := 80.
Definition NB_LINES : Z := 25.
Definition CURSOR_COM_PORT : Z := 0x3D4.
Definition CURSOR_DATA_PORT : Z := 0x3D5.
Definition INFO_SIZE : Z := 6.

(** The globals of screen.c, the memory, and the bytes sent to ports, the
    latest first. *)
Record console := mk_console {
  video : mem;
  current_lig : Z;
  current_col : Z;
  background_color : Z;
  foreground_color : Z;
  ports : list (Z * Z)
}.

Definition set_video (m : mem) (s : console) : console :=
  mk_console m (current_lig s) (current_col s) (background_color s) (foreground_color s) (ports s).
Definition set_position (lig col : Z) (s : console) : console :=
  mk_console (video s) lig col (background_color s) (foreground_color s) (ports s).
Definition outb (value port : Z) (s : console) : console :=
  mk_console (video s) (current_lig s) (current_col s) (background_color s) (foreground_color s) ((u8 value, port) :: ports s).

Definition ptr_mem (lig col : Z) : Z := 0xB8000 + 2 * (lig * NB_COLUMNS + col).

(** [c] is a [char], sign-extended in the word. *)
Definition car_word (c fg bg : Z) : Z := u16 (Z.lor (Z.lor (Z.shiftl bg 12) (Z.shiftl fg 8)) (s8 c)).

(** [lig] and [col] are [uint8_t]. *)
Definition write_car (lig col c fg bg : Z) (s : console) : console :=
  let lig := u8 lig in
  let col := u8 col in
  let address := ptr_mem lig col in
  let word := car_word c fg bg in
  if (NB_LINES <=? lig) || (NB_COLUMNS <=? col) then s
  else set_video (store16 (video s) address word) s.

(** [for (i = 0; i < n; i++)] on a pure state. *)
Definition for_to (n : Z) (body : Z -> console -> console) (s : console) : console :=
  fold_left (fun s i => body i s) (seqZ 0 n) s.

Definition clear_screen (s : console) : console :=
  for_to NB_LINES (fun i => for_to NB_COLUMNS (fun j => write_car i j 32 15 0)) s.

Definition set_cursor (lig col : Z) (s : console) : console :=
  if (NB_LINES <=? lig) || (NB_COLUMNS <=? col) then s else
  let pos := u16 (col + lig * NB_COLUMNS) in
  let little := u8 (Z.land pos 0xFF) in
  let big := u8 (Z.shiftr (Z.land pos 0xFF00) 8) in
  let s := outb 0x0F CURSOR_COM_PORT s in
  let s := outb little CURSOR_DATA_PORT s in
  let s := outb 0x0E CURSOR_COM_PORT s in
  let s := outb big CURSOR_DATA_PORT s in
  set_position lig col s.

(** The length passed to memmove is a number of bits. *)
Definition scroll (s : console) : console :=
  let s := set_video (memmove (video s) (STARTING_ADDRESS + NB_COLUMNS * 2 * INFO_SIZE)
                        (STARTING_ADDRESS + NB_COLUMNS * 2 * (INFO_SIZE + 1))
                        (NB_COLUMNS * (NB_LINES - INFO_SIZE - 1) * 2 * 8)) s in
  for_to NB_COLUMNS (fun i => write_car (NB_LINES - 1) i 32 15 0) s.

Definition handle_car (c : Z) (s : console) : console :=
  let lig := current_lig s in
  let col := current_col s in
  if c =? 8 then
    let col := if negb (col =? 0) then u8 (col - 1) else col in
    set_cursor lig col (set_position lig col s)
  else if c =? 9 then
    let col := u8 (col - col mod 4 + 4) in
    let col := if NB_COLUMNS <=? col then NB_COLUMNS - 1 else col in
    set_cursor lig col (set_position lig col s)
  else if c =? 10 then
    let s := if lig <? NB_LINES - 1 then set_position (u8 (lig + 1)) 0 s
             else scroll (set_position lig 0 s) in
    set_cursor (current_lig s) (current_col s) s
  else if c =? 12 then
    let s := clear_screen (set_position 0 0 s) in
    set_cursor (current_lig s) (current_col s) s
  else if c =? 13 then
    set_cursor lig 0 (set_position lig 0 s)
  else if (31 <? c) && (c <? 127) then
    let s := write_car lig col c (foreground_color s) (background_color s) s in
    if (col =? NB_COLUMNS - 1) && negb (lig =? NB_LINES - 1) then
      set_cursor (u8 (lig + 1)) 0 (set_position (u8 (lig + 1)) 0 s)
    else if (col =? NB_COLUMNS - 1) && (lig =? NB_LINES - 1) then
      set_cursor lig 0 (set_position lig 0 (scroll s))
    else set_cursor lig (u8 (col + 1)) (set_position lig (u8 (col + 1)) s)
  else s.

(** The bytes of [s], as [char]s. *)
Definition console_putbytes (bytes : list Z) (s : console) : console :=
  fold_left (fun s c => handle_car (s8 c) s) bytes s.

(** ** The terminal *)

(** What the user sees: the word of each cell, and the cursor. *)
Record term := mk_term { cell : Z -> Z -> Z; t_lig : Z; t_col : Z }.

Definition blank : Z := car_word 32 15 0.
Definition on_screen (lig col : Z) : Prop := 0 <= lig < NB_LINES /\ 0 <= col < NB_COLUMNS.

(** The lines under the banner move up by one, the last one is blank. *)
Definition scrolled (f : Z -> Z -> Z) (l c : Z) : Z :=
  if l <? INFO_SIZE then f l c else if l =? NB_LINES - 1 then blank else f (l + 1) c.
Definition put_cell (f : Z -> Z -> Z) (lig col w l c : Z) : Z := if (l =? lig) && (c =? col) then w else f l c.

Definition line_feed (t : term) : term :=
  if t_lig t <? NB_LINES - 1 then mk_term (cell t) (t_lig t + 1) 0
  else mk_term (scrolled (cell t)) (t_lig t) 0.

Definition term_char (fg bg : Z) (t : term) (c : Z) : term :=
  if c =? 8 then mk_term (cell t) (t_lig t) (Z.max 0 (t_col t - 1))
  else if c =? 9 then mk_term (cell t) (t_lig t) (Z.min (NB_COLUMNS - 1) (4 * (t_col t / 4 + 1)))
  else if c =? 10 then line_feed t
  else if c =? 12 then mk_term (fun _ _ => blank) 0 0
  else if c =? 13 then mk_term (cell t) (t_lig t) 0
  else if (31 <? c) && (c <? 127) then
    let t := mk_term (put_cell (cell t) (t_lig t) (t_col t) (car_word c fg bg)) (t_lig t) (t_col t) in
    if t_col t =? NB_COLUMNS - 1 then line_feed t else mk_term (cell t) (t_lig t) (t_col t + 1)
  else t.

(** [s] shows [t]; memory outside the video memory is that of [m0]. *)
Record shows (m0 : mem) (s : console) (t : term) : Prop := {
  sh_cursor : current_lig s = t_lig t /\ current_col s = t_col t;
  sh_bounds : on_screen (t_lig t) (t_col t);
  sh_cells : forall l c, on_screen l c -> load16 (video s) (ptr_mem l c) = cell t l c;
  sh_frame : forall a, ~ (STARTING_ADDRESS <= a < 0xC0000) -> load8 (video s) a = load8 m0 a
}.

(** The position the video controller was last told. *)
Definition controller_at (s : console) : Prop :=
  exists little big rest, ports s = (big, CURSOR_DATA_PORT) :: (0x0E, CURSOR_COM_PORT) :: (little, CURSOR_DATA_PORT) :: (0x0F, CURSOR_COM_PORT) :: rest
    /\ little + 256 * big = current_col s + NB_COLUMNS * current_lig s.

(** ** Painting *)

Section Painting.
Implicit Types (s : console) (f : Z -> Z -> Z).

Definition view s (l c : Z) : Z := load16 (video s) (ptr_mem l c).

(** Only the video memory changed, and the screen now shows [f]. *)
Record repaint s s' f : Prop := {
  rp_state : s' = set_video (video s') s;
  rp_view : forall l c, on_screen l c -> view s' l c = f l c;
  rp_frame : forall a, ~ (STARTING_ADDRESS <= a < 0xC0000) -> load8 (video s') a = load8 (video s) a
}.

Lemma repaint_refl s : repaint s s (view s).
Proof. split; [by destruct s|done..]. Qed.

Lemma repaint_trans s1 s2 s3 f g : repaint s1 s2 f -> repaint s2 s3 g -> repaint s1 s3 g.
Proof.
  intros [E1 _ F1] [E2 V2 F2]. split; [|done|].
  - rewrite E2, E1. done.
  - intros a Ha. by rewrite F2, F1.
Qed.

Lemma repaint_ext s s' f g : repaint s s' f -> (forall l c, on_screen l c -> f l c = g l c) -> repaint s s' g.
Proof. intros [E V F] Hfg. split; [done| |done]. intros l c Hlc. by rewrite V, Hfg. Qed.

Lemma write_car_repaint lig col c fg bg s : on_screen lig col ->
  repaint s (write_car lig col c fg bg s) (put_cell (view s) lig col (car_word c fg bg)).
Proof.
  unfold on_screen, NB_LINES, NB_COLUMNS. intros [Hl Hc]. unfold write_car. rewrite !(uwrap_small 8) by lia.
  destruct (Z.leb_spec NB_LINES lig); [unfold NB_LINES in *; lia|]. destruct (Z.leb_spec NB_COLUMNS col); [unfold NB_COLUMNS in *; lia|].
  split; [done| |].
  - intros l k [Hl' Hk']. unfold view, put_cell, ptr_mem, NB_COLUMNS, NB_LINES in *. simpl.
    destruct (Z.eqb_spec l lig); [destruct (Z.eqb_spec k col)|]; simpl; subst.
    + rewrite load16_store16_eq. apply uwrap_small, uwrap_range. lia.
    + apply load16_store16_ne. lia.
    + apply load16_store16_ne. lia.
  - intros a Ha. unfold STARTING_ADDRESS, ptr_mem, NB_COLUMNS in *. simpl. apply load8_store16_ne. lia.
Qed.

(** A row of blanks. *)
Lemma blank_row lig cs s : (forall c, c ∈ cs -> on_screen lig c) ->
  repaint s (fold_left (fun s i => write_car lig i 32 15 0 s) cs s)
    (fun l c => if (l =? lig) && bool_decide (c ∈ cs) then blank else view s l c).
Proof.
  revert s. induction cs as [|i cs IH]; intros s Hcs; simpl.
  - eapply repaint_ext; [apply repaint_refl|]. intros l c _. by rewrite andb_false_r.
  - pose proof (write_car_repaint lig i 32 15 0 s (Hcs i ltac:(set_solver))) as HW.
    eapply repaint_ext; [eapply repaint_trans; [exact HW|apply IH; set_solver]|]. intros l c Hlc. cbn beta.
    rewrite (rp_view _ _ _ HW l c Hlc). unfold put_cell. fold blank.
    destruct (Z.eqb_spec l lig); [|done]. simpl. destruct (Z.eqb_spec c i) as [->|]; repeat case_bool_decide; set_solver.
Qed.

Lemma blank_line lig s : 0 <= lig < NB_LINES ->
  repaint s (for_to NB_COLUMNS (fun i => write_car lig i 32 15 0) s)
    (fun l c => if l =? lig then blank else view s l c).
Proof.
  intros Hl. eapply repaint_ext; [apply blank_row; intros c Hc%elem_of_seqZ; split; lia|]. intros l c [_ Hc]. cbn beta.
  rewrite bool_decide_eq_true_2; [by rewrite andb_true_r|]. apply elem_of_seqZ. lia.
Qed.

Lemma clear_lines ls s : (forall l, l ∈ ls -> 0 <= l < NB_LINES) ->
  repaint s (fold_left (fun s i => for_to NB_COLUMNS (fun j => write_car i j 32 15 0) s) ls s)
    (fun l c => if bool_decide (l ∈ ls) then blank else view s l c).
Proof.
  revert s. induction ls as [|i ls IH]; intros s Hls; simpl.
  - eapply repaint_ext; [apply repaint_refl|done].
  - pose proof (blank_line i s (Hls i ltac:(set_solver))) as HW.
    eapply repaint_ext; [eapply repaint_trans; [exact HW|apply IH; set_solver]|]. intros l c Hlc. cbn beta.
    rewrite (rp_view _ _ _ HW l c Hlc). destruct (Z.eqb_spec l i); repeat case_bool_decide; set_solver.
Qed.

Lemma clear_screen_repaint s : repaint s (clear_screen s) (fun _ _ => blank).
Proof.
  eapply repaint_ext; [apply clear_lines; intros l Hl%elem_of_seqZ; lia|]. intros l c [Hl _]. cbn beta.
  rewrite bool_decide_eq_true_2; [done|]. apply elem_of_seqZ. lia.
Qed.

Lemma scroll_repaint s : repaint s (scroll s) (scrolled (view s)).
Proof.
  unfold scroll. pose proof (memmove_copied (video s) (STARTING_ADDRESS + NB_COLUMNS * 2 * INFO_SIZE)
    (STARTING_ADDRESS + NB_COLUMNS * 2 * (INFO_SIZE + 1)) (NB_COLUMNS * (NB_LINES - INFO_SIZE - 1) * 2 * 8) ltac:(done)) as HC.
  revert HC. generalize (memmove (video s) (STARTING_ADDRESS + NB_COLUMNS * 2 * INFO_SIZE)
    (STARTING_ADDRESS + NB_COLUMNS * 2 * (INFO_SIZE + 1)) (NB_COLUMNS * (NB_LINES - INFO_SIZE - 1) * 2 * 8)). intros m HC.
  set (s1 := set_video m s).
  assert (forall a, load8 (video s1) a = if decide (STARTING_ADDRESS + 960 <= a < STARTING_ADDRESS + 24000)
    then load8 (video s) (a + 160) else load8 (video s) a) as HM.
  { intros a. cbn [s1 video set_video]. rewrite (HC a). unfold STARTING_ADDRESS, NB_COLUMNS, NB_LINES, INFO_SIZE.
    repeat case_decide; try lia; f_equal; lia. }
  assert (repaint s s1 (fun l c => if l <? INFO_SIZE then view s l c else if l =? NB_LINES - 1 then view s1 l c else view s (l + 1) c)) as H1.
  { split; [done| |].
    - intros l c [Hl Hc]. unfold view, load16, ptr_mem, NB_COLUMNS, NB_LINES, INFO_SIZE, STARTING_ADDRESS in *.
      destruct (Z.ltb_spec l 6); [|destruct (Z.eqb_spec l (25 - 1)); [done|]]; rewrite !HM; repeat case_decide; try lia.
      f_equal; [f_equal; lia|]. f_equal. f_equal. lia.
    - intros a Ha. rewrite HM. unfold STARTING_ADDRESS in *. case_decide; [lia|done]. }
  eapply repaint_ext; [eapply repaint_trans; [exact H1|apply blank_line; done]|]. intros l c Hlc. cbn beta.
  rewrite (rp_view _ _ _ H1 l c Hlc). unfold scrolled. destruct (Z.ltb_spec l INFO_SIZE); [|by destruct (l =? NB_LINES - 1)].
  destruct (Z.eqb_spec l (NB_LINES - 1)); [unfold NB_LINES, INFO_SIZE in *; lia|done].
Qed.
End Painting.

(** ** The console implements the terminal *)

Section Refinement.
Implicit Types (s : console) (t : term).

(** The state when the cursor moved to a place of the screen. *)
Lemma set_cursor_on lig col s : on_screen lig col ->
  let s' := set_cursor lig col s in
  video s' = video s /\ current_lig s' = lig /\ current_col s' = col /\ controller_at s' /\
  foreground_color s' = foreground_color s /\ background_color s' = background_color s.
Proof.
  unfold on_screen. intros [Hl Hc]. unfold set_cursor. destruct (Z.leb_spec NB_LINES lig); [lia|]. destruct (Z.leb_spec NB_COLUMNS col); [lia|].
  simpl. split_and!; try done. eexists _, _, _. split; [done|]. simpl. unfold NB_LINES, NB_COLUMNS in *.
  rewrite !(uwrap_small 16) by lia.
  assert (Z.land (col + lig * 80) 255 = (col + lig * 80) mod 256) as -> by (apply (Z.land_ones _ 8); lia).
  change 65280 with (Z.shiftl (Z.ones 8) 8).
  rewrite (land_high_mask 16 8) by lia. change (2 ^ 8) with 256. rewrite Z.shiftr_div_pow2 by lia. change (2 ^ 8) with 256.
  rewrite Z.div_mul by lia. pose proof (Z.mod_pos_bound (col + lig * 80) 256 ltac:(lia)).
  pose proof (Z.div_le_upper_bound (col + lig * 80) 256 8 ltac:(lia) ltac:(lia)). pose proof (Z.div_pos (col + lig * 80) 256 ltac:(lia) ltac:(lia)).
  rewrite !(uwrap_small 8 (_ mod _)), !(uwrap_small 8 (_ / _)) by (change (2 ^ 8) with 256; lia).
  pose proof (Z.div_mod (col + lig * 80) 256). lia.
Qed.

(** A step of handle_car: the video memory is repainted, then the cursor is
    moved to the place of [t']. *)
Lemma moved_shows m0 s s1 t lig col f p : shows m0 s t -> repaint s s1 f -> on_screen lig col ->
  shows m0 (set_cursor lig col (set_position p.1 p.2 s1)) (mk_term f lig col)
  /\ controller_at (set_cursor lig col (set_position p.1 p.2 s1))
  /\ foreground_color (set_cursor lig col (set_position p.1 p.2 s1)) = foreground_color s
  /\ background_color (set_cursor lig col (set_position p.1 p.2 s1)) = background_color s.
Proof.
  intros HS [E V F] Hon. destruct (set_cursor_on lig col (set_position p.1 p.2 s1) Hon) as (Ev & El & Ec & Hctl & Ef & Eb).
  split; [|split; [done|rewrite Ef, Eb, E; done]]. split; simpl; [done|done| |].
  - intros l c Hlc. rewrite Ev. simpl. by apply V.
  - intros a Ha. rewrite Ev. simpl. rewrite F by done. by apply (sh_frame _ _ _ HS).
Qed.

Lemma shows_view m0 s t l c : shows m0 s t -> on_screen l c -> view s l c = cell t l c.
Proof. intros HS. apply (sh_cells _ _ _ HS). Qed.

Lemma shows_ext m0 s t t' : shows m0 s t -> t_lig t' = t_lig t -> t_col t' = t_col t ->
  (forall l c, on_screen l c -> cell t l c = cell t' l c) -> shows m0 s t'.
Proof.
  intros [H1 H2 H3 H4] E1 E2 E3. split; rewrite ?E1, ?E2; try done. intros l c Hlc. by rewrite H3, E3.
Qed.

Lemma position_id s : set_position (current_lig s) (current_col s) s = s.
Proof. by destruct s. Qed.

(** A visible or control character, with what it leaves of the colours. *)
Definition steps_to m0 s s' t' : Prop :=
  shows m0 s' t' /\ controller_at s' /\ foreground_color s' = foreground_color s /\ background_color s' = background_color s.

Lemma steps_to_ext m0 s s' t t' : steps_to m0 s s' t -> t_lig t' = t_lig t -> t_col t' = t_col t ->
  (forall l c, on_screen l c -> cell t l c = cell t' l c) -> steps_to m0 s s' t'.
Proof. intros (H1 & H2) E1 E2 E3. split; [by eapply shows_ext|done]. Qed.

Lemma scrolled_ext f g : (forall l c, on_screen l c -> f l c = g l c) -> forall l c, on_screen l c -> scrolled f l c = scrolled g l c.
Proof.
  intros Hfg l c [Hl Hc]. unfold scrolled. destruct (l <? INFO_SIZE); [by apply Hfg|].
  destruct (Z.eqb_spec l (NB_LINES - 1)); [done|]. apply Hfg. unfold on_screen. lia.
Qed.

Lemma repainted_shows m0 s s2 t a b f : shows m0 s t -> repaint (set_position a b s) s2 f -> on_screen a b ->
  steps_to m0 s (set_cursor (current_lig s2) (current_col s2) s2) (mk_term f a b).
Proof.
  intros HS HR Hon. pose proof (rp_state _ _ _ HR) as E.
  assert (s2 = set_position a b (set_video (video s2) s)) as E' by (by rewrite E at 1).
  assert (current_lig s2 = a /\ current_col s2 = b) as [-> ->] by (by rewrite E').
  rewrite E' at 1. apply (moved_shows m0 s (set_video (video s2) s) t a b f (a, b) HS); [|done]. split; [done|apply HR|apply HR].
Qed.

Lemma handle_control m0 s t c : shows m0 s t -> c = 8 \/ c = 9 \/ c = 10 \/ c = 12 \/ c = 13 ->
  steps_to m0 s (handle_car c s) (term_char (foreground_color s) (background_color s) t c).
Proof.
  intros HS Hc. pose proof (sh_cursor _ _ _ HS) as [El Ec]. pose proof (sh_bounds _ _ _ HS) as [Hl Hcol].
  assert (forall lig col p, on_screen lig col -> steps_to m0 s (set_cursor lig col (set_position p.1 p.2 s)) (mk_term (cell t) lig col)) as Hmove.
  { intros lig col p Hon. eapply steps_to_ext; [by apply (moved_shows m0 s s t lig col (view s) p HS (repaint_refl s))|done|done|].
    intros l k Hlk. simpl. by apply (shows_view m0). }
  unfold on_screen, NB_LINES, NB_COLUMNS in *. destruct Hc as [->|[->|[->|[->| ->]]]]; unfold handle_car, term_char; cbn [Z.eqb Pos.eqb]; rewrite ?El, ?Ec.
  - assert ((if negb (t_col t =? 0) then u8 (t_col t - 1) else t_col t) = Z.max 0 (t_col t - 1)) as ->.
    { destruct (Z.eqb_spec (t_col t) 0); simpl; [lia|]. rewrite (uwrap_small 8) by lia. lia. }
    apply (Hmove _ _ (_, _)). lia.
  - assert (u8 (t_col t - t_col t mod 4 + 4) = 4 * (t_col t / 4 + 1)) as ->.
    { rewrite (uwrap_small 8); Z.to_euclidean_division_equations; lia. }
    assert ((if NB_COLUMNS <=? 4 * (t_col t / 4 + 1) then NB_COLUMNS - 1 else 4 * (t_col t / 4 + 1)) = Z.min (NB_COLUMNS - 1) (4 * (t_col t / 4 + 1))) as ->.
    { unfold NB_COLUMNS. destruct (Z.leb_spec 80 (4 * (t_col t / 4 + 1))); Z.to_euclidean_division_equations; lia. }
    apply (Hmove _ _ (_, _)). unfold NB_COLUMNS. Z.to_euclidean_division_equations. lia.
  - unfold line_feed, NB_LINES. destruct (Z.ltb_spec (t_lig t) (25 - 1)); cbv zeta.
    + cbn [current_lig current_col set_position]. rewrite (uwrap_small 8) by lia. apply (Hmove _ _ (_, _)). lia.
    + eapply steps_to_ext; [apply (repainted_shows m0 s _ t (t_lig t) 0 _ HS (scroll_repaint _))|done|done|].
      * unfold on_screen, NB_LINES, NB_COLUMNS. lia.
      * apply scrolled_ext. intros l k. apply (shows_view m0 s t l k HS).
  - apply (repainted_shows m0 s _ t 0 0 _ HS (clear_screen_repaint _)). unfold on_screen, NB_LINES, NB_COLUMNS. lia.
  - apply (Hmove _ _ (_, _)). lia.
Qed.

Lemma handle_visible m0 s t c : shows m0 s t -> 31 < c < 127 ->
  steps_to m0 s (handle_car c s) (term_char (foreground_color s) (background_color s) t c).
Proof.
  intros HS Hc. pose proof (sh_cursor _ _ _ HS) as [El Ec]. pose proof (sh_bounds _ _ _ HS) as Hon.
  unfold handle_car, term_char.
  repeat match goal with |- context [c =? ?n] => destruct (Z.eqb_spec c n); [lia|] end.
  destruct (Z.ltb_spec 31 c); [|lia]. destruct (Z.ltb_spec c 127); [|lia]. simpl. rewrite El, Ec.
  pose proof (write_car_repaint (t_lig t) (t_col t) c (foreground_color s) (background_color s) s Hon) as HW.
  set (s1 := write_car _ _ _ _ _ s) in *. set (w := car_word c _ _) in *.
  assert (forall l k, on_screen l k -> put_cell (view s) (t_lig t) (t_col t) w l k = put_cell (cell t) (t_lig t) (t_col t) w l k) as Hput.
  { intros l k Hlk. unfold put_cell. destruct (_ && _); [done|]. by apply (shows_view m0). }
  unfold line_feed, on_screen, NB_LINES, NB_COLUMNS in *. simpl.
  destruct (Z.eqb_spec (t_col t) (80 - 1)) as [E79|E79]; simpl.
  - destruct (Z.eqb_spec (t_lig t) (25 - 1)) as [E24|E24]; simpl.
    + destruct (Z.ltb_spec (t_lig t) (25 - 1)); [lia|].
      pose proof (scroll_repaint s1) as HR. assert (repaint s (scroll s1) (scrolled (view s1))) as HT by (by eapply repaint_trans).
      eapply steps_to_ext; [apply (moved_shows m0 s (scroll s1) t (t_lig t) 0 _ (t_lig t, 0) HS HT)|done|done|].
      { unfold on_screen, NB_LINES, NB_COLUMNS. lia. }
      simpl. apply scrolled_ext. intros l k Hlk. rewrite (rp_view _ _ _ HW l k Hlk). by apply Hput.
    + destruct (Z.ltb_spec (t_lig t) (25 - 1)); [|lia]. rewrite (uwrap_small 8) by lia.
      eapply steps_to_ext; [apply (moved_shows m0 s s1 t (t_lig t + 1) 0 _ (t_lig t + 1, 0) HS HW)|done|done|done].
      unfold on_screen, NB_LINES, NB_COLUMNS. lia.
  - rewrite (uwrap_small 8) by lia.
    eapply steps_to_ext; [apply (moved_shows m0 s s1 t (t_lig t) (t_col t + 1) _ (t_lig t, t_col t + 1) HS HW)|done|done|done].
    unfold on_screen, NB_LINES, NB_COLUMNS. lia.
Qed.

Lemma handle_car_steps m0 s t c : shows m0 s t ->
  let s' := handle_car c s in
  shows m0 s' (term_char (foreground_color s) (background_color s) t c)
  /\ foreground_color s' = foreground_color s /\ background_color s' = background_color s /\ (controller_at s -> controller_at s').
Proof.
  intros HS. destruct (decide (c = 8 \/ c = 9 \/ c = 10 \/ c = 12 \/ c = 13)) as [Hc|Hc].
  { destruct (handle_control m0 s t c HS Hc) as (? & ? & ? & ?). split_and!; auto. }
  destruct (decide (31 < c < 127)) as [Hv|Hv].
  { destruct (handle_visible m0 s t c HS Hv) as (? & ? & ? & ?). split_and!; auto. }
  assert (handle_car c s = s /\ term_char (foreground_color s) (background_color s) t c = t) as [-> ->]; [|auto].
  unfold handle_car, term_char. repeat match goal with |- context [c =? ?n] => destruct (Z.eqb_spec c n); [lia|] end.
  destruct (Z.ltb_spec 31 c); [|done]. destruct (Z.ltb_spec c 127); [lia|done].
Qed.

(** C32: the console implements the terminal: from a state that shows [t],
    whatever bytes are printed, the screen then shows [t] after the same
    characters, with the cursor on the screen, the video controller told of
    it, and no byte outside the video memory changed. *)
Theorem console_refines_terminal m0 s t bytes : shows m0 s t -> controller_at s ->
  let s' := console_putbytes bytes s in
  shows m0 s' (fold_left (term_char (foreground_color s) (background_color s)) (s8 <$> bytes) t) /\ controller_at s'.
Proof.
  intros HS Hc. cut (let s' := console_putbytes bytes s in
    shows m0 s' (fold_left (term_char (foreground_color s) (background_color s)) (s8 <$> bytes) t) /\ controller_at s'); [done|].
  revert s t HS Hc. induction bytes as [|b bytes IH]; intros s t HS Hc; [done|]. simpl.
  destruct (handle_car_steps m0 s t (s8 b) HS) as (HS' & Ef & Eb & Hc'). rewrite <- Ef, <- Eb. rewrite <- Ef, <- Eb in HS'. apply IH; auto.
Qed.

(** The lines of the banner: they and the cursor below them are safe as long
    as no form feed is printed. *)
Lemma term_char_banner fg bg t c l k : INFO_SIZE <= t_lig t < NB_LINES -> c <> 12 -> 0 <= l < INFO_SIZE ->
  cell (term_char fg bg t c) l k = cell t l k /\ INFO_SIZE <= t_lig (term_char fg bg t c) < NB_LINES.
Proof.
  unfold INFO_SIZE, NB_LINES. intros Hl Hc Hlk.
  assert (forall t', 6 <= t_lig t' < 25 -> cell (line_feed t') l k = cell t' l k /\ 6 <= t_lig (line_feed t') < 25) as Hlf.
  { intros t' Ht'. unfold line_feed, NB_LINES, scrolled, INFO_SIZE. destruct (Z.ltb_spec (t_lig t') (25 - 1)); simpl; [split; [done|lia]|].
    destruct (Z.ltb_spec l 6); [split; [done|lia]|lia]. }
  unfold term_char. repeat match goal with |- context [c =? ?n] => destruct (Z.eqb_spec c n) end; try done; [by apply Hlf|].
  destruct (_ && _); [|done]. set (t1 := mk_term _ _ _). assert (cell t1 l k = cell t l k) as E.
  { simpl. unfold put_cell. destruct (Z.eqb_spec l (t_lig t)); [lia|done]. }
  destruct (_ =? _); [|split; [exact E|simpl; lia]]. rewrite <- E. by apply Hlf.
Qed.

(** Text without form feeds printed below the banner never writes in the
    lines of the banner, which the clock and the process tables own. *)
Theorem console_keeps_banner m0 s t bytes l c : shows m0 s t -> INFO_SIZE <= current_lig s -> (forall b, b ∈ bytes -> s8 b <> 12) ->
  0 <= l < INFO_SIZE -> 0 <= c < NB_COLUMNS ->
  load16 (video (console_putbytes bytes s)) (ptr_mem l c) = load16 (video s) (ptr_mem l c) /\
  INFO_SIZE <= current_lig (console_putbytes bytes s) < NB_LINES.
Proof.
  intros HS Hl Hb Hlc Hc. assert (on_screen l c) as Hon by (unfold on_screen, NB_LINES, INFO_SIZE in *; lia).
  pose proof (sh_cursor _ _ _ HS) as [El _]. pose proof (sh_bounds _ _ _ HS) as [Hb1 _]. rewrite El in Hl.
  revert s t HS El Hl Hb1 Hb. induction bytes as [|b bytes IH]; intros s t HS El Hl Hb1 Hb; [simpl; rewrite El; split; [done|lia]|].
  simpl. destruct (handle_car_steps m0 s t (s8 b) HS) as (HS' & Ef & Eb & _).
  destruct (term_char_banner (foreground_color s) (background_color s) t (s8 b) l c) as [Ec Hl']; [lia|by apply Hb; set_solver|done|].
  destruct (IH (handle_car (s8 b) s) _ HS' (proj1 (sh_cursor _ _ _ HS')) (proj1 Hl') ltac:(lia)) as [E1 E2]; [set_solver|].
  split; [|done]. rewrite E1, (sh_cells _ _ _ HS' l c Hon), (sh_cells _ _ _ HS l c Hon). done.
Qed.
End Refinement.

(** The screen as kernel_start leaves it, and the terminal it shows. *)
Definition boot_screen : console := set_cursor INFO_SIZE 0 (clear_screen (mk_console ∅ INFO_SIZE 0 0 15 [])).
Definition boot_term : term := mk_term (fun _ _ => blank) INFO_SIZE 0.

Lemma boot_shows : shows ∅ boot_screen boot_term /\ controller_at boot_screen.
Proof.
  assert (on_screen INFO_SIZE 0) as Hon by done. unfold boot_screen. set (s0 := mk_console _ _ _ _ _ _).
  generalize (clear_screen_repaint s0). generalize (clear_screen s0). intros s1 HR.
  destruct (set_cursor_on INFO_SIZE 0 s1 Hon) as (Ev & El & Ec & Hctl & _). split; [|exact Hctl]. split; [exact (conj El Ec)|exact Hon| |].
  - intros l c Hlc. rewrite Ev. exact (rp_view _ _ _ HR l c Hlc).
  - intros a Ha. rewrite Ev. exact (rp_frame _ _ _ HR a Ha).
Qed.

(** "Hi", a tabulation, a line feed. *)
Lemma console_refines_terminal_witness :
  let t := fold_left (term_char 15 0) (s8 <$> [72; 105; 9; 10]) boot_term in
  shows ∅ (console_putbytes [72; 105; 9; 10] boot_screen) t /\ t_lig t = 7 /\ cell t 6 0 = 0x0F48.
Proof.
  intros t. destruct boot_shows as [HS Hc]. destruct (console_refines_terminal ∅ boot_screen boot_term [72; 105; 9; 10] HS Hc) as [H _].
  split; [|split; vm_compute; reflexivity]. exact H.
Defined.

Lemma console_keeps_banner_witness :
  load16 (video (console_putbytes [72; 10] boot_screen)) (ptr_mem 1 3) = load16 (video boot_screen) (ptr_mem 1 3).
Proof.
  destruct boot_shows as [HS _].
  apply (console_keeps_banner ∅ boot_screen boot_term [72; 10] 1 3 HS); [rewrite (proj1 (sh_cursor _ _ _ HS)); discriminate| |unfold INFO_SIZE; lia|unfold NB_COLUMNS; lia].
  intros b [->|[->|[]%not_elem_of_nil]%elem_of_cons]%elem_of_cons; vm_compute; discriminate.
Defined.
