(* ===== verification/Info.v ===== *)
(** * The banner and the clock (kernel/info.c, kernel/time.c)

    The lines above the console: the time of day, the process table, the
    message queues and two scheduling queues.  They read the state of the
    kernel and write the screen; what they print never overflows their buffers
    and never leaves the lines of the banner. *)

From S2P Require Import Prelude Queue Memory Cstring Format Mmu Kernel Process Screen.

Local Open Scope st_scope.

(** kernel/info.h *)
Definition SHOW_ZOMBIES : bool := false.
Definition QUEUE_TABLE_TITLE_SIZE : Z := 14.
Definition PROCESS_TABLE_TITLE_SIZE : Z := 16.
Definition ACTIVABLE_TITLE_SIZE : Z := 19.
Definition FINISHED_TITLE_SIZE : Z := 17.
Definition BUFFER_SIZE : Z := 128.

(** "ELECTED" and so on; IN_SEM has no name. *)
Definition state_to_string (st : State) : list Z :=
  match st with
  | ELECTED => [69; 76; 69; 67; 84; 69; 68]
  | ACTIVABLE => [65; 67; 84; 73; 86; 65; 66; 76; 69]
  | ASLEEP => [65; 83; 76; 69; 69; 80]
  | ZOMBIE => [90; 79; 77; 66; 73; 69]
  | FINISHED => [70; 73; 78; 73; 83; 72; 69; 68]
  | WAITING_PID => [87; 65; 73; 84; 73; 78; 71; 95; 80; 73; 68]
  | IN_MSGQUEUE => [73; 78; 95; 77; 83; 71; 81; 85; 69; 85; 69]
  | _ => []
  end.

(** [string] holds at least [len] bytes. *)
Definition write_info (line shift : Z) (string : list Z) (len : Z) (s : console) : console :=
  if len <=? 80 - shift then
    for_to len (fun i s => write_car line (shift + i) (nth (Z.to_nat i) string 0) (foreground_color s) (background_color s) s) s
  else s.

(** "Process table : ", "Queue table : ", "Activables queue : ", "Finished queue : " *)
Definition process_title : list Z := [80; 114; 111; 99; 101; 115; 115; 32; 116; 97; 98; 108; 101; 32; 58; 32].
Definition queue_title : list Z := [81; 117; 101; 117; 101; 32; 116; 97; 98; 108; 101; 32; 58; 32].
Definition activable_title : list Z := [65; 99; 116; 105; 118; 97; 98; 108; 101; 115; 32; 113; 117; 101; 117; 101; 32; 58; 32].
Definition finished_title : list Z := [70; 105; 110; 105; 115; 104; 101; 100; 32; 113; 117; 101; 117; 101; 32; 58; 32].

Definition write_info_titles (s : console) : console :=
  let s := write_info 1 0 process_title PROCESS_TABLE_TITLE_SIZE s in
  let s := write_info 2 0 queue_title QUEUE_TABLE_TITLE_SIZE s in
  let s := write_info 3 0 activable_title ACTIVABLE_TITLE_SIZE s in
  write_info 4 0 finished_title FINISHED_TITLE_SIZE s.

(** [for (i = 0; i < NB_COLUMNS; i++) write_car(line, title + i, 32, 15, 0)] *)
Definition clear_info (line title : Z) (s : console) : console :=
  for_to NB_COLUMNS (fun i => write_car line (title + i) 32 15 0) s.

(** What sprintf leaves in [buffer]: "%d:%s " and "%d ". *)
Definition process_entry (i : Z) (st : State) : result (list Z) :=
  _doprnt (fun _ => state_to_string st) [37; 100; 58; 37; 115; 32] [i; 1] 0.
Definition number_entry (n : Z) : result (list Z) := _doprnt (fun _ => []) [37; 100; 32] [n] 0.

(** [write_info(line, position, buffer, len); position += len;] *)
Definition append_entry (line : Z) (buffer : list Z) (ps : Z * console) : Z * console :=
  let len := Z.of_nat (length buffer) in
  (ps.1 + len, write_info line ps.1 buffer len ps.2).

Section Info.
Context {S : Type} {ops : QueueOps qid Z S} {C : Config}.
Abbreviation KM := (ST (kernel S)).

Definition lift_out {A} (r : result A) : KM A := fun k => match r with Ok a => Ok (a, k) | Err e => Err e end.

Definition show_process (i : Z) (ps : Z * console) : KM (Z * console) :=
  let! t := gets process_table in
  match t !! i with
  | None => ret ps
  | Some a =>
      let! p := proc a in
      if negb (bool_decide (state p = ZOMBIE)) || SHOW_ZOMBIES then
        let! buffer := lift_out (process_entry i (state p)) in
        ret (append_entry 1 buffer ps)
      else ret ps
  end.

(** A loop that threads a position and the screen. *)
Fixpoint show_each {A} (l : list A) (show : A -> Z * console -> KM (Z * console)) (ps : Z * console) : KM (Z * console) :=
  match l with
  | [] => ret ps
  | x :: l' => let! ps := show x ps in show_each l' show ps
  end.

Definition write_process_table (s : console) : KM console :=
  let s := clear_info 1 PROCESS_TABLE_TITLE_SIZE s in
  let! ps := show_each (seqZ 0 NBPROC) show_process (PROCESS_TABLE_TITLE_SIZE, s) in
  ret ps.2.

Definition show_queue (i : Z) (ps : Z * console) : KM (Z * console) :=
  let! t := gets queue_table in
  match t !! i with
  | None => ret ps
  | Some a =>
      let! q := msgq a in
      let! buffer := lift_out (number_entry (fid q)) in
      ret (append_entry 2 buffer ps)
  end.

Definition write_queue_table (s : console) : KM console :=
  let s := clear_info 2 QUEUE_TABLE_TITLE_SIZE s in
  let! ps := show_each (seqZ 0 NBQUEUE) show_queue (QUEUE_TABLE_TITLE_SIZE, s) in
  ret ps.2.

Definition show_pid (line : Z) (a : Z) (ps : Z * console) : KM (Z * console) :=
  let! p := proc a in
  let! buffer := lift_out (number_entry (pid p)) in
  ret (append_entry line buffer ps).

Definition write_activable (s : console) : KM console :=
  let s := clear_info 3 ACTIVABLE_TITLE_SIZE s in
  let! l := queue_elems QAct in
  let! ps := show_each l (show_pid 3) (ACTIVABLE_TITLE_SIZE, s) in
  ret ps.2.

Definition write_finished (s : console) : KM console :=
  let s := clear_info 4 FINISHED_TITLE_SIZE s in
  let! l := queue_elems QFin in
  let! ps := show_each l (show_pid 4) (FINISHED_TITLE_SIZE, s) in
  ret ps.2.

Definition sys_info (s : console) : KM console :=
  let! s := write_process_table s in
  let! s := write_queue_table s in
  let! s := write_activable s in
  write_finished s.
End Info.

(** ** The clock (kernel/time.c) *)

(** The globals of time.c but [time_count], which is in [kernel]. *)
Record clock := mk_clock { clock_ticks : Z; clock_frequency : Z; hours : Z; minutes : Z; seconds : Z }.

Definition write_time (string : list Z) (len : Z) (s : console) : console :=
  if len <=? 80 then
    for_to (len - 1) (fun i s => write_car 0 (79 - i) (nth (Z.to_nat (len - 2 - i)) string 0) (foreground_color s) (background_color s) s) s
  else s.

(** [time_count % clock_frequency] is a divide error when the frequency is 0. *)
Definition update_clock (time_count : Z) (c : clock) : result clock :=
  if clock_frequency c =? 0 then Err Faulted else
  if time_count mod clock_frequency c =? 0 then
    let t := time_count / clock_frequency c in
    Ok (mk_clock (clock_ticks c) (clock_frequency c) (u8 (t / 3600)) (u8 (t mod 3600 / 60)) (u8 ((t mod 3600) mod 60)))
  else Ok c.

(** "%d%d:%d%d:%d%d" *)
Definition time_string (c : clock) : result (list Z) :=
  _doprnt (fun _ => []) [37; 100; 37; 100; 58; 37; 100; 37; 100; 58; 37; 100; 37; 100]
    [hours c / 10; hours c mod 10; minutes c / 10; minutes c mod 10; seconds c / 10; seconds c mod 10] 0.

(** The display of tic_PIT, after [time_count++]. *)
Definition show_time (time_count : Z) (c : clock) (s : console) : result (clock * console) :=
  match update_clock time_count c with
  | Err e => Err e
  | Ok c =>
      match time_string c with
      | Err e => Err e
      | Ok string => Ok (c, write_time (string ++ [0]) 10 s)
      end
  end.
