(* ===== verification/Invariant.v ===== *)
(** * The kernel invariant

    What holds of the process table, the queues and the process states
    whenever a process is in user mode, and that every step of the kernel
    keeps it.  The theorems are about the kernel over lists; [Refines] carries
    them to the pointer code. *)

From S2P Require Import Prelude Queue Memory Mmu Kernel Process MessageQueue Semaphore System.
Import ListQueue.

Local Open Scope st_scope.

Abbreviation LK := (kernel (gmap qid (list Z))).

(** [a] is in the process table under its own pid. *)
Definition tabled (k : LK) (a : Z) (p : Process) : Prop := process_table k !! pid p = Some a.

Definition in_queue (k : LK) (h : qid) (a : Z) : Prop := exists l, queues k !! h = Some l /\ a ∈ l.

(** The state of a process that waits in the queue [h]. *)
Definition belongs (k : LK) (h : qid) (a : Z) (p : Process) : Prop :=
  match h with
  | QAct => state p = ACTIVABLE /\ tabled k a p
  | QFin => state p = FINISHED /\ ~ tabled k a p
  | QWait => state p = WAITING_PID /\ tabled k a p
  | QMsg q => state p = IN_MSGQUEUE /\ tabled k a p
  | QSem s => state p = IN_SEM /\ tabled k a p /\ semaphore_table k !! waited_sem p = Some s
  end.

(** Where a process must be, by its state. *)
Definition placed (k : LK) (a : Z) (p : Process) : Prop :=
  match state p with
  | ELECTED => pid p = current_pid k /\ tabled k a p
  | ACTIVABLE => in_queue k QAct a
  | ASLEEP | ZOMBIE => tabled k a p
  | FINISHED => in_queue k QFin a
  | WAITING_PID => in_queue k QWait a
  | IN_MSGQUEUE => exists q, in_queue k (QMsg q) a
  | IN_SEM => exists s, in_queue k (QSem s) a
  end.

(** The blocks of a process: its record, name and stack (null when the
    allocator had none, which [start] does not test); the idle process is not
    in the heap. *)
Definition owns_blocks (k : LK) (a : Z) (p : Process) : Prop :=
  heap k !! a = Some (sizeof_Process, OProcess)
  /\ heap k !! (name p).1 = Some (Z.of_nat (length (name p).2) + 1, OName a)
  /\ (initial_kernel_stack p <> 0 -> heap k !! initial_kernel_stack p = Some (8192, OStack a))
  /\ kernel_stack_size p = 8192.

(** The blocks of a message queue. *)
Definition msgq_blocks (k : LK) (a : Z) (q : MessageQueue) : Prop :=
  heap k !! a = Some (sizeof_MessageQueue, OMsgq)
  /\ heap k !! buffer_addr q = Some (capacity q * 4, OBuffer a) /\ 0 < capacity q.

(** A process is not its own father, did not wait for itself, and does not;
    the idle process does not wait.  [cont_ok] is the condition on what a
    process with pid [i] has left to run. *)
Definition cont_ok (c : Cont) (i : Z) : Prop :=
  match c with
  | CWaitpid (Some j) _ => j <> i /\ i <> 0
  | CWaitpid None _ => i <> 0
  | _ => True
  end.
Definition local_ok (p : Process) : Prop :=
  cont_ok (registers p) (pid p) /\ (pid p <> 0 -> father_pid p <> pid p /\ waited_pid p <> pid p).

(** Live blocks of other parts of the kernel (the shared areas and their table),
    which the code of processes, messages and semaphores leaves alone. *)
Definition foreign_owner (o : owner) : bool := match o with OHash | OTable | OKey => true | _ => false end.
Class Foreign := foreign : gmap Z (Z * owner).

(** [Core X k]: the invariant but for the processes in [X], which an operation
    is moving: they are in no queue. *)
Record Core {F : Foreign} (X : gset Z) (k : LK) : Prop := {
  c_table : forall i a, process_table k !! i = Some a ->
    0 <= i < NBPROC /\ exists p, procs k !! a = Some p /\ pid p = i;
  c_queue : forall h l a, queues k !! h = Some l -> a ∈ l ->
    (a ∉ X) /\ exists p, procs k !! a = Some p /\ belongs k h a p;
  c_placed : forall a p, procs k !! a = Some p -> a ∉ X -> placed k a p;
  c_once : forall h h' a, in_queue k h a -> in_queue k h' a -> h = h';
  c_nodup : forall h l, queues k !! h = Some l -> NoDup l;
  c_sorted : forall h l, queues k !! h = Some l -> StronglySorted (fun x y => prio_of k x <= prio_of k y) l;
  c_heads : is_Some (queues k !! QAct) /\ is_Some (queues k !! QFin) /\ is_Some (queues k !! QWait);
  c_blocks : forall a p, procs k !! a = Some p -> owns_blocks k a p \/ (MEMORY_START <= a /\ pid p = 0 /\ process_table k !! 0 = Some a);
  c_heap : forall a b, heap k !! a = Some b -> 0 < a < MEMORY_START;
  c_pids : forall a p, procs k !! a = Some p -> 0 <= pid p < NBPROC /\ (pid p = 0 -> process_table k !! 0 = Some a);
  c_local : forall a p, procs k !! a = Some p -> local_ok p;
  c_qtable : forall i a, queue_table k !! i = Some a -> exists q, msgqs k !! a = Some q /\ fid q = i;
  c_msgq : forall a q, msgqs k !! a = Some q -> msgq_blocks k a q;
  c_stable : forall i a, semaphore_table k !! i = Some a -> exists s, sems k !! a = Some s /\ sid s = i;
  c_sem : forall a s, sems k !! a = Some s -> heap k !! a = Some (sizeof_Semaphore, OSem) /\ was_deleted s = false;
  c_idle : exists a p, process_table k !! 0 = Some a /\ procs k !! a = Some p /\ (a ∈ X \/ state p = ACTIVABLE \/ state p = ELECTED);
  c_foreign : forall a b, foreign !! a = Some b -> heap k !! a = Some b /\ foreign_owner b.2 = true
}.

(** No process has the processor: the state the scheduler is called in. *)
Definition none_elected (k : LK) : Prop := forall a p, procs k !! a = Some p -> state p <> ELECTED.

(** ** How single updates act on the invariant *)

Section CoreLemmas.
Context {F : Foreign}.
Implicit Types (X : gset Z) (k : LK) (a : Z) (p : Process) (h : qid).

Lemma queued_in_queue k a : queued a (queues k) <-> exists h, in_queue k h a.
Proof.
  unfold queued, map_Exists, in_queue. naive_solver.
Qed.

Lemma exempt_not_queued X k a h : Core X k -> a ∈ X -> ~ in_queue k h a.
Proof. intros HC Ha (l & Hl & Hal). by destruct (c_queue _ _ HC h l a Hl Hal). Qed.

(** Fields the invariant does not mention. *)
Lemma core_set_vm X k v : Core X k -> Core X (set_vm v k).
Proof. intros []. by split. Qed.
Lemma core_set_tss X k c e : Core X k -> Core X (set_tss c e k).
Proof. intros []. by split. Qed.
Lemma core_set_time X k t : Core X k -> Core X (set_time_count t k).
Proof. intros []. by split. Qed.
(** The objects of the other tables. *)
Lemma core_put_msgq X k a q q' : Core X k -> msgqs k !! a = Some q ->
  fid q' = fid q -> buffer_addr q' = buffer_addr q -> capacity q' = capacity q ->
  Core X (set_msgqs (<[a := q']> (msgqs k)) k).
Proof.
  intros HC Hq E1 E2 E3. destruct HC as [HT HQ HP HO HN HS HH HB HHe HPi HLo HQt HMb HSt HSb HI HFo]. split; try done.
  - intros i b Hi. destruct (HQt i b Hi) as (q0 & Hq0 & E). simpl. rewrite lookup_insert. case_decide; [|by exists q0].
    subst. exists q'. naive_solver congruence.
  - intros b q0. simpl. rewrite lookup_insert. case_decide; [|apply HMb]. subst. intros [= <-].
    destruct (HMb b q Hq) as (? & ? & ?). unfold msgq_blocks. simpl. by rewrite E2, E3.
Qed.

Lemma core_put_sem X k a s s' : Core X k -> sems k !! a = Some s -> sid s' = sid s -> was_deleted s' = was_deleted s ->
  Core X (set_sems (<[a := s']> (sems k)) k).
Proof.
  intros HC Hs E1 E2. destruct HC as [HT HQ HP HO HN HS HH HB HHe HPi HLo HQt HMb HSt HSb HI HFo]. split; try done.
  - intros i b Hi. destruct (HSt i b Hi) as (s0 & Hs0 & E). simpl. rewrite lookup_insert. case_decide; [|by exists s0].
    subst. exists s'. naive_solver congruence.
  - intros b s0. simpl. rewrite lookup_insert. case_decide; [|apply HSb]. subst. intros [= <-]. rewrite E2. by apply HSb.
Qed.

(** A process record that keeps what the invariant reads of it, or is
    being moved. *)
Definition same_blocks p p' : Prop :=
  pid p' = pid p /\ name p' = name p /\ initial_kernel_stack p' = initial_kernel_stack p
  /\ kernel_stack_size p' = kernel_stack_size p /\ (local_ok p -> local_ok p').
Definition same_place p p' : Prop :=
  state p' = state p /\ waited_sem p' = waited_sem p /\ priority p' = priority p.

Lemma prio_of_put k a p' b : prio_of (set_procs (<[a := p']> (procs k)) k) b =
  if decide (a = b) then priority p' else prio_of k b.
Proof. unfold prio_of. simpl. rewrite lookup_insert. by case_decide. Qed.

Lemma StronglySorted_ext {A} (R R' : A -> A -> Prop) (l : list A) :
  (forall x y, x ∈ l -> y ∈ l -> R x y -> R' x y) -> StronglySorted R l -> StronglySorted R' l.
Proof.
  intros HR Hs. induction Hs as [|x l Hs IH Hx]; constructor.
  - apply IH. intros y z Hy Hz. apply HR; by right.
  - rewrite Forall_forall in *. intros y Hy. apply HR; [by left|by right|auto].
Qed.

Lemma core_upd X k a p p' : Core X k -> procs k !! a = Some p -> same_blocks p p' ->
  a ∈ X \/ same_place p p' -> Core X (set_procs (<[a := p']> (procs k)) k).
Proof.
  intros HC Ha (E1 & E2 & E3 & E4 & E5) HX.
  assert (forall h l b, queues k !! h = Some l -> b ∈ l -> b = a -> same_place p p') as Hq.
  { intros h l b Hl Hb ->. destruct HX as [HX|HX]; [|done]. exfalso.
    apply (exempt_not_queued _ _ a h HC HX). by exists l. }
  destruct HC as [HT HQ HP HO HN HS HH HB HHe HPi HLo HQt HMb HSt HSb HI HFo]. split; simpl; try done.
  - intros i b Hi. destruct (HT i b Hi) as (Hr & q & Hb & Eq). split; [done|].
    destruct (decide (a = b)) as [->|]; [|by exists q; rewrite lookup_insert_ne].
    exists p'. rewrite lookup_insert_eq. naive_solver congruence.
  - intros h l b Hl Hb. destruct (HQ h l b Hl Hb) as (Hx & q & Hbq & Hbel). split; [done|].
    destruct (decide (a = b)) as [->|]; [|exists q; by rewrite lookup_insert_ne].
    exists p'. rewrite lookup_insert_eq. split; [done|]. rewrite Ha in Hbq. simplify_eq.
    destruct (Hq h l b Hl Hb eq_refl) as (F1 & F2 & F3). unfold belongs, tabled in *. rewrite F1, F2, E1. by destruct h.
  - intros b q Hb Hx. destruct (decide (a = b)) as [->|].
    + rewrite lookup_insert_eq in Hb. simplify_eq. specialize (HP b p Ha Hx).
      destruct HX as [?|(F1 & F2 & F3)]; [done|]. unfold placed, tabled in *. by rewrite F1, E1.
    + rewrite lookup_insert_ne in Hb by done. exact (HP b q Hb Hx).
  - intros h l Hl. eapply StronglySorted_ext; [|exact (HS h l Hl)]. intros x y Hx Hy.
    rewrite !prio_of_put.
    assert (forall z, z ∈ l -> (if decide (a = z) then priority p' else prio_of k z) = prio_of k z) as Hz.
    { intros z Hz. case_decide as Ez; [|done]. subst z. destruct (Hq h l a Hl Hz eq_refl) as (_ & _ & ->).
      unfold prio_of. by rewrite Ha. }
    by rewrite !Hz.
  - intros b q Hb. destruct (decide (a = b)) as [->|].
    + rewrite lookup_insert_eq in Hb. simplify_eq. specialize (HB b p Ha). unfold owns_blocks in *.
      by rewrite E1, E2, E3, E4.
    + rewrite lookup_insert_ne in Hb by done. exact (HB b q Hb).
  - intros b q Hb. destruct (decide (a = b)) as [->|].
    + rewrite lookup_insert_eq in Hb. simplify_eq. rewrite E1. by eapply HPi.
    + rewrite lookup_insert_ne in Hb by done. by eapply HPi.
  - intros b q. rewrite lookup_insert. case_decide; [|apply HLo]. intros [= <-]. eauto.
  - destruct HI as (b & q & H0 & Hb & Hst). destruct (decide (a = b)) as [->|].
    + exists b, p'. rewrite lookup_insert_eq. rewrite Ha in Hb. simplify_eq.
      split_and!; [done|done|]. destruct HX as [?|(F1 & _)]; [by left|]. by rewrite F1.
    + exists b, q. by rewrite lookup_insert_ne.
Qed.

(** A process that is in no queue may be moved. *)
Lemma core_exempt X k a : Core X k -> (forall h, ~ in_queue k h a) -> Core ({[a]} ∪ X) k.
Proof.
  intros HC Hn. destruct HC as [HT HQ HP HO HN HS HH HB HHe HPi HLo HQt HMb HSt HSb HI HFo]. split; try done.
  - intros h l b Hl Hb. destruct (HQ h l b Hl Hb) as (Hx & Hp). split; [|done].
    rewrite not_elem_of_union, not_elem_of_singleton. split; [|done]. intros ->. apply (Hn h). by exists l.
  - intros b p Hb Hx. apply HP; set_solver.
  - destruct HI as (b & p & ? & ? & [?|?]); exists b, p; set_solver.
Qed.

(** It is back in place. *)
Lemma core_settle X k a p : Core X k -> procs k !! a = Some p -> placed k a p ->
  (pid p = 0 -> state p = ACTIVABLE \/ state p = ELECTED) -> Core (X ∖ {[a]}) k.
Proof.
  intros HC Ha Hpl H0. destruct HC as [HT HQ HP HO HN HS HH HB HHe HPi HLo HQt HMb HSt HSb HI HFo]. split; try done.
  - intros h l b Hl Hb. destruct (HQ h l b Hl Hb) as (Hx & Hp). split; [set_solver|done].
  - intros b q Hb Hx. destruct (decide (b = a)) as [->|]; [by simplify_eq|]. apply HP; set_solver.
  - destruct HI as (b & q & Hb & Hq & Hor). exists b, q. split_and!; [done|done|].
    destruct (decide (b = a)) as [->|]; [|set_solver]. simplify_eq. right.
    destruct (HT _ _ Hb) as (_ & q' & Hq' & E). simplify_eq. auto.
Qed.

(** The current process changes while nobody outside [X] is elected. *)
Lemma core_set_current X k v : Core X k ->
  (forall a p, procs k !! a = Some p -> a ∉ X -> state p <> ELECTED) -> Core X (set_current_pid v k).
Proof.
  intros HC Hne. destruct HC as [HT HQ HP HO HN HS HH HB HHe HPi HLo HQt HMb HSt HSb HI HFo]. split; try done.
  intros a p Ha Hx. specialize (HP a p Ha Hx). specialize (Hne a p Ha Hx).
  unfold placed in *. simpl. by destruct (state p).
Qed.

(** ** Queues *)

Lemma in_queue_remove k a h b :
  in_queue (set_queues (remove a <$> queues k) k) h b <-> in_queue k h b /\ b <> a.
Proof.
  unfold in_queue. simpl. setoid_rewrite lookup_fmap. split.
  - intros (l & Hl & Hb). destruct (queues k !! h) as [l0|]; simplify_eq/=.
    apply list_elem_of_filter in Hb. naive_solver.
  - intros [(l & -> & Hb) Hne]. exists (remove a l). split; [done|]. by apply list_elem_of_filter.
Qed.

Lemma remove_sorted (R : Z -> Z -> Prop) a l : StronglySorted R l -> StronglySorted R (remove a l).
Proof.
  intros Hs. induction Hs as [|x l Hs IH Hx]; [constructor|]. unfold remove in *. rewrite filter_cons.
  case_decide; [|done]. constructor; [done|]. rewrite Forall_forall in *. intros y [_ Hy]%list_elem_of_filter. auto.
Qed.

Lemma placed_mono k k' a p : placed k a p ->
  current_pid k' = current_pid k -> process_table k' = process_table k ->
  (forall h, in_queue k h a -> in_queue k' h a) -> placed k' a p.
Proof.
  unfold placed, tabled. intros HP -> -> Hq. destruct (state p); naive_solver.
Qed.

Lemma core_del X k a : Core X k -> queued a (queues k) ->
  Core ({[a]} ∪ X) (set_queues (remove a <$> queues k) k).
Proof.
  intros HC Hqd. pose proof (in_queue_remove k a) as Hin.
  assert (forall h l, queues (set_queues (remove a <$> queues k) k) !! h = Some l ->
    exists l0, queues k !! h = Some l0 /\ l = remove a l0) as Hl0.
  { intros h l. simpl. rewrite lookup_fmap. destruct (queues k !! h); naive_solver. }
  destruct HC as [HT HQ HP HO HN HS HH HB HHe HPi HLo HQt HMb HSt HSb HI HFo]. split; try done.
  - intros h l b Hl Hb. destruct (Hl0 h l Hl) as (l0 & Hl' & ->). apply list_elem_of_filter in Hb as [Hne Hb].
    destruct (HQ h l0 b Hl' Hb) as (Hx & Hp). split; [set_solver|done].
  - intros b p Hb Hx. apply (placed_mono k); try done; [apply HP; set_solver|].
    intros h Hh. apply Hin. set_solver.
  - intros h h' b Hb Hb'. apply Hin in Hb, Hb'. naive_solver.
  - intros h l Hl. destruct (Hl0 h l Hl) as (l0 & Hl' & ->). apply NoDup_filter. eauto.
  - intros h l Hl. destruct (Hl0 h l Hl) as (l0 & Hl' & ->). apply remove_sorted. eauto.
  - simpl. rewrite !lookup_fmap. destruct HH as ([? ->] & [? ->] & [? ->]). eauto.
  - destruct HI as (b & p & ? & ? & [?|?]); exists b, p; set_solver.
Qed.

Lemma out_is_remove X k h l a : Core X k -> queues k !! h = Some l -> last l = Some a ->
  <[h := removelast l]> (queues k) = remove a <$> queues k.
Proof.
  intros HC Hl Hla. assert (exists l', l = l' ++ [a]) as [l' ->] by (by apply last_Some).
  assert (a ∉ l') as Hal.
  { pose proof (c_nodup _ _ HC h _ Hl) as Hnd. apply NoDup_app in Hnd as (_ & Hd & _). set_solver. }
  rewrite removelast_last. apply map_eq. intros h'. rewrite lookup_fmap, lookup_insert. case_decide as E.
  - subst h'. rewrite Hl. simpl. unfold remove. rewrite filter_app.
    rewrite (filter_cons_False (fun x => x <> a) a []) by naive_solver. rewrite app_nil_r.
    f_equal. symmetry. by apply Refinement.remove_absent.
  - destruct (queues k !! h') as [l0|] eqn:E0; [|done]. simpl. f_equal. symmetry. apply Refinement.remove_absent.
    intros Hx. apply E. symmetry. apply (c_once _ _ HC h' h a); [by exists l0|]. exists (l' ++ [a]). set_solver.
Qed.

Lemma core_out X k h l a : Core X k -> queues k !! h = Some l -> last l = Some a ->
  Core ({[a]} ∪ X) (set_queues (<[h := removelast l]> (queues k)) k).
Proof.
  intros HC Hl Hla. rewrite (out_is_remove X k h l a) by done. apply core_del; [done|].
  apply queued_in_queue. exists h, l. split; [done|]. by apply last_Some_elem_of.
Qed.

Lemma in_queue_add k a h l b h' : queues k !! h = Some l ->
  in_queue (set_queues (<[h := insert_prio (prio_of k) a l]> (queues k)) k) h' b
    <-> in_queue k h' b \/ (h' = h /\ b = a).
Proof.
  intros Hl. unfold in_queue. simpl. setoid_rewrite lookup_insert. case_decide as E.
  - subst h'. rewrite Hl. split.
    + intros (l' & ? & Hb). simplify_eq. apply elem_of_insert_prio in Hb as [->|Hb]; eauto.
    + intros Hor. eexists. split; [done|]. apply elem_of_insert_prio. naive_solver.
  - naive_solver.
Qed.

Lemma core_add X k a p h l : Core X k -> a ∈ X -> procs k !! a = Some p -> belongs k h a p ->
  (pid p = 0 -> h = QAct) -> queues k !! h = Some l ->
  Core (X ∖ {[a]}) (set_queues (<[h := insert_prio (prio_of k) a l]> (queues k)) k).
Proof.
  intros HC Ha Hp Hbel H0 Hl. pose proof (in_queue_add k a h l) as Hin.
  pose proof (fun h' => exempt_not_queued X k a h' HC Ha) as Hnq.
  assert (a ∉ l) as Hal. { intros Hal. apply (Hnq h). by exists l. }
  destruct HC as [HT HQ HP HO HN HS HH HB HHe HPi HLo HQt HMb HSt HSb HI HFo]. split; try done.
  - intros h' l' b. simpl. rewrite lookup_insert. case_decide as E.
    + intros ? Hb. simplify_eq. apply elem_of_insert_prio in Hb as [->|Hb]; [split; [set_solver|by exists p]|].
      destruct (HQ h' l b Hl Hb) as (Hx & Hpb). split; [set_solver|done].
    + intros Hl' Hb. destruct (HQ h' l' b Hl' Hb) as (Hx & Hpb). split; [set_solver|done].
  - intros b q Hb Hx. destruct (decide (b = a)) as [->|Hne].
    + simpl in Hb. simplify_eq. unfold placed, belongs in *.
      assert (in_queue (set_queues (<[h := insert_prio (prio_of k) a l]> (queues k)) k) h a) as Hq by (apply Hin; auto).
      destruct h; destruct Hbel as [-> _]; eauto.
    + apply (placed_mono k); try done; [apply HP; set_solver|]. intros h' Hh'. apply Hin; auto.
  - intros h1 h2 b [H1|[-> ->]]%Hin [H2|[-> E]]%Hin; simplify_eq; try done; [by eapply HO|by apply Hnq in H1|by apply Hnq in H2].
  - intros h' l'. simpl. rewrite lookup_insert. case_decide; [|eauto]. intros ?; simplify_eq.
    rewrite Refinement.insert_prio_perm. constructor; eauto.
  - intros h' l'. simpl. rewrite lookup_insert. case_decide; [|by apply HS]. intros ?; simplify_eq.
    apply (insert_prio_sorted (prio_of k) (fun x y => prio_of k x <= prio_of k y)); [intros; lia|done|done|]. by apply (HS h').
  - simpl. rewrite !lookup_insert. repeat case_decide; naive_solver.
  - destruct HI as (b & q & Hb & Hq & Hor). exists b, q. split_and!; [done|done|].
    destruct (decide (b = a)) as [->|]; [|set_solver]. simplify_eq. right. left.
    destruct (HT _ _ Hb) as (_ & q' & Hq' & E). simpl in Hq. simplify_eq. rewrite H0 in Hbel by done. apply Hbel.
Qed.

Lemma core_init_head X k h : Core X k -> default [] (queues k !! h) = [] ->
  Core X (set_queues (<[h := []]> (queues k)) k).
Proof.
  intros HC Hd.
  assert (forall h' b, in_queue (set_queues (<[h := []]> (queues k)) k) h' b <-> in_queue k h' b) as Hin.
  { intros h' b. unfold in_queue. simpl. setoid_rewrite lookup_insert. case_decide as E; [|done]. subst h'.
    destruct (queues k !! h) as [l|]; simpl in Hd; [subst l; set_solver|]. split; intros (l & ? & Hb); simplify_eq. set_solver. }
  destruct HC as [HT HQ HP HO HN HS HH HB HHe HPi HLo HQt HMb HSt HSb HI HFo]. split; try done.
  - intros h' l b. simpl. rewrite lookup_insert. case_decide; [|by apply HQ]. intros ? Hb; simplify_eq. set_solver.
  - intros b q Hb Hx. apply (placed_mono k); try done; [by apply HP|]. intros h' Hh'. by apply Hin.
  - intros h1 h2 b H1%Hin H2%Hin. by eapply HO.
  - intros h' l. simpl. rewrite lookup_insert. case_decide; [|by apply HN]. intros ?; simplify_eq. constructor.
  - intros h' l. simpl. rewrite lookup_insert. case_decide; [|by apply HS]. intros ?; simplify_eq. constructor.
  - simpl. rewrite !lookup_insert. repeat case_decide; naive_solver.
Qed.

(** ** Tables, heap, births and deaths *)

(** A new semaphore or message queue. *)
Lemma core_new_sem X k a s : Core X k -> semaphore_table k !! sid s = None -> sems k !! a = None ->
  heap k !! a = Some (sizeof_Semaphore, OSem) -> was_deleted s = false ->
  Core X (set_semaphore_table (<[sid s := a]> (semaphore_table k)) (set_sems (<[a := s]> (sems k)) k)).
Proof.
  intros HC Hi Ha Hb Hd. destruct HC as [HT HQ HP HO HN HS HH HB HHe HPi HLo HQt HMb HSt HSb HI HFo]. split; try done.
  - intros h l x Hl Hx. destruct (HQ h l x Hl Hx) as (Hxx & p & Hp & Hbel). split; [done|]. exists p. split; [done|].
    destruct h; try done. destruct Hbel as (? & ? & Hs). split_and!; try done. simpl.
    rewrite lookup_insert_ne; [done|]. intros E. rewrite E in Hi. congruence.
  - intros i b. simpl. rewrite lookup_insert. case_decide as E.
    + intros [= <-]. exists s. by rewrite lookup_insert_eq.
    + intros Hib. destruct (HSt i b Hib) as (s0 & Hs0 & ?). exists s0. rewrite lookup_insert_ne; [done|]. congruence.
  - intros b s0. simpl. rewrite lookup_insert. case_decide; [|apply HSb]. subst. by intros [= <-].
Qed.

Lemma core_new_msgq X k a q : Core X k -> queue_table k !! fid q = None -> msgqs k !! a = None -> msgq_blocks k a q ->
  Core X (set_queue_table (<[fid q := a]> (queue_table k)) (set_msgqs (<[a := q]> (msgqs k)) k)).
Proof.
  intros HC Hi Ha Hb. destruct HC as [HT HQ HP HO HN HS HH HB HHe HPi HLo HQt HMb HSt HSb HI HFo]. split; try done.
  - intros i b. simpl. rewrite lookup_insert. case_decide as E.
    + intros [= <-]. exists q. by rewrite lookup_insert_eq.
    + intros Hib. destruct (HQt i b Hib) as (q0 & Hq0 & ?). exists q0. rewrite lookup_insert_ne; [done|]. congruence.
  - intros b q0. simpl. rewrite lookup_insert. case_decide; [|apply HMb]. subst. by intros [= <-].
Qed.

(** The pid of a process that is being moved is released. *)
Lemma core_untable X k a p : Core X k -> a ∈ X -> procs k !! a = Some p -> tabled k a p -> pid p <> 0 ->
  Core X (set_process_table (delete (pid p) (process_table k)) k).
Proof.
  intros HC Hx Hp Ht H0.
  assert (forall b q, procs k !! b = Some q -> b <> a -> tabled k b q ->
     tabled (set_process_table (delete (pid p) (process_table k)) k) b q) as Hother.
  { intros b q Hb Hne Hq. unfold tabled in *. simpl. rewrite lookup_delete_ne; [done|]. intros E. rewrite E in Ht. congruence. }
  assert (forall b q, tabled (set_process_table (delete (pid p) (process_table k)) k) b q -> tabled k b q) as Hback.
  { intros b q. unfold tabled. simpl. intros [? ?]%lookup_delete_Some. done. }
  destruct HC as [HT HQ HP HO HN HS HH HB HHe HPi HLo HQt HMb HSt HSb HI HFo]. split; try done.
  - intros i b. simpl. intros [? Hb]%lookup_delete_Some. by apply HT.
  - intros h l b Hl Hb. destruct (HQ h l b Hl Hb) as (Hbx & q & Hq & Hbel). split; [done|]. exists q. split; [done|].
    assert (b <> a) by set_solver. destruct h; simpl in *; naive_solver.
  - intros b q Hb Hbx. specialize (HP b q Hb Hbx). assert (b <> a) by set_solver.
    unfold placed in *. destruct (state q); naive_solver.
  - intros b q Hq. destruct (HB b q Hq) as [?|(? & ? & ?)]; [by left|right]. simpl. by rewrite lookup_delete_ne.
  - intros b q Hq. simpl. rewrite lookup_delete_ne by done. by apply HPi.
  - destruct HI as (b & q & ? & ? & ?). exists b, q. simpl. by rewrite lookup_delete_ne.
Qed.

Lemma core_alloc X k z b : Core X k -> heap k !! z = None -> 0 < z < MEMORY_START ->
  Core X (set_heap (<[z := b]> (heap k)) k).
Proof.
  intros HC Hz Hr. destruct HC as [HT HQ HP HO HN HS HH HB HHe HPi HLo HQt HMb HSt HSb HI HFo]. split; try done.
  - intros a p Hp. destruct (HB a p Hp) as [(H1 & H2 & H3 & H4)|?]; [left|by right].
    split_and!; simpl; [rewrite lookup_insert_ne by congruence; done..| |done].
    intros Hn. rewrite lookup_insert_ne; [by apply H3|]. intros ->. by rewrite H3 in Hz.
  - intros a c. simpl. rewrite lookup_insert. case_decide; [by subst|]. apply HHe.
  - intros a q Hq. destruct (HMb a q Hq) as (? & ? & ?). unfold msgq_blocks. simpl. by rewrite !lookup_insert_ne by congruence.
  - intros a s Hs. destruct (HSb a s Hs). simpl. by rewrite lookup_insert_ne by congruence.
  - intros a c Hc. destruct (HFo a c Hc). simpl. by rewrite lookup_insert_ne by congruence.
Qed.

(** A message queue is released. *)
Lemma core_free_msgq X k a q : Core X k -> msgqs k !! a = Some q ->
  Core X (set_msgqs (delete a (msgqs k)) (set_heap (delete a (delete (buffer_addr q) (heap k)))
    (set_queue_table (delete (fid q) (queue_table k)) k))).
Proof.
  intros HC Hq. destruct HC as [HT HQ HP HO HN HS HH HB HHe HPi HLo HQt HMb HSt HSb HI HFo].
  destruct (HMb a q Hq) as (B1 & B2 & B3).
  assert (forall z n o, heap k !! z = Some (n, o) ->
    match o with OMsgq => z <> a | OBuffer x => x <> a | _ => True end ->
    delete a (delete (buffer_addr q) (heap k)) !! z = heap k !! z) as Hkeep.
  { intros z n o Hz Ho. rewrite !lookup_delete_ne; [done|..]; intros <-; by simplify_eq. }
  split; try done.
  - intros b p Hp. destruct (HB b p Hp) as [(H1 & H2 & H3 & H4)|?]; [left|by right].
    split_and!; simpl; [by rewrite (Hkeep _ _ _ H1)|by rewrite (Hkeep _ _ _ H2)| |done].
    intros Hn. by rewrite (Hkeep _ _ _ (H3 Hn)); [apply H3|].
  - intros b c. simpl. rewrite !lookup_delete_Some. intros (_ & _ & Hb). eauto.
  - intros i b. simpl. intros [Hne Hi]%lookup_delete_Some. destruct (HQt i b Hi) as (q0 & Hq0 & E). exists q0.
    rewrite lookup_delete_ne; [done|]. congruence.
  - intros b q0. simpl. intros [Hne Hb]%lookup_delete_Some. destruct (HMb b q0 Hb) as (? & ? & ?).
    split_and!; simpl; [erewrite Hkeep; [done..|]; done|erewrite Hkeep; [done..|]; done|done].
  - intros b s0 Hs0. destruct (HSb b s0 Hs0). split; [|done]. simpl. by erewrite Hkeep.
  - intros b [n o] Hb. destruct (HFo b _ Hb) as [Hb1 Ho]. split; [|done]. simpl. erewrite Hkeep; [done..|]. by destruct o.
Qed.

(** Releasing the blocks of a process leaves the others. *)
Lemma free_keeps k a p : heap k !! a = Some (sizeof_Process, OProcess) ->
  heap k !! (name p).1 = Some (Z.of_nat (length (name p).2) + 1, OName a) ->
  heap k !! initial_kernel_stack p = Some (8192, OStack a) ->
  forall z n o, heap k !! z = Some (n, o) ->
    match o with OProcess => z <> a | OName x | OStack x => x <> a | _ => True end ->
    heap k !! z = delete a (delete (name p).1 (delete (initial_kernel_stack p) (heap k))) !! z.
Proof. intros B1 B2 B3 z n o Hz Ho. rewrite !lookup_delete_ne; [done|..]; intros <-; by simplify_eq. Qed.

(** A process record and its blocks are released. *)
Lemma core_free X k a p : Core X k -> a ∈ X -> procs k !! a = Some p -> owns_blocks k a p -> initial_kernel_stack p <> 0 -> ~ tabled k a p ->
  Core (X ∖ {[a]}) (set_procs (delete a (procs k))
    (set_heap (delete a (delete (name p).1 (delete (initial_kernel_stack p) (heap k)))) k)).
Proof.
  intros HC Hx Hp (B1 & B2 & B3 & B4) Hst Ht. specialize (B3 Hst).
  assert (forall i, process_table k !! i = Some a -> False) as Hna.
  { intros i Hi. apply Ht. destruct (c_table _ _ HC i a Hi) as (_ & q & Hq & E). unfold tabled.
    rewrite Hp in Hq. injection Hq as <-. by rewrite E. }
  pose proof (fun h' => exempt_not_queued X k a h' HC Hx) as Hnq.
  destruct HC as [HT HQ HP HO HN HS HH HB HHe HPi HLo HQt HMb HSt HSb HI HFo]. split; try done; simpl.
  - intros i b Hi. destruct (HT i b Hi) as (? & q & Hq & E). split; [done|]. exists q.
    rewrite lookup_delete_ne; [done|]. intros ->. eauto.
  - intros h l b Hl Hb. destruct (HQ h l b Hl Hb) as (Hbx & q & Hq & Hbel). split; [set_solver|]. exists q.
    assert (b <> a). { intros ->. apply (Hnq h). by exists l. } by rewrite lookup_delete_ne.
  - intros b q [Hne Hb]%lookup_delete_Some Hbx. apply (HP b q Hb). set_solver.
  - intros h l Hl. eapply StronglySorted_ext; [|exact (HS h l Hl)]. intros x y Hx1 Hy1. unfold prio_of. simpl.
    rewrite !lookup_delete_ne; [done|..]; intros <-; apply (Hnq h); by exists l.
  - intros b q [Hne Hb]%lookup_delete_Some. destruct (HB b q Hb) as [(H1 & H2 & H3 & H4)|?]; [left|by right].
    pose proof (free_keeps k a p B1 B2 B3) as Hkeep.
    split_and!; simpl; [| | |done].
    + by rewrite <- (Hkeep _ _ _ H1).
    + by rewrite <- (Hkeep _ _ _ H2).
    + intros Hn. by rewrite <- (Hkeep _ _ _ (H3 Hn)); [apply H3|].
  - intros b c. rewrite !lookup_delete_Some. intros (_ & _ & _ & Hb). eauto.
  - intros b q [Hne Hb]%lookup_delete_Some. eauto.
  - intros b q [Hne Hb]%lookup_delete_Some. eauto.
  - intros b q Hq. destruct (HMb b q Hq) as (? & ? & ?).
    split_and!; simpl; [erewrite <- free_keeps; [done..|]; done|erewrite <- free_keeps; [done..|]; done|done].
  - intros b s0 Hs0. destruct (HSb b s0 Hs0). split; [|done]. by erewrite <- free_keeps.
  - destruct HI as (b & q & Hb & Hq & Hor). exists b, q. assert (b <> a) by (intros ->; eauto).
    rewrite lookup_delete_ne by done. split_and!; [done|done|]. set_solver.
  - intros b [n o] Hb. destruct (HFo b _ Hb) as [Hb1 Ho]. split; [|done]. erewrite <- free_keeps; [done..|]. by destruct o.
Qed.

(** A new process gets a free pid; it is in no queue yet. *)
Lemma core_new X k a p : Core X k -> procs k !! a = None -> process_table k !! pid p = None ->
  0 <= pid p < NBPROC -> owns_blocks k a p -> local_ok p ->
  Core ({[a]} ∪ X) (set_process_table (<[pid p := a]> (process_table k)) (set_procs (<[a := p]> (procs k)) k)).
Proof.
  intros HC Ha Hfree Hr Hb Hlo.
  assert (forall b q, procs k !! b = Some q -> b <> a) as Hne by naive_solver.
  assert (forall b q, procs k !! b = Some q ->
    tabled (set_process_table (<[pid p := a]> (process_table k)) (set_procs (<[a := p]> (procs k)) k)) b q <-> tabled k b q) as Htab.
  { intros b q Hq. unfold tabled. simpl. rewrite lookup_insert. case_decide as E; [|done].
    specialize (Hne b q Hq). rewrite E in Hfree. naive_solver. }
  destruct HC as [HT HQ HP HO HN HS HH HB HHe HPi HLo HQt HMb HSt HSb HI HFo]. split; try done; simpl.
  - intros i b. rewrite lookup_insert. case_decide as E.
    + intros ?; simplify_eq. split; [done|]. exists p. by rewrite lookup_insert_eq.
    + intros Hi. destruct (HT i b Hi) as (? & q & Hq & ?). split; [done|]. exists q.
      rewrite lookup_insert_ne; [done|]. intros ->. by eapply Hne.
  - intros h l b Hl Hbl. destruct (HQ h l b Hl Hbl) as (Hbx & q & Hq & Hbel).
    pose proof (Hne b q Hq). split; [set_solver|]. exists q. rewrite lookup_insert_ne by done. split; [done|].
    specialize (Htab b q Hq). destruct h; simpl in *; naive_solver.
  - intros b q Hq Hbx. assert (b <> a) by set_solver. rewrite lookup_insert_ne in Hq by done.
    specialize (HP b q Hq ltac:(set_solver)). specialize (Htab b q Hq). unfold placed in *. destruct (state q); naive_solver.
  - intros h l Hl. eapply StronglySorted_ext; [|exact (HS h l Hl)]. intros x y Hx1 Hy1. unfold prio_of. simpl.
    destruct (HQ h l x Hl Hx1) as (_ & q1 & Hq1 & _). destruct (HQ h l y Hl Hy1) as (_ & q2 & Hq2 & _).
    pose proof (Hne x q1 Hq1). pose proof (Hne y q2 Hq2). by rewrite !lookup_insert_ne.
  - intros b q. rewrite lookup_insert. case_decide; [intros ?; simplify_eq; by left|]. intros Hq.
    destruct (HB b q Hq) as [?|(? & ? & ?)]; [by left|right].
    rewrite lookup_insert_ne; [done|]. intros E. rewrite E in Hfree. congruence.
  - assert (pid p <> 0) as Hn0.
    { intros E. rewrite E in Hfree. destruct HI as (? & ? & HI & _). congruence. }
    rewrite lookup_insert_ne by done.
    intros b q. rewrite lookup_insert. case_decide; [intros ?; by simplify_eq|]. apply HPi.
  - intros b q. rewrite lookup_insert. case_decide; [intros ?; by simplify_eq|]. apply HLo.
  - destruct HI as (b & q & H0 & Hq & Hor). exists b, q. pose proof (Hne b q Hq).
    assert (pid p <> 0) by (intros E; rewrite E in Hfree; congruence).
    rewrite !lookup_insert_ne by done. split_and!; [done|done|]. set_solver.
Qed.
End CoreLemmas.
