(* ===== verification/Preserve.v ===== *)
(** * Every step of the kernel keeps the invariant *)

From S2P Require Import Prelude Queue Memory Mmu Kernel Process MessageQueue Semaphore System Invariant.
Import ListQueue.

Local Open Scope st_scope.

(** ** Weakest preconditions of the primitives, over lists *)

Section Wp.
Context {C : Config}.
Implicit Types (k : LK) (a : Z) (h : qid).

Lemma wp_proc a Q k : (forall p, procs k !! a = Some p -> Q p k) -> wp (proc a) Q k.
Proof. intros H. unfold wp, proc. destruct (procs k !! a); simpl; auto. Qed.

Lemma wp_upd_proc a f Q k :
  (forall p, procs k !! a = Some p -> Q tt (set_procs (<[a := f p]> (procs k)) k)) -> wp (upd_proc a f) Q k.
Proof. intros H. unfold upd_proc. apply wp_bind, wp_proc. intros p Hp. apply wp_modify. auto. Qed.

Lemma wp_process_at i Q k : (forall a, process_table k !! i = Some a -> Q a k) -> wp (process_at i) Q k.
Proof. intros H. unfold wp, process_at. destruct (process_table k !! i); simpl; auto. Qed.

Lemma wp_current Q k : (forall a, process_table k !! current_pid k = Some a -> Q a k) -> wp current Q k.
Proof. apply wp_process_at. Qed.

Lemma wp_msgq a Q k : (forall q, msgqs k !! a = Some q -> Q q k) -> wp (msgq a) Q k.
Proof. intros H. unfold wp, msgq. destruct (msgqs k !! a); simpl; auto. Qed.

Lemma wp_semaphore a Q k : (forall s, sems k !! a = Some s -> Q s k) -> wp (semaphore a) Q k.
Proof. intros H. unfold wp, semaphore. destruct (sems k !! a); simpl; auto. Qed.

Lemma wp_queue_add a h Q k :
  (forall l, queues k !! h = Some l -> ~ queued a (queues k) ->
     Q tt (set_queues (<[h := insert_prio (prio_of k) a l]> (queues k)) k)) -> wp (queue_add a h) Q k.
Proof.
  intros H. unfold wp, queue_add, lift_queue. cbn. unfold add. case_bool_decide; [done|].
  destruct (queues k !! h); cbn; auto.
Qed.

Lemma wp_queue_del a Q k :
  (queued a (queues k) -> Q tt (set_queues (remove a <$> queues k) k)) -> wp (queue_del a) Q k.
Proof. intros H. unfold wp, queue_del, lift_queue. cbn. unfold del. case_bool_decide; auto. Qed.

Lemma wp_init_list_head h Q k :
  (default [] (queues k !! h) = [] -> Q tt (set_queues (<[h := []]> (queues k)) k)) -> wp (init_list_head h) Q k.
Proof. intros H. unfold wp, init_list_head, lift_queue. cbn. case_decide; auto. Qed.

Lemma wp_queue_out h Q k :
  (forall l, queues k !! h = Some l -> last l = None -> Q None k) ->
  (forall l e, queues k !! h = Some l -> last l = Some e ->
     Q (Some e) (set_queues (<[h := removelast l]> (queues k)) k)) -> wp (queue_out h) Q k.
Proof.
  intros H1 H2. unfold wp, queue_out. cbn. unfold out. destruct (queues k !! h) as [l|] eqn:E; cbn; [|done].
  destruct (last l) as [e|] eqn:El; [exact (H2 l e eq_refl El)|]. specialize (H1 l eq_refl El). by destruct k.
Qed.

Lemma wp_queue_top h Q k : (forall l, queues k !! h = Some l -> Q (last l) k) -> wp (queue_top h) Q k.
Proof. intros H. unfold wp, queue_top, lift_res. cbn. destruct (queues k !! h); cbn; auto. Qed.

Lemma wp_queue_empty h Q k : (forall l, queues k !! h = Some l -> Q (bool_decide (l = [])) k) -> wp (queue_empty h) Q k.
Proof. intros H. unfold wp, queue_empty, lift_res. cbn. destruct (queues k !! h); cbn; auto. Qed.

Lemma wp_queue_elems h Q k : (forall l, queues k !! h = Some l -> Q l k) -> wp (queue_elems h) Q k.
Proof. intros H. unfold wp, queue_elems, lift_res. cbn. destruct (queues k !! h); cbn; auto. Qed.

Lemma wp_lift_mmu {A} (m : MMU A) Q k : (forall x v, Q x (set_vm v k)) -> wp (lift_mmu m) Q k.
Proof. intros H. unfold wp, lift_mmu. destruct (m (vm k)) as [[x v]|]; auto. Qed.

Lemma wp_mem_alloc {L : MallocLaws C} n o Q k : Q 0 k ->
  (forall z, z <> 0 -> heap k !! z = None -> 0 < z < MEMORY_START ->
     Q z (set_heap (<[z := (n, o)]> (heap k)) k)) -> wp (mem_alloc n o) Q k.
Proof.
  intros H1 H2. unfold wp, mem_alloc. destruct (n =? 0); [done|]. destruct (_ <=? n); [done|].
  destruct (malloc _ _) as [z|] eqn:E; [|done]. pose proof (malloc_region _ _ _ E). apply H2; [lia| |done].
  apply malloc_fresh in E. rewrite lookup_fmap in E. by destruct (heap k !! z).
Qed.

Lemma wp_mem_free z n Q k : 0 < n ->
  (forall o, heap k !! z = Some (n, o) -> Q tt (set_heap (delete z (heap k)) k)) -> wp (mem_free z n) Q k.
Proof.
  intros Hn H. unfold wp, mem_free. destruct (Z.eqb_spec n 0); [lia|]. case_bool_decide as E; [|done].
  destruct (heap k !! z) as [[n' o]|] eqn:Eh; simplify_eq/=. eauto.
Qed.

Lemma find_proc_spec test l Q k :
  (forall o, match o with Some a => exists p, a ∈ l /\ procs k !! a = Some p /\ test p = true
                        | None => forall a p, a ∈ l -> procs k !! a = Some p -> test p = false end -> Q o k) ->
  wp (find_proc test l) Q k.
Proof.
  revert Q. induction l as [|a l IH]; intros Q H; simpl.
  - apply wp_ret, H. set_solver.
  - apply wp_bind, wp_proc. intros p Hp. destruct (test p) eqn:E.
    + apply wp_ret, H. exists p. set_solver.
    + apply IH. intros [b|] Ho; apply H; [destruct Ho as (q & ? & ? & ?); exists q; set_solver|].
      intros b q [->|Hb]%elem_of_cons Hq; [by simplify_eq|eauto].
Qed.
End Wp.

(** One step through a handler. *)
Ltac kstep :=
  match goal with
  | |- wp (bind _ _) _ _ => apply wp_bind
  | |- wp (ret _) _ _ => apply wp_ret
  | |- wp (fail _) _ _ => apply wp_fail
  | |- wp (gets _) _ _ => apply wp_gets
  | |- wp (modify _) _ _ => apply wp_modify
  | |- wp (lift_opt _ _) _ _ => apply wp_lift_opt; intros ? ?
  | |- wp (proc _) _ _ => apply wp_proc; intros ? ?
  | |- wp (upd_proc _ _) _ _ => apply wp_upd_proc; intros ? ?
  | |- wp (put_proc _ _) _ _ => apply wp_modify
  | |- wp (process_at _) _ _ => apply wp_process_at; intros ? ?
  | |- wp current _ _ => apply wp_current; intros ? ?
  | |- wp (msgq _) _ _ => apply wp_msgq; intros ? ?
  | |- wp (put_msgq _ _) _ _ => apply wp_modify
  | |- wp (semaphore _) _ _ => apply wp_semaphore; intros ? ?
  | |- wp (put_sem _ _) _ _ => apply wp_modify
  | |- wp (queue_add _ _) _ _ => apply wp_queue_add; intros ? ? ?
  | |- wp (queue_del _) _ _ => apply wp_queue_del; intros ?
  | |- wp (init_list_head _) _ _ => apply wp_init_list_head; intros ?
  | |- wp (queue_empty _) _ _ => apply wp_queue_empty; intros ? ?
  | |- wp (queue_elems _) _ _ => apply wp_queue_elems; intros ? ?
  | |- wp (queue_top _) _ _ => apply wp_queue_top; intros ? ?
  | |- wp (lift_mmu _) _ _ => apply wp_lift_mmu; intros ? ?
  | |- wp (queue_initialized _) _ _ => apply wp_gets
  | |- wp current_clock _ _ => apply wp_gets
  | |- wp getpid _ _ => apply wp_gets
  | |- wp (__is_valid_pid _) _ _ => apply wp_gets
  | |- wp __get_free_pid _ _ => apply wp_gets
  | |- wp __get_free_fid _ _ => apply wp_gets
  | |- wp __get_free_sem _ _ => apply wp_gets
  | |- wp (valid_fid _) _ _ => apply wp_gets
  | |- wp (valid_sem _) _ _ => apply wp_gets
  end.
Ltac ksteps := repeat (kstep; cbv beta).

(** The test of an identifier against its table. *)
Ltac case_valid a E :=
  match goal with |- context [if ?b then None else ?x] => destruct (if b then None else x) as [a|] eqn:E end.

(** ** The scheduler *)

Section Scheduler.
Context {F : Foreign} {C : Config}.
Implicit Types (k : LK) (a : Z) (h : qid) (X : gset Z).

(** Entered with nobody elected, left with the current process elected. *)
Definition Sched k : Prop := Core ∅ k /\ none_elected k.
Definition Inv k : Prop :=
  Core ∅ k /\ exists a p, process_table k !! current_pid k = Some a /\ procs k !! a = Some p /\ state p = ELECTED.

Lemma exempt_add X a : a ∉ X -> ({[a]} ∪ X) ∖ {[a]} = X.
Proof. intros. set_solver by fail. Qed.

(** What freeing finished processes leaves alone. *)
Record frees X k k' : Prop := {
  fr_core : Core X k';
  fr_elected : none_elected k -> none_elected k';
  fr_table : process_table k' = process_table k;
  fr_current : current_pid k' = current_pid k;
  fr_procs : forall b, b ∈ X -> procs k' !! b = procs k !! b;
  fr_act : queues k' !! QAct = queues k !! QAct;
  fr_sub : procs k' ⊆ procs k;
  fr_live : forall b q, procs k !! b = Some q -> state q <> FINISHED -> procs k' !! b = Some q;
  fr_time : time_count k' = time_count k
}.

Lemma free_process_ok X k e p : Core X k -> e ∈ X -> procs k !! e = Some p -> ~ tabled k e p ->
  wp (__free_process e) (fun _ k' => Core (X ∖ {[e]}) k' /\ process_table k' = process_table k
     /\ current_pid k' = current_pid k /\ procs k' = delete e (procs k) /\ queues k' = queues k
     /\ time_count k' = time_count k) k.
Proof.
  intros HC He Hp Ht. unfold __free_process. do 2 kstep. simplify_eq. do 2 kstep.
  destruct (pid p =? current_pid k); [kstep|]. kstep.
  destruct (c_blocks _ _ HC e p Hp) as [Hb|(_ & Hm & Hm1)].
  - pose proof Hb as (B1 & B2 & B3 & B4). rewrite B4. apply wp_mem_free; [lia|]. intros o1 H1.
    kstep. apply wp_mem_free; [lia|]. intros o2 H2. kstep. apply wp_mem_free; [unfold sizeof_Process; lia|]. intros o3 H3.
    kstep. split_and!; [|done..]. refine (core_free X k e p HC He Hp Hb _ Ht).
    pose proof (c_heap _ _ HC _ _ H1). lia.
  - destruct Ht. unfold tabled. by rewrite Hm.
Qed.

(** The loop that frees the finished list. *)
Lemma free_all_ok fuel X k : Core X k ->
  wp (free_all_finished fuel) (fun _ k' => frees X k k' /\ queues k' !! QFin = Some []) k.
Proof.
  revert k. induction fuel as [|fuel IH]; intros k HC; simpl; [kstep|].
  do 2 kstep. case_bool_decide as E.
  - kstep. subst. split; [|done]. by split.
  - kstep. apply wp_queue_out; [intros; kstep; kstep; done|]. intros l' e Hl' Hla.
    kstep. apply wp_lift_opt. intros ? [= <-]. kstep.
    assert (e ∈ l') as Hel by (by apply last_Some_elem_of).
    destruct (c_queue _ _ HC QFin l' e Hl' Hel) as (Hx & p & Hp & Hst & Hnt).
    pose proof (core_out X k QFin l' e HC Hl' Hla) as HC1.
    eapply wp_mono; [by apply (free_process_ok _ _ e p HC1); [set_solver|..]|].
    intros [] k1 (HC2 & Et & Ec & Ep & Eq & Em). rewrite exempt_add in HC2 by done.
    eapply wp_mono; [by apply IH|]. intros [] k2 ([? Hne Ht2 Hc2 Hp2 Ha2 Hs2 Hl2 Hm2] & HF). split; [|done]. split.
    + done.
    + intros Hn. apply Hne. intros b q. rewrite Ep. intros [_ Hb]%lookup_delete_Some. by eapply Hn.
    + by rewrite Ht2, Et.
    + by rewrite Hc2, Ec.
    + intros b Hb. rewrite Hp2, Ep by done. simpl. rewrite lookup_delete_ne; [done|]. by intros ->.
    + rewrite Ha2, Eq. simpl. by rewrite lookup_insert_ne.
    + rewrite Ep in Hs2. etrans; [done|]. simpl. apply delete_subseteq.
    + intros b q Hb Hsb. apply Hl2; [|done]. rewrite Ep. simpl. rewrite lookup_delete_ne; [done|]. intros ->. congruence.
    + by rewrite Hm2, Em.
Qed.

Lemma finished_pid X k a p : Core X k -> procs k !! a = Some p -> ~ tabled k a p -> pid p <> 0.
Proof. intros HC Hp Hn E. apply Hn. unfold tabled. rewrite E. by apply (c_pids _ _ HC a p Hp). Qed.

(** What putting a process in a queue keeps. *)
Lemma none_elected_queues k q : none_elected k -> none_elected (set_queues q k).
Proof. done. Qed.

Lemma free_finished_ok k : Sched k ->
  wp __free_finished_process (fun _ k' => Sched k' /\ process_table k' = process_table k
     /\ current_pid k' = current_pid k
     /\ (forall b q, in_queue k' QFin b -> procs k' !! b = Some q -> pid q = current_pid k)
     /\ procs k' ⊆ procs k /\ (forall b q, procs k !! b = Some q -> state q <> FINISHED -> procs k' !! b = Some q)
     /\ time_count k' = time_count k) k.
Proof.
  intros [HC Hn]. unfold __free_finished_process. do 4 kstep.
  kstep. apply find_proc_spec. intros [c|] Hf.
  - destruct Hf as (p & Hc & Hp & Epid). do 2 kstep. kstep.
    destruct (c_queue _ _ HC QFin _ c H Hc) as (_ & p' & Hp' & Hst & Hnt). rewrite Hp in Hp'. injection Hp' as <-.
    pose proof (core_del ∅ k c HC H0) as HC1. eapply wp_mono; [by apply free_all_ok|].
    intros [] k1 ([HC2 Hne Ht Hcu Hpr Hac Hs Hlv Htm] & HF). kstep. rewrite HF in H1. injection H1 as <-.
    assert (procs k1 !! c = Some p) as Hp1 by (rewrite Hpr by set_solver; done).
    assert (({[c]} ∪ ∅) ∖ {[c]} = (∅ : gset Z)) as EX by set_solver.
    assert (~ tabled k1 c p) as Hnt1 by (unfold tabled; rewrite Ht; done).
    pose proof (core_add _ k1 c p QFin [] HC2 ltac:(set_solver) Hp1 (conj Hst Hnt1)) as HC3. rewrite EX in HC3.
    split_and!.
    + split; [|apply none_elected_queues, Hne, Hn]. apply HC3; [|done].
      intros E. by destruct (finished_pid _ _ c p HC Hp Hnt).
    + done.
    + done.
    + intros b q (lb & Hlb & Hb) Hq. simpl in Hlb, Hq. rewrite lookup_insert_eq in Hlb. injection Hlb as <-.
      apply list_elem_of_singleton in Hb as ->. rewrite Hp1 in Hq. injection Hq as <-. by apply Z.eqb_eq.
    + done.
    + done.
    + done.
  - do 2 kstep. kstep. eapply wp_mono; [by apply free_all_ok|]. intros [] k1 ([HC2 Hne Ht Hcu Hpr Hac Hs Hlv Htm] & HF).
    kstep. split_and!; try done; [split; auto|]. intros b q (lb & Hlb & Hb). rewrite HF in Hlb. injection Hlb as <-. set_solver.
Qed.

(** A process record is changed and the process queued. *)
Lemma elect_free_upd k a p' : none_elected k -> state p' <> ELECTED ->
  none_elected (set_procs (<[a := p']> (procs k)) k).
Proof. intros Hn Hs b q. simpl. rewrite lookup_insert. case_decide; [by intros [= <-]|apply Hn]. Qed.

Lemma activable_queue_add X k a p : Core X k -> a ∈ X -> procs k !! a = Some p -> tabled k a p ->
  state p = ACTIVABLE ->
  wp (queue_add a QAct) (fun _ k' => exists q, k' = set_queues q k /\ Core (X ∖ {[a]}) k' /\ q !! QFin = queues k !! QFin) k.
Proof.
  intros HC Hx Hp Ht Hs. kstep. eexists. split_and!; [done|by apply (core_add X k a p QAct l)|by rewrite lookup_insert_ne].
Qed.

(** Nothing changes for the finished processes and the current one. *)
Definition finished_same k k' : Prop :=
  process_table k' = process_table k /\ current_pid k' = current_pid k /\ queues k' !! QFin = queues k !! QFin
  /\ (forall b, pid <$> procs k' !! b = pid <$> procs k !! b).

Lemma finished_same_trans k k1 k2 : finished_same k k1 -> finished_same k1 k2 -> finished_same k k2.
Proof.
  intros (E1 & E2 & E3 & E4) (F1 & F2 & F3 & F4). split_and!; [congruence..|]. intros b. by rewrite F4.
Qed.

Lemma wakeup_one_ok i k : Sched k -> 
  wp (wakeup_one i) (fun _ k' => Sched k' /\ finished_same k k') k.
Proof.
  intros [HC Hn]. unfold wakeup_one. do 2 kstep. destruct (process_table k !! i) as [a|] eqn:Ea; [|by kstep].
  kstep. kstep. kstep. kstep. destruct (bool_decide _ && _) eqn:Eb; [|by kstep].
  apply andb_true_iff in Eb as [Es%bool_decide_eq_true _].
  destruct (c_table _ _ HC i a Ea) as (_ & p' & Hp' & Epid). rewrite H in Hp'. injection Hp' as <-.
  assert (Core ({[a]} ∪ ∅) k) as HC1.
  { apply core_exempt; [done|]. intros h (l & Hl & Hal). destruct (c_queue _ _ HC h l a Hl Hal) as (_ & q & Hq & Hbel).
    rewrite H in Hq. injection Hq as <-. destruct h; destruct Hbel; congruence. }
  do 2 kstep. rewrite H in H0. injection H0 as <-.
  assert (Core ({[a]} ∪ ∅) (set_procs (<[a := set_state ACTIVABLE p]> (procs k)) k)) as HC2.
  { apply (core_upd _ _ _ p); [done..| |left; set_solver]. done. }
  eapply wp_mono; [apply (activable_queue_add _ _ a (set_state ACTIVABLE p) HC2)|].
  + set_solver.
  + simpl. by rewrite lookup_insert_eq.
  + unfold tabled. simpl. by rewrite Epid.
  + done.
  + intros [] k' (q & -> & HC3 & Eq). split; [split|split_and!].
    * assert (({[a]} ∪ ∅) ∖ {[a]} = (∅ : gset Z)) as EX by set_solver. by rewrite EX in HC3.
    * apply none_elected_queues. by apply elect_free_upd.
    * done.
    * done.
    * exact Eq.
    * intros b. simpl. rewrite lookup_insert. case_decide; [|done]. subst. by rewrite H.
Qed.

Lemma wakeup_ok k : Sched k ->
  wp __wakeup_process (fun _ k' => Sched k' /\ finished_same k k') k.
Proof.
  intros HS. unfold __wakeup_process.
  apply (wp_for_each _ _ (fun _ k' => Sched k' /\ finished_same k k')).
  - done.
  - intros i l k1 (HS1 & HF1). eapply wp_mono; [by apply wakeup_one_ok|].
    intros [] k2 (HS2 & HF2). split; [done|]. by apply (finished_same_trans k k1 k2).
  - done.
Qed.

(** The invariant with the processor given to a process of highest priority
    among the activable ones. *)
Definition Scheduled k : Prop :=
  Core ∅ k /\ exists a p, process_table k !! current_pid k = Some a /\ procs k !! a = Some p /\ state p = ELECTED
    /\ (forall b, in_queue k QAct b -> prio_of k b <= priority p).

(** A switch gives the processor to what the current process saved. *)
Definition resumes (r : control) k : Prop :=
  match r with
  | Return _ => True
  | Resume c => exists a p, process_table k !! current_pid k = Some a /\ procs k !! a = Some p /\ registers p = c
  end.
Definition Sched_post (r : control) k : Prop := Scheduled k /\ resumes r k.
Definition Inv_post (r : control) k : Prop := Inv k /\ resumes r k.

Lemma scheduled_inv k : Scheduled k -> Inv k.
Proof. intros [HC (a & p & ? & ? & ? & _)]. split; [done|]. eauto. Qed.

Lemma sched_inv_post r k : Sched_post r k -> Inv_post r k.
Proof. intros [HS Hr]. split; [by apply scheduled_inv|done]. Qed.

(** Saving a context changes [registers] only. *)
Lemma same_registers r p : cont_ok r (pid p) -> same_blocks p (set_registers r p) /\ same_place p (set_registers r p).
Proof.
  intros Hc. split; [|done]. split_and!; [done..|]. by intros [_ Hl].
Qed.

Lemma ctx_sw_core old new c X k : Core X k ->
  (forall p, procs k !! old = Some p -> cont_ok c (pid p)) ->
  wp (virtual_ctx_sw old new c) (fun r k' => Core X k' /\ (exists p, procs k' !! new = Some p /\ r = Resume (registers p)) /\ process_table k' = process_table k
    /\ current_pid k' = current_pid k /\ queues k' = queues k
    /\ (forall b q, procs k !! b = Some q -> exists r, procs k' !! b = Some (set_registers r q))
    /\ (forall b, state <$> procs k' !! b = state <$> procs k !! b)) k.
Proof.
  intros HC Hk. unfold virtual_ctx_sw. ksteps. split_and!; try done; [|by eexists| |].
  - eapply core_upd; [by apply core_set_tss, core_set_vm|done|apply same_registers; eauto|right; apply same_registers; eauto].
  - intros b q Hb. simpl. rewrite lookup_insert. case_decide as E.
    + subst. eexists. simpl in *. by simplify_eq.
    + exists (registers q). rewrite Hb. by destruct q.
  - intros b. simpl. rewrite lookup_insert. case_decide; [|done]. subst. simpl in H0. by rewrite H0.
Qed.

Lemma last_max k l a : StronglySorted (fun x y => prio_of k x <= prio_of k y) l -> last l = Some a ->
  forall b, b ∈ l -> prio_of k b <= prio_of k a.
Proof.
  intros Hs Hla b Hb. apply last_Some in Hla as [l' ->]. apply elem_of_app in Hb as [Hb|Hb]; [|apply list_elem_of_singleton in Hb; subst; lia].
  apply StronglySorted_app in Hs as (Hs & _). apply Hs; [done|set_solver].
Qed.

Lemma scheduler_ok c k : Sched k -> cont_ok c (current_pid k) -> wp (__scheduler c) Sched_post k.
Proof.
  intros HS Hok. unfold __scheduler. kstep. eapply wp_mono; [by apply free_finished_ok|].
  intros [] k1 (HS1 & _ & Ec1 & Hf1 & _). kstep. eapply wp_mono; [by apply wakeup_ok|].
  intros [] k2 ([HC Hn] & _ & Ec2 & Ef2 & Ep2).
  assert (forall b q, in_queue k2 QFin b -> procs k2 !! b = Some q -> pid q = current_pid k2) as Hfin.
  { intros b q (lb & Hlb & Hb) Hq. rewrite Ec2, Ec1. specialize (Ep2 b). rewrite Hq in Ep2.
    destruct (procs k1 !! b) as [q1|] eqn:Eq1; simplify_eq/=. rewrite Ep2. apply (Hf1 b q1); [|done].
    exists lb. by rewrite <- Ef2. }
  rewrite <- Ec1, <- Ec2 in Hok. clear k HS k1 HS1 Ec1 Hf1 Ec2 Ef2 Ep2.
  kstep. apply wp_queue_out; [intros; by do 2 kstep|]. intros l a Hl Hla.
  kstep. apply wp_lift_opt. intros ? [= <-].
  assert (a ∈ l) as Hal by (by apply last_Some_elem_of).
  destruct (c_queue _ _ HC QAct l a Hl Hal) as (_ & p & Hp & Hst & Ht).
  pose proof (core_out ∅ k2 QAct l a HC Hl Hla) as HC1.
  assert (forall b, b ∈ removelast l -> prio_of k2 b <= priority p) as Hmax.
  { intros b Hb. transitivity (prio_of k2 a); [|unfold prio_of; by rewrite Hp].
    apply (last_max k2 l); [by apply (c_sorted _ _ HC QAct)|done|].
    apply last_Some in Hla as [l' ->]. rewrite removelast_last in Hb. set_solver. }
  do 2 kstep. simpl in H. rewrite Hp in H. injection H as <-.
  set (k3 := set_procs _ _).
  assert (Core ({[a]} ∪ ∅) k3) as HC3.
  { eapply core_upd; [exact HC1|exact Hp| |left; set_solver]. done. }
  do 3 kstep.
  assert (wp (if bool_decide (l0 = []) then current else let! t := queue_top QFin in lift_opt Faulted t)
    (fun o k' => k' = k3 /\ forall q, procs k3 !! o = Some q -> pid q = current_pid k2) k3) as Hold.
  { destruct (bool_decide (l0 = [])); ksteps; split; try done; intros q Hq.
    - destruct (c_table _ _ HC3 _ _ H0) as (_ & q' & Hq' & E). rewrite Hq in Hq'. by injection Hq' as <-.
    - simpl in Hq, H0. rewrite lookup_insert_ne in H0 by done.
      assert (in_queue k2 QFin a0) as Hin by (eexists; split; [done|by apply last_Some_elem_of]).
      destruct (decide (a = a0)) as [->|]; [rewrite lookup_insert_eq in Hq|rewrite lookup_insert_ne in Hq by done].
      + injection Hq as <-. by apply (Hfin a0 p).
      + by apply (Hfin a0 q). }
  eapply wp_mono; [exact Hold|]. intros old ? [-> Hpid]. do 4 kstep.
  simpl in H0. rewrite lookup_insert_eq in H0. injection H0 as <-.
  assert (Core ({[a]} ∪ ∅) (set_current_pid (pid (set_state ELECTED p)) k3)) as HC4.
  { apply core_set_current; [done|]. intros b q Hb Hx. simpl in Hb. rewrite lookup_insert_ne in Hb by set_solver. by eapply Hn. }
  eapply wp_mono; [apply ctx_sw_core; [exact HC4|]; intros q Hq; by rewrite (Hpid q Hq)|].
  intros r k4 (HC5 & (pn & Hpn & ->) & Et & Ec & Eq & Hpr & _). destruct (Hpr a (set_state ELECTED p)) as [r' Hr]; [simpl; by rewrite lookup_insert_eq|].
  assert (({[a]} ∪ ∅) ∖ {[a]} = (∅ : gset Z)) as EX by set_solver.
  split; [|exists a, pn; by rewrite Et, Ec]. split.
  - rewrite <- EX. apply (core_settle _ _ a _ HC5 Hr); [|by right].
    unfold placed, tabled. simpl. by rewrite Et, Ec.
  - exists a, (set_registers r' (set_state ELECTED p)). rewrite Et, Ec. simpl. split_and!; [done|done|done|].
    intros b (lb & Hlb & Hb). rewrite Eq in Hlb. simpl in Hlb. rewrite lookup_insert_eq in Hlb. injection Hlb as <-.
    pose proof (Hmax b Hb) as Hb2. unfold prio_of in *.
    destruct (c_queue _ _ HC QAct l b Hl) as (_ & q & Hq & _).
    { apply last_Some in Hla as [l' ->]. rewrite removelast_last in Hb. set_solver. }
    rewrite Hq in Hb2. destruct (decide (a = b)) as [<-|Hne].
    + rewrite Hr. simpl. lia.
    + destruct (Hpr b q) as [rb Hrb]; [simpl; by rewrite lookup_insert_ne|]. by rewrite Hrb.
Qed.
End Scheduler.

(** ** Who is elected

    [G X e k]: the invariant but for [X], with [e] the only elected process
    outside [X]. *)

Section Elected.
Context {F : Foreign} {C : Config}.
Implicit Types (k : LK) (a : Z) (h : qid) (X : gset Z) (e : option Z).

Definition G X e k : Prop :=
  Core X k /\ forall b q, procs k !! b = Some q -> b ∉ X -> (state q = ELECTED <-> e = Some b).

Lemma g_core X e k : G X e k -> Core X k.
Proof. by intros []. Qed.

Lemma g_sched k : G ∅ None k <-> Sched k.
Proof.
  split; intros [HC HE]; split; try done.
  - intros b q Hb Hs. assert (b ∉ (∅ : gset Z)) as Hn by set_solver. by apply (HE b q Hb Hn) in Hs.
  - intros b q Hb _. split; [|done]. intros Hs. by destruct (HE b q Hb).
Qed.

(** Between two steps the current process is the elected one. *)
Lemma g_inv k : Inv k <-> exists a, G ∅ (Some a) k /\ process_table k !! current_pid k = Some a.
Proof.
  split.
  - intros [HC (a & p & Ht & Hp & Hs)]. exists a. split; [|done]. split; [done|].
    intros b q Hb _. split; [|by intros [= <-]; simplify_eq].
    intros Hq. assert (b ∉ (∅ : gset Z)) as Hn by set_solver. pose proof (c_placed _ _ HC b q Hb Hn) as Hpl.
    unfold placed, tabled in Hpl. rewrite Hq in Hpl. destruct Hpl as [E Htb]. rewrite E in Htb. congruence.
  - intros (a & [HC HE] & Ht). split; [done|]. destruct (c_table _ _ HC _ _ Ht) as (_ & p & Hp & _).
    exists a, p. split_and!; [done..|]. apply (HE a p Hp); [set_solver|done].
Qed.

Lemma g_set_vm X e k v : G X e k -> G X e (set_vm v k).
Proof. intros [HC HE]. split; [by apply core_set_vm|done]. Qed.
Lemma g_set_tss X e k c s : G X e k -> G X e (set_tss c s k).
Proof. intros [HC HE]. split; [by apply core_set_tss|done]. Qed.
Lemma g_set_time X e k t : G X e k -> G X e (set_time_count t k).
Proof. intros [HC HE]. split; [by apply core_set_time|done]. Qed.
Lemma g_put_msgq X e k a q q' : G X e k -> msgqs k !! a = Some q -> fid q' = fid q ->
  buffer_addr q' = buffer_addr q -> capacity q' = capacity q -> G X e (set_msgqs (<[a := q']> (msgqs k)) k).
Proof. intros [HC HE] Hq E1 E2 E3. split; [by eapply core_put_msgq|done]. Qed.
Lemma g_put_sem X e k a s s' : G X e k -> sems k !! a = Some s -> sid s' = sid s -> was_deleted s' = was_deleted s ->
  G X e (set_sems (<[a := s']> (sems k)) k).
Proof. intros [HC HE] Hs E1 E2. split; [by eapply core_put_sem|done]. Qed.

Lemma g_upd X e k a p p' : G X e k -> procs k !! a = Some p -> same_blocks p p' ->
  a ∈ X \/ same_place p p' -> G X e (set_procs (<[a := p']> (procs k)) k).
Proof.
  intros [HC HE] Hp HB HX. split; [by eapply core_upd|]. intros b q. simpl. rewrite lookup_insert.
  case_decide as E; [|by apply HE]. subst b. intros [= <-] Hn. destruct HX as [?|(Es & _)]; [done|].
  rewrite Es. by apply HE.
Qed.

Lemma g_not_queued X e k a p h : G X e k -> procs k !! a = Some p ->
  state p = ELECTED \/ state p = ASLEEP \/ state p = ZOMBIE \/ state p = FINISHED /\ tabled k a p -> ~ in_queue k h a.
Proof.
  intros [HC _] Hp Hs (l & Hl & Hal). destruct (c_queue _ _ HC h l a Hl Hal) as (_ & q & Hq & Hbel).
  simplify_eq. destruct h; simpl in Hbel; naive_solver congruence.
Qed.

Lemma g_exempt X e k a : G X e k -> (forall h, ~ in_queue k h a) -> G ({[a]} ∪ X) e k.
Proof.
  intros [HC HE] Hn. split; [by apply core_exempt|]. intros b q Hb Hx. apply HE; set_solver.
Qed.

Lemma g_del X e k a : G X e k -> queued a (queues k) -> G ({[a]} ∪ X) e (set_queues (remove a <$> queues k) k).
Proof.
  intros [HC HE] Hq. split; [by apply core_del|]. intros b q Hb Hx. apply HE; [done|set_solver].
Qed.

Lemma g_out X e k h l a : G X e k -> queues k !! h = Some l -> last l = Some a ->
  G ({[a]} ∪ X) e (set_queues (<[h := removelast l]> (queues k)) k).
Proof.
  intros [HC HE] Hl Hla. split; [by apply core_out|]. intros b q Hb Hx. apply HE; [done|set_solver].
Qed.

Lemma g_add X e k a p h l : G X e k -> a ∈ X -> procs k !! a = Some p -> belongs k h a p ->
  (pid p = 0 -> h = QAct) -> queues k !! h = Some l -> e <> Some a ->
  G (X ∖ {[a]}) e (set_queues (<[h := insert_prio (prio_of k) a l]> (queues k)) k).
Proof.
  intros [HC HE] Hx Hp Hb H0 Hl He. split; [by eapply core_add|]. intros b q Hq Hbx. simpl in Hq.
  destruct (decide (b = a)) as [->|]; [|apply HE; set_solver]. simplify_eq. split; [|done].
  intros Hs. destruct h; simpl in Hb; naive_solver congruence.
Qed.

Lemma g_settle X e k a p : G X e k -> procs k !! a = Some p -> placed k a p ->
  (pid p = 0 -> state p = ACTIVABLE \/ state p = ELECTED) -> (state p = ELECTED <-> e = Some a) -> G (X ∖ {[a]}) e k.
Proof.
  intros [HC HE] Hp Hpl H0 He. split; [by eapply core_settle|]. intros b q Hq Hbx.
  destruct (decide (b = a)) as [->|]; [by simplify_eq|apply HE; set_solver].
Qed.

Lemma g_none X k a : G X (Some a) k -> a ∈ X -> G X None k.
Proof.
  intros [HC HE] Hx. split; [done|]. intros b q Hq Hbx. rewrite (HE b q Hq Hbx). split; [|done]. intros [= ->]. done.
Qed.

Lemma g_untable X e k a p : G X e k -> a ∈ X -> procs k !! a = Some p -> tabled k a p -> pid p <> 0 ->
  G X e (set_process_table (delete (pid p) (process_table k)) k).
Proof. intros [HC HE] Hx Hp Ht H0. split; [by eapply core_untable|done]. Qed.

Lemma g_tabled X e k a p : G X e k -> a ∉ X -> procs k !! a = Some p -> state p <> FINISHED -> tabled k a p.
Proof.
  intros [HC _] Hx Hp Hs. pose proof (c_placed _ _ HC a p Hp Hx) as Hpl.
  assert (forall h, in_queue k h a -> h <> QFin -> tabled k a p) as Hq.
  { intros h (l & Hl & Hal) Hh. destruct (c_queue _ _ HC h l a Hl Hal) as (_ & q & Hq & Hbel). simplify_eq.
    destruct h; simpl in Hbel; naive_solver. }
  unfold placed in Hpl. destruct (state p); naive_solver.
Qed.

Lemma settled (a : Z) : ({[a]} ∪ ∅) ∖ {[a]} = (∅ : gset Z).
Proof. set_solver. Qed.
End Elected.

(** ** System calls *)

Section Handlers.
Context {F : Foreign} {C : Config} {L : MallocLaws C}.
Implicit Types (k : LK) (a : Z) (h : qid) (X : gset Z) (e : option Z).

(** The state after [p->... = ...; queue_add(p, h)] on a process being moved. *)
Definition enqueued k a p' h (l : list Z) : LK :=
  let k1 := set_procs (<[a := p']> (procs k)) k in
  set_queues (<[h := insert_prio (prio_of k1) a l]> (queues k1)) k1.

Lemma enqueue_ok X e k a p p' h l : G ({[a]} ∪ X) e k -> a ∉ X -> procs k !! a = Some p -> same_blocks p p' ->
  belongs k h a p' -> (pid p = 0 -> h = QAct) -> e <> Some a -> queues k !! h = Some l -> G X e (enqueued k a p' h l).
Proof.
  intros HG Hx Hp HB Hbel H0 He Hl. replace X with (({[a]} ∪ X) ∖ {[a]}) by set_solver.
  apply (g_add _ _ _ a p').
  - eapply g_upd; [done..|]. left. set_solver.
  - set_solver.
  - simpl. by rewrite lookup_insert_eq.
  - by destruct h.
  - destruct HB as [-> _]. done.
  - done.
  - done.
Qed.

(** The elected process is in no queue and may be moved. *)
Lemma current_exempt k a : G ∅ (Some a) k -> process_table k !! current_pid k = Some a ->
  exists p, procs k !! a = Some p /\ pid p = current_pid k /\ state p = ELECTED /\ tabled k a p /\ G ({[a]} ∪ ∅) None k.
Proof.
  intros HG Ht. pose proof (g_core _ _ _ HG) as HC. destruct (c_table _ _ HC _ _ Ht) as (_ & p & Hp & Ep).
  assert (state p = ELECTED) as Hs. { apply (proj2 HG a p Hp); [set_solver|done]. }
  exists p. split_and!; try done; [unfold tabled; by rewrite Ep|].
  apply (g_none _ _ a); [|set_solver]. apply g_exempt; [done|]. intros h. eapply g_not_queued; eauto.
Qed.

(** The current process joins a queue and the processor is scheduled. *)
Lemma leave_ok k a p p' h l c : G ({[a]} ∪ ∅) None k -> procs k !! a = Some p -> same_blocks p p' ->
  belongs k h a p' -> (pid p = 0 -> h = QAct) -> queues k !! h = Some l -> cont_ok c (current_pid k) ->
  wp (__scheduler c) Sched_post (enqueued k a p' h l).
Proof. intros. apply scheduler_ok; [apply g_sched; by eapply enqueue_ok|done]. Qed.

Lemma yield_ok k c : Inv k -> cont_ok c (current_pid k) -> wp (yield_cpu c) Sched_post k.
Proof.
  intros (a & HG & Ht)%g_inv Hk. unfold yield_cpu. kstep. kstep. rewrite Ht in H. injection H as <-.
  destruct (current_exempt k a HG Ht) as (p & Hp & Epid & Es & Htab & HG1). do 4 kstep. cbv beta.
  rewrite Hp in H. injection H as <-. by apply (leave_ok k a p (set_state ACTIVABLE p) QAct).
Qed.

(** ** Process calls *)

Lemma wait_clock_ok k w : Inv k -> current_pid k <> 0 -> wp (wait_clock w) Sched_post k.
Proof.
  intros (a & HG & Ht)%g_inv Hc. unfold wait_clock. kstep. kstep. rewrite Ht in H. injection H as <-.
  destruct (current_exempt k a HG Ht) as (p & Hp & Epid & Es & Htab & HG1). do 4 kstep.
  rewrite Hp in H. injection H as <-. simpl in H0. rewrite lookup_insert_eq in H0. injection H0 as <-.
  apply scheduler_ok; [|done]. apply g_sched. rewrite <- (settled a). set (p2 := set_wakeup_date w (set_state ASLEEP p)).
  apply (g_settle _ _ _ a p2); simpl.
  - eapply g_upd; [eapply g_upd; [done..|left; set_solver]| | |left; set_solver]; simpl; [by rewrite lookup_insert_eq|done].
  - by rewrite lookup_insert_eq.
  - done.
  - lia.
  - done.
Qed.

(** [HE c e k]: the invariant with [e] elected, [c] the current pid; [e] is
    the current process. *)
Definition HE (c : Z) e k : Prop :=
  G ∅ e k /\ current_pid k = c /\ match e with Some b => process_table k !! c = Some b | None => True end.

Lemma he_inv k : Inv k <-> exists b, HE (current_pid k) (Some b) k.
Proof. rewrite g_inv. unfold HE. naive_solver. Qed.

Lemma he_sched c k : HE c None k -> Sched k.
Proof. intros (HG & _). by apply g_sched. Qed.

(** [state = FINISHED; queue_add(.., finished_list); process_table[i] = NULL] *)
Lemma finish_state e k a p i l : G ({[a]} ∪ ∅) e k -> process_table k !! i = Some a -> procs k !! a = Some p ->
  i <> 0 -> e <> Some a -> queues k !! QFin = Some l ->
  G ∅ e (set_process_table (delete i (process_table k)) (enqueued k a (set_state FINISHED p) QFin l)).
Proof.
  intros HG Ht Hp Hi He Hl. destruct (c_table _ _ (g_core _ _ _ HG) i a Ht) as (_ & p' & Hp' & Ep).
  rewrite Hp in Hp'. injection Hp' as <-. assert (tabled k a p) as Htab by (unfold tabled; by rewrite Ep).
  assert (a ∈ ({[a]} ∪ ∅ : gset Z)) as Hin by set_solver.
  pose proof (g_untable _ _ _ a p HG Hin Hp Htab ltac:(lia)) as HG1. rewrite Ep in HG1.
  change (G ∅ e (enqueued (set_process_table (delete i (process_table k)) k) a (set_state FINISHED p) QFin l)).
  apply (enqueue_ok ∅ e _ a p); try done.
  - split; [done|]. unfold tabled. simpl. by rewrite Ep, lookup_delete_eq.
  - lia.
Qed.

Lemma finish_ok c e k i a : HE c e k -> process_table k !! i = Some a -> i <> 0 -> e <> Some a ->
  wp (__finish_fatherless i) (fun _ k' => HE c e k') k.
Proof.
  intros (HG & Hc & Hcur) Ht Hi He. unfold __finish_fatherless. ksteps. rewrite Ht in H. injection H as <-.
  assert (G ({[a]} ∪ ∅) e k) as HG1.
  { apply g_exempt; [done|]. intros h Hh. apply H2. apply queued_in_queue. by exists h. }
  split_and!.
  - exact (finish_state e k a p i l HG1 Ht H0 Hi He H1).
  - done.
  - destruct e as [b|]; [|done]. simpl. rewrite lookup_delete_ne; [done|]. intros ->. congruence.
Qed.

(** Field updates that do not concern the invariant. *)
Lemma he_upd c e k a p p' : HE c e k -> procs k !! a = Some p -> same_blocks p p' -> same_place p p' ->
  HE c e (set_procs (<[a := p']> (procs k)) k).
Proof. intros (HG & Hc & Hcur) Hp HB HS. split_and!; [|done..]. eapply g_upd; eauto. Qed.

Lemma he_vm c e k v : HE c e k -> HE c e (set_vm v k).
Proof. intros (HG & Hc & Hcur). split_and!; [by apply g_set_vm|done..]. Qed.

(** A blocked process [w] of queue [h] becomes activable. *)
Lemma wake_state c e k w p p' h l : HE c e k -> procs k !! w = Some p -> in_queue k h w -> h <> QAct -> h <> QFin ->
  same_blocks p p' -> state p' = ACTIVABLE -> remove w <$> queues k !! QAct = Some l ->
  HE c e (enqueued (set_queues (remove w <$> queues k) k) w p' QAct l).
Proof.
  intros (HG & Hc & Hcur) Hp (lh & Hlh & Hw) Hna Hnf HB Hs Hl.
  destruct (c_queue _ _ (g_core _ _ _ HG) h lh w Hlh Hw) as (_ & q & Hq & Hbel). rewrite Hp in Hq. injection Hq as <-.
  assert (e <> Some w) as He.
  { intros ->. assert (state p = ELECTED) as Hs2. { apply (proj2 HG w p Hp); [set_solver|done]. }
    destruct h; simpl in Hbel; naive_solver congruence. }
  assert (tabled k w p) as Htab by (destruct h; simpl in Hbel; naive_solver).
  split_and!; [|done..]. apply (enqueue_ok ∅ e _ w p p' QAct l); try done.
  - apply g_del; [done|]. apply queued_in_queue. exists h. by exists lh.
  - split; [done|]. unfold tabled in *. destruct HB as [-> _]. done.
  - simpl. by rewrite lookup_fmap.
Qed.

Lemma awake_father_ok c e k i : HE c e k -> i <> 0 -> wp (__awake_father i) (fun _ k' => HE c e k') k.
Proof.
  intros HH Hi. unfold __awake_father. ksteps. destruct (process_table k !! i) as [ca|] eqn:Ec; ksteps.
  apply find_proc_spec. intros [w|] Hf; [|by kstep]. destruct Hf as (p1 & Hw & Hp1 & Ef%Z.eqb_eq). ksteps.
  simpl in H2, H3. rewrite Hp1 in H2. injection H2 as <-. rewrite lookup_insert_eq in H3. injection H3 as <-.
  assert (queued w (queues k)) as Hqd by done.
  assert (pid p1 <> i) as Hne.
  { pose proof (g_core _ _ _ (proj1 HH)) as HC. destruct (c_table _ _ HC i ca Ec) as (_ & q & Hq & Eq).
    rewrite H0 in Hq. injection Hq as <-. destruct (c_local _ _ HC ca p H0) as [_ Hfa]. destruct Hfa; lia. }
  match goal with |- HE c e ?k' => replace k' with
    (enqueued (set_queues (remove w <$> queues k) k) w (set_state ACTIVABLE (set_waited_pid i p1)) QAct l0) end.
  - eapply (wake_state c e k w p1 _ QWait); try done; [by exists l| |simpl in H4; by rewrite lookup_fmap in H4].
    split_and!; [done..|]. intros [Hk Hl]. split; [done|]. intros H0'. destruct (Hl H0') as (? & _). simpl. auto.
  - unfold enqueued, set_procs, set_queues. simpl. by rewrite insert_insert_eq.
Qed.

(** The idle process is activable or elected. *)
Lemma idle_state e k a p : G ∅ e k -> process_table k !! 0 = Some a -> procs k !! a = Some p ->
  state p = ACTIVABLE \/ state p = ELECTED.
Proof.
  intros [HC _] Ht Hp. destruct (c_idle _ _ HC) as (b & q & Hb & Hq & [?|?]); [set_solver|]. by simplify_eq.
Qed.

Lemma orphan_blocks c e k a p : HE c e k -> procs k !! a = Some p -> same_blocks p (set_father_pid (-1) p).
Proof.
  intros (HG & _) Hp. pose proof (proj1 (c_pids _ _ (g_core _ _ _ HG) a p Hp)).
  split_and!; [done..|]. intros [Hk Hl]. split; [done|]. intros H0. destruct (Hl H0) as (_ & ?). split; simpl; [lia|done].
Qed.

Lemma orphan_child_ok c e k ch : HE c e k -> wp (orphan_child ch) (fun _ k' => HE c e k') k.
Proof.
  intros HH. unfold orphan_child. ksteps. rename H into Ht, H0 into Hp, H1 into Hp1.
  simpl in Hp1. rewrite lookup_insert_eq in Hp1. injection Hp1 as <-.
  pose proof (he_upd c e k a p (set_father_pid (-1) p) HH Hp (orphan_blocks c e k a p HH Hp) ltac:(done)) as HH1.
  case_bool_decide as Es; [|by kstep]. simpl in Es. apply (finish_ok c e _ _ a HH1).
  - done.
  - intros E. rewrite E in Ht. destruct (idle_state e k a p (proj1 HH) Ht Hp); congruence.
  - intros ->. destruct HH as (HG & _). assert (state p = ELECTED); [|congruence]. apply (proj2 HG a p Hp); [set_solver|done].
Qed.

Lemma orphan_children_ok c e k l : HE c e k -> wp (for_each l orphan_child) (fun _ k' => HE c e k') k.
Proof.
  intros HH. apply (wp_for_each _ _ (fun _ => HE c e)); [done| |done]. intros. by apply orphan_child_ok.
Qed.

(** The end of a process: [a] is out of its queue, and elected nobody or the
    current process. *)
Lemma process_end_ok e k i a (k0 : Cont) : G ({[a]} ∪ ∅) e k -> process_table k !! i = Some a -> i <> 0 -> e <> Some a ->
  match e with Some b => process_table k !! current_pid k = Some b /\ i <> current_pid k | None => i = current_pid k end ->
  cont_ok k0 (current_pid k) ->
  wp (__process_end i k0) (fun r k' => match e with Some _ => r = None /\ Inv k' | None => exists ctl, r = Some ctl /\ Sched_post ctl k' end) k.
Proof.
  intros HG Ht Hi He Hcur Hk. unfold __process_end. do 4 kstep. rewrite Ht in H. injection H as <-. rename H0 into Hp.
  destruct (c_table _ _ (g_core _ _ _ HG) i a Ht) as (_ & p' & Hp' & Ep). rewrite Hp in Hp'. injection Hp' as <-.
  kstep. apply (wp_mono _ (fun _ k' => HE (current_pid k) e k')).
  - destruct (negb (father_pid p =? -1)).
    + do 2 kstep. rewrite Hp in H. injection H as <-. apply awake_father_ok; [|done]. split_and!; [|done|by destruct e; [apply Hcur|]].
      rewrite <- (settled a). apply (g_settle _ _ _ a (set_state ZOMBIE p)).
      * eapply g_upd; [done..|]. left. set_solver.
      * simpl. by rewrite lookup_insert_eq.
      * unfold placed, tabled. simpl. by rewrite Ep.
      * simpl. lia.
      * simpl. split; [done|]. by intros ->.
    + unfold __finish_fatherless. ksteps. rewrite Ht in H. injection H as <-. rewrite Hp in H0. injection H0 as <-.
      split_and!; [exact (finish_state e k a p i l HG Ht Hp Hi He H1)|done|].
      destruct e as [b|]; [|done]. simpl. rewrite lookup_delete_ne; apply Hcur.
  - intros [] k1 HH. do 2 kstep. kstep. eapply wp_mono; [by apply orphan_children_ok|]. intros [] k2 HH2. do 2 kstep.
    pose proof (proj1 (proj2 HH2)) as Ec. rewrite Ec. destruct e as [b|].
    + destruct Hcur as [_ Hne]. destruct (Z.eqb_spec i (current_pid k)); [done|]. kstep. split; [done|].
      apply he_inv. exists b. by rewrite Ec.
    + destruct (Z.eqb_spec i (current_pid k)); [|done]. kstep. eapply wp_mono; [apply scheduler_ok; [by apply (he_sched (current_pid k))|by rewrite Ec]|].
      intros r k3 HS. kstep. by exists r.
Qed.

Lemma exit_ok k v : Inv k -> current_pid k <> 0 -> wp (exit v) Sched_post k.
Proof.
  intros (a & HG & Ht)%g_inv Hc. unfold exit. do 2 kstep. rewrite Ht in H. injection H as <-.
  destruct (current_exempt k a HG Ht) as (p & Hp & Epid & Es & Htab & HG1). do 5 kstep. rewrite Hp in H. injection H as <-.
  eapply wp_mono; [apply (process_end_ok None _ (current_pid k) a CExit)|].
  - eapply g_upd; [done..|]. left. set_solver.
  - done.
  - done.
  - done.
  - done.
  - done.
  - intros ? k1 (r & -> & HS). by kstep.
Qed.

Lemma kill_ok k i : Inv k -> wp (kill i) Inv_post k.
Proof.
  intros HI. pose proof HI as (b & HG & Hcur)%g_inv. unfold kill. do 2 kstep.
  destruct (_ || (i =? 0)) eqn:Ev; [by kstep|]. apply orb_false_iff in Ev as [_ Hi%Z.eqb_neq].
  do 4 kstep. rename H into Ht, H0 into Hp. case_bool_decide as Ez; [by kstep|]. do 3 kstep.
  apply (wp_mono _ (fun _ k' => G ({[a]} ∪ ∅) (Some b) k' /\ process_table k' = process_table k /\ current_pid k' = current_pid k
     /\ procs k' = procs k)).
  - simpl. destruct (negb _) eqn:Ef.
    + do 2 kstep. assert (G ({[a]} ∪ ∅) (Some b) (set_queues (remove a <$> queues k) k)) as HG1 by (by apply g_del).
      destruct (bool_decide (state p = IN_SEM)); ksteps; (split; [done || by eapply g_put_sem|done]).
    + kstep. split_and!; [|done..]. apply g_exempt; [done|]. intros h Hh. apply negb_false_iff, negb_true_iff, bool_decide_eq_false in Ef.
      apply Ef, queued_in_queue. by exists h.
  - intros [] k1 (HG1 & Et & Ec & Ep). do 3 kstep. rewrite Ep in H. rewrite Hp in H. injection H as <-.
    set (k2 := set_procs _ _).
    assert (G ({[a]} ∪ ∅) (Some b) k2) as HG2. { eapply g_upd; [done|by rewrite Ep|done|]. left. set_solver. }
    destruct (decide (a = b)) as [->|Hab].
    + eapply wp_mono; [apply (process_end_ok None k2 i b (CReturn 0)); try done|].
      * apply (g_none _ _ b); [done|set_solver].
      * simpl. by rewrite Et.
      * simpl. rewrite Ec. destruct (c_table _ _ (g_core _ _ _ HG) _ _ Ht) as (_ & q1 & Hq1 & E1).
        destruct (c_table _ _ (g_core _ _ _ HG) _ _ Hcur) as (_ & q2 & Hq2 & E2). congruence.
      * intros ? k3 (r & -> & HS & Hr). kstep. split; [by apply scheduled_inv|done].
    + eapply wp_mono; [apply (process_end_ok (Some b) k2 i a (CReturn 0)); try done|].
      * simpl. by rewrite Et.
      * congruence.
      * simpl. rewrite Ec, Et. split; [done|]. intros ->. congruence.
      * intros r k3 [-> HS]. by kstep.
Qed.

Lemma he_put_vm c e k m : HE c e k -> wp (lift_mmu m) (fun _ : unit => HE c e) k.
Proof. intros HH. kstep. by apply he_vm. Qed.

Lemma remove_from_children_ok c e k i f : HE c e k -> wp (__remove_from_children i f) (fun _ => HE c e) k.
Proof.
  intros HH. unfold __remove_from_children. destruct (f =? -1); [by kstep|]. ksteps.
  eapply he_upd; [done..| |]; by destruct (list_find _ _) as [[]|].
Qed.

(** The idle process is queued unless it is elected: it is not finished. *)
Lemma finish_any_ok c e k i a : HE c e k -> process_table k !! i = Some a -> e <> Some a ->
  wp (__finish_fatherless i) (fun _ => HE c e) k.
Proof.
  intros HH Ht He. destruct (decide (i = 0)) as [->|]; [|by eapply finish_ok].
  unfold __finish_fatherless. do 7 kstep. destruct H2. simpl. apply queued_in_queue. exists QAct.
  rewrite Ht in H. injection H as <-. destruct HH as (HG & _). pose proof (g_core _ _ _ HG) as HC.
  destruct (idle_state e k a p HG Ht H0) as [Hs|Hs].
  - assert (a ∉ (∅ : gset Z)) as Hn by set_solver. pose proof (c_placed _ _ HC a p H0 Hn) as Hpl. unfold placed in Hpl. by rewrite Hs in Hpl.
  - destruct He. apply (proj2 HG a p H0); [set_solver|done].
Qed.

Lemma finish_zombie_ok c e k i rp : HE c e k -> (forall a, process_table k !! i = Some a -> e <> Some a) ->
  wp (__finish_zombie i rp) (fun _ => HE c e) k.
Proof.
  intros HH He. unfold __finish_zombie. kstep.
  apply (wp_mono _ (fun _ k' => HE c e k' /\ process_table k' = process_table k)).
  - destruct (negb (rp =? 0)); [|by kstep]. destruct (_ <? _); [kstep|]. ksteps. split; [by apply he_vm|done].
  - intros [] k1 (HH1 & Et). do 3 kstep.
    apply (wp_mono _ (fun _ k' => HE c e k' /\ process_table k' = process_table k)).
    + apply wp_and; [by apply remove_from_children_ok|]. unfold __remove_from_children. destruct (_ =? -1); ksteps; done.
    + intros [] k2 (HH2 & Et2). change (wp (__finish_fatherless i) (fun _ => HE c e) k2).
      destruct (process_table k !! i) as [a|] eqn:Ea.
      * apply (finish_any_ok c e k2 i a HH2); [congruence|by apply He].
      * unfold __finish_fatherless. do 2 kstep. congruence.
Qed.

Lemma find_zombie_spec l Q k :
  (forall o, match o with Some i => exists a p, process_table k !! i = Some a /\ procs k !! a = Some p /\ state p = ZOMBIE
                        | None => True end -> Q o k) -> wp (find_zombie l) Q k.
Proof.
  intros HQ. induction l as [|c l IH]; simpl; [by kstep; apply HQ|]. ksteps. case_bool_decide; [|done].
  kstep. apply HQ. eauto.
Qed.

Lemma not_elected c e k a p : HE c e k -> procs k !! a = Some p -> state p <> ELECTED -> e <> Some a.
Proof. intros (HG & _) Hp Hs ->. apply Hs. apply (proj2 HG a p Hp); [set_solver|done]. Qed.

Lemma wait_for_child_ok k c : Inv k -> current_pid k <> 0 -> cont_ok c (current_pid k) ->
  wp (wait_for_child c) Sched_post k.
Proof.
  intros (a & HG & Ht)%g_inv Hc Hk. unfold wait_for_child. do 2 kstep. rewrite Ht in H. injection H as <-.
  destruct (current_exempt k a HG Ht) as (p & Hp & Epid & Es & Htab & HG1). do 4 kstep. cbv beta.
  rewrite Hp in H. injection H as <-. apply (leave_ok k a p (set_state WAITING_PID p) QWait); try done. lia.
Qed.

Lemma waitpid_ok k i rp : Inv k -> current_pid k <> 0 -> wp (waitpid i rp) Inv_post k.
Proof.
  intros HI Hc. pose proof HI as (b & HH)%he_inv. unfold waitpid.
  destruct (_ && _); [by kstep|]. destruct (_ <=? i); [by kstep|]. destruct (i <? 0).
  - ksteps. destruct (children p); [by kstep|]. kstep. apply find_zombie_spec. intros [z|] Hz.
    + destruct Hz as (za & zp & Hzt & Hzp & Hzs). kstep. eapply wp_mono.
      * apply (finish_zombie_ok _ _ k z rp HH). intros a' Ha'. rewrite Hzt in Ha'. injection Ha' as <-.
        eapply not_elected; [done..|]. by rewrite Hzs.
      * intros [] k1 HH1. kstep. split; [|done]. apply he_inv. exists b. by rewrite (proj1 (proj2 HH1)).
    + eapply wp_mono; [by apply wait_for_child_ok|]. by apply sched_inv_post.
  - ksteps. destruct (process_table k !! i) as [a|] eqn:Ea; [|by kstep]. do 4 kstep.
    destruct (negb (father_pid p =? current_pid k)) eqn:Ef; [by kstep|]. apply negb_false_iff, Z.eqb_eq in Ef.
    case_bool_decide as Ez.
    + kstep. eapply wp_mono.
      * apply (finish_zombie_ok _ _ k i rp HH). intros a' Ha'. rewrite Ea in Ha'. injection Ha' as <-.
        eapply not_elected; [done..|]. by rewrite Ez.
      * intros [] k1 HH1. kstep. split; [|done]. apply he_inv. exists b. by rewrite (proj1 (proj2 HH1)).
    + eapply wp_mono; [apply wait_for_child_ok; try done|apply sched_inv_post].
      simpl. rewrite <- Ef. pose proof (g_core _ _ _ (proj1 HH)) as HC.
      destruct (c_table _ _ HC i a Ea) as (_ & q & Hq & Eq). rewrite H in Hq. injection Hq as <-.
      destruct (decide (i = 0)) as [->|]; [lia|]. destruct (c_local _ _ HC a p H) as [_ Hl]. split; [destruct Hl; lia|lia].
Qed.

Lemma table_inj e k i j a b : G ∅ e k -> process_table k !! i = Some a -> process_table k !! j = Some b -> i <> j -> a <> b.
Proof.
  intros HG Hi Hj Hne ->. pose proof (g_core _ _ _ HG) as HC. destruct (c_table _ _ HC _ _ Hi) as (_ & p & Hp & E1).
  destruct (c_table _ _ HC _ _ Hj) as (_ & q & Hq & E2). congruence.
Qed.

Lemma waitpid_resume_ok k o rp : Inv k -> cont_ok (CWaitpid o rp) (current_pid k) ->
  wp (waitpid_resume o rp) (fun _ => Inv) k.
Proof.
  intros (b & HH)%he_inv Hk. pose proof HH as (HG & _ & Hb). pose proof (g_core _ _ _ HG) as HC.
  unfold waitpid_resume. kstep.
  apply (wp_mono _ (fun i k' => k' = k /\ i <> current_pid k)).
  - destruct o as [i|]; [by kstep; destruct Hk|]. ksteps. split; [done|].
    destruct (c_table _ _ HC _ _ H) as (_ & q & Hq & Eq). rewrite H0 in Hq. injection Hq as <-.
    destruct (c_local _ _ HC a p H0) as [_ Hl]. simpl in Hk. destruct Hl; congruence.
  - intros i ? [-> Hi]. kstep. eapply wp_mono.
    + apply (finish_zombie_ok _ _ k i rp HH). intros a Ha. intros [= ->]. by eapply (table_inj _ k i (current_pid k)).
    + intros [] k1 HH1. kstep. apply he_inv. exists b. by rewrite (proj1 (proj2 HH1)).
Qed.

Lemma has_pid_spec i h Q k :
  (forall v, (v = true -> exists b q, in_queue k h b /\ procs k !! b = Some q /\ pid q = i) -> Q v k) -> wp (has_pid i h) Q k.
Proof.
  intros HQ. unfold has_pid. ksteps. apply find_proc_spec. intros [b|] Hf; kstep; apply HQ; intros Hv.
  - destruct Hf as (q & ? & ? & ?%Z.eqb_eq). exists b, q. split_and!; try done. by exists l.
  - by apply bool_decide_eq_true in Hv as [? ?].
Qed.

Lemma search_queues_spec n j table f i Q k :
  (forall o, (forall h, o = Some h -> (exists x, h = f x) /\ exists b q, in_queue k h b /\ procs k !! b = Some q /\ pid q = i) -> Q o k) ->
  wp (search_queues n j table f i) Q k.
Proof.
  revert j. induction n as [|n IH]; intros j HQ; simpl; [kstep; by apply HQ|].
  destruct (table !! j); [|by apply IH]. kstep. apply has_pid_spec. intros [] Hv; [|by apply IH].
  kstep. apply HQ. intros h [= <-]. eauto.
Qed.

(** __get_queue finds the queue a process is in. *)
Lemma get_queue_spec e k a p h Q : G ∅ e k -> procs k !! a = Some p -> in_queue k h a ->
  (forall o, o = Some h \/ o = None -> Q o k) -> wp (__get_queue a) Q k.
Proof.
  intros [HC _] Hp Hq HQ. unfold __get_queue. do 2 kstep. rewrite Hp in H. injection H as <-.
  assert (forall h' b q, in_queue k h' b -> procs k !! b = Some q -> pid q = pid p -> h' <> QFin -> state p <> FINISHED -> h' = h) as Hone.
  { intros h' b q Hb Hbq E Hf Hs. destruct Hq as (l & Hl & Hal), Hb as (l' & Hl' & Hbl).
    destruct (c_queue _ _ HC h l a Hl Hal) as (_ & p1 & Hp1 & B1). destruct (c_queue _ _ HC h' l' b Hl' Hbl) as (_ & p2 & Hp2 & B2).
    rewrite Hp in Hp1. injection Hp1 as <-. rewrite Hbq in Hp2. injection Hp2 as <-.
    assert (tabled k a p) as T1 by (destruct h; simpl in B1; naive_solver).
    assert (tabled k b q) as T2 by (destruct h'; simpl in B2; naive_solver).
    unfold tabled in *. rewrite E in T2. assert (a = b) as -> by congruence. apply (c_once _ _ HC h' h b); eexists; eauto. }
  assert (belongs k h a p) as Hbel.
  { destruct Hq as (l & Hl & Hal). destruct (c_queue _ _ HC h l a Hl Hal) as (_ & p1 & Hp1 & B1). congruence. }
  destruct (state p) eqn:Es; try (kstep; apply HQ; by right).
  - kstep. apply HQ. left. f_equal. destruct h; simpl in Hbel; naive_solver congruence.
  - kstep. apply HQ. left. f_equal. destruct h; simpl in Hbel; naive_solver congruence.
  - do 2 kstep. apply search_queues_spec. intros [h'|] Ho; apply HQ; [left|by right].
    destruct (Ho h' eq_refl) as ((x & ->) & b & q & ? & ? & ?). f_equal. by eapply Hone.
  - do 2 kstep. apply search_queues_spec. intros [h'|] Ho; apply HQ; [left|by right].
    destruct (Ho h' eq_refl) as ((x & ->) & b & q & ? & ? & ?). f_equal. by eapply Hone.
Qed.

Lemma chprio_ok k i n : Inv k -> wp (chprio i n) Inv_post k.
Proof.
  intros HI. pose proof HI as (b & HH)%he_inv. pose proof HH as (HG & _ & Hb). pose proof (g_core _ _ _ HG) as HC. unfold chprio. do 2 kstep.
  destruct (_ || (i =? 0)) eqn:Ev; [by kstep|]. apply orb_false_iff in Ev as [_ Hi%Z.eqb_neq].
  do 4 kstep. rename H into Ht, H0 into Hp. destruct (bool_decide (state p = ZOMBIE) || _) eqn:Ez; [by kstep|].
  apply orb_false_iff in Ez as [Ez1%bool_decide_eq_false Ez2%bool_decide_eq_false].
  do 3 kstep. destruct (c_table _ _ HC _ _ Ht) as (_ & q & Hq & Epid). rewrite Hp in Hq. injection Hq as <-.
  apply (wp_mono _ (fun _ => HE (current_pid k) (Some b))).
  - destruct (negb _) eqn:Ef.
    + apply negb_true_iff, negb_false_iff, bool_decide_eq_true in Ef. apply queued_in_queue in Ef as [h Hh].
      kstep. apply (get_queue_spec _ _ a p h _ HG Hp Hh). intros o Ho. destruct Ho as [->| ->]; [|kstep]. ksteps.
      simpl in H0. rewrite Hp in H0. injection H0 as <-.
      destruct Hh as (lh & Hlh & Hah). destruct (c_queue _ _ HC h lh a Hlh Hah) as (_ & p1 & Hp1 & Hbel).
      rewrite Hp in Hp1. injection Hp1 as <-. split_and!; [|done..].
      refine (enqueue_ok ∅ (Some b) (set_queues (remove a <$> queues k) k) a p (set_priority n p) h l _ _ Hp _ _ _ _ _).
      * by apply g_del.
      * set_solver.
      * done.
      * by destruct h.
      * lia.
      * destruct h; simpl in Hbel; (eapply not_elected; [done..|naive_solver congruence]).
      * done.
    + kstep. rewrite Hp in H. injection H as <-. split_and!; [|done..]. rewrite <- (settled a).
      apply negb_false_iff, negb_true_iff, bool_decide_eq_false in Ef.
      assert (a ∉ (∅ : gset Z)) as Hn by set_solver.
      apply (g_settle _ _ _ a (set_priority n p)); simpl.
      * eapply g_upd; [|done|done|left; set_solver]. apply g_exempt; [done|]. intros h Hh. apply Ef, queued_in_queue. by exists h.
      * by rewrite lookup_insert_eq.
      * exact (c_placed _ _ HC a p Hp Hn).
      * lia.
      * by apply (proj2 HG a p Hp).
  - intros [] k1 HH1. eapply wp_mono; [apply yield_ok|apply sched_inv_post].
    + apply he_inv. exists b. by rewrite (proj1 (proj2 HH1)).
    + done.
Qed.

(** ** start *)

Lemma first_free_spec n i t : first_free n i t = -1 \/
  (t !! first_free n i t = None /\ i <= first_free n i t < i + Z.of_nat n).
Proof.
  revert i. induction n as [|n IH]; intros i; simpl; [by left|]. destruct (t !! i) eqn:E; [|right; split; [done|lia]].
  destruct (IH (i + 1)) as [?|[? ?]]; [by left|right]. split; [done|lia].
Qed.

Lemma he_alloc c e k z b : HE c e k -> heap k !! z = None -> 0 < z < MEMORY_START ->
  HE c e (set_heap (<[z := b]> (heap k)) k).
Proof. intros ([HC HEl] & Hc & Hcur) Hz Hr. split_and!; [|done..]. split; [by apply core_alloc|done]. Qed.

(** The new process is in no queue, its father elected. *)
Lemma add_child_ok c X e k f i : G X e k -> current_pid k = c ->
  wp (add_child f i) (fun _ k' => G X e k' /\ current_pid k' = c /\ process_table k' = process_table k
    /\ (forall b q, procs k !! b = Some q -> exists l, procs k' !! b = Some (set_children l q))) k.
Proof.
  intros HG Hc. unfold add_child. kstep. apply wp_mem_alloc; [by apply wp_fail|]. intros z Hz Hf Hr.
  destruct (z =? 0); [kstep|]. ksteps. split_and!; try done.
  - eapply g_upd; [|done|done|by right]. destruct HG as [HC HEl]. split; [by apply core_alloc|done].
  - intros b q Hb. simpl. rewrite lookup_insert. case_decide as E; [subst; simpl in *; simplify_eq; eauto|].
    exists (children q). rewrite Hb. by destruct q.
Qed.

Lemma g_settle_elected X k a p : G X None k -> procs k !! a = Some p -> state p = ELECTED ->
  process_table k !! current_pid k = Some a -> X ∖ {[a]} = ∅ -> Inv k.
Proof.
  intros [HC HEl] Hp Hs Ht EX. destruct (c_table _ _ HC _ _ Ht) as (_ & q & Hq & E). rewrite Hp in Hq. injection Hq as <-.
  split; [|by exists a, p]. rewrite <- EX. eapply core_settle; [done..| |auto].
  unfold placed, tabled. rewrite Hs, E. done.
Qed.

Lemma preempts_ok n Q k : (forall v, Q v k) -> wp (preempts n) Q k.
Proof. intros HQ. unfold preempts. do 2 kstep. destruct (_ <=? _); ksteps; auto. Qed.

(** The current process [b] becomes activable and the processor is given to
    [a], which was being moved. *)
Lemma switch_to_ok k b a p pb l c : G ({[a]} ∪ ∅) (Some b) k -> process_table k !! current_pid k = Some b -> a <> b ->
  procs k !! a = Some p -> tabled k a p -> procs k !! b = Some pb -> queues k !! QAct = Some l ->
  cont_ok c (current_pid k) ->
  let k1 := enqueued k b (set_state ACTIVABLE pb) QAct l in
  wp (virtual_ctx_sw b a c) Inv_post (set_current_pid (pid p) (set_procs (<[a := set_state ELECTED p]> (procs k1)) k1)).
Proof.
  intros HG Hb Hab Hp Ht Hpb Hl Hk k1. pose proof (g_core _ _ _ HG) as HC.
  destruct (c_table _ _ HC _ _ Hb) as (_ & q & Hq & Eb). rewrite Hpb in Hq. injection Hq as <-.
  assert (state pb = ELECTED) as Hsb. { apply (proj2 HG b pb Hpb); [set_solver|done]. }
  assert (G ({[a]} ∪ ∅) None k1) as HG1.
  { apply (enqueue_ok _ None k b pb); try done; [|set_solver|].
    - apply (g_none _ _ b); [|set_solver]. apply g_exempt; [done|]. intros h. eapply g_not_queued; eauto.
    - split; [done|]. unfold tabled. simpl. by rewrite Eb. }
  set (k2 := set_procs _ _).
  assert (G ({[a]} ∪ ∅) None k2) as HG2.
  { eapply g_upd; [exact HG1|simpl; by rewrite lookup_insert_ne|done|left; set_solver]. }
  assert (Core ({[a]} ∪ ∅) (set_current_pid (pid p) k2)) as HC3.
  { apply core_set_current; [apply HG2|]. intros x q Hx Hn Hs. by apply (proj2 HG2 x q Hx Hn) in Hs. }
  eapply wp_mono; [apply ctx_sw_core; [exact HC3|]|].
  { intros q. simpl. rewrite lookup_insert_ne, lookup_insert_eq by done. intros [= <-]. simpl. by rewrite Eb. }
  intros r k4 (HC4 & (pn & Hpn & ->) & Et & Ec & Eq & Hpr & Hst).
  destruct (Hpr a (set_state ELECTED p)) as [r' Hr]; [simpl; by rewrite lookup_insert_eq|].
  split; [|exists a, pn; by rewrite Et, Ec].
  apply (g_settle_elected ({[a]} ∪ ∅) k4 a (set_registers r' (set_state ELECTED p))); [|done|done|by rewrite Et, Ec|apply settled].
  split; [done|]. intros x q Hx Hn. split; [|done]. intros Hs. exfalso.
  specialize (Hst x). rewrite Hx in Hst. destruct (procs (set_current_pid (pid p) k2) !! x) as [q0|] eqn:Eq0; [|done].
  injection Hst as Hst. rewrite Hst in Hs. by apply (proj2 HG2 x q0 Eq0 Hn) in Hs.
Qed.

Lemma elect_or_queue_ok k b a p : G ({[a]} ∪ ∅) (Some b) k -> process_table k !! current_pid k = Some b -> a <> b ->
  procs k !! a = Some p -> tabled k a p -> pid p <> 0 -> wp (elect_or_queue a) Inv_post k.
Proof.
  intros HG Hb Hab Hp Ht H0. unfold elect_or_queue. do 2 kstep. rewrite Hp in H. injection H as <-.
  kstep. apply preempts_ok. intros [].
  - do 2 kstep. rewrite Hb in H. injection H as <-. do 8 kstep. simpl in H3.
    rewrite lookup_insert_ne, Hp in H3 by done. injection H3 as <-.
    by apply (switch_to_ok k b a p).
  - ksteps. simpl in H, H3. rewrite Hp in H. injection H as <-. rewrite lookup_insert_eq in H3. injection H3 as <-.
    split; [|done]. apply g_inv. exists b. split; [|done].
    assert (G ∅ (Some b) (enqueued k a (set_state ACTIVABLE p) QAct l)) as HG1.
    { apply (enqueue_ok _ _ k a p); try done. congruence. }
    eapply g_upd; [exact HG1|simpl; by rewrite lookup_insert_eq|done|by right].
Qed.

Lemma get_symbol_ok nm Q k : (forall u, Q u k) -> wp (get_symbol_from_name nm) Q k.
Proof. intros HQ. unfold get_symbol_from_name. destruct (list_find _ _) as [[]|]; [kstep; auto|kstep]. Qed.

Lemma fresh_process X k z : Core X k -> heap k !! z = None -> z < MEMORY_START -> procs k !! z = None.
Proof.
  intros HC Hz Hr. destruct (procs k !! z) as [p|] eqn:E; [|done].
  destruct (c_blocks _ _ HC z p E) as [(H1 & _)|(H1 & _)]; [congruence|lia].
Qed.

(** [start] from the moment the record of the new process is complete. *)
Lemma start_tail k z p : Inv k -> procs k !! z = None -> process_table k !! pid p = None -> 0 <= pid p < NBPROC ->
  owns_blocks k z p -> local_ok p ->
  wp (do! put_proc z p in
      do! (if negb (current_pid k =? -1) then add_child (current_pid k) (pid p) else ret tt) in
      elect_or_queue z) Inv_post (set_process_table (<[pid p := z]> (process_table k)) k).
Proof.
  intros (b & HG & Hb)%g_inv Hz Ht Hr Ho Hl. pose proof (g_core _ _ _ HG) as HC. do 2 kstep.
  set (k1 := set_procs _ _).
  assert (pid p <> 0) as H0.
  { intros E. destruct (c_idle _ _ HC) as (x & q & Hx & _). rewrite E in Ht. congruence. }
  assert (z <> b) as Hzb.
  { intros ->. destruct (c_table _ _ HC _ _ Hb) as (_ & q & Hq & _). congruence. }
  assert (process_table k1 !! current_pid k = Some b) as Hb1.
  { simpl. rewrite lookup_insert_ne; [done|]. intros E. rewrite E in Ht. congruence. }
  assert (G ({[z]} ∪ ∅) (Some b) k1) as HG1.
  { split; [exact (core_new ∅ k z p HC Hz Ht Hr Ho Hl)|]. intros x q Hx Hn. simpl in Hx.
    rewrite lookup_insert_ne in Hx by set_solver. apply (proj2 HG x q Hx). set_solver. }
  kstep. apply (wp_mono _ (fun _ k' => G ({[z]} ∪ ∅) (Some b) k' /\ current_pid k' = current_pid k /\ process_table k' = process_table k1
    /\ (forall b q, procs k1 !! b = Some q -> exists l, procs k' !! b = Some (set_children l q)))).
  - destruct (negb _); [by apply add_child_ok|]. kstep. split_and!; try done. intros x q Hx. exists (children q). rewrite Hx. by destruct q.
  - intros [] k2 (HG2 & Ec & Et & Hpr). destruct (Hpr z p) as [lc Hzc]; [simpl; by rewrite lookup_insert_eq|].
    apply (elect_or_queue_ok k2 b z (set_children lc p)); try done.
    + by rewrite Et, Ec.
    + unfold tabled. rewrite Et. simpl. by rewrite lookup_insert_eq.
Qed.

(** [start] up to the record of the new process, from a state where the
    processes of [X] are being moved. *)
Lemma start_body X k nm ss pr arg Q : Core X k -> (process_table k !! current_pid k = None -> current_pid k = -1) ->
  Q (Return (-1)) k -> (forall v, Q (Return (-1)) (set_vm v (set_heap (heap k) k))) ->
  (forall v hp z p, let k1 := set_vm v (set_heap hp k) in Core X k1 -> procs k !! z = None -> process_table k !! pid p = None ->
     0 <= pid p < NBPROC -> owns_blocks k1 z p -> local_ok p ->
     wp (do! put_proc z p in
         do! (if negb (current_pid k =? -1) then add_child (current_pid k) (pid p) else ret tt) in
         elect_or_queue z) Q (set_process_table (<[pid p := z]> (process_table k)) k1)) ->
  wp (start nm ss pr arg) Q k.
Proof.
  intros HC Hcur HQ1 HQ2 HQ3. unfold start. destruct (_ <? ss); [by kstep|].
  kstep. apply wp_mem_alloc; [kstep; apply get_symbol_ok; intros u; by apply wp_fail|]. intros z Hz Hf Hr.
  kstep. apply get_symbol_ok. intros u. destruct (Z.eqb_spec z 0); [done|]. do 2 kstep. destruct x as [npg us]. do 2 kstep.
  pose proof (first_free_spec (Z.to_nat NBPROC) 0 (process_table k)) as Hff.
  cbn [set_vm set_heap process_table]. set (i := first_free (Z.to_nat NBPROC) 0 (process_table k)) in *. pose proof (fresh_process X k z HC Hf ltac:(lia)) as Hfz.
  destruct ((i =? -1) || _) eqn:Ei.
  - kstep. apply wp_mem_free; [unfold sizeof_Process; lia|]. intros o Ho. kstep.
    simpl. rewrite delete_insert_id by done. apply HQ2.
  - apply orb_false_iff in Ei as [Ei%Z.eqb_neq _]. destruct Hff as [?|[Hfree Hri]]; [done|].
    do 3 kstep. apply wp_mem_alloc; [by apply wp_fail|]. intros nz Hnz Hnf Hnr. destruct (Z.eqb_spec nz 0); [done|].
    simpl in Hnf. rewrite lookup_insert_None in Hnf. destruct Hnf as [Hnf Hzn].
    assert (i <> current_pid k) as Hic.
    { intros E. rewrite E in Hfree. specialize (Hcur Hfree). lia. }
    assert (i <> 0) as Hi0.
    { intros E. destruct (c_idle _ _ HC) as (x & q & Hx & _). rewrite E in Hfree. congruence. }
    assert (0 <= i < NBPROC) as Hir by (unfold NBPROC in *; lia).
    pose proof (core_alloc X k z (sizeof_Process, OProcess) HC Hf Hr) as HC1.
    assert (Core X (set_heap (<[nz := (Z.of_nat (length nm) + 1, OName z)]> (<[z := (sizeof_Process, OProcess)]> (heap k))) k)) as HC2.
    { apply (core_alloc X _ nz (Z.of_nat (length nm) + 1, OName z) HC1); [|done]. simpl. by rewrite lookup_insert_ne. }
    kstep. apply wp_mem_alloc.
    + do 8 kstep. match goal with |- wp _ _ ?s => apply (HQ3 (vm s) (heap s)) end; [|done|done|done|..]; simpl.
      * by apply core_set_vm.
      * split_and!; simpl; [by rewrite lookup_insert_ne, lookup_insert_eq by done|by rewrite lookup_insert_eq|done|done].
      * split; [done|]. intros _. simpl. auto.
    + intros ks Hks Hkf Hkr. simpl in Hkf. rewrite !lookup_insert_None in Hkf. destruct Hkf as [[Hkf ?] ?].
      do 8 kstep. match goal with |- wp _ _ ?s => apply (HQ3 (vm s) (heap s)) end; [|done|done|done|..]; simpl.
      * apply core_set_vm. apply (core_alloc X _ ks (8192, OStack z) HC2); [|done]. simpl. by rewrite !lookup_insert_ne.
      * split_and!; simpl; [by rewrite !lookup_insert_ne, lookup_insert_eq by done|by rewrite lookup_insert_ne, lookup_insert_eq by done| |done].
        intros _. by rewrite lookup_insert_eq.
      * split; [done|]. intros _. simpl. auto.
Qed.

Lemma start_ok k nm ss pr arg : Inv k -> wp (start nm ss pr arg) Inv_post k.
Proof.
  intros HI. pose proof HI as [HC (b & q & Hb & _)]. apply (start_body ∅); try done.
  - by rewrite Hb.
  - intros v. split; [|done]. destruct HI as [_ Hcur]. split; [by destruct HC|done].
  - intros v hp z p k1 HC1 Hz Ht Hr Ho Hl. apply (start_tail k1 z); try done. destruct HI as [_ Hcur]. by split.
Qed.

(** ** Message queues *)

Lemma he_msgq c e k a q q' : HE c e k -> msgqs k !! a = Some q -> fid q' = fid q ->
  buffer_addr q' = buffer_addr q -> capacity q' = capacity q -> HE c e (set_msgqs (<[a := q']> (msgqs k)) k).
Proof. intros (HG & Hc & Hb) Hq E1 E2 E3. split_and!; [|done..]. by eapply g_put_msgq. Qed.

Lemma he_sem c e k a s s' : HE c e k -> sems k !! a = Some s -> sid s' = sid s -> was_deleted s' = was_deleted s ->
  HE c e (set_sems (<[a := s']> (sems k)) k).
Proof. intros (HG & Hc & Hb) Hs E1 E2. split_and!; [|done..]. by eapply g_put_sem. Qed.

Lemma he_to_inv c b k : HE c (Some b) k -> Inv k.
Proof. intros HH. apply he_inv. exists b. by rewrite (proj1 (proj2 HH)). Qed.

(** Waking the first process of a queue. *)
Lemma wake_first c e k h l w p f l' : HE c e k -> queues k !! h = Some l -> last l = Some w -> h <> QAct -> h <> QFin ->
  procs k !! w = Some p -> same_blocks p (f p) -> state (f p) = ACTIVABLE ->
  queues (set_queues (<[h := removelast l]> (queues k)) k) !! QAct = Some l' ->
  HE c e (enqueued (set_queues (<[h := removelast l]> (queues k)) k) w (f p) QAct l').
Proof.
  intros HH Hl Hla Hn1 Hn2 Hp HB Hs Hl'. rewrite (out_is_remove ∅ k h l w (g_core _ _ _ (proj1 HH)) Hl Hla) in Hl' |- *.
  eapply (wake_state c e k w p (f p) h); try done.
  - exists l. split; [done|]. by apply last_Some_elem_of.
  - simpl in Hl'. by rewrite lookup_fmap in Hl'.
Qed.

Lemma wake_all_ok fuel c e k h f : HE c e k -> h <> QAct -> h <> QFin ->
  (forall p, same_blocks p (f p)) -> (forall p, state (f p) = ACTIVABLE) ->
  wp (wake_all fuel h f) (fun _ k' => HE c e k' /\ msgqs k' = msgqs k /\ sems k' = sems k
    /\ queue_table k' = queue_table k /\ semaphore_table k' = semaphore_table k) k.
Proof.
  intros HH Hn1 Hn2 HB Hs. revert k HH. induction fuel as [|fuel IH]; intros k HH; simpl; [kstep|].
  do 2 kstep. destruct (bool_decide _); [by kstep|]. kstep. apply wp_queue_out; [intros; by do 2 kstep|].
  intros l' w Hl' Hla. kstep. apply wp_lift_opt. intros ? [= <-]. do 4 kstep.
  eapply wp_mono; [apply IH; eapply (wake_first c e k h l' w p f); eauto|]. intros [] k' (? & ? & ? & ? & ?). split_and!; done.
Qed.

Lemma wake_waiting_ok c e k h f : HE c e k -> h <> QAct -> h <> QFin ->
  (forall p, same_blocks p (f p)) -> (forall p, state (f p) = ACTIVABLE) ->
  wp (wake_waiting h f) (fun _ k' => HE c e k' /\ msgqs k' = msgqs k /\ sems k' = sems k
    /\ queue_table k' = queue_table k /\ semaphore_table k' = semaphore_table k) k.
Proof. intros. unfold wake_waiting. do 2 kstep. by apply wake_all_ok. Qed.

Lemma yield_inv_post k c : Inv k -> cont_ok c (current_pid k) -> wp (yield_cpu c) Inv_post k.
Proof. intros HI Hk. eapply wp_mono; [by apply yield_ok|apply sched_inv_post]. Qed.

Lemma pcreate_ok k n : Inv k -> wp (pcreate n) (fun _ => Inv) k.
Proof.
  intros HI. pose proof HI as [HC Hcur]. unfold pcreate. do 2 kstep.
  pose proof (first_free_spec (Z.to_nat NBQUEUE) 0 (queue_table k)) as Hff. set (i := first_free _ _ _) in *.
  destruct (_ || (QUEUE_MAX_SIZE <? n)) eqn:Ei; [by kstep|].
  apply orb_false_iff in Ei as [[En Ei]%orb_false_iff _]. apply Z.leb_gt in En. apply Z.eqb_neq in Ei.
  destruct Hff as [?|[Hfree _]]; [done|].
  kstep. apply wp_mem_alloc; [by apply wp_fail|]. intros z Hz Hf Hr. destruct (Z.eqb_spec z 0); [done|]. do 2 kstep.
  kstep. apply wp_mem_alloc; [by apply wp_fail|]. intros bz Hbz Hbf Hbr. destruct (Z.eqb_spec bz 0); [done|]. do 3 kstep.
  simpl in Hbf. rewrite lookup_insert_None in Hbf. destruct Hbf as [Hbf Hne].
  kstep. kstep. split; [|done]. apply core_init_head; [|done].
  set (q := mk_msgq i n 0 0 0 bz _).
  pose proof (core_alloc ∅ _ bz (n * 4, OBuffer z) (core_alloc ∅ k z (sizeof_MessageQueue, OMsgq) HC Hf Hr)) as HC2.
  simpl in HC2. rewrite lookup_insert_ne in HC2 by done. specialize (HC2 Hbf Hbr).
  refine (core_new_msgq ∅ _ z q HC2 Hfree _ _).
  - simpl. destruct (msgqs k !! z) as [q0|] eqn:E; [|done]. destruct (c_msgq _ _ HC z q0 E). congruence.
  - split_and!; simpl; [by rewrite lookup_insert_ne, lookup_insert_eq by done|by rewrite lookup_insert_eq|done].
Qed.

Lemma valid_fid_some k i a : (if (i <? 0) || (NBQUEUE - 1 <? i) then None else queue_table k !! i) = Some a ->
  queue_table k !! i = Some a.
Proof. by destruct (_ || _). Qed.

Lemma pdelete_ok k i : Inv k -> wp (pdelete i) Inv_post k.
Proof.
  intros HI. pose proof HI as (b & HH)%he_inv. unfold pdelete. do 2 kstep.
  case_valid a Ev; [|by kstep]. apply valid_fid_some in Ev.
  kstep. eapply wp_mono; [by apply (wake_waiting_ok _ _ _ (QMsg a) skip HH)|].
  intros [] k1 (HH1 & Em & _ & Eq & _). do 4 kstep. simpl in H. rename q into mq, H into Hq.
  pose proof (g_core _ _ _ (proj1 HH1)) as HC1. destruct (c_msgq _ _ HC1 a mq Hq) as (B1 & B2 & B3).
  destruct (c_qtable _ _ HC1 i a) as (q0 & Hq0 & Ef); [by rewrite Eq|]. rewrite Hq in Hq0. injection Hq0 as <-.
  kstep. apply wp_mem_free; [lia|]. intros o1 _. kstep. apply wp_mem_free; [unfold sizeof_MessageQueue; lia|]. intros o2 _.
  do 2 kstep. apply yield_inv_post; [|done]. destruct HH1 as (HG & Hc & Hb). apply (he_to_inv (current_pid k) b).
  split_and!; [|done..]. split; [|apply HG]. pose proof (core_free_msgq ∅ k1 a mq HC1 Hq) as HC2. rewrite Ef in HC2. exact HC2.
Qed.

Lemma psend_ok k i m : Inv k -> current_pid k <> 0 -> wp (psend i m) Inv_post k.
Proof.
  intros HI Hc. pose proof HI as (b & HH)%he_inv. pose proof HH as (HG & _ & Hb). unfold psend. do 2 kstep.
  case_valid a Ev; [|by kstep]. do 4 kstep. simpl in Hb. rewrite Hb in H. injection H as <-.
  rename H0 into Hp. set (k1 := set_procs _ _).
  assert (HE (current_pid k) (Some b) k1) as HH1 by (by eapply he_upd).
  do 4 kstep. destruct (_ && negb _).
  - (* straight to a waiting receiver *)
    do 3 kstep. apply wp_queue_out; [intros; by ksteps|]. intros lq w Hlq Hla.
    set (k2 := set_msgqs _ k1) in *. assert (HE (current_pid k) (Some b) k2) as HH2 by (by eapply he_msgq).
    assert (w ∈ lq) as Hw by (by apply last_Some_elem_of).
    destruct (c_queue _ _ (g_core _ _ _ (proj1 HH2)) (QMsg a) lq w Hlq Hw) as (_ & pw & Hpw & Hst & Htab).
    assert (Some b <> Some w) as Hbw by (eapply not_elected; [exact HH2|exact Hpw|by rewrite Hst]).
    do 2 kstep. simpl in H1. rewrite Hb in H1. injection H1 as <-. do 4 kstep. kstep. apply wp_lift_opt. intros ? [= <-].
    do 6 kstep. simpl in H4, H5. rewrite lookup_insert_ne in H4 by congruence. simpl in Hpw. rewrite Hpw in H4. injection H4 as <-.
    rewrite lookup_insert_eq in H5. injection H5 as <-.
    pose proof (g_out _ _ _ _ _ _ (proj1 HH2) Hlq Hla) as HG2.
    assert (w <> b) as Hwb by congruence.
    exact (switch_to_ok _ b w pw p0 l0 (CReturn 0) HG2 Hb Hwb Hpw Htab H1 H2 I).
  - destruct (_ =? _).
    + do 2 kstep. do 2 kstep. simpl in H1. rewrite lookup_insert_eq in H1. injection H1 as <-.
      destruct (current_exempt k1 b (proj1 HH1) Hb) as (p1 & Hp1 & Epid & Es & Htab & HG1).
      assert (p1 = set_message m p) as -> by (simpl in Hp1; rewrite lookup_insert_eq in Hp1; congruence).
      eapply wp_mono; [apply (leave_ok k1 b _ (set_state IN_MSGQUEUE (set_message m p)) (QMsg a) _ _ HG1 Hp1)|apply sched_inv_post]; try done.
      simpl in *. lia.
    + do 2 kstep. kstep. split; [|done]. eapply he_to_inv. by eapply he_msgq.
Qed.

Lemma store_if_ok k va v : wp (store_if va v) (fun _ k' => exists m, k' = set_vm m k) k.
Proof.
  unfold store_if. destruct (va =? 0); kstep; [|by eexists]. exists (vm k). by destruct k.
Qed.

Lemma preceive_ok k i m : Inv k -> current_pid k <> 0 -> wp (preceive i m) Inv_post k.
Proof.
  intros HI Hc. pose proof HI as (b & HH)%he_inv. pose proof HH as (HG & _ & Hb). unfold preceive. do 2 kstep.
  case_valid a Ev; [|by kstep]. do 2 kstep. destruct (0 <? nb_msg q).
  - kstep. eapply wp_mono; [by apply store_if_ok|]. intros [] ? [v ->]. do 4 kstep.
    set (k1 := set_msgqs _ _). assert (HE (current_pid k) (Some b) k1) as HH1.
    { eapply he_msgq; [by apply he_vm|done..]. }
    destruct (_ && negb _).
    + kstep. apply wp_queue_out; [intros; by ksteps|]. intros lq w Hlq Hla. kstep. apply wp_lift_opt. intros ? [= <-].
      do 8 kstep. simpl in H1, H2. rewrite H1 in H2. injection H2 as <-.
      apply yield_inv_post; [|done]. eapply he_to_inv.
      assert (HE (current_pid k) (Some b) (enqueued (set_queues (<[QMsg a := removelast lq]> (queues k1)) k1) w (set_state ACTIVABLE p) QAct l0)) as HH2
        by (by eapply (wake_first _ _ k1 (QMsg a) lq w p (set_state ACTIVABLE))).
      refine (he_msgq _ _ _ a (advance_tail q) (write_head (advance_tail q) (message p)) HH2 _ _ _ _); try done.
      simpl. by rewrite lookup_insert_eq.
    + do 2 kstep. kstep. split; [|done]. eapply he_to_inv.
      refine (he_msgq _ _ k1 a (advance_tail q) _ HH1 _ _ _ _); try done. simpl. by rewrite lookup_insert_eq.
  - do 2 kstep. simpl in Hb. rewrite Hb in H0. injection H0 as <-. do 4 kstep.
    destruct (current_exempt k b HG Hb) as (p1 & Hp1 & Epid & Es & Htab & HG1). rewrite Hp1 in H0. injection H0 as <-.
    eapply wp_mono; [apply (leave_ok k b p1 (set_state IN_MSGQUEUE p1) (QMsg a) _ _ HG1 Hp1)|apply sched_inv_post]; try done. lia.
Qed.

Lemma unless_skipped_ok k p (rest : K (gmap qid (list Z)) Z) : Inv k -> wp rest (fun _ => Inv) k -> wp (unless_skipped p rest) (fun _ => Inv) k.
Proof.
  intros HI Hr. pose proof HI as (b & HH)%he_inv. unfold unless_skipped. do 2 kstep. destruct (skip_message p0); [|done].
  do 2 kstep. kstep. eapply he_to_inv. by eapply he_upd.
Qed.

Lemma preceive_resume_ok k p qa m : Inv k -> wp (preceive_resume p qa m) (fun _ => Inv) k.
Proof.
  intros HI. pose proof HI as (b & HH)%he_inv. apply unless_skipped_ok; [done|]. do 2 kstep. kstep.
  eapply wp_mono; [by apply store_if_ok|]. intros [] ? [v ->]. do 2 kstep. kstep. eapply he_to_inv.
  eapply he_msgq; [by apply he_vm|done..].
Qed.

Lemma preset_ok k i : Inv k -> wp (preset i) Inv_post k.
Proof.
  intros HI. pose proof HI as (b & HH)%he_inv. unfold preset. do 2 kstep.
  case_valid a Ev; [|by kstep].
  kstep. eapply wp_mono; [by apply (wake_waiting_ok _ _ _ (QMsg a) skip HH)|].
  intros [] k1 (HH1 & _). do 4 kstep. apply yield_inv_post; [|done]. eapply he_to_inv. by eapply he_msgq.
Qed.

Lemma pcount_ok k i v : Inv k -> wp (pcount i v) (fun _ => Inv) k.
Proof.
  intros HI. pose proof HI as (b & HH)%he_inv. unfold pcount. do 2 kstep.
  case_valid a Ev; [|by kstep]. destruct (v =? 0); [by kstep|]. do 2 kstep.
  unfold __nb_waiting_proc. ksteps. eapply he_to_inv. by apply he_vm.
Qed.

(** ** Semaphores *)

Lemma screate_ok k n : Inv k -> wp (screate n) (fun _ => Inv) k.
Proof.
  intros HI. pose proof HI as [HC Hcur]. unfold screate. do 2 kstep.
  pose proof (first_free_spec (Z.to_nat NBSEMAPHORE) 0 (semaphore_table k)) as Hff. set (i := first_free _ _ _) in *.
  destruct ((n <? 0) || _) eqn:Ei; [by kstep|]. apply orb_false_iff in Ei as [_ Ei%Z.eqb_neq].
  destruct Hff as [?|[Hfree _]]; [done|].
  kstep. apply wp_mem_alloc; [by apply wp_fail|]. intros z Hz Hf Hr. destruct (Z.eqb_spec z 0); [done|]. do 6 kstep.
  kstep. split; [|done]. apply core_init_head; [|done].
  refine (core_new_sem ∅ (set_heap (<[z := (sizeof_Semaphore, OSem)]> (heap k)) k) z (mk_sem i n false false) _ Hfree _ _ _); try done.
  - by apply core_alloc.
  - simpl. destruct (sems k !! z) as [s|] eqn:E; [|done]. destruct (c_sem _ _ HC z s E). congruence.
  - simpl. by rewrite lookup_insert_eq.
Qed.

Lemma wp_upd_sem a f Q k :
  (forall s, sems k !! a = Some s -> Q tt (set_sems (<[a := f s]> (sems k)) k)) -> wp (upd_sem a f) Q k.
Proof. intros H. unfold upd_sem. ksteps. auto. Qed.

Lemma he_upd_sem c e k a f : HE c e k -> (forall s, sid (f s) = sid s /\ was_deleted (f s) = was_deleted s) ->
  wp (upd_sem a f) (fun _ => HE c e) k.
Proof. intros HH Hf. apply wp_upd_sem. intros s Hs. destruct (Hf s). by eapply he_sem. Qed.

Lemma wake_one_ok c e k a : HE c e k -> wp (wake_one a) (fun _ => HE c e) k.
Proof.
  intros HH. unfold wake_one. kstep. apply wp_queue_out; [intros; by do 2 kstep|]. intros l w Hl Hla.
  kstep. apply wp_lift_opt. intros ? [= <-]. do 3 kstep.
  by eapply (wake_first c e k (QSem a) l w p (set_state ACTIVABLE)).
Qed.

Lemma signal_ok k i : Inv k -> wp (signal i) Inv_post k.
Proof.
  intros HI. pose proof HI as (b & HH)%he_inv. unfold signal. do 2 kstep. case_valid a Ev; [|by kstep].
  do 2 kstep. destruct (_ <=? count s); [by kstep|]. kstep. eapply wp_mono; [by apply (he_upd_sem _ _ _ a _ HH)|].
  intros [] k1 HH1. do 2 kstep. destruct (_ <=? 0); [|kstep; split; [by eapply he_to_inv|done]].
  kstep. eapply wp_mono; [by apply (he_upd_sem _ _ _ a _ HH1)|]. intros [] k2 HH2.
  kstep. eapply wp_mono; [by apply wake_one_ok|]. intros [] k3 HH3. apply yield_inv_post; [by eapply he_to_inv|done].
Qed.

Lemma signaln_loop_ok n c e k a : HE c e k -> wp (signaln_loop n a) (fun _ => HE c e) k.
Proof.
  revert k. induction n as [|n IH]; intros k HH; simpl; [by kstep|]. do 3 kstep.
  eapply wp_mono; [by apply (he_upd_sem _ _ _ a _ HH)|]. intros [] k1 HH1. do 3 kstep.
  eapply (wp_mono _ (fun _ => HE c e)); [|intros []; apply IH]. destruct (_ <=? 0); [by apply wake_one_ok|by kstep].
Qed.

Lemma signaln_ok k i n : Inv k -> wp (signaln i n) Inv_post k.
Proof.
  intros HI. pose proof HI as (b & HH)%he_inv. unfold signaln. do 2 kstep. case_valid a Ev; [|by kstep].
  destruct (n <? 0); [by kstep|]. do 2 kstep. destruct (SEMAPHORE_MAX_SIZE <? _); [by kstep|].
  kstep. eapply wp_mono; [by apply (he_upd_sem _ _ _ a _ HH)|]. intros [] k1 HH1.
  kstep. eapply wp_mono; [by apply signaln_loop_ok|]. intros [] k3 HH3. apply yield_inv_post; [by eapply he_to_inv|done].
Qed.

Lemma try_wait_ok k i : Inv k -> wp (try_wait i) (fun _ => Inv) k.
Proof.
  intros HI. pose proof HI as (b & HH)%he_inv. unfold try_wait. do 2 kstep. case_valid a Ev; [|by kstep].
  do 2 kstep. destruct (count s =? _); [by kstep|]. destruct (_ <? count s); [|by kstep].
  kstep. eapply wp_mono; [by apply (he_upd_sem _ _ _ a _ HH)|]. intros [] k1 HH1. kstep. by eapply he_to_inv.
Qed.

Lemma wait_ok k i : Inv k -> current_pid k <> 0 -> wp (wait i) Inv_post k.
Proof.
  intros HI Hc. pose proof HI as (b & HH)%he_inv. unfold wait. do 2 kstep. case_valid a Ev; [|by kstep].
  do 2 kstep. destruct (count s <=? _); [by kstep|]. kstep. apply wp_upd_sem. intros s' Hs'.
  set (k1 := set_sems _ _). assert (HE (current_pid k) (Some b) k1) as HH1 by (by eapply he_sem).
  do 2 kstep. destruct (count _ <? 0); [|kstep; split; [by eapply he_to_inv|done]].
  pose proof HH1 as (HG1 & _ & Hb). kstep. apply wp_current. intros x Hx. change (process_table k1 !! current_pid k = Some x) in Hx.
  rewrite Hb in Hx. injection Hx as <-. kstep. apply wp_upd_proc. intros p0 H1. kstep. apply wp_upd_proc. intros p2 H2.
  kstep. apply wp_queue_add. intros l H3 _.
  destruct (current_exempt k1 b HG1 Hb) as (p1 & Hp1 & Epid & Es & Htab & HG2).
  simpl in H2. rewrite Hp1 in H1. injection H1 as <-. rewrite lookup_insert_eq in H2. injection H2 as <-.
  change (current_pid k1) with (current_pid k) in Epid.
  assert (belongs k1 (QSem a) b (set_waited_sem i (set_state IN_SEM p1))) as Hbel.
  { split_and!; [done|done|]. simpl. by destruct (_ || _). }
  pose proof (leave_ok k1 b p1 (set_waited_sem i (set_state IN_SEM p1)) (QSem a) l (CSemWait a) HG2 Hp1 ltac:(done) Hbel ltac:(lia) H3 I) as HL.
  unfold enqueued in HL. eapply wp_mono; [|apply sched_inv_post].
  match goal with |- wp _ _ ?s => replace s with (enqueued k1 b (set_waited_sem i (set_state IN_SEM p1)) (QSem a) l); [exact HL|] end.
  unfold enqueued, set_procs, set_queues. simpl. by rewrite insert_insert_eq.
Qed.

Lemma wait_resume_ok k a : Inv k -> wp (wait_resume a) (fun _ => Inv) k.
Proof.
  intros HI. unfold wait_resume. do 2 kstep. destruct (c_sem _ _ (proj1 HI) a s H) as [_ ->].
  destruct (was_reset s); by kstep.
Qed.

Lemma sreset_ok k i n : Inv k -> wp (sreset i n) Inv_post k.
Proof.
  intros HI. pose proof HI as (b & HH)%he_inv. unfold sreset. do 2 kstep. case_valid a Ev; [|by kstep].
  destruct (n <? 0); [by kstep|]. kstep. eapply wp_mono; [by apply (wake_waiting_ok _ _ _ (QSem a) (set_state ACTIVABLE) HH)|].
  intros [] k1 (HH1 & _). kstep. eapply wp_mono; [by apply (he_upd_sem _ _ _ a _ HH1)|]. intros [] k2 HH2.
  kstep. eapply wp_mono; [by apply (he_upd_sem _ _ _ a _ HH2)|]. intros [] k3 HH3. apply yield_inv_post; [by eapply he_to_inv|done].
Qed.

(** sdelete reads the entry of the table it has just set to NULL. *)
Lemma sdelete_ok k i : Inv k -> wp (sdelete i) Inv_post k.
Proof.
  intros HI. pose proof HI as (b & HH)%he_inv. unfold sdelete. do 2 kstep. case_valid a Ev; [|by kstep].
  kstep. eapply wp_mono; [by apply (wake_waiting_ok _ _ _ (QSem a) (set_state ACTIVABLE) HH)|].
  intros [] k1 (HH1 & _). do 3 kstep. unfold __nb_waiting_proc2. do 3 kstep. apply wp_lift_opt. intros x Hx.
  simpl in Hx. by rewrite lookup_delete_eq in Hx.
Qed.

(** ** The clock and the step *)

Lemma count_tick_ok k : Inv k -> wp count_tick (fun _ => Inv) k.
Proof. intros (b & HG & Hb)%g_inv. unfold count_tick. kstep. apply g_inv. exists b. split; [by apply g_set_time|done]. Qed.

Lemma schedule_tick_ok k : Inv k -> wp schedule_tick Inv_post k.
Proof.
  intros HI. pose proof HI as (b & HG & Hb)%g_inv. unfold schedule_tick. do 2 kstep.
  destruct (_ =? 0); [|kstep; by split].
  do 4 kstep. rewrite Hb in H. injection H as <-.
  destruct (current_exempt k b HG Hb) as (p1 & Hp1 & Epid & Es & Htab & HG2). rewrite Hp1 in H0. injection H0 as <-.
  rewrite bool_decide_true by done. kstep. do 3 kstep. rewrite Hp1 in H. injection H as <-.
  eapply wp_mono; [by apply (leave_ok k b p1 (set_state ACTIVABLE p1) QAct _ CTick HG2 Hp1)|apply sched_inv_post].
Qed.

Lemma tic_PIT_ok k : Inv k -> wp tic_PIT Inv_post k.
Proof. intros HI. apply wp_bind. eapply wp_mono; [by apply count_tick_ok|]. intros [] k1. apply schedule_tick_ok. Qed.

Lemma getprio_ok k i : Inv k -> wp (getprio i) (fun _ => Inv) k.
Proof. intros HI. unfold getprio. do 2 kstep. destruct (negb _); [by kstep|]. ksteps. case_bool_decide; by kstep. Qed.

Lemma scount_ok k i : Inv k -> wp (scount i) (fun _ => Inv) k.
Proof. intros HI. unfold scount. do 2 kstep. case_valid a Ev; by ksteps. Qed.

Lemma start_resume_ok k p : Inv k -> wp (start_resume p) (fun _ => Inv) k.
Proof.
  intros HI. pose proof HI as (b & HH)%he_inv. unfold start_resume. ksteps. eapply he_to_inv. by eapply he_upd.
Qed.

Lemma as_return_ok k m : wp m (fun _ => Inv) k -> wp (as_return m) Inv_post k.
Proof. intros Hm. unfold as_return. kstep. eapply wp_mono; [done|]. intros v k' HI. by kstep. Qed.

Lemma dispatch_ok k c : Inv k -> current_pid k <> 0 -> wp (dispatch c) Inv_post k.
Proof.
  intros HI Hc. destruct c; simpl; first
    [ by apply start_ok | by apply chprio_ok | by apply kill_ok | by apply waitpid_ok | by apply sdelete_ok
    | by apply signal_ok | by apply signaln_ok | by apply sreset_ok | by apply wait_ok | by apply pdelete_ok
    | by apply preceive_ok | by apply preset_ok | by apply psend_ok
    | (eapply wp_mono; [by apply exit_ok|apply sched_inv_post])
    | (eapply wp_mono; [by apply wait_clock_ok|apply sched_inv_post])
    | apply as_return_ok; first [by apply getprio_ok | by apply scount_ok | by apply screate_ok | by apply try_wait_ok
        | by apply pcount_ok | by apply pcreate_ok | by kstep] ].
Qed.

Lemma resume_ok k c : Inv k -> cont_ok c (current_pid k) -> wp (resume c) (fun _ => Inv) k.
Proof.
  intros HI Hk. destruct c; simpl.
  - unfold new_process_start_function. by ksteps.
  - by kstep.
  - kstep. eapply wp_mono; [by apply start_resume_ok|]. intros. by kstep.
  - kstep. eapply wp_mono; [by apply waitpid_resume_ok|]. intros. by kstep.
  - kstep. eapply wp_mono; [by apply unless_skipped_ok; [|kstep]|]. intros. by kstep.
  - kstep. eapply wp_mono; [by apply preceive_resume_ok|]. intros. by kstep.
  - kstep. eapply wp_mono; [by apply wait_resume_ok|]. intros. by kstep.
  - kstep.
  - by kstep.
Qed.

Lemma handle_ok k ev : Inv k -> (ev <> Tick -> current_pid k <> 0) -> wp (handle ev) Inv_post k.
Proof.
  intros HI Hc. destruct ev; simpl; [by apply dispatch_ok; [|apply Hc]|by apply tic_PIT_ok|].
  eapply wp_mono; [by apply exit_ok; [|apply Hc]|apply sched_inv_post].
Qed.

Lemma step_ok k ev : Inv k -> (ev <> Tick -> current_pid k <> 0) -> wp (step ev) (fun _ => Inv) k.
Proof.
  intros HI Hc. unfold step. kstep. eapply wp_mono; [by apply handle_ok|]. intros [v|c] k1 [HI1 Hr]; [by kstep|].
  apply resume_ok; [done|]. destruct Hr as (a & p & Ht & Hp & <-). pose proof (proj1 HI1) as HC.
  destruct (c_table _ _ HC _ _ Ht) as (_ & q & Hq & E). rewrite Hp in Hq. injection Hq as <-. rewrite <- E.
  apply (c_local _ _ HC a p Hp).
Qed.
End Handlers.
