(* ===== verification/Progress.v ===== *)
(** * The scheduler returns

    [Preserve] shows what holds when an operation returns; here the scheduler
    is shown to return, from states in which the kernel calls it. *)

From S2P Require Import Prelude Queue Memory Mmu Kernel Process MessageQueue Semaphore System Invariant Preserve.
Import ListQueue.

Local Open Scope st_scope.

(** A handler that returns, with what holds if it does. *)
Lemma twp_wp_and {S A} (m : ST S A) (P Q : A -> S -> Prop) s :
  twp m P s -> wp m Q s -> twp m (fun a s' => P a s' /\ Q a s') s.
Proof. intros (a & s' & E & HP) HQ. exists a, s'. split; [done|]. split; [done|]. by eapply wp_Ok. Qed.

Section Progress.
Context {F : Foreign} {C : Config}.
Implicit Types (k : LK) (a : Z) (h : qid) (X : gset Z).

(** ** Total correctness of the primitives *)

Lemma twp_proc a p Q k : procs k !! a = Some p -> Q p k -> twp (proc a) Q k.
Proof. intros Hp HQ. exists p, k. unfold proc. by rewrite Hp. Qed.

Lemma twp_upd_proc a p f Q k : procs k !! a = Some p ->
  Q tt (set_procs (<[a := f p]> (procs k)) k) -> twp (upd_proc a f) Q k.
Proof. intros Hp HQ. unfold upd_proc. eapply twp_bind, twp_proc; [done|]. by apply twp_modify. Qed.

Lemma twp_current a Q k : process_table k !! current_pid k = Some a -> Q a k -> twp current Q k.
Proof. intros Ha HQ. exists a, k. unfold current, process_at. by rewrite Ha. Qed.

Lemma twp_queue_add a h l Q k : queues k !! h = Some l -> ~ queued a (queues k) ->
  Q tt (set_queues (<[h := insert_prio (prio_of k) a l]> (queues k)) k) -> twp (queue_add a h) Q k.
Proof.
  intros Hl Ha HQ. eexists tt, _. split; [|exact HQ]. unfold queue_add, lift_queue. cbn. unfold add.
  case_bool_decide; [done|]. by rewrite Hl.
Qed.

Lemma twp_queue_del a Q k : queued a (queues k) -> Q tt (set_queues (remove a <$> queues k) k) -> twp (queue_del a) Q k.
Proof.
  intros Ha HQ. eexists tt, _. split; [|exact HQ]. unfold queue_del, lift_queue. cbn. unfold del. by case_bool_decide.
Qed.

Lemma twp_queue_out h l e Q k : queues k !! h = Some l -> last l = Some e ->
  Q (Some e) (set_queues (<[h := removelast l]> (queues k)) k) -> twp (queue_out h) Q k.
Proof.
  intros Hl He HQ. eexists _, _. split; [|exact HQ]. unfold queue_out. cbn. unfold out. by rewrite Hl; cbn; rewrite He.
Qed.

Lemma twp_queue_top h l Q k : queues k !! h = Some l -> Q (last l) k -> twp (queue_top h) Q k.
Proof. intros Hl HQ. eexists _, _. split; [|exact HQ]. unfold queue_top, lift_res. cbn. by rewrite Hl. Qed.

Lemma twp_queue_empty h l Q k : queues k !! h = Some l -> Q (bool_decide (l = [])) k -> twp (queue_empty h) Q k.
Proof. intros Hl HQ. eexists _, _. split; [|exact HQ]. unfold queue_empty, lift_res. cbn. by rewrite Hl. Qed.

Lemma twp_queue_elems h l Q k : queues k !! h = Some l -> Q l k -> twp (queue_elems h) Q k.
Proof. intros Hl HQ. eexists _, _. split; [|exact HQ]. unfold queue_elems, lift_res. cbn. by rewrite Hl. Qed.

Lemma twp_mem_free z n o Q k : heap k !! z = Some (n, o) ->
  Q tt (set_heap (delete z (heap k)) k) -> 0 < n -> twp (mem_free z n) Q k.
Proof.
  intros Hz HQ Hn. eexists tt, _. split; [|exact HQ]. unfold mem_free. destruct (Z.eqb_spec n 0); [lia|].
  rewrite bool_decide_eq_true_2; [done|]. by rewrite Hz.
Qed.

Lemma twp_find_proc test l Q k :
  (forall a, a ∈ l -> is_Some (procs k !! a)) ->
  (forall o, match o with Some a => exists p, a ∈ l /\ procs k !! a = Some p /\ test p = true
                        | None => forall a p, a ∈ l -> procs k !! a = Some p -> test p = false end -> Q o k) ->
  twp (find_proc test l) Q k.
Proof.
  intros Hl HQ.
  assert (twp (find_proc test l) (fun _ _ => True) k) as Ht.
  { clear HQ. induction l as [|a l IH]; simpl; [by apply twp_ret|].
    destruct (Hl a) as [p Hp]; [set_solver|]. apply twp_bind. eapply twp_proc; [done|].
    destruct (test p); [by apply twp_ret|]. apply IH. set_solver. }
  eapply twp_mono; [eapply twp_wp_and; [exact Ht|]; by apply (find_proc_spec test l Q)|]. naive_solver.
Qed.

(** ** Freeing *)

Lemma twp_free_process X k e p : Core X k -> e ∈ X -> procs k !! e = Some p -> ~ tabled k e p ->
  pid p <> current_pid k -> initial_kernel_stack p <> 0 -> twp (__free_process e) (fun _ _ => True) k.
Proof.
  intros HC He Hp Ht Hc Hs. unfold __free_process. apply twp_bind. eapply twp_proc; [done|].
  apply twp_bind, twp_gets. destruct (Z.eqb_spec (pid p) (current_pid k)); [done|].
  destruct (c_blocks _ _ HC e p Hp) as [(B1 & B2 & B3 & B4)|(_ & Hm & Hm1)]; [|destruct Ht; unfold tabled; by rewrite Hm].
  specialize (B3 Hs). rewrite B4. apply twp_bind. eapply twp_mem_free; [done| |lia].
  apply twp_bind. eapply twp_mem_free; [simpl; rewrite lookup_delete_ne; [done|congruence]| |lia].
  apply twp_bind. eapply twp_mem_free; [simpl; rewrite !lookup_delete_ne; [done|congruence..]| |unfold sizeof_Process; lia].
  by apply twp_modify.
Qed.

(** What the finished processes must satisfy for the loop not to panic. *)
Definition freeable k a : Prop :=
  forall p, procs k !! a = Some p -> pid p <> current_pid k /\ initial_kernel_stack p <> 0.

Lemma twp_free_all fuel X k l : Core X k -> queues k !! QFin = Some l -> (length l < fuel)%nat ->
  (forall a, a ∈ l -> freeable k a) -> twp (free_all_finished fuel) (fun _ _ => True) k.
Proof.
  revert k l. induction fuel as [|fuel IH]; intros k l HC Hl Hlen Hfr; [lia|]. simpl.
  apply twp_bind. eapply twp_queue_empty; [done|]. case_bool_decide as E; [by apply twp_ret|].
  destruct (last l) as [e|] eqn:Hla; [|by apply last_None in Hla].
  apply twp_bind. eapply twp_queue_out; [done..|]. apply twp_bind, (twp_lift_opt _ _ e); [done|]. apply twp_bind.
  assert (e ∈ l) as Hel by (by apply last_Some_elem_of).
  destruct (c_queue _ _ HC QFin l e Hl Hel) as (Hx & p & Hp & Hst & Hnt).
  pose proof (core_out X k QFin l e HC Hl Hla) as HC1. destruct (Hfr e Hel p Hp) as [Hc Hs].
  eapply twp_mono; [apply twp_wp_and; [apply (twp_free_process _ _ e p HC1); [set_solver|done..]|]; by apply (free_process_ok _ _ e p HC1); [set_solver|..]|].
  intros [] k1 (_ & HC2 & Et & Ec & Ep & Eq & _). rewrite exempt_add in HC2 by done.
  apply last_Some in Hla as [l' ->]. rewrite removelast_last in Eq. simpl in Eq. apply (IH k1 l' HC2).
  - rewrite Eq. apply lookup_insert_eq.
  - rewrite length_app in Hlen. simpl in Hlen. lia.
  - intros a Ha q Hq. rewrite Ec. rewrite Ep in Hq. apply lookup_delete_Some in Hq as [_ Hq]. apply (Hfr a); [set_solver|done].
Qed.

(** When the scheduler may be called: every finished process has its kernel
    stack, at most one of them bears the current pid, and the current pid is
    in the table or borne by a finished process. *)
Record sched_ready k : Prop := {
  sr_stack : forall a p, in_queue k QFin a -> procs k !! a = Some p -> initial_kernel_stack p <> 0;
  sr_unique : forall a b p q, in_queue k QFin a -> in_queue k QFin b -> procs k !! a = Some p -> procs k !! b = Some q ->
    pid p = current_pid k -> pid q = current_pid k -> a = b;
  sr_current : is_Some (process_table k !! current_pid k) \/
    exists a p, in_queue k QFin a /\ procs k !! a = Some p /\ pid p = current_pid k
}.

Lemma twp_free_finished k : Sched k -> sched_ready k ->
  twp __free_finished_process (fun _ k' => is_Some (process_table k !! current_pid k) \/ exists c, queues k' !! QFin = Some [c]) k.
Proof.
  intros [HC Hn] [Hst Hu Hcur]. unfold __free_finished_process.
  destruct (c_heads _ _ HC) as (_ & [l Hl] & _).
  assert (forall a, a ∈ l -> in_queue k QFin a) as Hin by (intros a Ha; by exists l).
  apply twp_bind. eapply twp_queue_elems; [done|]. apply twp_bind, twp_gets, twp_bind, twp_find_proc.
  { intros a Ha. destruct (c_queue _ _ HC QFin l a Hl Ha) as (_ & p & Hp & _). by eexists. }
  intros [c|] Ho.
  - destruct Ho as (p & Hcl & Hp & Epid%Z.eqb_eq).
    assert (queued c (queues k)) as Hqc by (apply queued_in_queue; exists QFin; auto).
    apply twp_bind, twp_queue_del; [done|]. pose proof (core_del ∅ k c HC Hqc) as HC1.
    assert (queues (set_queues (remove c <$> queues k) k) !! QFin = Some (remove c l)) as Hl1 by (simpl; by rewrite lookup_fmap, Hl).
    apply twp_bind. eapply twp_mono; [apply twp_wp_and; [eapply (twp_free_all _ _ _ _ HC1 Hl1)|by apply free_all_ok]|].
    + rewrite Nat.lt_succ_r. unfold remove. apply length_filter.
    + intros a [Hne Ha]%list_elem_of_filter q Hq. simpl in Hq. split; [|by apply (Hst a q); auto].
      simpl. intros E. apply Hne. by apply (Hu a c q p); auto.
    + intros [] k1 (_ & [HC2 _ _ _ _ _ _ _ _] & HF). eapply twp_queue_add; [done| |].
      * intros [h Hh]%queued_in_queue. eapply exempt_not_queued; [exact HC2| |exact Hh]. set_solver.
      * right. exists c. simpl. by rewrite lookup_insert_eq.
  - apply twp_bind, twp_ret, twp_bind. eapply twp_mono; [eapply (twp_free_all _ _ _ l HC Hl); [lia|]|].
    + intros a Ha p Hp. split; [|by apply (Hst a p); auto]. intros E. specialize (Ho a p Ha Hp). lia.
    + intros [] k1 _. apply twp_ret. left. destruct Hcur as [?|(a & p & (l' & Hl' & Ha) & Hp & E)]; [done|].
      rewrite Hl in Hl'. injection Hl' as <-. specialize (Ho a p Ha Hp). lia.
Qed.

(** ** Waking up *)

Lemma twp_wakeup_one i k : Sched k -> twp (wakeup_one i) (fun _ _ => True) k.
Proof.
  intros [HC Hn]. unfold wakeup_one. apply twp_bind, twp_gets. destruct (process_table k !! i) as [a|] eqn:Ea; [|by apply twp_ret].
  destruct (c_table _ _ HC i a Ea) as (_ & p & Hp & Epid). apply twp_bind. eapply twp_proc; [done|].
  apply twp_bind, twp_gets. destruct (bool_decide _ && _) eqn:Eb; [|by apply twp_ret].
  apply andb_true_iff in Eb as [Es%bool_decide_eq_true _]. apply twp_bind. eapply twp_upd_proc; [done|].
  destruct (c_heads _ _ HC) as ([l Hl] & _). eapply twp_queue_add; [done| |done].
  intros (h & l' & Hl' & Ha)%queued_in_queue. destruct (c_queue _ _ HC h l' a Hl' Ha) as (_ & q & Hq & Hbel).
  rewrite Hp in Hq. injection Hq as <-. destruct h; destruct Hbel; congruence.
Qed.

Lemma twp_wakeup k : Sched k -> twp __wakeup_process (fun _ _ => True) k.
Proof.
  unfold __wakeup_process. generalize (seqZ 0 NBPROC) as l. intros l. revert k.
  induction l as [|i l IH]; intros k HS; simpl; [by apply twp_ret|].
  apply twp_bind. eapply twp_mono; [apply twp_wp_and; [by apply twp_wakeup_one|by apply wakeup_one_ok]|].
  intros [] k1 (_ & HS1 & _). by apply IH.
Qed.

(** ** The scheduler *)

Lemma activable_nonempty k : Sched k -> exists l a, queues k !! QAct = Some l /\ last l = Some a.
Proof.
  intros [HC Hn]. destruct (c_idle _ _ HC) as (a & p & Ha & Hp & [Hx|[Hs|Hs]]); [set_solver| |by destruct (Hn a p)].
  pose proof (c_placed _ _ HC a p Hp) as Hpl. unfold placed in Hpl. rewrite Hs in Hpl.
  destruct Hpl as (l & Hl & Hal); [set_solver|]. exists l. destruct (last l) as [b|] eqn:E; [by exists b|].
  apply last_None in E as ->. set_solver.
Qed.

Lemma twp_ctx_sw old new c k : is_Some (procs k !! old) -> is_Some (procs k !! new) ->
  twp (virtual_ctx_sw old new c) (fun _ _ => True) k.
Proof.
  intros [po Hpo] [pn Hpn]. unfold virtual_ctx_sw. apply twp_bind. eapply twp_proc; [done|].
  apply twp_bind. eexists tt, _. split; [done|]. apply twp_bind, twp_modify, twp_bind. eapply twp_upd_proc; [done|].
  destruct (decide (old = new)) as [->|]; apply twp_bind; eapply twp_proc; simpl;
    [apply lookup_insert_eq|by apply twp_ret|by rewrite lookup_insert_ne|by apply twp_ret].
Qed.

Lemma scheduler_total c k : Sched k -> sched_ready k -> cont_ok c (current_pid k) -> twp (__scheduler c) Sched_post k.
Proof.
  intros HS Hr Hok.
  assert (twp (__scheduler c) (fun _ _ => True) k) as Ht; [|eapply twp_mono; [apply twp_wp_and; [exact Ht|by apply scheduler_ok]|]; naive_solver].
  unfold __scheduler. apply twp_bind. eapply twp_mono; [apply twp_wp_and; [by apply twp_free_finished|by apply free_finished_ok]|].
  intros [] k1 (Hf & HS1 & Et1 & Ec1 & _). apply twp_bind.
  eapply twp_mono; [apply twp_wp_and; [by apply twp_wakeup|by apply wakeup_ok]|].
  intros [] k2 (_ & HS2 & Et2 & Ec2 & Eq2 & _). destruct (activable_nonempty k2 HS2) as (l & a & Hl & Hla).
  apply twp_bind. eapply twp_queue_out; [done..|]. apply twp_bind, (twp_lift_opt _ _ a); [done|]. destruct HS2 as [HC _].
  destruct (c_queue _ _ HC QAct l a Hl) as (_ & p & Hp & _); [by apply last_Some_elem_of|].
  apply twp_bind. eapply twp_upd_proc; [done|]. set (k3 := set_procs _ _).
  assert (forall b, is_Some (procs k2 !! b) -> is_Some (procs k3 !! b)) as Hin.
  { intros b Hb. simpl. rewrite lookup_insert. by case_decide. }
  destruct (c_heads _ _ HC) as (_ & [lf Hlf] & _). apply twp_bind. eapply (twp_queue_empty QFin lf); [by simpl; rewrite lookup_insert_ne|].
  assert (twp (if bool_decide (lf = []) then current else let! t := queue_top QFin in lift_opt Faulted t)
    (fun o k' => k' = k3 /\ is_Some (procs k3 !! o)) k3) as Hold.
  { case_bool_decide as E.
    - destruct Hf as [[b Hb]|[c' Hc']]; [|congruence]. rewrite <- Et1, <- Et2, <- Ec1, <- Ec2 in Hb.
      eapply twp_current; [done|]. split; [done|]. destruct (c_table _ _ HC _ b Hb) as (_ & q & Hq & _). apply Hin. by eexists.
    - destruct (last lf) as [b|] eqn:Elf; [|by apply last_None in Elf]. apply twp_bind.
      eapply twp_queue_top; [by simpl; rewrite lookup_insert_ne|]. eapply twp_lift_opt; [done|]. split; [done|].
      destruct (c_queue _ _ HC QFin lf b Hlf) as (_ & q & Hq & _); [by apply last_Some_elem_of|]. apply Hin. by eexists. }
  apply twp_bind. eapply twp_mono; [exact Hold|]. intros old ? [-> Ho]. apply twp_bind. eapply twp_proc; [simpl; apply lookup_insert_eq|].
  apply twp_bind, twp_modify, twp_ctx_sw; [done|]. apply Hin. by eexists.
Qed.

(** ** Who is ready *)

(** A sleeping process whose date has come. *)
Definition due k (p : Process) : bool := bool_decide (state p = ASLEEP) && (wakeup_date p <=? time_count k).
Definition ready k a p : Prop := procs k !! a = Some p /\ (state p = ACTIVABLE \/ due k p = true).

(** The processes after the ones outside [l] were examined for waking up. *)
Definition awake k (l : list Z) (p : Process) : Process :=
  if due k p && negb (bool_decide (pid p ∈ l)) then set_state ACTIVABLE p else p.
Definition woken k (l : list Z) k' : Prop :=
  time_count k' = time_count k /\ process_table k' = process_table k /\
  forall b, procs k' !! b = awake k l <$> procs k !! b.

Lemma wakeup_one_tracks k i l k1 : Sched k -> NoDup (i :: l) -> woken k (i :: l) k1 ->
  wp (wakeup_one i) (fun _ k2 => woken k l k2) k1.
Proof.
  intros [HC Hn] [Hil Hnd]%NoDup_cons (Et & Etb & Ep). unfold wakeup_one. do 2 kstep.
  assert (forall b q, procs k !! b = Some q -> due k q = true -> pid q = i -> process_table k !! i = Some b) as Htab.
  { intros b q Hb Hd <-. pose proof (c_placed _ _ HC b q Hb ltac:(set_solver)) as Hpl.
    apply andb_true_iff in Hd as [Es%bool_decide_eq_true _]. unfold placed in Hpl. by rewrite Es in Hpl. }
  assert (forall b q, procs k !! b = Some q -> process_table k !! i <> Some b -> awake k (i :: l) q = awake k l q) as Hsame.
  { intros b q Hb Hne. unfold awake. destruct (due k q) eqn:Ed; [|done]. simpl.
    rewrite (bool_decide_ext (pid q ∈ i :: l) (pid q ∈ l)); [done|]. rewrite elem_of_cons. split; [|by right].
    intros [E|]; [|done]. destruct Hne. by apply (Htab b q). }
  rewrite Etb. destruct (process_table k !! i) as [a|] eqn:Ea.
  - destruct (c_table _ _ HC i a Ea) as (_ & p & Hp & Epid). do 2 kstep. rewrite Ep, Hp in H. injection H as <-. do 2 kstep.
    assert (awake k (i :: l) p = p) as Eaw.
    { unfold awake. rewrite (bool_decide_eq_true_2 (pid p ∈ i :: l)) by (rewrite Epid; set_solver). by rewrite andb_false_r. }
    assert (awake k l p = if due k p then set_state ACTIVABLE p else p) as Eaw2.
    { unfold awake. rewrite (bool_decide_eq_false_2 (pid p ∈ l)) by (by rewrite Epid). by rewrite andb_true_r. }
    rewrite Eaw, Et. fold (due k p). destruct (due k p) eqn:Ed.
    + kstep. kstep. rewrite Ep, Hp in H. simpl in H. rewrite Eaw in H. injection H as <-. kstep.
      split_and!; [done|done|]. intros b. simpl. rewrite lookup_insert. case_decide as Eb.
      * subst b. rewrite Hp. simpl. by rewrite Eaw2.
      * rewrite Ep. destruct (procs k !! b) as [q|] eqn:Eq; [|done]. simpl. f_equal. apply (Hsame b q Eq). congruence.
    + kstep. split_and!; [done|done|]. intros b. rewrite Ep. destruct (procs k !! b) as [q|] eqn:Eq; [|done]. simpl. f_equal.
      destruct (decide (a = b)) as [->|]; [|apply (Hsame b q Eq); congruence]. rewrite Hp in Eq. injection Eq as <-. by rewrite Eaw, Eaw2.
  - kstep. split_and!; [done|done|]. intros b. rewrite Ep. destruct (procs k !! b) as [q|] eqn:Eq; [|done]. simpl. f_equal.
    apply (Hsame b q Eq). done.
Qed.

Lemma wakeup_tracks k : Sched k -> wp __wakeup_process (fun _ k' => woken k [] k') k.
Proof.
  intros HS. unfold __wakeup_process. apply (wp_for_each _ _ (fun l k' => NoDup l /\ woken k l k')).
  - split; [apply NoDup_seqZ|]. split_and!; [done|done|]. intros b. destruct (procs k !! b) as [q|] eqn:Eq; [|done]. simpl. f_equal.
    unfold awake. destruct HS as [HC _]. destruct (c_pids _ _ HC b q Eq) as [Hr _].
    rewrite (bool_decide_eq_true_2 (pid q ∈ seqZ 0 NBPROC)); [by rewrite andb_false_r|]. apply elem_of_seqZ. lia.
  - intros i l k1 [Hnd Hw]. eapply wp_mono; [by eapply wakeup_one_tracks|]. intros [] k2 H2. split; [|done]. by apply NoDup_cons in Hnd as [_ ?].
  - by intros k' [_ ?].
Qed.

(** The scheduler keeps every ready process, activable or elected, and elects
    one that was ready. *)
Definition kept_ready k k' : Prop :=
  (forall b q, ready k b q -> exists q', procs k' !! b = Some q' /\ priority q' = priority q /\ (state q' = ACTIVABLE \/ state q' = ELECTED)) /\
  (forall b q', procs k' !! b = Some q' -> state q' = ELECTED -> exists q, ready k b q /\ priority q' = priority q).

Lemma ctx_sw_tracks old new c k k1 : kept_ready k k1 -> wp (virtual_ctx_sw old new c) (fun _ k' => kept_ready k k') k1.
Proof.
  intros [HA HB]. unfold virtual_ctx_sw. ksteps. simpl in *. split.
  - intros b q Hr. destruct (HA b q Hr) as (q' & Hq & Epr & Es). simpl. rewrite lookup_insert. case_decide as E; [|by exists q'].
    subst b. simplify_eq. by eexists.
  - intros b q'. simpl. rewrite lookup_insert. case_decide as E; [|apply HB]. subst b. intros [= <-]. simpl. by apply HB.
Qed.

Lemma scheduler_tracks c k : Sched k -> wp (__scheduler c) (fun _ k' => kept_ready k k') k.
Proof.
  intros HS. unfold __scheduler. kstep. eapply wp_mono; [by apply free_finished_ok|].
  intros [] k1 (HS1 & _ & _ & _ & Hsub & Hlive & Et1). kstep.
  eapply wp_mono; [apply wp_and; [by apply wakeup_ok|by apply wakeup_tracks]|].
  intros [] k2 (([HC Hn] & _) & Et2 & _ & Ep2). kstep. apply wp_queue_out; [intros; by do 2 kstep|]. intros l a Hl Hla.
  kstep. apply wp_lift_opt. intros ? [= <-].
  destruct (c_queue _ _ HC QAct l a Hl ltac:(by apply last_Some_elem_of)) as (_ & p & Hp & Hst & _).
  do 2 kstep. simpl in H. rewrite Hp in H. injection H as <-. do 3 kstep.
  assert (forall b q, procs k !! b = Some q -> due k q = due k1 q) as Edue by (intros; unfold due; by rewrite Et1).
  assert (kept_ready k (set_procs (<[a := set_state ELECTED p]> (procs k2)) k2)) as Hk.
  { split.
    - intros b q [Hb Hr]. rewrite (Edue b q Hb) in Hr. assert (procs k1 !! b = Some q) as Hb1.
      { apply Hlive; [done|]. destruct Hr as [->|[Hd%bool_decide_eq_true _]%andb_true_iff]; [done|by rewrite Hd]. }
      specialize (Ep2 b). rewrite Hb1 in Ep2. simpl in *. rewrite lookup_insert. case_decide as Eb.
      + subst b. eexists. split; [done|]. split; [|by right]. rewrite Hp in Ep2. injection Ep2 as ->. unfold awake. by destruct (_ && _).
      + eexists. split; [exact Ep2|]. unfold awake. rewrite andb_true_r. destruct Hr as [Ha| ->]; [|split; [done|by left]].
        destruct (due k1 q); [split; [done|by left]|split; [done|by left]].
    - intros b q'. simpl. rewrite lookup_insert. case_decide as Eb; [|intros Hb Hs; by destruct (Hn b q' Hb)].
      subst b. intros [= <-] _. specialize (Ep2 a). rewrite Hp in Ep2. destruct (procs k1 !! a) as [q|] eqn:Eq; [|done].
      simpl in Ep2. injection Ep2 as ->. assert (procs k !! a = Some q) as Ha by (by eapply lookup_weaken). exists q. split; [|by destruct (awake k1 [] q) eqn:E; revert E; unfold awake; destruct (_ && _); intros <-].
      split; [done|]. rewrite (Edue a q Ha). revert Hst. unfold awake. rewrite andb_true_r. destruct (due k1 q); [by right|by left]. }
  assert (wp (if bool_decide (l0 = []) then current else let! t := queue_top QFin in lift_opt Faulted t)
    (fun _ k' => kept_ready k k') (set_procs (<[a := set_state ELECTED p]> (procs k2)) (set_queues (<[QAct := removelast l]> (queues k2)) k2))) as Hold.
  { destruct (bool_decide _); ksteps; exact Hk. }
  eapply wp_mono; [exact Hold|]. intros old k3 Hk3. do 4 kstep. by apply ctx_sw_tracks.
Qed.
End Progress.
