(* ===== verification/Refines.v ===== *)
(** * The kernel over pointers refines the kernel over lists

    Two stores of queues related by a [QueueSim] give kernels in lock step:
    whenever the kernel over the second returns or panics, the kernel over the
    first does the same, with the same results and related states.  [KR]
    relates states that differ in their queues only. *)

From S2P Require Import Prelude Queue Memory Mmu Kernel Process MessageQueue Semaphore System.

Local Open Scope st_scope.

Section Refines.
Context {S T : Type} {opsS : QueueOps qid Z S} {opsT : QueueOps qid Z T} {R : S -> T -> Prop}.
Context {Sim : QueueSim opsS opsT R} {C : Config}.

Definition KR (k : kernel S) (k' : kernel T) : Prop :=
  set_queues tt k = set_queues tt k' /\ R (queues k) (queues k').

Definition msim {A} (m : K S A) (m' : K T A) : Prop :=
  forall k k', KR k k' -> rsim (fun x y => x.1 = y.1 /\ KR x.2 y.2) (m k) (m' k').

(** ** The monad *)

Lemma msim_ret {A} (a : A) : msim (ret a) (ret a).
Proof. intros k k' HK. by exists (a, k). Qed.

Lemma msim_fail {A} e : msim (A:=A) (fail e) (fail e).
Proof. intros k k' HK. by destruct e. Qed.

Lemma msim_bind {A B} (m : K S A) m' (f : A -> K S B) f' :
  msim m m' -> (forall a, msim (f a) (f' a)) -> msim (bind m f) (bind m' f').
Proof.
  intros Hm Hf k k' HK. specialize (Hm k k' HK). unfold bind.
  destruct (m' k') as [[a' k1']|e]; simpl in Hm.
  - destruct Hm as ([a k1] & -> & E & HK1). simpl in *. subst a. by apply Hf.
  - destruct e; simpl; try done. by rewrite Hm.
Qed.

Lemma msim_gets {A} (f : kernel S -> A) (f' : kernel T -> A) :
  (forall k k', KR k k' -> f k = f' k') -> msim (gets f) (gets f').
Proof. intros Hf k k' HK. exists (f k, k). simpl. auto. Qed.

Lemma msim_modify f f' : (forall k k', KR k k' -> KR (f k) (f' k')) -> msim (modify f) (modify f').
Proof. intros Hf k k' HK. exists (tt, f k). simpl. auto. Qed.

Lemma msim_lift_opt {A} e (o : option A) : msim (lift_opt e o) (lift_opt e o).
Proof. destruct o; [apply msim_ret|apply msim_fail]. Qed.

Lemma msim_for_each {A} (l : list A) f f' : (forall x, msim (f x) (f' x)) -> msim (for_each l f) (for_each l f').
Proof. intros Hf. induction l; simpl; [apply msim_ret|by apply msim_bind]. Qed.

(** ** The state *)

Lemma kr_fields k k' : KR k k' ->
  procs k = procs k' /\ process_table k = process_table k' /\ current_pid k = current_pid k' /\ msgqs k = msgqs k'
  /\ queue_table k = queue_table k' /\ sems k = sems k' /\ semaphore_table k = semaphore_table k'
  /\ time_count k = time_count k' /\ heap k = heap k' /\ vm k = vm k' /\ tss_cr3 k = tss_cr3 k' /\ tss_esp0 k = tss_esp0 k'.
Proof. intros [E _]. destruct k, k'. unfold set_queues in E. simpl in *. injection E; intros; subst. split_and!; done. Qed.

Lemma kr_queues k k' q q' : KR k k' -> R q q' -> KR (set_queues q k) (set_queues q' k').
Proof. intros [E _] HR. split; [|done]. destruct k, k'. unfold set_queues in *. simpl in *. congruence. Qed.

Lemma prio_of_same k k' : KR k k' -> prio_of k = prio_of k'.
Proof. intros HK. unfold prio_of. by destruct (kr_fields _ _ HK) as (-> & _). Qed.
End Refines.

(** States in lock step are compared field by field. *)
Ltac kr_solve :=
  intros; match goal with
  | H : KR ?k ?k' |- _ =>
      let E := fresh "E" in let HR := fresh "HR" in
      destruct H as [E HR]; destruct k, k'; unfold set_queues in E; simpl in *; injection E; intros; subst;
      first [reflexivity | (split; [reflexivity | exact HR])]
  end.

Create HintDb msimdb.

Section Primitives.
Context {S T : Type} {opsS : QueueOps qid Z S} {opsT : QueueOps qid Z T} {R : S -> T -> Prop}.
Context {Sim : QueueSim opsS opsT R} {C : Config}.
Abbreviation msim := (msim (S:=S) (T:=T) (R:=R)).
Abbreviation KR := (KR (S:=S) (T:=T) (R:=R)).

Lemma msim_proc a : msim (proc a) (proc a).
Proof.
  intros k k' HK. unfold proc. destruct (kr_fields _ _ HK) as (-> & _).
  destruct (procs k' !! a); [by apply msim_ret|by apply msim_fail].
Qed.

Lemma msim_process_at i : msim (process_at i) (process_at i).
Proof.
  intros k k' HK. unfold process_at. destruct (kr_fields _ _ HK) as (_ & -> & _).
  destruct (process_table k' !! i); [by apply msim_ret|by apply msim_fail].
Qed.

Lemma msim_current : msim current current.
Proof.
  intros k k' HK. unfold current. destruct (kr_fields _ _ HK) as (_ & _ & -> & _). by apply msim_process_at.
Qed.

Lemma msim_msgq a : msim (msgq a) (msgq a).
Proof.
  intros k k' HK. unfold msgq. destruct (kr_fields _ _ HK) as (_ & _ & _ & -> & _).
  destruct (msgqs k' !! a); [by apply msim_ret|by apply msim_fail].
Qed.

Lemma msim_semaphore a : msim (semaphore a) (semaphore a).
Proof.
  intros k k' HK. unfold semaphore. destruct (kr_fields _ _ HK) as (_ & _ & _ & _ & _ & -> & _).
  destruct (sems k' !! a); [by apply msim_ret|by apply msim_fail].
Qed.

Lemma msim_put_proc a p : msim (put_proc a p) (put_proc a p).
Proof. apply msim_modify. kr_solve. Qed.
Lemma msim_put_msgq a q : msim (put_msgq a q) (put_msgq a q).
Proof. apply msim_modify. kr_solve. Qed.
Lemma msim_put_sem a s : msim (put_sem a s) (put_sem a s).
Proof. apply msim_modify. kr_solve. Qed.

Lemma msim_upd_proc a f : msim (upd_proc a f) (upd_proc a f).
Proof. apply msim_bind; [apply msim_proc|intros; apply msim_put_proc]. Qed.

(** Results of the queue operations. *)
Lemma msim_lift_queue f f' : (forall k k', KR k k' -> rsim R (f k) (f' k')) -> msim (lift_queue f) (lift_queue f').
Proof.
  intros Hf k k' HK. specialize (Hf k k' HK). unfold lift_queue. destruct (f' k') as [q'|e]; simpl in *.
  - destruct Hf as (q & -> & HR). eexists. split; [done|]. split; [done|]. by apply kr_queues.
  - destruct e; try done. by rewrite Hf.
Qed.

Lemma msim_lift_res {A} (f : kernel S -> result A) f' :
  (forall k k', KR k k' -> rsim eq (f k) (f' k')) -> msim (lift_res f) (lift_res f').
Proof.
  intros Hf k k' HK. specialize (Hf k k' HK). unfold lift_res. destruct (f' k') as [a'|e]; simpl in *.
  - destruct Hf as (a & -> & ->). by eexists.
  - destruct e; try done. by rewrite Hf.
Qed.

Lemma msim_queue_add a h : msim (queue_add a h) (queue_add a h).
Proof. apply msim_lift_queue. intros k k' HK. rewrite (prio_of_same k k' HK). apply sim_add, HK. Qed.
Lemma msim_queue_del a : msim (queue_del a) (queue_del a).
Proof. apply msim_lift_queue. intros k k' HK. apply sim_del, HK. Qed.
Lemma msim_init_list_head h : msim (init_list_head h) (init_list_head h).
Proof. apply msim_lift_queue. intros k k' HK. apply sim_init_head, HK. Qed.
Lemma msim_queue_top h : msim (queue_top h) (queue_top h).
Proof. apply msim_lift_res. intros k k' HK. apply sim_top, HK. Qed.
Lemma msim_queue_empty h : msim (queue_empty h) (queue_empty h).
Proof. apply msim_lift_res. intros k k' HK. apply sim_empty, HK. Qed.
Lemma msim_queue_elems h : msim (queue_elems h) (queue_elems h).
Proof. apply msim_lift_res. intros k k' HK. apply sim_elems, HK. Qed.
Lemma msim_queue_initialized a : msim (queue_initialized a) (queue_initialized a).
Proof. apply msim_gets. intros k k' HK. apply sim_initialized, HK. Qed.

Lemma msim_queue_out h : msim (queue_out h) (queue_out h).
Proof.
  intros k k' HK. unfold queue_out. pose proof (sim_out h (queues k) (queues k') (proj2 HK)) as Ho.
  destruct (q_out h (queues k')) as [[o' q']|e]; simpl in *.
  - destruct Ho as ([o q] & -> & E & HR). simpl in *. subst. eexists. split; [done|]. split; [done|]. by apply kr_queues.
  - destruct e; try done. by rewrite Ho.
Qed.

Lemma msim_lift_mmu {A} (m : MMU A) : msim (lift_mmu m) (lift_mmu m).
Proof.
  intros k k' HK. unfold lift_mmu. destruct (kr_fields _ _ HK) as (_ & _ & _ & _ & _ & _ & _ & _ & _ & -> & _).
  destruct (m (vm k')) as [[a v]|e]; simpl; [|by destruct e].
  eexists. split; [done|]. split; [done|]. clear -HK. revert HK. kr_solve.
Qed.

Lemma msim_mem_alloc n o : msim (mem_alloc n o) (mem_alloc n o).
Proof.
  intros k k' HK. unfold mem_alloc. destruct (kr_fields _ _ HK) as (_ & _ & _ & _ & _ & _ & _ & _ & E & _). rewrite E.
  destruct (n =? 0); [by eexists|]. destruct (_ <=? n); [by eexists|]. destruct (malloc _ _) as [z|]; [|by eexists].
  eexists. split; [done|]. split; [done|]. clear -HK. revert HK. kr_solve.
Qed.

Lemma msim_mem_free z n : msim (mem_free z n) (mem_free z n).
Proof.
  intros k k' HK. unfold mem_free. destruct (kr_fields _ _ HK) as (_ & _ & _ & _ & _ & _ & _ & _ & E & _). rewrite E.
  destruct (n =? 0); [by eexists|]. case_bool_decide; [|done].
  eexists. split; [done|]. split; [done|]. clear -HK. revert HK. kr_solve.
Qed.
End Primitives.

#[export] Hint Resolve msim_ret msim_fail msim_lift_opt msim_proc msim_process_at msim_current msim_msgq msim_semaphore
  msim_put_proc msim_put_msgq msim_put_sem msim_upd_proc msim_queue_add msim_queue_del msim_init_list_head msim_queue_top
  msim_queue_empty msim_queue_elems msim_queue_initialized msim_queue_out msim_lift_mmu msim_mem_alloc msim_mem_free : msimdb.

(** Follows the structure of an operation. *)
Ltac msim_auto :=
  repeat first
    [ solve [eauto with msimdb]
    | (apply msim_bind; [|intros])
    | (apply msim_gets; kr_solve)
    | (apply msim_modify; kr_solve)
    | apply msim_for_each; intros
    | match goal with
      | |- msim (if ?b then _ else _) _ => destruct b
      | |- msim (match ?x with _ => _ end) _ => destruct x
      end ].

Section Operations.
Context {S T : Type} {opsS : QueueOps qid Z S} {opsT : QueueOps qid Z T} {R : S -> T -> Prop}.
Context {Sim : QueueSim opsS opsT R} {C : Config}.
Abbreviation msim := (msim (S:=S) (T:=T) (R:=R)).

Lemma msim_find_proc t l : msim (find_proc t l) (find_proc t l).
Proof. induction l; simpl; msim_auto. Qed.
Lemma msim_find_zombie l : msim (find_zombie l) (find_zombie l).
Proof. induction l; simpl; msim_auto. Qed.
Hint Resolve msim_find_proc msim_find_zombie : msimdb.

Lemma msim_free_process p : msim (__free_process p) (__free_process p).
Proof. unfold __free_process. msim_auto. Qed.
Hint Resolve msim_free_process : msimdb.

Lemma msim_free_all n : msim (free_all_finished n) (free_all_finished n).
Proof. induction n; simpl; msim_auto. Qed.
Hint Resolve msim_free_all : msimdb.

Lemma msim_free_finished : msim __free_finished_process __free_finished_process.
Proof. unfold __free_finished_process. msim_auto. Qed.
Lemma msim_wakeup : msim __wakeup_process __wakeup_process.
Proof. unfold __wakeup_process, wakeup_one, current_clock. msim_auto. Qed.
Lemma msim_ctx_sw a b c : msim (virtual_ctx_sw a b c) (virtual_ctx_sw a b c).
Proof. unfold virtual_ctx_sw. msim_auto. Qed.
Hint Resolve msim_free_finished msim_wakeup msim_ctx_sw : msimdb.

Lemma msim_scheduler c : msim (__scheduler c) (__scheduler c).
Proof. unfold __scheduler. msim_auto. Qed.
Hint Resolve msim_scheduler : msimdb.
Lemma msim_yield c : msim (yield_cpu c) (yield_cpu c).
Proof. unfold yield_cpu. msim_auto. Qed.
Hint Resolve msim_yield : msimdb.

Lemma msim_finish_fatherless i : msim (__finish_fatherless i) (__finish_fatherless i).
Proof. unfold __finish_fatherless. msim_auto. Qed.
Lemma msim_awake_father i : msim (__awake_father i) (__awake_father i).
Proof. unfold __awake_father. msim_auto. Qed.
Lemma msim_remove_child i f : msim (__remove_from_children i f) (__remove_from_children i f).
Proof. unfold __remove_from_children. msim_auto. Qed.
Hint Resolve msim_finish_fatherless msim_awake_father msim_remove_child : msimdb.

Lemma msim_process_end i c : msim (__process_end i c) (__process_end i c).
Proof. unfold __process_end, orphan_child. msim_auto. Qed.
Lemma msim_finish_zombie i rp : msim (__finish_zombie i rp) (__finish_zombie i rp).
Proof. unfold __finish_zombie. msim_auto. Qed.
Hint Resolve msim_process_end msim_finish_zombie : msimdb.

Lemma msim_search n i t f j : msim (search_queues n i t f j) (search_queues n i t f j).
Proof. revert i. induction n; intros; simpl; unfold has_pid; msim_auto. Qed.
Hint Resolve msim_search : msimdb.
Lemma msim_get_queue a : msim (__get_queue a) (__get_queue a).
Proof. unfold __get_queue. msim_auto. Qed.
Hint Resolve msim_get_queue : msimdb.

Lemma msim_chprio i n : msim (chprio i n) (chprio i n).
Proof. unfold chprio, __is_valid_pid. msim_auto. Qed.
Lemma msim_wait_clock w : msim (wait_clock w) (wait_clock w).
Proof. unfold wait_clock. msim_auto. Qed.
Lemma msim_exit v : msim (exit v) (exit v).
Proof. unfold exit, getpid. msim_auto. Qed.
Lemma msim_kill i : msim (kill i) (kill i).
Proof. unfold kill, __is_valid_pid. msim_auto. Qed.
Lemma msim_waitpid i rp : msim (waitpid i rp) (waitpid i rp).
Proof. unfold waitpid, wait_for_child. msim_auto. Qed.
Lemma msim_getprio i : msim (getprio i) (getprio i).
Proof. unfold getprio, __is_valid_pid. msim_auto. Qed.
Lemma msim_start nm ss pr arg : msim (start nm ss pr arg) (start nm ss pr arg).
Proof. unfold start, get_symbol_from_name, __get_free_pid, add_child, elect_or_queue, preempts. msim_auto. Qed.

Lemma msim_wake_all n h f : msim (wake_all n h f) (wake_all n h f).
Proof. induction n; simpl; msim_auto. Qed.
Hint Resolve msim_wake_all : msimdb.

Lemma msim_pcreate n : msim (pcreate n) (pcreate n).
Proof. unfold pcreate, __get_free_fid. msim_auto. Qed.
Lemma msim_pdelete i : msim (pdelete i) (pdelete i).
Proof. unfold pdelete, valid_fid, wake_waiting. msim_auto. Qed.
Lemma msim_psend i m : msim (psend i m) (psend i m).
Proof. unfold psend, valid_fid. msim_auto. Qed.
Lemma msim_preceive i m : msim (preceive i m) (preceive i m).
Proof. unfold preceive, valid_fid, store_if. msim_auto. Qed.
Lemma msim_preset i : msim (preset i) (preset i).
Proof. unfold preset, valid_fid, wake_waiting. msim_auto. Qed.
Lemma msim_pcount i v : msim (pcount i v) (pcount i v).
Proof. unfold pcount, valid_fid, __nb_waiting_proc. msim_auto. Qed.

Lemma msim_upd_sem a f : msim (upd_sem a f) (upd_sem a f).
Proof. unfold upd_sem. msim_auto. Qed.
Lemma msim_wake_one a : msim (wake_one a) (wake_one a).
Proof. unfold wake_one. msim_auto. Qed.
Hint Resolve msim_upd_sem msim_wake_one : msimdb.
Lemma msim_signaln_loop n a : msim (signaln_loop n a) (signaln_loop n a).
Proof. induction n; simpl; msim_auto. Qed.
Hint Resolve msim_signaln_loop : msimdb.

Lemma msim_free_sem : msim __get_free_sem __get_free_sem.
Proof. apply msim_gets. intros k k' HK. destruct (kr_fields _ _ HK) as (_ & _ & _ & _ & _ & _ & E & _). by rewrite E. Qed.
Hint Resolve msim_free_sem : msimdb.
Lemma msim_screate n : msim (screate n) (screate n).
Proof. unfold screate. msim_auto. Qed.
Lemma msim_sdelete i : msim (sdelete i) (sdelete i).
Proof. unfold sdelete, valid_sem, wake_waiting, __nb_waiting_proc2. msim_auto. Qed.
Lemma msim_signal i : msim (signal i) (signal i).
Proof. unfold signal, valid_sem. msim_auto. Qed.
Lemma msim_signaln i n : msim (signaln i n) (signaln i n).
Proof. unfold signaln, valid_sem. msim_auto. Qed.
Lemma msim_try_wait i : msim (try_wait i) (try_wait i).
Proof. unfold try_wait, valid_sem. msim_auto. Qed.
Lemma msim_wait i : msim (wait i) (wait i).
Proof. unfold wait, valid_sem. msim_auto. Qed.
Lemma msim_sreset i n : msim (sreset i n) (sreset i n).
Proof. unfold sreset, valid_sem, wake_waiting. msim_auto. Qed.
Lemma msim_scount i : msim (scount i) (scount i).
Proof. unfold scount, valid_sem. msim_auto. Qed.

Lemma msim_tic_PIT : msim tic_PIT tic_PIT.
Proof. unfold tic_PIT, count_tick, schedule_tick. msim_auto. Qed.
Hint Resolve msim_chprio msim_wait_clock msim_exit msim_kill msim_waitpid msim_getprio msim_start msim_pcreate
  msim_pdelete msim_psend msim_preceive msim_preset msim_pcount msim_screate msim_sdelete msim_signal msim_signaln
  msim_try_wait msim_wait msim_sreset msim_scount msim_tic_PIT : msimdb.

Lemma msim_dispatch c : msim (dispatch c) (dispatch c).
Proof. destruct c; simpl; unfold as_return, getpid, current_clock; msim_auto. Qed.

Lemma msim_resume c : msim (resume c) (resume c).
Proof.
  destruct c; simpl; unfold new_process_start_function, start_resume, waitpid_resume, psend_resume, preceive_resume,
    unless_skipped, store_if, wait_resume; msim_auto.
Qed.
Hint Resolve msim_dispatch msim_resume : msimdb.

Lemma msim_step ev : msim (step ev) (step ev).
Proof. unfold step, handle. msim_auto. Qed.
End Operations.
