(* ===== verification/KernelProps.v ===== *)
(** * Properties of the scheduler and of the process life cycle

    A concrete machine, the invariant of the transition system, what the
    scheduler promises, and the traces on which the process code goes wrong. *)

From S2P Require Import Prelude Queue Memory Mmu Kernel Process MessageQueue Semaphore System Invariant Preserve Progress Refines.
Import ListQueue.

Local Open Scope st_scope.

(** ** A concrete machine *)

(** An allocator that gives addresses above every live block. *)
Definition bump (h : gmap Z Z) (n : Z) : option Z :=
  let a := map_fold (fun x _ m => Z.max x m) 0x100000 h + 0x4000 in
  if a <? MEMORY_START then Some a else None.

Lemma bump_above (h : gmap Z Z) x y : h !! x = Some y -> x <= map_fold (fun x _ m => Z.max x m) 0x100000 h.
Proof.
  revert x y. apply (map_fold_weak_ind (fun r (m : gmap Z Z) => forall x y, m !! x = Some y -> x <= r)).
  - intros x y. by rewrite lookup_empty.
  - intros i z m r Hi IH x y. rewrite lookup_insert. case_decide; [lia|]. intros Hx. specialize (IH x y Hx). lia.
Qed.

Lemma bump_base (h : gmap Z Z) : 0x100000 <= map_fold (fun x _ m => Z.max x m) 0x100000 h.
Proof. apply (map_fold_weak_ind (fun r (_ : gmap Z Z) => 0x100000 <= r)); [done|]. intros. lia. Qed.

(** Two programs, [idle] and [a], at 3 MB. *)
Definition idle_name : list Z := [105; 100; 108; 101].
#[export] Instance demo_config : Config := {|
  symbols_table := [mk_uapps idle_name 0x300000 0x300004; mk_uapps [97] 0x300010 0x300020];
  pgdir := 0x10000;
  start_address := 0x100010;
  malloc := bump
|}.

#[export] Instance demo_laws : MallocLaws demo_config.
Proof.
  split.
  - intros h n a. simpl. unfold bump. destruct (_ <? _); [|done]. intros [= <-].
    destruct (h !! _) as [y|] eqn:E; [|done]. apply bump_above in E. lia.
  - intros h n a. simpl. unfold bump. destruct (Z.ltb_spec (map_fold (fun x _ m => Z.max x m) 0x100000 h + 0x4000) MEMORY_START); [|done].
    intros [= <-]. pose proof (bump_base h). lia.
Qed.

(** A chain of [n] free frames from [a] on. *)
Fixpoint chain (n : nat) (a : Z) (m : mem) : mem :=
  match n with
  | O => store32 m a 0
  | S n' => chain n' (a + 0x4000) (store32 m a (a + 0x4000))
  end.
Definition demo_vm : mmu := mk_mmu (chain 60 0x4008000 ∅) 0x4008000 0xC0000000 0x10000.

Definition idle_proc : Process :=
  mk_process 0 (0x4001000, idle_name) 0x4002000 0x80002800 CTick ACTIVABLE 0 512 10240 1 0 (-1) [] 0 0 false 0 0 0x10000.
Definition user_proc : Process :=
  mk_process 1 (0x104000, [97]) 0x10ffd8 0x80000ffc CStart ELECTED 0x108000 8192 4096 10 0 (-1) [] 0 0 false 0 0 0x10000.
Definition user_addr : Z := 0x100000.
Definition idle_addr : Z := 0x4000000.

(** The idle process is activable, process 1 runs with priority 10. *)
Definition demo_kernel : LK := mk_kernel
  {[ QAct := [idle_addr]; QFin := []; QWait := [] ]}
  {[ idle_addr := idle_proc; user_addr := user_proc ]}
  {[ 0 := idle_addr; 1 := user_addr ]} 1 ∅ ∅ ∅ ∅ 0
  {[ user_addr := (sizeof_Process, OProcess); 0x104000 := (2, OName user_addr); 0x108000 := (8192, OStack user_addr) ]}
  demo_vm 0x10000 0.

(** Nothing else is in the heap. *)
#[export] Instance no_foreign : Foreign | 100 := (∅ : gmap Z (Z * owner)).

Lemma demo_core : Core ∅ demo_kernel.
Proof.
  assert (forall h l, queues demo_kernel !! h = Some l -> h = QAct /\ l = [idle_addr] \/ l = []) as HQ.
  { intros h l Hl. simpl in Hl. rewrite !lookup_insert_Some, lookup_singleton_Some in Hl. naive_solver. }
  assert (forall a p, procs demo_kernel !! a = Some p -> a = idle_addr /\ p = idle_proc \/ a = user_addr /\ p = user_proc) as HP.
  { intros a p Ha. simpl in Ha. rewrite lookup_insert_Some, lookup_singleton_Some in Ha. naive_solver. }
  assert (forall h a, in_queue demo_kernel h a -> h = QAct /\ a = idle_addr) as HI.
  { intros h a (l & Hl & Ha). destruct (HQ h l Hl) as [[-> ->]| ->]; [|set_solver]. apply list_elem_of_singleton in Ha. done. }
  split.
  - intros i a. simpl. rewrite lookup_insert_Some, lookup_singleton_Some. intros [[<- <-]|(_ & <- & <-)]; (split; [done|]); eexists; done.
  - intros h l a Hl Ha. destruct (HI h a) as [-> ->]; [by exists l|]. split; [set_solver|]. by exists idle_proc.
  - intros a p [[-> ->]|[-> ->]]%HP _; [|done]. exists [idle_addr]. split; [done|set_solver].
  - intros h h' a [-> _]%HI [-> _]%HI. done.
  - intros h l [[_ ->]| ->]%HQ; repeat constructor; set_solver.
  - intros h l [[_ ->]| ->]%HQ; repeat constructor.
  - split_and!; by eexists.
  - intros a p [[-> ->]|[-> ->]]%HP; [by right|]. left. done.
  - intros a b. simpl. rewrite !lookup_insert_Some, lookup_singleton_Some. unfold MEMORY_START. intros; destruct_or?; naive_solver lia.
  - intros a p [[-> ->]|[-> ->]]%HP; done.
  - intros a p [[-> ->]|[-> ->]]%HP; done.
  - intros i a. simpl. by rewrite lookup_empty.
  - intros i a. simpl. by rewrite lookup_empty.
  - intros i a. simpl. by rewrite lookup_empty.
  - intros i a. simpl. by rewrite lookup_empty.
  - exists idle_addr, idle_proc. split_and!; [done|done|]. right. by left.
  - intros a b. unfold foreign, no_foreign. by rewrite lookup_empty.
Qed.

Lemma demo_inv : Inv demo_kernel.
Proof. split; [apply demo_core|]. by exists user_addr, user_proc. Qed.

(** ** Runs *)

Section Runs.
Context {S : Type} {ops : QueueOps qid Z S} {C : Config}.

(** The kernel handles events one after the other; the results are those of
    the system calls. *)
Fixpoint run (evs : list event) : K S (list (option Z)) :=
  match evs with
  | [] => ret []
  | e :: evs' => let! r := step e in let! rs := run evs' in ret (r :: rs)
  end.
End Runs.

(** The states the kernel goes through: the idle process, whose program is an
    endless loop, makes no system call. *)
Inductive reachable {C : Config} (k0 : LK) : LK -> Prop :=
| reach_start : reachable k0 k0
| reach_step k ev r k' : reachable k0 k -> (ev <> Tick -> current_pid k <> 0) ->
    step ev k = Ok (r, k') -> reachable k0 k'.

Lemma reachable_inv {F : Foreign} {C : Config} {L : MallocLaws C} k0 k : Inv k0 -> reachable k0 k -> Inv k.
Proof.
  intros H0 Hr. induction Hr as [|k ev r k' _ IH Hev E]; [done|].
  exact (wp_Ok _ _ _ _ _ (step_ok k ev IH Hev) E).
Qed.

Lemma inv_elected {F : Foreign} k a p : Inv k -> procs k !! a = Some p ->
  state p = ELECTED <-> process_table k !! current_pid k = Some a.
Proof.
  intros [HC (b & q & Hb & Hq & Hs)] Hp. split; intros H.
  - pose proof (c_placed _ _ HC a p Hp ltac:(set_solver)) as Hpl. unfold placed in Hpl. rewrite H in Hpl.
    destruct Hpl as [<- Ht]. exact Ht.
  - rewrite Hb in H. injection H as ->. by simplify_eq.
Qed.

(** The state of a process and the queue it is in determine each other. *)
Lemma state_queue {F : Foreign} k a p h st : Core ∅ k -> procs k !! a = Some p ->
  (forall k' b q, belongs k' h b q -> state q = st) -> (state p = st -> placed k a p -> in_queue k h a) ->
  state p = st <-> in_queue k h a.
Proof.
  intros HC Hp Hb Hpl. split; intros H; [apply Hpl; [done|apply (c_placed _ _ HC a p Hp); set_solver]|].
  destruct H as (l & Hl & Ha). destruct (c_queue _ _ HC h l a Hl Ha) as (_ & q & Hq & Hbel).
  rewrite Hp in Hq. injection Hq as <-. by apply (Hb k a).
Qed.



(** The state a computation ends in, when it returns. *)
Definition final {A S} (d : S) (r : result (A * S)) : S := match r with Ok (_, k) => k | Err _ => d end.
Definition returns {A} (r : result A) : bool := match r with Ok _ => true | Err _ => false end.

Lemma final_returns {A S} (d : S) (r : result (A * S)) : returns r = true -> exists a, r = Ok (a, final d r).
Proof. destruct r as [[a k]|]; [by exists a|done]. Qed.

(** Whether a run returns with no system call of the idle process. *)
Fixpoint legal {C : Config} (evs : list event) (k : LK) : bool :=
  match evs with
  | [] => true
  | e :: evs' =>
      (match e with Tick => true | _ => negb (current_pid k =? 0) end)
      && match step e k with Ok (_, k') => legal evs' k' | Err _ => false end
  end.

Lemma run_reachable {C : Config} evs (k0 k : LK) : reachable k0 k -> legal evs k = true -> reachable k0 (final k (run evs k)).
Proof.
  revert k. induction evs as [|e evs IH]; intros k Hr Hl; [done|]. simpl in *. unfold bind.
  apply andb_true_iff in Hl as [He Hl]. destruct (step e k) as [[r k1]|] eqn:Es; [|done].
  assert (reachable k0 k1) as Hr1.
  { eapply reach_step; [exact Hr| |exact Es]. intros Hne. destruct e; [|done|]; lia. }
  specialize (IH k1 Hr1 Hl). destruct (run evs k1) as [[rs k2]|]; [exact IH|]. exact Hr.
Qed.

(** Process 1 starts process 2, which is stronger and takes the processor. *)
Definition start_2 : event := Syscall (START [97] 16 20 0).
Definition demo_started : LK := final demo_kernel (step start_2 demo_kernel).

Lemma demo_reachable : reachable demo_kernel demo_started.
Proof.
  destruct (final_returns demo_kernel (step start_2 demo_kernel)) as [r E]; [vm_compute; reflexivity|].
  eapply (reach_step _ _ start_2 r); [apply reach_start|by intros _|exact E].
Qed.



(** ** The scheduler *)

(** Whom the scheduler must choose: a ready process that no ready process
    exceeds in priority. *)
Definition best_ready (k : LK) (a : Z) (p : Process) : Prop :=
  ready k a p /\ forall b q, ready k b q -> priority q <= priority p.


(** Process 1 is activable again. *)
Definition demo_yield : LK := enqueued demo_kernel user_addr (set_state ACTIVABLE user_proc) QAct [idle_addr].

Lemma demo_yield_sched : Sched demo_yield.
Proof.
  pose proof demo_inv as (a & HG & Ht)%g_inv. injection Ht as <-.
  destruct (current_exempt demo_kernel user_addr HG eq_refl) as (p & Hp & Epid & Es & Htab & HG1). injection Hp as <-.
  apply g_sched. eapply enqueue_ok; [exact HG1|set_solver|done|done|done|done|done|done].
Qed.

Lemma demo_yield_ready : sched_ready demo_yield.
Proof.
  assert (forall a, ~ in_queue demo_yield QFin a) as HF.
  { intros a (l & Hl & Ha). vm_compute in Hl. injection Hl as <-. set_solver. }
  split; [intros a p H; by destruct (HF a)|intros a b p q H; by destruct (HF a)|]. left. by exists user_addr.
Qed.


(** ** The pointer code *)

(** C3: the kernel whose queues are the links of queue.h and the kernel whose
    queues are lists handle every sequence of events in lock step: when the
    kernel over lists returns, the pointer code returns the same results in
    the same state, with links that represent the lists; when it panics, so
    does the pointer code. *)
Theorem kernel_refines_lists {C : Config} (evs : list event)
    (k : kernel (gmap (node qid Z) (link qid Z))) (k' : LK) :
  set_queues tt k = set_queues tt k' -> Refinement.Rep (queues k) (queues k') ->
  rsim (fun x y => x.1 = y.1 /\ set_queues tt x.2 = set_queues tt y.2 /\ Refinement.Rep (queues x.2) (queues y.2))
    (run evs k) (run evs k').
Proof.
  intros E HR.
  assert (msim (R := Refinement.Rep) (run evs) (run evs)) as Hm.
  { clear. induction evs as [|e evs IH]; simpl; [apply msim_ret|].
    apply msim_bind; [apply msim_step|]. intros r. apply msim_bind; [exact IH|]. intros. apply msim_ret. }
  exact (Hm k k' (conj E HR)).
Qed.

(** The links of the demonstration kernel, built with the macros. *)
Definition demo_links : gmap (node qid Z) (link qid Z) :=
  match Links.queue_add (prio_of demo_kernel) idle_addr QAct
          (Links.init_list_head QWait (Links.init_list_head QFin (Links.init_list_head QAct ∅))) with
  | Ok s => s
  | Err _ => ∅
  end.

Lemma demo_links_rep : Refinement.Rep demo_links (queues demo_kernel).
Proof.
  assert (Refinement.Rep (Links.init_list_head QWait (Links.init_list_head QFin (Links.init_list_head QAct ∅)))
    (<[QWait := []]> (<[QFin := []]> (<[QAct := []]> (∅ : gmap qid (list Z)))))) as HR.
  { repeat (apply Refinement.rep_init_head; [|done]). apply Refinement.rep_start. }
  pose proof (sim_add (prio_of demo_kernel) idle_addr QAct _ _ HR) as H.
  destruct H as (s & E & HR'). unfold demo_links. cbn in E. rewrite E.
  replace (queues demo_kernel) with (<[QAct := [idle_addr]]> (<[QWait := []]> (<[QFin := []]> (<[QAct := []]> (∅ : gmap qid (list Z)))))); [exact HR'|].
  vm_compute. reflexivity.
Qed.

Lemma kernel_refines_lists_witness :
  exists k, run [start_2; Tick] (set_queues demo_links demo_kernel) = Ok ([None; None], k) /\ current_pid k = 2.
Proof.
  pose proof (kernel_refines_lists [start_2; Tick] (set_queues demo_links demo_kernel) demo_kernel eq_refl demo_links_rep) as H.
  destruct (run [start_2; Tick] demo_kernel) as [[r k']|e] eqn:E.
  - destruct H as ([r' k] & Hk & Er & Es & _). simpl in Er, Es. subst r'. exists k.
    assert (fst <$> (match run [start_2; Tick] demo_kernel with Ok x => Some x | Err _ => None end) = Some [None; None]) as E1 by (vm_compute; reflexivity).
    assert (current_pid (final demo_kernel (run [start_2; Tick] demo_kernel)) = 2) as E2 by (vm_compute; reflexivity).
    rewrite E in E1, E2. simpl in E1, E2. injection E1 as ->. split; [exact Hk|].
    transitivity (current_pid k'); [|exact E2]. exact (f_equal current_pid Es).
  - exfalso. assert (returns (run [start_2; Tick] demo_kernel) = true) as E1 by (vm_compute; reflexivity). rewrite E in E1. discriminate E1.
Defined.

(** ** Where the code goes wrong *)

Lemma wake_all_table fuel h f (k : LK) : wp (wake_all fuel h f) (fun _ k' => semaphore_table k' = semaphore_table k) k.
Proof.
  revert k. induction fuel as [|fuel IH]; intros k; simpl; [kstep|]. do 2 kstep. destruct (bool_decide _); [by kstep|].
  kstep. apply wp_queue_out; intros; ksteps; [done|]. eapply wp_mono; [apply IH|]. intros [] k' ->. done.
Qed.

(** [sem] names a semaphore that exists. *)
Definition existing_sem (k : LK) (sem : Z) : Prop := 0 <= sem < NBSEMAPHORE /\ is_Some (semaphore_table k !! sem).

(** Sdelete of a semaphore that exists cannot complete: it clears the entry of
    the semaphore table and then counts the processes waiting in the entry
    (semaphore.c:44), which dereferences the null pointer it has just stored. *)
Theorem sdelete_dereferences_null {C : Config} (k : LK) sem r : existing_sem k sem -> sdelete sem k <> Ok r.
Proof.
  intros [Hs [a Ha]]. destruct r as [r k'].
  assert (wp (sdelete sem) (fun _ _ => False) k) as Hw; [|intros E; exact (wp_Ok _ _ _ _ _ Hw E)].
  unfold sdelete. do 2 kstep. destruct (_ || _) eqn:Eb; [exfalso; lia|]. rewrite Ha. kstep.
  unfold wake_waiting. do 2 kstep. eapply wp_mono; [apply wake_all_table|]. intros [] k1 E1. do 3 kstep.
  unfold __nb_waiting_proc2. do 3 kstep. apply wp_lift_opt. intros b. simpl. by rewrite lookup_delete_eq.
Qed.

Definition demo_sem : LK := final demo_kernel (run [Syscall (SCREATE 1)] demo_kernel).

Lemma sdelete_dereferences_null_witness :
  is_Some (semaphore_table demo_sem !! 0) /\ forall r, sdelete 0 demo_sem <> Ok r.
Proof.
  split; [vm_compute; by eexists|]. intros r.
  apply (sdelete_dereferences_null demo_sem 0). split; [unfold NBSEMAPHORE; lia|]. vm_compute. by eexists.
Defined.

(** Process 1 starts a weaker process 2, kills it, waits for it, and starts a
    stronger process, which gets the pid 2 again and runs for a time slice. *)
Definition reuse_trace : list event :=
  [Syscall (START [97] 16 5 0); Syscall (KILL 2); Syscall (WAITPID 2 0); Syscall (START [97] 16 20 0); Tick; Tick; Tick; Tick].
Definition reuse_state : LK := final demo_kernel (run reuse_trace demo_kernel).

(** A process can lose its context to a dead process of the same pid.  In
    the state this trace reaches, process 2 runs in user mode while the record
    of the former process 2 is in finished_list; the tick that ends the time
    slice takes that record for the current process, saves the context there
    (process.c:651), and gives the processor to process 2 with the registers it
    was created with: the program starts again from its entry point. *)
Theorem reused_pid_restarts_program :
  reachable demo_kernel reuse_state /\ current_pid reuse_state = 2 /\
  (exists k, handle Tick reuse_state = Ok (Resume CStart, k)) /\
  registers <$> (procs reuse_state !! default 0 (process_table reuse_state !! 2)) = Some CStart.
Proof.
  split_and!; [apply (run_reachable _ _ _ (reach_start _)); vm_compute; reflexivity|vm_compute; reflexivity| |vm_compute; reflexivity].
  assert (match handle Tick reuse_state with Ok (Resume CStart, _) => true | _ => false end = true) as H by (vm_compute; reflexivity).
  destruct (handle Tick reuse_state) as [[[v|[]] k]|e]; try discriminate H. by exists k.
Qed.

(** Waitpid for one child is woken by the end of any child: process 1 starts
    processes 2 and 3 and waits for 2; when 3 exits, the father treats 2, which
    runs, as a zombie (process.c:370) and the kernel panics. *)
Theorem waitpid_wrong_child_panics :
  run [Syscall (START [97] 16 5 0); Syscall (START [97] 16 6 0); Syscall (WAITPID 2 0); Syscall (EXIT 0)] demo_kernel
  = Err Panicked.
Proof. vm_compute. reflexivity. Qed.
