(* ===== verification/MessageProps.v ===== *)
(** * What message queues promise

    The ring buffer of a message queue as a list of messages, first in first
    out, and psend and preceive on every branch. *)

From S2P Require Import Prelude Queue Memory Mmu Kernel Process MessageQueue Semaphore System Invariant Preserve Progress KernelProps.
Import ListQueue.

Local Open Scope st_scope.

(** ** The ring buffer *)

(** The indices are in range and the head is [nb_msg] slots after the tail. *)
Record ring_ok (q : MessageQueue) : Prop := {
  ring_capacity : 0 < capacity q;
  ring_length : Z.of_nat (length (buffer q)) = capacity q;
  ring_nb : 0 <= nb_msg q <= capacity q;
  ring_tail : 0 <= msg_tail q < capacity q;
  ring_head : msg_head q = (msg_tail q + nb_msg q) mod capacity q
}.

Definition slot (q : MessageQueue) (i : Z) : Z := nth (Z.to_nat ((msg_tail q + i) mod capacity q)) (buffer q) 0.

(** The messages of the queue, the oldest first. *)
Definition contents (q : MessageQueue) : list Z := slot q <$> seqZ 0 (nb_msg q).

Section Ring.
Implicit Types q : MessageQueue.

Lemma next_index_mod q i : 0 <= i < capacity q -> next_index q i = (i + 1) mod capacity q.
Proof.
  intros Hi. unfold next_index. destruct (Z.ltb_spec (capacity q - 1) (i + 1)).
  - replace (i + 1) with (capacity q) by lia. by rewrite Z.mod_same by lia.
  - by rewrite Z.mod_small by lia.
Qed.

Lemma ring_head_range q : ring_ok q -> 0 <= msg_head q < capacity q.
Proof. intros [Hc _ _ _ ->]. apply Z.mod_pos_bound. lia. Qed.

(** Two slots less than a turn apart are different. *)
Lemma slots_differ c t i j : 0 < c -> 0 <= i < c -> 0 <= j < c -> i <> j -> (t + i) mod c <> (t + j) mod c.
Proof.
  intros Hc Hi Hj Hne E. pose proof (Z.div_mod (t + i) c ltac:(lia)). pose proof (Z.div_mod (t + j) c ltac:(lia)).
  assert (c * ((t + i) / c - (t + j) / c) = i - j) as Ed by lia. clear - Hc Hi Hj Hne Ed.
  generalize dependent ((t + i) / c - (t + j) / c). intros d Ed.
  assert (d = 0 \/ 1 <= d \/ d <= -1) as [->|[?|?]] by lia; [lia|nia|nia].
Qed.

Lemma nth_insert_eq (l : list Z) (i : nat) x d : (i < length l)%nat -> nth i (<[i := x]> l) d = x.
Proof. intros. rewrite nth_lookup. by rewrite list_lookup_insert_eq. Qed.

Lemma nth_insert_ne (l : list Z) (i j : nat) x d : i <> j -> nth j (<[i := x]> l) d = nth j l d.
Proof. intros. rewrite !nth_lookup. by rewrite list_lookup_insert_ne. Qed.

Lemma seqZ_snoc n : 0 <= n -> seqZ 0 (n + 1) = seqZ 0 n ++ [n].
Proof. intros. rewrite seqZ_app by lia. by rewrite Z.add_0_l. Qed.

(** A message is appended. *)
Lemma write_head_ok q m : ring_ok q -> nb_msg q < capacity q ->
  let q' := set_nb_msg (nb_msg q + 1) (write_head q m) in
  ring_ok q' /\ contents q' = contents q ++ [m].
Proof.
  intros HR Hn. pose proof (ring_head_range q HR) as Hh. destruct HR as [Hc Hl Hnb Ht Hhd]. simpl. split.
  - split; simpl; [done|by rewrite length_insert|lia|done|].
    rewrite next_index_mod by lia. rewrite Hhd, Z.add_mod_idemp_l by lia. f_equal. lia.
  - unfold contents. simpl. rewrite seqZ_snoc, fmap_app by lia. f_equal.
    + apply list_fmap_ext. intros i j Hij. apply lookup_seqZ in Hij as [-> Hj]. unfold slot. simpl.
      apply nth_insert_ne. rewrite Hhd. intros E. apply Z2Nat.inj in E; [|apply Z.mod_pos_bound; lia..].
      revert E. apply slots_differ; lia.
    + simpl. unfold slot. simpl. rewrite <- Hhd. f_equal. apply nth_insert_eq. lia.
Qed.

(** The oldest message is removed. *)
Lemma advance_tail_ok q : ring_ok q -> 0 < nb_msg q ->
  let q' := set_nb_msg (nb_msg q - 1) (advance_tail q) in
  ring_ok q' /\ contents q = read_tail q :: contents q'.
Proof.
  intros [Hc Hl Hnb Ht Hhd] Hn. simpl. split.
  - split; simpl; [done|done|lia| |].
    + rewrite next_index_mod by lia. apply Z.mod_pos_bound. lia.
    + rewrite next_index_mod by lia. rewrite Z.add_mod_idemp_l by lia. rewrite Hhd. f_equal. lia.
  - unfold contents. simpl. rewrite (seqZ_cons 0 (nb_msg q)) by lia. simpl. f_equal.
    + unfold slot, read_tail. rewrite Z.add_0_r, Z.mod_small by lia. done.
    + rewrite <- Z.add_1_r, Z.add_0_l, Z.sub_1_r. rewrite <- (fmap_add_seqZ 1 0), <- list_fmap_compose.
      apply list_fmap_ext. intros i j _. unfold compose, slot. simpl. rewrite next_index_mod by lia.
      rewrite Z.add_mod_idemp_l by lia. do 3 f_equal. lia.
Qed.

(** A full ring gives its oldest message and takes a new one. *)
Lemma rotate_ok q m : ring_ok q -> nb_msg q = capacity q ->
  let q' := write_head (advance_tail q) m in
  ring_ok q' /\ exists rest, contents q = read_tail q :: rest /\ contents q' = rest ++ [m].
Proof.
  intros HR Hn. pose proof (ring_capacity q HR). destruct (advance_tail_ok q HR) as [HR1 E1]; [lia|].
  destruct (write_head_ok _ m HR1) as [HR2 E2]; [simpl; lia|].
  assert (set_nb_msg (nb_msg (set_nb_msg (nb_msg q - 1) (advance_tail q)) + 1)
    (write_head (set_nb_msg (nb_msg q - 1) (advance_tail q)) m) = write_head (advance_tail q) m) as E.
  { unfold set_nb_msg, write_head, advance_tail, next_index. simpl. f_equal. lia. }
  rewrite E in HR2, E2. split; [done|]. by exists (contents (set_nb_msg (nb_msg q - 1) (advance_tail q))).
Qed.

Lemma contents_length q : ring_ok q -> Z.of_nat (length (contents q)) = nb_msg q.
Proof. intros [_ _ Hn _ _]. unfold contents. rewrite length_fmap, length_seqZ. lia. Qed.

Lemma fresh_ring fid c b : 0 < c -> let q := mk_msgq fid c 0 0 0 b (replicate (Z.to_nat c) 0) in ring_ok q /\ contents q = [].
Proof. intros Hc. simpl. split; [|done]. split; simpl; try lia; [rewrite length_replicate; lia|by rewrite Z.mod_0_l by lia]. Qed.
End Ring.

(** ** What the scheduler leaves alone *)

Definition ipc_same (k k' : LK) : Prop :=
  msgqs k' = msgqs k /\ queue_table k' = queue_table k /\ sems k' = sems k /\ semaphore_table k' = semaphore_table k.

#[export] Instance ipc_same_preorder : PreOrder ipc_same.
Proof. split; [done|]. intros k1 k2 k3 (? & ? & ? & ?) (? & ? & ? & ?). unfold ipc_same. split_and!; congruence. Qed.

(** A computation that touches no message queue and no semaphore. *)
Definition keeps {A} (m : K (gmap qid (list Z)) A) : Prop := forall k, wp m (fun _ => ipc_same k) k.

Create HintDb keepsdb.

Section Keeps.
Context {C : Config}.
Abbreviation KL := (K (gmap qid (list Z))).

Lemma keeps_ret {A} (a : A) : keeps (ret a).
Proof. intros k. by apply wp_ret. Qed.
Lemma keeps_fail {A} e : keeps (A:=A) (fail e).
Proof. done. Qed.
Lemma keeps_bind {A B} (m : KL A) (f : A -> KL B) : keeps m -> (forall a, keeps (f a)) -> keeps (bind m f).
Proof.
  intros Hm Hf k. apply wp_bind. eapply wp_mono; [apply Hm|]. intros a k1 H1.
  eapply wp_mono; [apply Hf|]. intros b k2 H2. by transitivity k1.
Qed.
Lemma keeps_gets {A} (f : LK -> A) : keeps (gets f).
Proof. intros k. by apply wp_gets. Qed.
Lemma keeps_modify f : (forall k, ipc_same k (f k)) -> keeps (modify f).
Proof. intros Hf k. by apply wp_modify. Qed.
Lemma keeps_lift_opt {A} e (o : option A) : keeps (lift_opt e o).
Proof. destruct o; [apply keeps_ret|apply keeps_fail]. Qed.
Lemma keeps_proc a : keeps (proc a).
Proof. intros k. by kstep. Qed.
Lemma keeps_process_at a : keeps (process_at a).
Proof. intros k. by kstep. Qed.
Lemma keeps_current : keeps current.
Proof. intros k. by kstep. Qed.
Lemma keeps_upd_proc a f : keeps (upd_proc a f).
Proof. intros k. by kstep. Qed.
Lemma keeps_lift_mmu {A} (m : MMU A) : keeps (lift_mmu m).
Proof. intros k. by kstep. Qed.
Lemma keeps_queue_add a h : keeps (queue_add a h).
Proof. intros k. by kstep. Qed.
Lemma keeps_queue_del a : keeps (queue_del a).
Proof. intros k. by kstep. Qed.
Lemma keeps_queue_out h : keeps (queue_out h).
Proof. intros k. by apply wp_queue_out. Qed.
Lemma keeps_queue_top h : keeps (queue_top h).
Proof. intros k. by kstep. Qed.
Lemma keeps_queue_empty h : keeps (queue_empty h).
Proof. intros k. by kstep. Qed.
Lemma keeps_queue_elems h : keeps (queue_elems h).
Proof. intros k. by kstep. Qed.
Lemma keeps_mem_free a n : keeps (mem_free a n).
Proof. intros k. unfold wp, mem_free. destruct (n =? 0); [done|]. by destruct (bool_decide _). Qed.
Lemma keeps_find_proc test l : keeps (find_proc test l).
Proof. intros k. by apply find_proc_spec. Qed.
Lemma keeps_for_each {A} (l : list A) f : (forall x, keeps (f x)) -> keeps (for_each l f).
Proof. intros Hf. induction l; simpl; [apply keeps_ret|by apply keeps_bind]. Qed.
End Keeps.

#[export] Hint Resolve keeps_ret keeps_fail keeps_gets keeps_lift_opt keeps_proc keeps_process_at keeps_current keeps_upd_proc
  keeps_lift_mmu keeps_queue_add keeps_queue_del keeps_queue_out keeps_queue_top keeps_queue_empty keeps_queue_elems
  keeps_mem_free keeps_find_proc : keepsdb.

Ltac keeps_auto :=
  repeat first
    [ progress (apply keeps_bind; [|intros ?])
    | solve [auto with keepsdb]
    | solve [apply keeps_modify; intros; done]
    | match goal with |- keeps (match ?x with _ => _ end) => destruct x end ].

Section KeepsOps.
Context {C : Config}.

Lemma keeps_free_process p : keeps (__free_process p).
Proof. unfold __free_process. keeps_auto. Qed.
Hint Resolve keeps_free_process : keepsdb.

Lemma keeps_free_all n : keeps (free_all_finished n).
Proof. induction n; simpl; keeps_auto. Qed.
Hint Resolve keeps_free_all : keepsdb.

Lemma keeps_wakeup : keeps __wakeup_process.
Proof. apply keeps_for_each. intros i. unfold wakeup_one, current_clock. keeps_auto. Qed.
Hint Resolve keeps_wakeup : keepsdb.

Lemma keeps_ctx_sw a b c : keeps (virtual_ctx_sw a b c).
Proof. unfold virtual_ctx_sw. keeps_auto. Qed.
Hint Resolve keeps_ctx_sw : keepsdb.

Lemma keeps_scheduler c : keeps (__scheduler c).
Proof. unfold __scheduler, __free_finished_process. keeps_auto. Qed.
Hint Resolve keeps_scheduler : keepsdb.

Lemma keeps_yield c : keeps (yield_cpu c).
Proof. unfold yield_cpu. keeps_auto. Qed.
End KeepsOps.

(** ** psend and preceive *)

Section MessageOps.
Context {C : Config}.
Implicit Types k : LK.

(** The queue [fid] names, its ring and the processes that wait on it. *)
Record message_queue k (fid qa : Z) (q : MessageQueue) (waiting : list Z) : Prop := {
  mq_fid : 0 <= fid < NBQUEUE;
  mq_table : queue_table k !! fid = Some qa;
  mq_queue : msgqs k !! qa = Some q;
  mq_ring : ring_ok q;
  mq_waiting : queues k !! QMsg qa = Some waiting
}.

Lemma valid_fid_ok k fid qa q l : message_queue k fid qa q l -> valid_fid fid k = Ok (Some qa, k).
Proof.
  intros [Hf Ht _ _ _]. unfold valid_fid, gets. unfold NBQUEUE in *.
  destruct (Z.ltb_spec fid 0); [lia|]. destruct (Z.ltb_spec (10 - 1) fid); [lia|]. by rewrite Ht.
Qed.

Lemma msgq_ok k fid qa q l : message_queue k fid qa q l -> msgq qa k = Ok (q, k).
Proof. intros [_ _ Hq _ _]. unfold msgq. by rewrite Hq. Qed.

(** C12: psend on a queue with room, and with no receiver waiting for a first
    message, returns 0 at once; the message is appended to the messages of
    the queue, and only the sender's [message] field changes besides. *)
Theorem psend_appends k fid m qa q waiting a p :
  message_queue k fid qa q waiting -> process_table k !! current_pid k = Some a -> procs k !! a = Some p ->
  nb_msg q < capacity q -> nb_msg q <> 0 \/ waiting = [] ->
  exists q', psend fid m k = Ok (Return 0,
      set_msgqs (<[qa := q']> (msgqs k)) (set_procs (<[a := set_message m p]> (procs k)) k)) /\
    ring_ok q' /\ contents q' = contents q ++ [m].
Proof.
  intros HM Ha Hp Hn Hw. destruct (write_head_ok q m (mq_ring _ _ _ _ _ HM) Hn) as [HR HE].
  exists (set_nb_msg (nb_msg q + 1) (write_head q m)). split; [|done].
  unfold psend, bind. rewrite (valid_fid_ok _ _ _ _ _ HM). unfold current, process_at. rewrite Ha. simpl.
  unfold upd_proc, proc, bind. rewrite Hp. simpl. unfold msgq. simpl. rewrite (mq_queue _ _ _ _ _ HM). simpl.
  unfold queue_empty, lift_res. simpl. rewrite (mq_waiting _ _ _ _ _ HM). simpl.
  destruct ((nb_msg q =? 0) && negb (bool_decide (waiting = []))) eqn:E1.
  { destruct (Z.eqb_spec (nb_msg q) 0), Hw as [| ->]; try done. }
  destruct (Z.eqb_spec (nb_msg q) (capacity q)); [lia|]. done.
Qed.

(** C13: preceive on a queue that has messages, and is not full with a sender
    waiting, returns 0; it stores the oldest message at the given address
    (if it is not null) and removes it, and the other messages keep their
    order. *)
Theorem preceive_takes_oldest k k1 fid va qa q waiting :
  message_queue k fid qa q waiting -> 0 < nb_msg q -> nb_msg q < capacity q \/ waiting = [] ->
  store_if va (read_tail q) k = Ok (tt, k1) ->
  exists q', preceive fid va k = Ok (Return 0, set_msgqs (<[qa := q']> (msgqs k)) k1) /\
    ring_ok q' /\ contents q = read_tail q :: contents q'.
Proof.
  intros HM Hn Hw Hst. destruct (advance_tail_ok q (mq_ring _ _ _ _ _ HM) Hn) as [HR HE].
  exists (set_nb_msg (nb_msg q - 1) (advance_tail q)). split; [|done].
  assert (exists v, k1 = set_vm v k) as [v ->].
  { unfold store_if in Hst. destruct (va =? 0); [exists (vm k); injection Hst as <-; by destruct k|].
    unfold lift_mmu in Hst. destruct (store_user32 _ _ _) as [[x v]|]; [|done]. exists v. by injection Hst as _ <-. }
  unfold preceive, bind. rewrite (valid_fid_ok _ _ _ _ _ HM), (msgq_ok _ _ _ _ _ HM).
  destruct (Z.ltb_spec 0 (nb_msg q)); [|lia]. rewrite Hst. simpl.
  unfold queue_empty, lift_res. simpl. rewrite (mq_waiting _ _ _ _ _ HM). simpl.
  destruct ((nb_msg q =? capacity q) && negb (bool_decide (waiting = []))) eqn:E1.
  { destruct (Z.eqb_spec (nb_msg q) (capacity q)), Hw as [| ->]; try done. lia. }
  unfold put_msgq, modify. simpl. rewrite insert_insert_eq. done.
Qed.


End MessageOps.

(** ** Concrete queues *)

(** A queue of two messages; with a message; full, with process 1 waiting to
    send and process 2 running; empty, with process 1 waiting to receive. *)
Definition demo_queue : LK := final demo_kernel (run [Syscall (PCREATE 2)] demo_kernel).
Definition demo_one : LK := final demo_kernel (run [Syscall (PCREATE 2); Syscall (PSEND 0 7)] demo_kernel).
Definition demo_full : LK := final demo_kernel
  (run [Syscall (PCREATE 1); Syscall (START [97] 16 5 0); Syscall (PSEND 0 7); Syscall (PSEND 0 8)] demo_kernel).
Definition demo_waiting : LK := final demo_kernel
  (run [Syscall (PCREATE 1); Syscall (START [97] 16 5 0); Syscall (PRECEIVE 0 0)] demo_kernel).

Definition queue_0 (k : LK) : Z := default 0 (queue_table k !! 0).
Definition ring_0 (k : LK) : MessageQueue := default (mk_msgq 0 0 0 0 0 0 []) (msgqs k !! queue_0 k).
Definition running (k : LK) : Z := default 0 (process_table k !! current_pid k).
Definition record_of (k : LK) (a : Z) : Process := default idle_proc (procs k !! a).

(** A closed fact, by computation. *)
Ltac by_computation := vm_compute; repeat split; first [reflexivity | discriminate].

Lemma psend_appends_witness :
  exists q' k', psend 0 7 demo_queue = Ok (Return 0, k') /\ msgqs k' !! queue_0 demo_queue = Some q' /\ contents q' = [7].
Proof.
  destruct (psend_appends demo_queue 0 7 (queue_0 demo_queue) (ring_0 demo_queue) [] user_addr user_proc)
    as (q' & E & _ & Ec).
  - split; [by_computation..|split; by_computation|by_computation].
  - by_computation.
  - by_computation.
  - by_computation.
  - by right.
  - exists q'. eexists. split; [exact E|]. split; [apply lookup_insert_eq|]. rewrite Ec. by_computation.
Defined.

Lemma preceive_takes_oldest_witness :
  exists q' k', preceive 0 0 demo_one = Ok (Return 0, k') /\ msgqs k' !! queue_0 demo_one = Some q' /\ 7 :: contents q' = [7].
Proof.
  destruct (preceive_takes_oldest demo_one demo_one 0 0 (queue_0 demo_one) (ring_0 demo_one) []) as (q' & E & _ & Ec).
  - split; [by_computation..|split; by_computation|by_computation].
  - by_computation.
  - by right.
  - reflexivity.
  - exists q'. eexists. split; [exact E|]. split; [apply lookup_insert_eq|].
    transitivity (contents (ring_0 demo_one)); [rewrite Ec; f_equal; by_computation|by_computation].
Defined.


