(* ===== verification/SemaphoreProps.v ===== *)
(** * What semaphores promise

    The count of a semaphore and the processes that wait on it balance each
    other in every state the kernel reaches: a negative count is the number of
    waiting processes.  Most of the kernel does not touch semaphores; [quiet]
    says so of a computation, and a database of hints proves it.  The rest of
    the file is about the operations that do. *)

From S2P Require Import Prelude Queue Memory Mmu Kernel Process MessageQueue Semaphore System Invariant Preserve Progress KernelProps.
Import ListQueue.

Local Open Scope st_scope.

(** ** What leaves semaphores alone *)

Definition sem_same (k k' : LK) : Prop :=
  sems k' = sems k /\ semaphore_table k' = semaphore_table k /\ forall a, queues k' !! QSem a = queues k !! QSem a.

#[export] Instance sem_same_preorder : PreOrder sem_same.
Proof.
  split; [done|]. intros k1 k2 k3 (E1 & E2 & E3) (F1 & F2 & F3). split_and!; [congruence..|]. intros a. by rewrite F3.
Qed.

(** No process is in two queues. *)
Definition one_queue (k : LK) : Prop := forall h h' b, in_queue k h b -> in_queue k h' b -> h = h'.

Definition quiet {A} (m : K (gmap qid (list Z)) A) : Prop :=
  forall k, one_queue k -> wp m (fun _ k' => one_queue k' /\ sem_same k k') k.

(** The queue is not that of a semaphore. *)
Definition other_queue (h : qid) : Prop := match h with QSem _ => False | _ => True end.

Create HintDb quietdb.

Section OneQueue.
Implicit Types k : LK.

Lemma one_queue_add k a h l : one_queue k -> queues k !! h = Some l -> ~ queued a (queues k) ->
  one_queue (set_queues (<[h := insert_prio (prio_of k) a l]> (queues k)) k).
Proof.
  intros HO Hl Hn h1 h2 b. rewrite !(in_queue_add k a h l) by done.
  intros [H1|[-> ->]] [H2|[-> E]]; try (subst; done); [by eapply HO|..]; subst; destruct Hn; apply queued_in_queue; eauto.
Qed.

Lemma one_queue_del k a : one_queue k -> one_queue (set_queues (remove a <$> queues k) k).
Proof. intros HO h1 h2 b. rewrite !in_queue_remove. intros [? _] [? _]. by eapply HO. Qed.

Lemma one_queue_out k h l : one_queue k -> queues k !! h = Some l ->
  one_queue (set_queues (<[h := removelast l]> (queues k)) k).
Proof.
  intros HO Hl.
  assert (forall h' b, in_queue (set_queues (<[h := removelast l]> (queues k)) k) h' b -> in_queue k h' b) as Hin.
  { intros h' b (l' & Hl' & Hb). simpl in Hl'. rewrite lookup_insert in Hl'. case_decide; [|by exists l'].
    subst h'. injection Hl' as <-. exists l. split; [done|].
    apply list_elem_of_In. apply list_elem_of_In in Hb. destruct (decide (l = [])) as [->|Hne]; [done|].
    rewrite (app_removelast_last 0 Hne). apply in_app_iff. by left. }
  intros h1 h2 b H1%Hin H2%Hin. by eapply HO.
Qed.

(** Taking out a process that waits elsewhere does not touch a semaphore. *)
Lemma del_elsewhere k a h s : one_queue k -> in_queue k h a -> h <> QSem s ->
  remove a <$> queues k !! QSem s = queues k !! QSem s.
Proof.
  intros HO Ha Hne. destruct (queues k !! QSem s) as [l|] eqn:E; [|done]. simpl. f_equal. apply Refinement.remove_absent.
  intros Hin. apply Hne. apply (HO h (QSem s) a); [done|]. by exists l.
Qed.

Lemma remove_length (a : Z) l : NoDup l -> a ∈ l -> length l = S (length (remove a l)).
Proof.
  intros Hnd Ha. apply list_elem_of_split in Ha as (l1 & l2 & ->).
  assert (a ∉ l1 ++ l2) as Hn by (rewrite <- Permutation_middle in Hnd; by apply NoDup_cons in Hnd as [? _]).
  rewrite Refinement.remove_middle, !length_app by done. simpl. lia.
Qed.
End OneQueue.

Section Quiet.
Context {C : Config}.
Abbreviation KL := (K (gmap qid (list Z))).

Lemma still_ret {A} (a : A) : quiet (ret a).
Proof. intros k HO. by apply wp_ret. Qed.
Lemma quiet_fail {A} e : quiet (A:=A) (fail e).
Proof. done. Qed.
Lemma still_bind {A B} (m : KL A) (f : A -> KL B) : quiet m -> (forall a, quiet (f a)) -> quiet (bind m f).
Proof.
  intros Hm Hf k HO. apply wp_bind. eapply wp_mono; [by apply Hm|]. intros a k1 [HO1 H1].
  eapply wp_mono; [by apply Hf|]. intros b k2 [HO2 H2]. split; [done|]. by transitivity k1.
Qed.
Lemma still_gets {A} (f : LK -> A) : quiet (gets f).
Proof. intros k HO. by apply wp_gets. Qed.
Lemma still_modify f : (forall k, queues (f k) = queues k /\ sems (f k) = sems k /\ semaphore_table (f k) = semaphore_table k) ->
  quiet (modify f).
Proof.
  intros Hf k HO. apply wp_modify. destruct (Hf k) as (E1 & E2 & E3). unfold one_queue, in_queue, sem_same.
  by rewrite E1.
Qed.
Lemma quiet_lift_opt {A} e (o : option A) : quiet (lift_opt e o).
Proof. destruct o; [apply still_ret|apply quiet_fail]. Qed.
Lemma quiet_proc a : quiet (proc a).
Proof. intros k HO. by kstep. Qed.
Lemma quiet_process_at a : quiet (process_at a).
Proof. intros k HO. by kstep. Qed.
Lemma quiet_current : quiet current.
Proof. intros k HO. by kstep. Qed.
Lemma quiet_upd_proc a f : quiet (upd_proc a f).
Proof. intros k HO. by kstep. Qed.
Lemma quiet_put_proc a p : quiet (put_proc a p).
Proof. intros k HO. by kstep. Qed.
Lemma quiet_msgq a : quiet (msgq a).
Proof. intros k HO. by kstep. Qed.
Lemma quiet_put_msgq a q : quiet (put_msgq a q).
Proof. intros k HO. by kstep. Qed.
Lemma quiet_semaphore a : quiet (semaphore a).
Proof. intros k HO. by kstep. Qed.
Lemma quiet_lift_mmu {A} (m : MMU A) : quiet (lift_mmu m).
Proof. intros k HO. by kstep. Qed.
Lemma quiet_queue_top h : quiet (queue_top h).
Proof. intros k HO. by kstep. Qed.
Lemma quiet_queue_empty h : quiet (queue_empty h).
Proof. intros k HO. by kstep. Qed.
Lemma quiet_queue_elems h : quiet (queue_elems h).
Proof. intros k HO. by kstep. Qed.
Lemma quiet_queue_initialized a : quiet (queue_initialized a).
Proof. intros k HO. by kstep. Qed.
Lemma quiet_mem_alloc n o : quiet (mem_alloc n o).
Proof.
  intros k HO. unfold wp, mem_alloc. destruct (n =? 0); [done|]. destruct (_ <=? n); [done|]. by destruct (malloc _ _).
Qed.
Lemma quiet_mem_free a n : quiet (mem_free a n).
Proof. intros k HO. unfold wp, mem_free. destruct (n =? 0); [done|]. by destruct (bool_decide _). Qed.
Lemma quiet_find_proc test l : quiet (find_proc test l).
Proof. intros k HO. by apply find_proc_spec. Qed.
Lemma quiet_for_each {A} (l : list A) f : (forall x, quiet (f x)) -> quiet (for_each l f).
Proof. intros Hf. induction l; simpl; [apply still_ret|by apply still_bind]. Qed.

Lemma quiet_queue_add a h : other_queue h -> quiet (queue_add a h).
Proof.
  intros Hh k HO. kstep. split; [by apply one_queue_add|]. split_and!; [done..|]. intros s. simpl.
  rewrite lookup_insert_ne; [done|]. by intros ->.
Qed.
Lemma quiet_queue_out h : other_queue h -> quiet (queue_out h).
Proof.
  intros Hh k HO. apply wp_queue_out; [done|]. intros l e Hl _. split; [by apply one_queue_out|].
  split_and!; [done..|]. intros s. simpl. rewrite lookup_insert_ne; [done|]. by intros ->.
Qed.
Lemma quiet_init_list_head h : other_queue h -> quiet (init_list_head h).
Proof.
  intros Hh k HO. kstep. split.
  - assert (forall h' b, in_queue (set_queues (<[h := []]> (queues k)) k) h' b -> in_queue k h' b) as Hin.
    { intros h' b (l & Hl & Hb). simpl in Hl. rewrite lookup_insert in Hl. case_decide; [|by exists l].
      injection Hl as <-. by apply not_elem_of_nil in Hb. }
    intros h1 h2 b H1%Hin H2%Hin. by eapply HO.
  - split_and!; [done..|]. intros s. simpl. rewrite lookup_insert_ne; [done|]. by intros ->.
Qed.

(** A process found in a queue is taken out of it. *)
Lemma quiet_del_found k h l a : one_queue k -> other_queue h -> queues k !! h = Some l -> a ∈ l ->
  wp (queue_del a) (fun _ k' => one_queue k' /\ sem_same k k') k.
Proof.
  intros HO Hh Hl Ha. kstep. split; [by apply one_queue_del|]. split_and!; [done..|]. intros s. simpl. rewrite lookup_fmap.
  apply (del_elsewhere k a h); [done|by exists l|]. by intros ->.
Qed.
End Quiet.

#[export] Hint Resolve still_ret quiet_fail still_gets quiet_lift_opt quiet_proc quiet_process_at quiet_current quiet_upd_proc
  quiet_put_proc quiet_msgq quiet_put_msgq quiet_semaphore quiet_lift_mmu quiet_queue_top quiet_queue_empty quiet_queue_elems
  quiet_queue_initialized quiet_mem_alloc quiet_mem_free quiet_find_proc : quietdb.
#[export] Hint Extern 1 (quiet (queue_add _ _)) => apply quiet_queue_add; exact I : quietdb.
#[export] Hint Extern 1 (quiet (queue_out _)) => apply quiet_queue_out; exact I : quietdb.
#[export] Hint Extern 1 (quiet (init_list_head _)) => apply quiet_init_list_head; exact I : quietdb.

Ltac quiet_auto :=
  repeat first
    [ solve [auto with quietdb]
    | match goal with |- quiet (bind _ _) => apply still_bind; [|intros ?] end
    | solve [apply still_modify; intros; done]
    | match goal with |- quiet (match ?x with _ => _ end) => destruct x end ].

Section QuietOps.
Context {C : Config}.

Lemma quiet_free_process p : quiet (__free_process p).
Proof. unfold __free_process. quiet_auto. Qed.
Hint Resolve quiet_free_process : quietdb.

Lemma quiet_free_all n : quiet (free_all_finished n).
Proof. induction n; simpl; quiet_auto. Qed.
Hint Resolve quiet_free_all : quietdb.

(** What is left of a computation after a process was found in a queue and
    taken out of it. *)
Lemma quiet_after_del {A} k h l a (f : unit -> K (gmap qid (list Z)) A) : one_queue k -> other_queue h ->
  queues k !! h = Some l -> a ∈ l -> quiet (f tt) ->
  wp (bind (queue_del a) f) (fun _ k' => one_queue k' /\ sem_same k k') k.
Proof.
  intros HO Hh Hl Ha Hf. kstep. eapply wp_mono; [by eapply quiet_del_found|]. intros [] k1 [HO1 H1].
  eapply wp_mono; [by apply Hf|]. intros x k2 [HO2 H2]. split; [done|]. by transitivity k1.
Qed.

Lemma quiet_free_finished : quiet __free_finished_process.
Proof.
  intros k HO. unfold __free_finished_process. do 5 kstep. apply find_proc_spec. intros [c|] Hf.
  - destruct Hf as (p & Hc & _). apply (quiet_after_del k QFin l c); [done..|]. quiet_auto.
  - revert k HO Hf H. intros k HO _ _. kstep. kstep.
    assert (quiet (do! free_all_finished (S (length l)) in ret tt)) as Hq by quiet_auto. by apply Hq.
Qed.
Hint Resolve quiet_free_finished : quietdb.

Lemma quiet_wakeup : quiet __wakeup_process.
Proof. apply quiet_for_each. intros i. unfold wakeup_one, current_clock. quiet_auto. Qed.
Hint Resolve quiet_wakeup : quietdb.

Lemma quiet_ctx_sw a b c : quiet (virtual_ctx_sw a b c).
Proof. unfold virtual_ctx_sw. quiet_auto. Qed.
Hint Resolve quiet_ctx_sw : quietdb.

Lemma quiet_scheduler c : quiet (__scheduler c).
Proof. unfold __scheduler. quiet_auto. Qed.
Hint Resolve quiet_scheduler : quietdb.

Lemma quiet_yield c : quiet (yield_cpu c).
Proof. unfold yield_cpu. quiet_auto. Qed.
Hint Resolve quiet_yield : quietdb.

Lemma quiet_awake_father i : quiet (__awake_father i).
Proof.
  intros k HO. unfold __awake_father. do 4 kstep. kstep. destruct (process_table k !! i) as [a|]; [|kstep].
  kstep. kstep. apply find_proc_spec. intros [c|] Hf; [|by kstep]. destruct Hf as (q & Hc & _).
  apply (quiet_after_del k QWait l c); [done..|]. quiet_auto.
Qed.
Hint Resolve quiet_awake_father : quietdb.

Lemma quiet_finish_fatherless i : quiet (__finish_fatherless i).
Proof. unfold __finish_fatherless. quiet_auto. Qed.
Hint Resolve quiet_finish_fatherless : quietdb.

Lemma quiet_process_end i c : quiet (__process_end i c).
Proof.
  unfold __process_end. quiet_auto. apply quiet_for_each. intros x. unfold orphan_child. quiet_auto.
Qed.
Hint Resolve quiet_process_end : quietdb.

Lemma quiet_finish_zombie i r : quiet (__finish_zombie i r).
Proof. unfold __finish_zombie, __remove_from_children. quiet_auto. Qed.
Hint Resolve quiet_finish_zombie : quietdb.

Lemma quiet_find_zombie l : quiet (find_zombie l).
Proof. induction l; simpl; quiet_auto. Qed.
Hint Resolve quiet_find_zombie : quietdb.

Lemma quiet_waitpid i r : quiet (waitpid i r).
Proof. unfold waitpid, wait_for_child. quiet_auto. Qed.

Lemma quiet_exit v : quiet (exit v).
Proof. unfold exit, getpid. quiet_auto. Qed.

Lemma quiet_wait_clock w : quiet (wait_clock w).
Proof. unfold wait_clock. quiet_auto. Qed.

Lemma quiet_start nm s p a : quiet (start nm s p a).
Proof. unfold start, get_symbol_from_name, __get_free_pid, add_child, elect_or_queue, preempts. quiet_auto. Qed.

Lemma quiet_wake_all n h f : other_queue h -> quiet (wake_all n h f).
Proof.
  intros Hh. induction n; simpl; [apply quiet_fail|]. quiet_auto. by apply quiet_queue_out.
Qed.

Lemma quiet_wake_waiting h f : other_queue h -> quiet (wake_waiting h f).
Proof. intros Hh. unfold wake_waiting. quiet_auto; by apply quiet_wake_all. Qed.
Hint Extern 1 (quiet (wake_waiting _ _)) => apply quiet_wake_waiting; exact I : quietdb.

Lemma quiet_store_if v x : quiet (store_if v x).
Proof. unfold store_if. quiet_auto. Qed.
Hint Resolve quiet_store_if : quietdb.

Lemma quiet_pdelete i : quiet (pdelete i).
Proof. unfold pdelete, valid_fid. quiet_auto. Qed.
Lemma quiet_pcreate n : quiet (pcreate n).
Proof. unfold pcreate, __get_free_fid. quiet_auto. Qed.
Lemma quiet_psend i m : quiet (psend i m).
Proof. unfold psend, valid_fid. quiet_auto. Qed.
Lemma quiet_preceive i m : quiet (preceive i m).
Proof. unfold preceive, valid_fid. quiet_auto. Qed.
Lemma quiet_preset i : quiet (preset i).
Proof. unfold preset, valid_fid. quiet_auto. Qed.
Lemma quiet_pcount i v : quiet (pcount i v).
Proof. unfold pcount, valid_fid, __nb_waiting_proc. quiet_auto. Qed.
Lemma quiet_getprio i : quiet (getprio i).
Proof. unfold getprio, __is_valid_pid. quiet_auto. Qed.
Lemma quiet_scount i : quiet (scount i).
Proof. unfold scount, valid_sem. quiet_auto. Qed.
Lemma quiet_tic_PIT : quiet tic_PIT.
Proof. unfold tic_PIT, count_tick, schedule_tick. quiet_auto. Qed.

Lemma quiet_resume c : (forall s, c <> CSemWait s) -> quiet (resume c).
Proof.
  intros Hc. destruct c; simpl; unfold new_process_start_function, start_resume, waitpid_resume, psend_resume,
    preceive_resume, unless_skipped; quiet_auto. by destruct (Hc s).
Qed.
End QuietOps.

(** ** The balance of a semaphore *)

(** The processes that wait on the semaphore at [a], the next one to be served
    last. *)
Definition waiting_on (k : LK) (a : Z) : list Z := default [] (queues k !! QSem a).

(** A count below zero is the number of processes that wait; [d] of them are
    about to be made activable. *)
Definition balanced_by (d : Z) (k : LK) (a : Z) (s : Semaphore) : Prop :=
  Z.of_nat (length (waiting_on k a)) = Z.max 0 (- count s) + d /\ - SEMAPHORE_MAX_SIZE <= count s <= SEMAPHORE_MAX_SIZE.

(** Every semaphore is balanced, but for one process of [x] that is still to
    be made activable. *)
Definition Balanced (x : option Z) (k : LK) : Prop :=
  one_queue k /\ forall a s, sems k !! a = Some s -> balanced_by (if decide (x = Some a) then 1 else 0) k a s.

Section Balance.
Context {C : Config}.
Implicit Types (k : LK) (s : Semaphore).

Lemma s16_small z : - SEMAPHORE_MAX_SIZE - 1 <= z <= SEMAPHORE_MAX_SIZE -> s16 z = z.
Proof. intros. unfold SEMAPHORE_MAX_SIZE in *. apply swrap_small; lia. Qed.

Lemma balanced_same x k k' : Balanced x k -> one_queue k' -> sem_same k k' -> Balanced x k'.
Proof.
  intros [_ HB] HO (E1 & _ & E3). split; [done|]. intros a s. rewrite E1. intros Hs.
  unfold balanced_by, waiting_on. rewrite E3. by apply HB.
Qed.

Lemma quiet_balanced {A} x (m : K (gmap qid (list Z)) A) k : quiet m -> Balanced x k -> wp m (fun _ => Balanced x) k.
Proof.
  intros Hm HB. eapply wp_mono; [apply Hm, HB|]. intros r k' [HO HS]. by eapply balanced_same.
Qed.

(** The record of one semaphore changes. *)
Lemma balanced_put x y k a s' : Balanced x k -> (forall b, b <> a -> (x = Some b <-> y = Some b)) ->
  balanced_by (if decide (y = Some a) then 1 else 0) k a s' -> Balanced y (set_sems (<[a := s']> (sems k)) k).
Proof.
  intros [HO HB] Hxy Ha. split; [done|]. intros b s. simpl. destruct (decide (a = b)) as [<-|E].
  - rewrite lookup_insert_eq. by intros [= <-].
  - rewrite lookup_insert_ne by done. intros Hs. specialize (HB b s Hs). destruct (Hxy b (not_eq_sym E)) as [H1 H2].
    repeat case_decide; first [exact HB|exfalso; auto].
Qed.

(** Fields other than the count. *)
Lemma balanced_flag x k a f : Balanced x k -> (forall s, count (f s) = count s) -> wp (upd_sem a f) (fun _ => Balanced x) k.
Proof.
  intros HB Hf. apply wp_upd_sem. intros s Hs. eapply balanced_put; [done|done|].
  unfold balanced_by. rewrite Hf. by apply HB.
Qed.

(** One more unit: it is for a process that waits, if there is one. *)
Lemma balanced_up k a s : Balanced None k -> sems k !! a = Some s -> count s < SEMAPHORE_MAX_SIZE ->
  Balanced (if count s + 1 <=? 0 then Some a else None) (set_sems (<[a := set_count (count s + 1) s]> (sems k)) k).
Proof.
  intros HB Hs Hc. destruct (proj2 HB a s Hs) as [HL HR]. rewrite decide_False in HL by done.
  assert (s16 (count s + 1) = count s + 1) as E by (apply s16_small; lia).
  eapply balanced_put; [done|destruct (Z.leb_spec (count s + 1) 0); naive_solver|].
  unfold balanced_by. simpl. rewrite E. destruct (Z.leb_spec (count s + 1) 0); [rewrite decide_True by done|]; simpl; lia.
Qed.

(** One unit less, that of a process that will wait, or of none. *)
Lemma balanced_down k a s : Balanced None k -> sems k !! a = Some s -> 0 < count s ->
  Balanced None (set_sems (<[a := set_count (count s - 1) s]> (sems k)) k).
Proof.
  intros HB Hs Hc. destruct (proj2 HB a s Hs) as [HL HR]. rewrite decide_False in HL by done.
  assert (s16 (count s - 1) = count s - 1) as E by (apply s16_small; lia).
  eapply balanced_put; [done|done|]. unfold balanced_by. simpl. rewrite E. lia.
Qed.

(** The first waiting process is taken out. *)
Lemma wake_one_balanced k a : Balanced (Some a) k ->
  wp (wake_one a) (fun _ k' => Balanced None k' /\ sems k' = sems k) k.
Proof.
  intros HB. unfold wake_one. kstep. apply wp_queue_out; [intros; by do 2 kstep|]. intros l w Hl Hla.
  kstep. apply wp_lift_opt. intros ? [= <-]. do 3 kstep. simpl in H0. rewrite lookup_insert_ne in H0 by done. split; [|done].
  assert (one_queue (set_queues (<[QSem a := removelast l]> (queues k)) k)) as HO by (apply one_queue_out; [apply HB|done]).
  split.
  - apply (one_queue_add (set_procs (<[w := set_state ACTIVABLE p]> (procs k)) (set_queues (<[QSem a := removelast l]> (queues k)) k))); try done.
    simpl. by rewrite lookup_insert_ne.
  - intros b s Hs. pose proof (proj2 HB b s Hs) as HBb. rewrite decide_False by done. unfold balanced_by, waiting_on in *.
    simpl. rewrite lookup_insert_ne by done. destruct (decide (a = b)) as [<-|E].
    + rewrite lookup_insert_eq. rewrite decide_True, Hl in HBb by done. simpl in *.
      assert (exists l', l = l' ++ [w]) as [l' ->] by (by apply last_Some). rewrite removelast_last, length_app in *. simpl in *. lia.
    + rewrite lookup_insert_ne by congruence. rewrite decide_False in HBb by congruence. done.
Qed.

Lemma signal_balanced k i : Balanced None k -> wp (signal i) (fun _ => Balanced None) k.
Proof.
  intros HB. unfold signal. do 2 kstep. case_valid a Ev; [|by kstep]. do 2 kstep.
  destruct (Z.leb_spec SEMAPHORE_MAX_SIZE (count s)) as [|Hc]; [by kstep|]. kstep. apply wp_upd_sem. intros s' Hs'.
  rewrite H in Hs'. injection Hs' as <-. pose proof (balanced_up k a s HB H Hc) as HB1.
  pose proof (proj2 (proj2 HB a s H)) as HR.
  do 2 kstep. simpl in H0. rewrite lookup_insert_eq in H0. injection H0 as <-. simpl count. rewrite s16_small by lia.
  destruct (count s + 1 <=? 0); [|by kstep].
  kstep. eapply wp_mono; [by apply balanced_flag|]. intros [] k2 HB2.
  kstep. eapply wp_mono; [by apply wake_one_balanced|]. intros [] k3 [HB3 _]. by apply quiet_balanced; [apply quiet_yield|].
Qed.

Lemma signaln_loop_balanced n k a : Balanced None k ->
  (forall s, sems k !! a = Some s -> count s + Z.of_nat n <= SEMAPHORE_MAX_SIZE) ->
  wp (signaln_loop n a) (fun _ => Balanced None) k.
Proof.
  revert k. induction n as [|n IH]; intros k HB Hn; simpl; [by kstep|]. do 2 kstep. specialize (Hn s H).
  kstep. apply wp_upd_sem. intros s' Hs'. rewrite H in Hs'. injection Hs' as <-.
  pose proof (balanced_up k a s HB H ltac:(lia)) as HB1. pose proof (proj2 (proj2 HB a s H)) as HR.
  do 2 kstep. simpl in H0. rewrite lookup_insert_eq in H0. injection H0 as <-. simpl count. rewrite s16_small by lia.
  kstep. eapply (wp_mono _ (fun _ k' => Balanced None k' /\ sems k' = <[a := set_count (count s + 1) s]> (sems k))).
  - destruct (count s + 1 <=? 0); [|by kstep]. eapply wp_mono; [by apply wake_one_balanced|]. done.
  - intros [] k1 [HB2 E]. apply IH; [done|]. rewrite E, lookup_insert_eq. intros ? [= <-]. simpl. rewrite s16_small; lia.
Qed.

Lemma signaln_balanced k i n : Balanced None k -> wp (signaln i n) (fun _ => Balanced None) k.
Proof.
  intros HB. unfold signaln. do 2 kstep. case_valid a Ev; [|by kstep]. destruct (Z.ltb_spec n 0); [by kstep|].
  do 2 kstep. destruct (Z.ltb_spec SEMAPHORE_MAX_SIZE (count s + n)); [by kstep|].
  kstep. apply wp_upd_sem. intros s' Hs'. rewrite H0 in Hs'. injection Hs' as <-.
  assert (Balanced None (set_sems (<[a := set_was_reset false s]> (sems k)) k)) as HB1.
  { eapply balanced_put; [exact HB|done|]. exact (proj2 HB a s H0). }
  kstep. eapply wp_mono; [apply signaln_loop_balanced; [done|]|].
  - simpl. rewrite lookup_insert_eq. intros ? [= <-]. simpl. lia.
  - intros [] k3 HB3. by apply quiet_balanced; [apply quiet_yield|].
Qed.

Lemma try_wait_balanced k i : Balanced None k -> wp (try_wait i) (fun _ => Balanced None) k.
Proof.
  intros HB. unfold try_wait. do 2 kstep. case_valid a Ev; [|by kstep]. do 2 kstep. destruct (_ =? _); [by kstep|].
  destruct (Z.ltb_spec 0 (count s)); [|by kstep]. kstep. apply wp_upd_sem. intros s' Hs'. rewrite H in Hs'. injection Hs' as <-.
  kstep. by apply balanced_down.
Qed.

(** A process starts to wait. *)
Lemma balanced_enqueue k k' a s prio b l : Balanced None k -> sems k !! a = Some s -> - SEMAPHORE_MAX_SIZE < count s <= 0 ->
  queues k !! QSem a = Some l -> one_queue k' -> queues k' = <[QSem a := insert_prio prio b l]> (queues k) ->
  sems k' = <[a := set_count (count s - 1) s]> (sems k) -> Balanced None k'.
Proof.
  intros HB Hs Hc Hl HO Eq Es. split; [done|]. intros c s'. unfold balanced_by, waiting_on. rewrite Eq, Es.
  destruct (decide (a = c)) as [<-|E].
  - rewrite !lookup_insert_eq. intros [= <-]. simpl. rewrite s16_small by lia. destruct (proj2 HB a s Hs) as [HL HR].
    unfold waiting_on in HL. rewrite Hl in HL. simpl in HL. rewrite (Permutation_length (Refinement.insert_prio_perm prio b l)). simpl. lia.
  - rewrite !lookup_insert_ne by congruence. exact (proj2 HB c s').
Qed.

Lemma wait_balanced k i : Balanced None k -> wp (wait i) (fun _ => Balanced None) k.
Proof.
  intros HB. unfold wait. do 2 kstep. case_valid a Ev; [|by kstep]. do 2 kstep.
  destruct (Z.leb_spec (count s) (- SEMAPHORE_MAX_SIZE)) as [|Hc]; [by kstep|]. kstep. apply wp_upd_sem. intros s' Hs'.
  rewrite H in Hs'. injection Hs' as <-. pose proof (proj2 (proj2 HB a s H)) as HR.
  do 2 kstep. simpl in H0. rewrite lookup_insert_eq in H0. injection H0 as <-. simpl count. rewrite s16_small by lia.
  destruct (Z.ltb_spec (count s - 1) 0); [|kstep; apply balanced_down; [done..|lia]].
  do 8 kstep. apply (quiet_balanced None); [apply quiet_scheduler|].
  eapply (balanced_enqueue k _ a s _ _ l HB H); [lia|done| |reflexivity|reflexivity].
  eapply one_queue_add; [apply HB|done|done].
Qed.

(** Every process that waits is taken out. *)
Lemma wake_all_balanced n k a f : one_queue k ->
  wp (wake_all n (QSem a) f) (fun _ k' => one_queue k' /\ queues k' !! QSem a = Some [] /\ sems k' = sems k /\
    forall b, b <> a -> queues k' !! QSem b = queues k !! QSem b) k.
Proof.
  revert k. induction n as [|n IH]; intros k HO; simpl; [kstep|]. do 2 kstep. case_bool_decide as E.
  - kstep. by subst.
  - kstep. apply wp_queue_out; [intros; by do 2 kstep|]. intros l' w Hl' Hla. kstep. apply wp_lift_opt. intros ? [= <-].
    do 4 kstep. simpl in *. rewrite lookup_insert_ne in H1 by done.
    eapply wp_mono; [apply IH|].
    + eapply one_queue_add.
      * by apply (one_queue_out k).
      * simpl. by rewrite lookup_insert_ne.
      * done.
    + intros [] k' (H3 & H4 & H5 & H6). split_and!; [done..|]. intros b Hb. rewrite H6 by done. simpl.
      by rewrite !lookup_insert_ne by congruence.
Qed.

Lemma sreset_balanced k i n : n <= SEMAPHORE_MAX_SIZE -> Balanced None k -> wp (sreset i n) (fun _ => Balanced None) k.
Proof.
  intros Hmax HB. unfold sreset. do 2 kstep. case_valid a Ev; [|by kstep]. destruct (Z.ltb_spec n 0); [by kstep|].
  unfold wake_waiting. do 3 kstep. eapply wp_mono; [apply wake_all_balanced, HB|]. intros [] k1 (HO & Ha & Es & Hother).
  kstep. apply wp_upd_sem. intros s Hs.
  assert (Balanced None (set_sems (<[a := set_count n s]> (sems k1)) k1)) as HB1.
  { split; [done|]. intros b s'. unfold balanced_by, waiting_on. simpl. destruct (decide (a = b)) as [<-|E].
    - rewrite lookup_insert_eq. intros [= <-]. rewrite Ha. simpl. rewrite s16_small; unfold SEMAPHORE_MAX_SIZE in *; lia.
    - rewrite lookup_insert_ne, Hother by congruence. rewrite Es. exact (proj2 HB b s'). }
  kstep. eapply wp_mono; [by apply balanced_flag|]. intros [] k3 HB3. by apply quiet_balanced; [apply quiet_yield|].
Qed.

Lemma screate_balanced {L : MallocLaws C} k n : n <= SEMAPHORE_MAX_SIZE -> Balanced None k ->
  wp (screate n) (fun _ => Balanced None) k.
Proof.
  intros Hmax HB. unfold screate. do 2 kstep. generalize (first_free (Z.to_nat NBSEMAPHORE) 0 (semaphore_table k)). intros i.
  destruct (_ || _) eqn:Ei; [by kstep|]. apply orb_false_iff in Ei as [Hn%Z.ltb_ge _]. kstep. apply wp_mem_alloc; [by apply wp_fail|]. intros z Hz _ _.
  destruct (Z.eqb_spec z 0); [done|]. do 6 kstep. kstep. simpl in *. split.
  - assert (forall h' b, in_queue (set_queues (<[QSem z := []]> (queues k)) k) h' b -> in_queue k h' b) as Hin.
    { intros h' b (l & Hl & Hb). simpl in Hl. rewrite lookup_insert in Hl. case_decide; [|by exists l].
      injection Hl as <-. by apply not_elem_of_nil in Hb. }
    intros h1 h2 b H1%Hin H2%Hin. by eapply (proj1 HB).
  - intros b s. unfold balanced_by, waiting_on. simpl. destruct (decide (z = b)) as [<-|E].
    + rewrite !lookup_insert_eq. intros [= <-]. simpl. unfold SEMAPHORE_MAX_SIZE in *. lia.
    + rewrite !lookup_insert_ne by congruence. exact (proj2 HB b s).
Qed.

(** sdelete fails on every semaphore that exists. *)
Lemma sdelete_balanced k i : Balanced None k -> wp (sdelete i) (fun _ => Balanced None) k.
Proof.
  intros HB. unfold sdelete. do 2 kstep. case_valid a Ev; [|by kstep]. unfold wake_waiting. do 3 kstep.
  eapply wp_mono; [apply wake_all_balanced, HB|]. intros [] k1 _. do 2 kstep. unfold __nb_waiting_proc2. do 3 kstep.
  kstep. apply wp_lift_opt. intros x Hx. simpl in Hx. by rewrite lookup_delete_eq in Hx.
Qed.

(** The queue a process is in agrees with its state. *)
Lemma queued_belongs {F : Foreign} k a p h : Core ∅ k -> procs k !! a = Some p -> in_queue k h a -> belongs k h a p.
Proof.
  intros HC Hp (l & Hl & Ha). destruct (c_queue _ _ HC h l a Hl Ha) as (_ & q & Hq & Hb). congruence.
Qed.

(** kill gives back the unit of a process that waits on a semaphore. *)
Lemma balanced_leave {F : Foreign} k a p (s : Z) sm : Core ∅ k -> Balanced None k -> procs k !! a = Some p ->
  in_queue k (QSem s) a -> sems k !! s = Some sm ->
  Balanced None (set_sems (<[s := mk_sem (sid sm) (s16 (count sm + 1)) (was_reset sm) (was_deleted sm)]> (sems k))
    (set_queues (remove a <$> queues k) k)).
Proof.
  intros HC HB Hp Hq Hs. split; [by apply one_queue_del, HB|]. intros b s'. unfold balanced_by, waiting_on. simpl.
  rewrite lookup_fmap. destruct (decide (s = b)) as [<-|E].
  - rewrite lookup_insert_eq. intros [= <-]. simpl. destruct (proj2 HB s sm Hs) as [HL HR]. destruct Hq as (l & Hl & Ha).
    unfold waiting_on in HL. rewrite Hl in *. simpl in *.
    rewrite (remove_length a l (c_nodup _ _ HC _ _ Hl) Ha) in HL. rewrite s16_small by lia. lia.
  - rewrite lookup_insert_ne by done. intros Hs'. rewrite (del_elsewhere k a (QSem s) b); [|apply HB|done|congruence].
    exact (proj2 HB b s' Hs').
Qed.

Lemma kill_balanced {F : Foreign} k i : Inv k -> Balanced None k -> wp (kill i) (fun _ => Balanced None) k.
Proof.
  intros [HC _] HB. unfold kill. do 2 kstep. destruct (_ || _); [by kstep|]. do 4 kstep. case_bool_decide; [by kstep|].
  do 2 kstep. kstep. apply (wp_mono _ (fun _ => Balanced None)).
  - destruct (negb _) eqn:Ef; [|by kstep]. apply negb_true_iff, negb_false_iff, bool_decide_eq_true in Ef.
    apply queued_in_queue in Ef as [h Hh]. pose proof (queued_belongs k a p h HC H0 Hh) as Hbel. do 2 kstep.
    case_bool_decide as Es.
    + do 3 kstep. apply wp_lift_opt. intros s Hs. simpl in Hs. kstep. kstep. kstep.
      destruct h; simpl in Hbel; try (destruct Hbel; congruence). destruct Hbel as (_ & _ & Hs').
      rewrite Hs in Hs'. injection Hs' as <-. by apply (balanced_leave k a p).
    + kstep. eapply balanced_same; [done|by apply one_queue_del, HB|]. split_and!; [done..|]. intros b. simpl.
      rewrite lookup_fmap. apply (del_elsewhere k a h b); [apply HB|done|]. intros ->. by destruct Hbel.
  - intros [] k1 HB1. apply quiet_balanced; [|done]. quiet_auto. apply quiet_process_end.
Qed.

(** chprio moves a process in its queue. *)
Lemma balanced_move {F : Foreign} k k' a h l0 l prio : Core ∅ k -> Balanced None k -> queues k !! h = Some l0 -> a ∈ l0 ->
  l = remove a l0 -> one_queue k' -> queues k' = <[h := insert_prio prio a l]> (remove a <$> queues k) -> sems k' = sems k ->
  Balanced None k'.
Proof.
  intros HC HB Hl Ha -> HO Eq Es. split; [done|]. intros b s Hs. rewrite Es in Hs. unfold balanced_by, waiting_on. rewrite Eq.
  destruct (decide (h = QSem b)) as [->|E].
  - rewrite lookup_insert_eq. simpl. destruct (proj2 HB b s Hs) as [HL HR]. unfold waiting_on in HL. rewrite Hl in HL. simpl in HL.
    rewrite (Permutation_length (Refinement.insert_prio_perm prio a _)). simpl.
    rewrite (remove_length a l0 (c_nodup _ _ HC _ _ Hl) Ha) in HL. lia.
  - rewrite lookup_insert_ne, lookup_fmap by done.
    rewrite (del_elsewhere k a h b); [|apply HB|by exists l0|done]. exact (proj2 HB b s Hs).
Qed.

Lemma chprio_balanced {F : Foreign} k i n : Inv k -> Balanced None k -> wp (chprio i n) (fun _ => Balanced None) k.
Proof.
  intros HI HB. pose proof HI as (e & HG & _)%g_inv. pose proof (proj1 HI) as HC. unfold chprio. do 2 kstep.
  destruct (_ || _); [by kstep|]. do 4 kstep. destruct (_ || _); [by kstep|]. do 2 kstep. kstep.
  apply (wp_mono _ (fun _ => Balanced None)).
  - destruct (negb _) eqn:Ef.
    + apply negb_true_iff, negb_false_iff, bool_decide_eq_true in Ef. apply queued_in_queue in Ef as [h Hh].
      kstep. apply (get_queue_spec _ _ a p h _ HG H0 Hh). intros o Ho. destruct Ho as [->| ->]; [|kstep].
      do 5 kstep. destruct Hh as (l0 & Hl0 & Ha). simpl in H3. rewrite lookup_fmap, Hl0 in H3. injection H3 as <-.
      eapply (balanced_move k _ a h l0 _ _ HC HB Hl0 Ha eq_refl); [|reflexivity|reflexivity].
      eapply one_queue_add; [by apply one_queue_del, HB|simpl; by rewrite lookup_fmap, Hl0|done].
    + apply quiet_balanced; [apply quiet_upd_proc|done].
  - intros [] k1 HB1. apply quiet_balanced; [apply quiet_yield|done].
Qed.

(** ** Every step *)

Lemma as_return_balanced k m : wp m (fun _ => Balanced None) k -> wp (as_return m) (fun _ => Balanced None) k.
Proof. intros Hm. unfold as_return. kstep. eapply wp_mono; [done|]. intros v k' HI. by kstep. Qed.

Lemma dispatch_balanced {F : Foreign} {L : MallocLaws C} k c : Inv k -> Balanced None k -> wp (dispatch c) (fun _ => Balanced None) k.
Proof.
  intros HI HB.
  assert (forall z, s16 z <= SEMAPHORE_MAX_SIZE) as Hs by (intros z; pose proof (swrap_range 16 z); unfold SEMAPHORE_MAX_SIZE; lia).
  destruct c; simpl; first
    [ by apply kill_balanced | by apply chprio_balanced | by apply signal_balanced | by apply signaln_balanced
    | by apply sreset_balanced | by apply wait_balanced | by apply sdelete_balanced
    | apply as_return_balanced; first [by apply screate_balanced | by apply try_wait_balanced]
    | apply as_return_balanced, quiet_balanced; [|done]; first [by apply quiet_getprio | by apply quiet_scount | by apply quiet_pcount
        | by apply quiet_pcreate | by apply still_gets]
    | apply quiet_balanced; [|done]; first [apply quiet_start | apply quiet_waitpid | apply quiet_exit | apply quiet_pdelete
        | apply quiet_preceive | apply quiet_preset | apply quiet_psend | apply quiet_wait_clock] ].
Qed.

Lemma resume_balanced {F : Foreign} k c : Inv k -> Balanced None k -> wp (resume c) (fun _ => Balanced None) k.
Proof.
  intros HI HB. destruct c; try (apply quiet_balanced; [apply quiet_resume; congruence|done]).
  simpl. unfold wait_resume. do 3 kstep. destruct (c_sem _ _ (proj1 HI) s s0 H) as [_ ->]. destruct (was_reset s0); by ksteps.
Qed.

Lemma step_balanced {F : Foreign} {L : MallocLaws C} k ev : Inv k -> Balanced None k -> (ev <> Tick -> current_pid k <> 0) ->
  wp (step ev) (fun _ => Balanced None) k.
Proof.
  intros HI HB Hc. unfold step. kstep. eapply wp_mono.
  - apply wp_and; [by apply handle_ok|]. instantiate (1 := fun _ => Balanced None). destruct ev; simpl.
    + by apply dispatch_balanced.
    + by apply quiet_balanced; [apply quiet_tic_PIT|].
    + by apply quiet_balanced; [apply quiet_exit|].
  - intros [v|c] k1 [[HI1 _] HB1]; [by kstep|]. by apply resume_balanced.
Qed.
End Balance.

(** ** The semaphores of a running kernel *)

Lemma reachable_balanced {F : Foreign} {C : Config} {L : MallocLaws C} k0 k : Inv k0 -> sems k0 = ∅ -> reachable k0 k ->
  Inv k /\ Balanced None k.
Proof.
  intros H0 E0 Hr. induction Hr as [|k ev r k' Hr [IH1 IH2] Hev E].
  - split; [done|]. split; [exact (c_once _ _ (proj1 H0))|]. intros a s. by rewrite E0, lookup_empty.
  - split; [exact (wp_Ok _ _ _ _ _ (step_ok k ev IH1 Hev) E)|exact (wp_Ok _ _ _ _ _ (step_balanced k ev IH1 IH2 Hev) E)].
Qed.


(** ** signal *)

Section Signal.
Context {F : Foreign} {C : Config}.
Implicit Types k : LK.

(** What the scheduler reads of the finished processes is the same. *)
Definition identity_of (p : Process) : Z * Z := (pid p, initial_kernel_stack p).
Definition same_finished k k' : Prop :=
  process_table k' = process_table k /\ current_pid k' = current_pid k /\ queues k' !! QFin = queues k !! QFin /\
  forall b, identity_of <$> procs k' !! b = identity_of <$> procs k !! b.

Lemma same_finished_ready k k' : same_finished k k' -> sched_ready k -> sched_ready k'.
Proof.
  intros (E1 & E2 & E3 & E4) [H1 H2 H3].
  assert (forall a, in_queue k' QFin a <-> in_queue k QFin a) as Hq by (intros a; unfold in_queue; by rewrite E3).
  assert (forall b p', procs k' !! b = Some p' -> exists p, procs k !! b = Some p /\ pid p' = pid p /\ initial_kernel_stack p' = initial_kernel_stack p) as Hp.
  { intros b p' Hb. specialize (E4 b). rewrite Hb in E4. destruct (procs k !! b) as [p|]; [|done]. exists p.
    unfold identity_of in E4. by injection E4 as -> ->. }
  split.
  - intros a p' Ha%Hq (p & Hb & _ & ->)%Hp. eauto.
  - intros a b p' q' Ha%Hq Hb%Hq (p & Hpa & -> & _)%Hp (q & Hpb & -> & _)%Hp. rewrite E2. eauto.
  - rewrite E1, E2. destruct H3 as [?|(a & p & Ha & Hb & Ep)]; [by left|right]. exists a.
    specialize (E4 a). rewrite Hb in E4. destruct (procs k' !! a) as [p'|]; [|done]. exists p'.
    unfold identity_of in E4. injection E4 as E5 _. rewrite E5. by rewrite Hq.
Qed.

Lemma same_finished_enqueued k a p p' l h : procs k !! a = Some p -> identity_of p' = identity_of p -> h <> QFin ->
  same_finished k (enqueued k a p' h l).
Proof.
  intros Hp E Hh. split_and!; simpl; [done|done|by rewrite lookup_insert_ne|]. intros b. rewrite lookup_insert.
  case_decide; [|done]. subst. rewrite Hp. simpl. by rewrite E.
Qed.

Lemma yield_total k c : Inv k -> sched_ready k -> cont_ok c (current_pid k) ->
  exists r k1 k', yield_cpu c k = Ok (r, k') /\ Sched k1 /\ __scheduler c k1 = Ok (r, k') /\
    (forall b p, procs k !! b = Some p -> state p = ACTIVABLE -> procs k1 !! b = Some p).
Proof.
  intros (a & HG & Ht)%g_inv Hr Hk. pose proof (g_core _ _ _ HG) as HC.
  destruct (current_exempt k a HG Ht) as (p & Hp & Epid & Es & Htab & HG1). destruct (c_heads _ _ HC) as ([l Hl] & _).
  set (k1 := enqueued k a (set_state ACTIVABLE p) QAct l).
  assert (Sched k1) as HS by (apply g_sched; by eapply enqueue_ok).
  destruct (scheduler_total c k1 HS) as (r & k' & E & _); [|done|].
  { eapply same_finished_ready; [|done]. by eapply same_finished_enqueued. }
  exists r, k1, k'. split_and!; [|done|done|].
  - unfold yield_cpu, bind, current, process_at. rewrite Ht. simpl. unfold upd_proc, proc, bind. rewrite Hp. simpl.
    unfold queue_add, lift_queue. simpl. unfold add. rewrite bool_decide_eq_false_2; [simpl; rewrite Hl; exact E|].
    intros [h Hh]%queued_in_queue. by destruct (exempt_not_queued _ _ a h (g_core _ _ _ HG1) ltac:(set_solver) Hh).
  - intros b q Hb Hst. simpl. rewrite lookup_insert_ne; [done|]. intros ->. congruence.
Qed.

Lemma last_is_best k a l w : Core ∅ k -> queues k !! QSem a = Some l -> last l = Some w ->
  forall b, b ∈ l -> prio_of k b <= prio_of k w.
Proof.
  intros HC Hl Hw b Hb. pose proof (c_sorted _ _ HC _ _ Hl) as Hs. apply last_Some in Hw as [l' ->].
  apply elem_of_app in Hb as [Hb|Hb%list_elem_of_singleton]; [|by subst]. clear Hl. revert Hb Hs.
  induction l' as [|x l' IH]; intros Hb Hs; [by apply not_elem_of_nil in Hb|].
  apply StronglySorted_inv in Hs as [Hs Hx]. rewrite Forall_forall in Hx.
  apply elem_of_cons in Hb as [->|Hb]; [apply Hx; set_solver|by apply IH].
Qed.

Lemma twp_semaphore k a s Q : sems k !! a = Some s -> Q s k -> twp (semaphore a) Q k.
Proof. intros Hs HQ. exists s, k. unfold semaphore. by rewrite Hs. Qed.

Lemma twp_upd_sem k a s f Q : sems k !! a = Some s -> Q tt (set_sems (<[a := f s]> (sems k)) k) -> twp (upd_sem a f) Q k.
Proof. intros Hs HQ. apply twp_bind. eapply twp_semaphore; [done|]. by apply twp_modify. Qed.

(** The run of signal up to the scheduling. *)
Lemma signal_runs k sem a s l w p la r k' : 0 <= sem < NBSEMAPHORE -> semaphore_table k !! sem = Some a -> sems k !! a = Some s ->
  - SEMAPHORE_MAX_SIZE <= count s < 0 -> queues k !! QSem a = Some l -> last l = Some w -> procs k !! w = Some p ->
  queues k !! QAct = Some la -> one_queue k -> NoDup l ->
  yield_cpu (CReturn 0) (enqueued (set_queues (<[QSem a := removelast l]> (queues k))
     (set_sems (<[a := set_was_reset false (set_count (count s + 1) s)]> (sems k)) k)) w (set_state ACTIVABLE p) QAct la) = Ok (r, k') ->
  signal sem k = Ok (r, k').
Proof.
  intros Hsem Hi Hs Hc Hl Hw Hp Hla HO Hnd Ey.
  assert (twp (signal sem) (fun r1 k1 => r1 = r /\ k1 = k') k) as (? & ? & E & -> & ->); [|done].
  unfold signal, valid_sem. apply twp_bind, twp_gets. rewrite Hi.
  destruct (Z.ltb_spec sem 0); [lia|]. destruct (Z.ltb_spec (NBSEMAPHORE - 1) sem); [lia|]. simpl orb. cbv iota.
  apply twp_bind. eapply twp_semaphore; [done|]. destruct (Z.leb_spec SEMAPHORE_MAX_SIZE (count s)); [unfold SEMAPHORE_MAX_SIZE in *; lia|].
  apply twp_bind. eapply twp_upd_sem; [done|]. apply twp_bind. eapply twp_semaphore; [apply lookup_insert_eq|]. simpl count.
  rewrite s16_small by lia. destruct (Z.leb_spec (count s + 1) 0); [|lia]. apply twp_bind. eapply twp_upd_sem; [apply lookup_insert_eq|].
  simpl sems. rewrite insert_insert_eq. apply twp_bind. unfold wake_one. apply twp_bind. eapply twp_queue_out; [exact Hl|exact Hw|].
  apply twp_bind. eapply twp_lift_opt; [done|]. apply twp_bind. eapply twp_upd_proc; [exact Hp|].
  eapply twp_queue_add; [simpl; by rewrite lookup_insert_ne| |].
  - intros [h Hh]%queued_in_queue.
    assert (in_queue k h w /\ h <> QSem a) as [Hin Hne].
    { destruct Hh as (l' & Hl' & Hwl). simpl in Hl'. rewrite lookup_insert in Hl'. case_decide as E; [|split; [by exists l'|done]].
      subst h. injection Hl' as <-. apply last_Some in Hw as [l' ->]. rewrite removelast_last in Hwl.
      apply NoDup_app in Hnd as (_ & Hd & _). destruct (Hd w Hwl). by left. }
    apply Hne, (HO h (QSem a) w Hin). exists l. split; [done|]. by apply last_Some_elem_of.
  - exists r, k'. split; [exact Ey|done].
Qed.

End Signal.

(** ** A concrete semaphore *)

(** Process 1 makes a semaphore of count 0, starts process 2, which is weaker,
    and waits: process 2 runs. *)
Definition demo_wait_events : list event := [Syscall (SCREATE 0); Syscall (START [97] 16 5 0); Syscall (WAIT 0)].
Definition demo_blocked : LK := final demo_kernel (run demo_wait_events demo_kernel).
Definition semaphore_0 (k : LK) : Z := default 0 (semaphore_table k !! 0).
Definition state_of_semaphore (k : LK) : Semaphore := default (mk_sem 0 0 false false) (sems k !! semaphore_0 k).

Lemma demo_blocked_reachable : reachable demo_kernel demo_blocked.
Proof. apply (run_reachable _ _ _ (reach_start _)). vm_compute. reflexivity. Qed.

Lemma nothing_finished_ready (k : LK) : queues k !! QFin = Some [] -> is_Some (process_table k !! current_pid k) -> sched_ready k.
Proof.
  intros Hq Hc. assert (forall a, ~ in_queue k QFin a) as Hn.
  { intros a (l & Hl & Ha). rewrite Hq in Hl. injection Hl as <-. by apply not_elem_of_nil in Ha. }
  split; [intros a p Ha; by destruct (Hn a)|intros a b p q Ha; by destruct (Hn a)|by left].
Qed.


