(* ===== verification/Display.v ===== *)
(** * The banner is confined and correct

    In every consistent state the display functions of info.c and time.c
    return, leave the kernel as it was and write only in the lines of the
    banner; the clock shows the time since the boot. *)

From S2P Require Import Prelude Queue Memory Cstring Format Mmu Kernel Process MessageQueue Semaphore System Invariant Preserve Progress KernelProps Screen Info.

Local Open Scope st_scope.

(** ** Confinement *)

Section Banner.
Implicit Types (s : console) (k : LK).

(** Only cells of the banner changed. *)
Record banner_only s s' : Prop := {
  bo_state : s' = set_video (video s') s;
  bo_view : forall l c, on_screen l c -> INFO_SIZE <= l -> view s' l c = view s l c;
  bo_frame : forall a, ~ (STARTING_ADDRESS <= a < 0xC0000) -> load8 (video s') a = load8 (video s) a
}.

#[export] Instance banner_only_preorder : PreOrder banner_only.
Proof.
  split.
  - intros s. split; [by destruct s|done..].
  - intros s1 s2 s3 [E1 V1 F1] [E2 V2 F2]. split.
    + rewrite E2, E1. done.
    + intros l c Hlc Hl. by rewrite V2, V1.
    + intros a Ha. by rewrite F2, F1.
Qed.

Lemma write_car_banner line col c fg bg s : 0 <= line < INFO_SIZE -> banner_only s (write_car line col c fg bg s).
Proof.
  intros Hl. destruct (decide (NB_COLUMNS <= u8 col)) as [Hc|Hc].
  - unfold write_car. destruct (Z.leb_spec NB_COLUMNS (u8 col)); [|lia]. rewrite orb_true_r. reflexivity.
  - pose proof (uwrap_range 8 col ltac:(lia)) as Hr.
    assert (write_car line col c fg bg s = write_car line (u8 col) c fg bg s) as ->.
    { unfold write_car. by rewrite (uwrap_small 8 (u8 col)). }
    destruct (write_car_repaint line (u8 col) c fg bg s) as [E V F]; [unfold on_screen, INFO_SIZE, NB_LINES in *; lia|].
    split; [done| |done]. intros l k Hlk Hi. rewrite V by done. unfold put_cell. destruct (Z.eqb_spec l line); [lia|done].
Qed.

Lemma for_banner n body s : (forall i s, banner_only s (body i s)) -> banner_only s (for_to n body s).
Proof.
  intros Hb. unfold for_to. generalize (seqZ 0 n). intros l. revert s. induction l as [|i l IH]; intros s; simpl; [reflexivity|].
  etrans; [apply (Hb i)|apply IH].
Qed.

Lemma write_info_banner line shift str len s : 0 <= line < INFO_SIZE -> banner_only s (write_info line shift str len s).
Proof.
  intros Hl. unfold write_info. destruct (_ <=? _); [|reflexivity]. apply for_banner. intros. by apply write_car_banner.
Qed.

Lemma clear_info_banner line title s : 0 <= line < INFO_SIZE -> banner_only s (clear_info line title s).
Proof. intros Hl. apply for_banner. intros. by apply write_car_banner. Qed.

Lemma append_banner line buffer ps s : 0 <= line < INFO_SIZE -> banner_only s ps.2 -> banner_only s (append_entry line buffer ps).2.
Proof. intros Hl Hs. etrans; [exact Hs|]. by apply write_info_banner. Qed.

(** ** The buffers *)

(** Whether every entry of a table fits. *)
Definition fits (bound : nat) (r : result (list Z)) : bool := match r with Ok out => (length out <=? bound)%nat | Err _ => false end.

Lemma fits_spec bound r : fits bound r = true -> exists out, r = Ok out /\ (length out <= bound)%nat.
Proof. destruct r as [out|]; [|done]. intros H%Nat.leb_le. by exists out. Qed.

Lemma number_fits n : 0 <= n < NBPROC -> exists out, number_entry n = Ok out /\ (length out <= 3)%nat.
Proof.
  intros Hn. apply fits_spec. assert (forallb (fun n => fits 3 (number_entry n)) (seqZ 0 NBPROC) = true) as H by (vm_compute; reflexivity).
  rewrite forallb_forall in H. apply H, list_elem_of_In, elem_of_seqZ. lia.
Qed.

Lemma process_fits i st : 0 <= i < NBPROC -> exists out, process_entry i st = Ok out /\ (length out <= 15)%nat.
Proof.
  intros Hi. apply fits_spec.
  assert (forallb (fun n => fits 15 (process_entry n st)) (seqZ 0 NBPROC) = true) as H by (destruct st; vm_compute; reflexivity).
  rewrite forallb_forall in H. apply H, list_elem_of_In, elem_of_seqZ. lia.
Qed.

(** ** The display functions *)

Context {C : Config}.

(** [m] returns without changing [k], having painted only the banner. *)
Definition paints k s (m : ST (kernel (gmap qid (list Z))) console) : Prop :=
  exists s', m k = Ok (s', k) /\ banner_only s s'.

Lemma paints_bind k s m f : paints k s m -> (forall s', paints k s' (f s')) -> paints k s (bind m f).
Proof.
  intros (s1 & E1 & H1) Hf. destruct (Hf s1) as (s2 & E2 & H2). exists s2. split; [|by etrans]. unfold bind. by rewrite E1.
Qed.

(** A loop whose every round appends an entry of the banner. *)
Lemma show_each_paints {A} (l : list A) show k s ps : banner_only s ps.2 ->
  (forall x ps, x ∈ l -> exists ps', show x ps k = Ok (ps', k) /\ banner_only ps.2 ps'.2) ->
  exists ps', show_each l show ps k = Ok (ps', k) /\ banner_only s ps'.2.
Proof.
  revert ps. induction l as [|x l IH]; intros ps Hs Hx; simpl; [by exists ps|].
  destruct (Hx x ps) as (ps1 & E1 & H1); [set_solver|]. destruct (IH ps1) as (ps2 & E2 & H2); [by etrans|set_solver|].
  exists ps2. split; [|done]. unfold bind. by rewrite E1.
Qed.

Lemma paint_table {A} (l : list A) show k line title s : 0 <= line < INFO_SIZE ->
  (forall x ps, x ∈ l -> exists ps', show x ps k = Ok (ps', k) /\ banner_only ps.2 ps'.2) ->
  paints k s (let! ps := show_each l show (title, clear_info line title s) in ret ps.2).
Proof.
  intros Hl Hx. destruct (show_each_paints l show k s (title, clear_info line title s)) as (ps & E & H); [by apply clear_info_banner|done|].
  exists ps.2. split; [|done]. unfold bind. by rewrite E.
Qed.

Lemma proc_at k a p : procs k !! a = Some p -> proc a k = Ok (p, k).
Proof. intros Hp. unfold proc. by rewrite Hp. Qed.
Lemma msgq_at k a q : msgqs k !! a = Some q -> msgq a k = Ok (q, k).
Proof. intros Hq. unfold msgq. by rewrite Hq. Qed.
Lemma elems_at k h l : queues k !! h = Some l -> queue_elems h k = Ok (l, k).
Proof. intros Hl. unfold queue_elems, lift_res. cbn. by rewrite Hl. Qed.

Lemma write_process_table_paints k s X : Core X k -> paints k s (write_process_table s).
Proof.
  intros HC. apply paint_table; [done|]. intros i ps Hi%elem_of_seqZ. unfold show_process, bind, gets.
  destruct (process_table k !! i) as [a|] eqn:Ea; [|by exists ps]. destruct (c_table _ _ HC i a Ea) as (_ & p & Hp & _).
  rewrite (proc_at k a p Hp). destruct (negb _ || _); [|by exists ps]. unfold lift_out.
  destruct (process_fits i (state p)) as (out & -> & _); [lia|]. eexists. split; [done|]. by apply append_banner.
Qed.

Lemma write_queue_table_paints k s X : Core X k -> paints k s (write_queue_table s).
Proof.
  intros HC. apply paint_table; [done|]. intros i ps Hi%elem_of_seqZ. unfold show_queue, bind, gets.
  destruct (queue_table k !! i) as [a|] eqn:Ea; [|by exists ps]. destruct (c_qtable _ _ HC i a Ea) as (q & Hq & Ef).
  rewrite (msgq_at k a q Hq), Ef. unfold lift_out. destruct (number_fits i) as (out & -> & _); [unfold NBPROC, NBQUEUE in *; lia|].
  eexists. split; [done|]. by apply append_banner.
Qed.

Lemma show_queue_paints k s X h line title : Core X k -> 0 <= line < INFO_SIZE -> is_Some (queues k !! h) ->
  paints k s (let! l := queue_elems h in let! ps := show_each l (show_pid line) (title, clear_info line title s) in ret ps.2).
Proof.
  intros HC Hl [l Hq]. unfold paints, bind at 1. rewrite (elems_at k h l Hq). apply paint_table; [done|].
  intros a ps Ha. destruct (c_queue _ _ HC h l a Hq Ha) as (_ & p & Hp & _). unfold show_pid, bind, lift_out.
  rewrite (proc_at k a p Hp).
  destruct (c_pids _ _ HC a p Hp) as [Hpid _]. destruct (number_fits (pid p) Hpid) as (out & -> & _).
  eexists. split; [done|]. by apply append_banner.
Qed.

(** In a consistent state the system information is displayed without
    fault: sys_info returns, leaves the kernel as it was, and writes no cell
    outside the banner; no entry it formats exceeds its buffer. *)
Theorem sys_info_confined k s : Inv k ->
  (exists s', sys_info s k = Ok (s', k) /\ banner_only s s') /\
  (forall i st, 0 <= i < NBPROC -> exists out, process_entry i st = Ok out /\ Z.of_nat (length out) + 1 <= BUFFER_SIZE).
Proof.
  intros [HC _]. destruct (c_heads _ _ HC) as (HA & HF & _). split.
  - unfold sys_info. apply paints_bind; [by eapply write_process_table_paints|]. intros s1.
    apply paints_bind; [by eapply write_queue_table_paints|]. intros s2.
    apply paints_bind; [by eapply (show_queue_paints k s2 ∅ QAct)|]. intros s3. by eapply (show_queue_paints k s3 ∅ QFin).
  - intros i st Hi. destruct (process_fits i st Hi) as (out & E & H). exists out. split; [done|]. unfold BUFFER_SIZE. lia.
Qed.
End Banner.

Lemma sys_info_confined_witness : exists s', sys_info boot_screen demo_started = Ok (s', demo_started) /\ banner_only boot_screen s'.
Proof. exact (proj1 (sys_info_confined demo_started boot_screen (reachable_inv _ _ demo_inv demo_reachable))). Defined.

(** ** The clock *)

Section Clock.
Implicit Types (s : console) (c : clock).

(** Characters written in distinct cells of a line. *)
Lemma row_written lig (col ch : Z -> Z) js s : 0 <= lig < NB_LINES -> (forall i, i ∈ js -> 0 <= col i < NB_COLUMNS) -> NoDup (col <$> js) ->
  let s' := fold_left (fun s i => write_car lig (col i) (ch i) (foreground_color s) (background_color s) s) js s in
  s' = set_video (video s') s /\
  (forall i, i ∈ js -> view s' lig (col i) = car_word (ch i) (foreground_color s) (background_color s)) /\
  (forall l k, on_screen l k -> (l = lig -> k ∉ (col <$> js)) -> view s' l k = view s l k).
Proof.
  intros Hl. revert s. induction js as [|i js IH]; intros s Hc Hnd; [split_and!; [by destruct s|set_solver|done]|].
  cbn [fold_left]. apply NoDup_cons in Hnd as [Hi Hnd]. assert (on_screen lig (col i)) as Hon by (split; [done|apply Hc; set_solver]).
  destruct (write_car_repaint lig (col i) (ch i) (foreground_color s) (background_color s) s Hon) as [E V F].
  set (s1 := write_car _ _ _ _ _ s) in *. destruct (IH s1) as (E' & W & U); [set_solver|done|].
  assert (foreground_color s1 = foreground_color s /\ background_color s1 = background_color s) as [Ef Eb] by (by rewrite E).
  split_and!.
  - rewrite E', E. done.
  - intros j [->|Hj]%elem_of_cons; [|by rewrite W, Ef, Eb]. rewrite (U lig (col i) Hon) by done. rewrite (V lig (col i) Hon).
    unfold put_cell. by rewrite !Z.eqb_refl.
  - intros l k Hlk Hk. rewrite (U l k Hlk) by set_solver. rewrite (V l k Hlk). unfold put_cell.
    destruct (Z.eqb_spec l lig); [|done]. destruct (Z.eqb_spec k (col i)); [set_solver|done].
Qed.

Lemma print_digit d : 0 <= d < 10 -> print_signed (mk_spec (mk_flags false false 0) 32 0 (-1)) d 10 = Ok [48 + d].
Proof.
  intros Hd. assert (d = 0 \/ d = 1 \/ d = 2 \/ d = 3 \/ d = 4 \/ d = 5 \/ d = 6 \/ d = 7 \/ d = 8 \/ d = 9) as H by lia.
  destruct_or! H; subst; reflexivity.
Qed.

(** "hh:mm:ss" *)
Definition digits_of (n : Z) : list Z := [48 + n / 10; 48 + n mod 10].
Definition hms (h m s : Z) : list Z := digits_of h ++ [58] ++ digits_of m ++ [58] ++ digits_of s.

Lemma time_string_hms c : 0 <= hours c < 100 -> 0 <= minutes c < 100 -> 0 <= seconds c < 100 ->
  time_string c = Ok (hms (hours c) (minutes c) (seconds c)).
Proof.
  intros Hh Hm Hs. unfold time_string, _doprnt.
  do 6 (cbn -[print_signed Z.div Z.modulo Z.add hms]; rewrite print_digit by (Z.to_euclidean_division_equations; lia)).
  reflexivity.
Qed.

(** When a second ends, less than a hundred hours after the boot, the
    clock displays "hh:mm:ss" with 3600 hh + 60 mm + ss the number of seconds
    since the boot, in the columns 71 to 78 of the first line, and changes
    nothing below the banner. *)
Theorem clock_shows_uptime t c s : 0 < clock_frequency c -> 0 <= t -> t mod clock_frequency c = 0 -> t / clock_frequency c < 360000 ->
  exists c' s', show_time t c s = Ok (c', s') /\ clock_frequency c' = clock_frequency c /\
    3600 * hours c' + 60 * minutes c' + seconds c' = t / clock_frequency c /\ minutes c' < 60 /\ seconds c' < 60 /\
    (forall i x, hms (hours c') (minutes c') (seconds c') !! i = Some x ->
       view s' 0 (71 + Z.of_nat i) = car_word x (foreground_color s) (background_color s)) /\
    banner_only s s'.
Proof.
  intros Hf Ht Hm Hd. unfold show_time, update_clock. destruct (Z.eqb_spec (clock_frequency c) 0); [lia|]. rewrite Hm. cbn [Z.eqb].
  set (d := t / clock_frequency c) in *. assert (0 <= d) as Hd0 by (apply Z.div_pos; lia).
  rewrite !(uwrap_small 8) by (change (2 ^ 8) with 256; Z.to_euclidean_division_equations; lia). set (c' := mk_clock _ _ _ _ _).
  assert (0 <= hours c' < 100 /\ 0 <= minutes c' < 60 /\ 0 <= seconds c' < 60) as (Hh & Hmn & Hs).
  { unfold c'. cbn. Z.to_euclidean_division_equations. lia. }
  rewrite time_string_hms by lia. eexists _, _. split; [reflexivity|].
  split; [done|]. split; [unfold c'; cbn; Z.to_euclidean_division_equations; lia|]. split; [lia|]. split; [lia|].
  assert (length (hms (hours c') (minutes c') (seconds c')) = 8%nat) as Hlen by done. revert Hlen.
  generalize (hms (hours c') (minutes c') (seconds c')). intros str Hlen. clearbody c'. split.
  - intros i x Hx. pose proof (lookup_lt_Some _ _ _ Hx) as Hi. rewrite Hlen in Hi.
    destruct (row_written 0 (fun i => 79 - i) (fun i => nth (Z.to_nat (10 - 2 - i)) (str ++ [0]) 0) (seqZ 0 9) s) as (_ & W & _).
    + done.
    + intros j Hj%elem_of_seqZ. unfold NB_COLUMNS. lia.
    + apply NoDup_fmap_2_strong; [|apply NoDup_seqZ]. intros; lia.
    + specialize (W (8 - Z.of_nat i)). cbn beta in W. replace (79 - (8 - Z.of_nat i)) with (71 + Z.of_nat i) in W by lia.
      replace (Z.to_nat (10 - 2 - (8 - Z.of_nat i))) with i in W by lia. rewrite app_nth1 in W by lia.
      rewrite (nth_lookup_Some _ _ _ _ Hx) in W. apply W. apply elem_of_seqZ. lia.
  - unfold write_time. cbn [Z.leb]. apply for_banner. intros. apply write_car_banner. unfold INFO_SIZE. lia.
Qed.
End Clock.

(** 4 h 10 min after the boot, with 200 ticks a second. *)
Lemma clock_shows_uptime_witness :
  exists c' s', show_time 3000000 (mk_clock 5965 200 4 9 59) boot_screen = Ok (c', s') /\
    3600 * hours c' + 60 * minutes c' + seconds c' = 15000 /\ minutes c' < 60 /\ seconds c' < 60.
Proof.
  destruct (clock_shows_uptime 3000000 (mk_clock 5965 200 4 9 59) boot_screen) as (c' & s' & E & _ & H1 & H2 & H3 & _).
  - reflexivity.
  - lia.
  - reflexivity.
  - reflexivity.
  - exists c', s'. split; [exact E|]. split; [exact H1|]. split; [exact H2|exact H3].
Defined.
