(* ===== verification/Hash.v ===== *)
(** * The hash table (kernel/hash.c)

    Open addressing with the probing of CPython: the operations on a table
    value, with the allocator of [Kernel] under them; that probing always ends;
    and that a table behaves as a map from keys to values. *)

From S2P Require Import Prelude Queue Memory Mmu Kernel.

Local Open Scope st_scope.

(** The pointer by which the code names a key. *)
Class Pointer (Key : Type) := pointer : Key -> Z.

Module Hash.

Definition HASH_MINSIZE : Z := 8.
Definition sizeof_hash_slot : Z := 16.

Inductive slot_mode := SL_EMPTY | SL_ACTIVE | SL_DELETED.

#[export] Instance slot_mode_eq_dec : EqDecision slot_mode.
Proof. solve_decision. Defined.

(** A slot; the key is null unless the slot is active. *)
Record hash_slot (Key : Type) := mk_slot { key : option Key; value : Z; hash : Z; mode : slot_mode }.
Arguments mk_slot {Key}. Arguments key {Key}. Arguments value {Key}. Arguments hash {Key}. Arguments mode {Key}.

Record hash_t (Key : Type) := mk_hash {
  fill : Z;
  count : Z;
  mask : Z;
  table_addr : Z;
  table : list (hash_slot Key);
  hfunc : Key -> Z;
  cmp : Key -> Key -> bool
}.
Arguments mk_hash {Key}. Arguments fill {Key}. Arguments count {Key}. Arguments mask {Key}. Arguments table_addr {Key}.
Arguments table {Key}. Arguments hfunc {Key}. Arguments cmp {Key}.

Section Operations.
Context {Key : Type} {P : Pointer Key} {S : Type} {ops : QueueOps qid Z S} {C : Config}.
Implicit Types (m : hash_t Key) (s : hash_slot Key).
Abbreviation KM := (ST (kernel S)).

Definition empty_slot : hash_slot Key := mk_slot None 0 0 SL_EMPTY.
Definition slot_at m (i : Z) : hash_slot Key := nth (Z.to_nat i) (table m) empty_slot.
Definition set_slot m (i : Z) s : hash_t Key :=
  mk_hash (fill m) (count m) (mask m) (table_addr m) (<[Z.to_nat i := s]> (table m)) (hfunc m) (cmp m).
Definition set_counts (f c : Z) m : hash_t Key := mk_hash f c (mask m) (table_addr m) (table m) (hfunc m) (cmp m).

(** [size] is a [long], the length of the block an [unsigned long]. *)
Definition hash_initialize m (size : Z) : KM (Z * hash_t Key) :=
  let! t := mem_alloc (u32 (size * sizeof_hash_slot)) OTable in
  if t =? 0 then ret (-1, m) else
  ret (0, mk_hash 0 0 (u32 (size - 1)) t (replicate (Z.to_nat size) empty_slot) (hfunc m) (cmp m)).

(** [slot->key == key || (slot->hash == hash && map->cmp(slot->key, key))] *)
Definition key_matches m s (k : Key) (h : Z) : bool :=
  match key s with
  | Some k' => (pointer k' =? pointer k) || ((hash s =? h) && cmp m k' k)
  | None => false
  end.

(** The loop of hash_lookup; the slot is named by its index. *)
Fixpoint lookup_loop (fuel : nat) m (k : Key) (h index perturb : Z) (freeslot : option Z) : result Z :=
  match fuel with
  | O => Err Diverged
  | Datatypes.S fuel' =>
      let i := Z.land index (mask m) in
      let slot := slot_at m i in
      match mode slot with
      | SL_EMPTY => Ok (default i freeslot)
      | SL_ACTIVE =>
          if key_matches m slot k h then Ok i
          else lookup_loop fuel' m k h (u32 (5 * index + perturb + 1)) (Z.shiftr perturb 5) freeslot
      | SL_DELETED =>
          lookup_loop fuel' m k h (u32 (5 * index + perturb + 1)) (Z.shiftr perturb 5)
            (Some (default i freeslot))
      end
  end.

(** Seven rounds use up [perturb]; the next [mask + 1] visit every slot. *)
Definition hash_lookup m (k : Key) (h : Z) : result Z :=
  lookup_loop (7 + length (table m)) m k h (Z.land (u32 h) (mask m)) (u32 h) None.

Definition lift {A} (r : result A) : KM A := fun st => match r with Ok a => Ok (a, st) | Err e => Err e end.

Definition copy_slot m s : KM (hash_t Key) :=
  match mode s, key s with
  | SL_ACTIVE, Some k =>
      let! i := lift (hash_lookup m k (hfunc m k)) in
      ret (set_counts (fill m + 1) (count m + 1) (set_slot m i (mk_slot (Some k) (value s) (hash s) SL_ACTIVE)))
  | _, _ => ret m
  end.

Fixpoint hash_copy m (oldtable : list (hash_slot Key)) : KM (hash_t Key) :=
  match oldtable with
  | [] => ret m
  | s :: rest => let! m' := copy_slot m s in hash_copy m' rest
  end.

Definition resize m (old_size new_size : Z) : KM (Z * hash_t Key) :=
  let! '(r, m') := hash_initialize m new_size in
  if r =? -1 then ret (-1, m) else
  let! m' := hash_copy m' (table m) in
  do! mem_free (table_addr m) (u32 (old_size * sizeof_hash_slot)) in
  ret (0, m').

Definition hash_update m : KM (Z * hash_t Key) :=
  let old_size := s32 (mask m + 1) in
  if s32 (2 * old_size) <=? s32 (3 * fill m) then
    let new_size := s32 (Z.shiftl old_size 1) in
    if new_size <? old_size then ret (-1, m) else resize m old_size new_size
  else if (HASH_MINSIZE <? old_size) && (s32 (4 * count m) <=? old_size) then
    resize m old_size (Z.shiftr old_size 1)
  else ret (0, m).

Definition hash_init (m : hash_t Key) (hf : Key -> Z) (c : Key -> Key -> bool) : KM (Z * hash_t Key) :=
  let! '(r, m') := hash_initialize m HASH_MINSIZE in
  if r =? -1 then ret (-1, m)
  else ret (0, mk_hash (fill m') (count m') (mask m') (table_addr m') (table m') hf c).

Definition hash_destroy m : KM (hash_t Key) :=
  let size := s32 (mask m + 1) in
  do! mem_free (table_addr m) (u32 (size * sizeof_hash_slot)) in
  ret (mk_hash 0 0 0 0 [] (fun _ => 0) (fun _ _ => false)).

Definition is_active s : bool := bool_decide (mode s = SL_ACTIVE).

(** A null map has no entry: [map] is an option in the operations below. *)
Definition hash_isset (map : option (hash_t Key)) (k : Key) : result bool :=
  match map with
  | None => Ok false
  | Some m => match hash_lookup m k (hfunc m k) with Ok i => Ok (is_active (slot_at m i)) | Err e => Err e end
  end.

Definition hash_get (map : option (hash_t Key)) (k : Key) (default_value : Z) : result Z :=
  match map with
  | None => Ok default_value
  | Some m =>
      match hash_lookup m k (hfunc m k) with
      | Ok i => Ok (if is_active (slot_at m i) then value (slot_at m i) else default_value)
      | Err e => Err e
      end
  end.

(** hash_set and hash_del on a table that is there. *)
Definition set_in m (k : Key) (v : Z) : KM (Z * hash_t Key) :=
  let h := hfunc m k in
  let! i := lift (hash_lookup m k h) in
  let slot := slot_at m i in
  if is_active slot then ret (0, set_slot m i (mk_slot (key slot) v (hash slot) (mode slot))) else
  let m := set_counts (if bool_decide (mode slot = SL_EMPTY) then fill m + 1 else fill m) (count m + 1) m in
  hash_update (set_slot m i (mk_slot (Some k) v h SL_ACTIVE)).

Definition del_in m (k : Key) : KM (Z * hash_t Key) :=
  let! i := lift (hash_lookup m k (hfunc m k)) in
  if negb (is_active (slot_at m i)) then ret (0, m) else
  hash_update (set_counts (fill m) (count m - 1) (set_slot m i (mk_slot None 0 0 SL_DELETED))).

Definition on_map (map : option (hash_t Key)) (f : hash_t Key -> KM (Z * hash_t Key)) : KM (Z * option (hash_t Key)) :=
  match map with
  | None => ret (-1, None)
  | Some m => let! '(r, m') := f m in ret (r, Some m')
  end.
Definition hash_set (map : option (hash_t Key)) (k : Key) (v : Z) : KM (Z * option (hash_t Key)) :=
  on_map map (fun m => set_in m k v).
Definition hash_del (map : option (hash_t Key)) (k : Key) : KM (Z * option (hash_t Key)) :=
  on_map map (fun m => del_in m k).
End Operations.

(** ** The predefined functions *)

#[export] Instance pointer_key : Pointer Z := fun k => k.
Definition hash_direct_cmp (key1 key2 : Z) : bool := key1 =? key2.
Definition hash_direct_hfunc (key : Z) : Z := s32 key.

(** Keys that are [char *]: [str a] is the string the memory holds at [a], the
    bytes before the final zero.  [strcmp(key1, key2) == 0]: same bytes. *)
Definition hash_string_cmp (str : Z -> list Z) (key1 key2 : Z) : bool := bool_decide (str key1 = str key2).

(** [char] is signed. *)
Fixpoint string_hash_loop (hash : Z) (bytes : list Z) : Z :=
  match bytes with
  | [] => hash
  | c :: bytes' => string_hash_loop (Z.lxor (s32 (s32 (Z.shiftl hash 5) + hash)) (s8 c)) bytes'
  end.
Definition hash_string_hfunc (str : Z -> list Z) (key : Z) : Z := string_hash_loop 5381 (str key).

Section Init.
Context {S : Type} {ops : QueueOps qid Z S} {C : Config}.
Definition hash_init_direct (m : hash_t Z) : ST (kernel S) (Z * hash_t Z) :=
  hash_init m hash_direct_hfunc hash_direct_cmp.
Definition hash_init_string (str : Z -> list Z) (m : hash_t Z) : ST (kernel S) (Z * hash_t Z) :=
  hash_init m (hash_string_hfunc str) (hash_string_cmp str).
End Init.
End Hash.

(** ** Probing visits every slot

    Once [perturb] is 0 the index goes from [x] to [5x + 1].  Modulo a power of
    two this has full period: [4x + 1] is multiplied by 5 at each step, and the
    order of 5 modulo [2^(k+2)] is [2^k]. *)
Section Period.
Lemma odd_divide_pow2 (k a b : Z) : 0 <= k -> (2 ^ k | (2 * a + 1) * b) -> (2 ^ k | b).
Proof.
  intros Hk Hd. apply (Z.gauss _ _ _ Hd). apply Z.coprime_pow_l; [done|]. apply Z.coprime_Bezout. exists (- a), 1. lia.
Qed.

Lemma pow5_mod4 n : 0 <= n -> exists t, 5 ^ n = 4 * t + 1.
Proof.
  revert n. apply natlike_ind; [by exists 0|]. intros n Hn [t Ht]. exists (5 * t + 1). rewrite Z.pow_succ_r by lia. lia.
Qed.
Lemma pow25_mod8 n : 0 <= n -> exists t, 25 ^ n = 8 * t + 1.
Proof.
  revert n. apply natlike_ind; [by exists 0|]. intros n Hn [t Ht]. exists (25 * t + 3). rewrite Z.pow_succ_r by lia. lia.
Qed.

Lemma five_order k n : 0 <= k -> 0 <= n -> (2 ^ (k + 2) | 5 ^ n - 1) -> (2 ^ k | n).
Proof.
  intros Hk. revert k Hk n. apply (natlike_ind (fun k => forall n, 0 <= n -> (2 ^ (k + 2) | 5 ^ n - 1) -> (2 ^ k | n))).
  { intros. apply Z.divide_1_l. }
  intros k Hk IH n Hn [c Hc]. replace (Z.succ k + 2) with (Z.succ (k + 2)) in Hc by lia.
  rewrite Z.pow_succ_r in Hc by lia. destruct (Z.Even_or_Odd n) as [[m ->]|[m ->]].
  - destruct (pow5_mod4 m) as [t Ht]; [lia|]. rewrite Z.pow_succ_r by lia. apply Z.mul_divide_mono_l.
    apply IH; [lia|]. apply (odd_divide_pow2 _ t); [lia|]. exists c.
    rewrite Z.mul_comm, Z.pow_mul_r in Hc by lia. rewrite Z.pow_2_r in Hc.
    apply (Z.mul_reg_l _ _ 2); [lia|]. rewrite Ht in Hc |- *. lia.
  - exfalso. destruct (pow25_mod8 m) as [t Ht]; [lia|].
    rewrite Z.pow_add_r, Z.pow_mul_r in Hc by lia. replace (5 ^ 2) with 25 in Hc by done. rewrite Ht in Hc.
    replace (k + 2) with (Z.succ (Z.succ k)) in Hc by lia. rewrite !Z.pow_succ_r in Hc by lia. lia.
Qed.

(** The index after [n] steps without [perturb]. *)
Fixpoint lcg (n : nat) (x : Z) : Z := match n with O => x | Datatypes.S n' => lcg n' (5 * x + 1) end.

Lemma lcg_pow n x : 4 * lcg n x + 1 = 5 ^ Z.of_nat n * (4 * x + 1).
Proof.
  revert x. induction n as [|n IH]; intros x; [simpl; lia|]. rewrite Nat2Z.inj_succ, Z.pow_succ_r by lia. simpl lcg.
  rewrite IH. lia.
Qed.

Lemma lcg_inj k x i j : 0 <= k -> (i < j)%nat -> Z.of_nat j - Z.of_nat i < 2 ^ k ->
  lcg i x mod 2 ^ k <> lcg j x mod 2 ^ k.
Proof.
  intros Hk Hij Hlt E. assert (0 < 2 ^ k) as Hp by lia.
  assert ((2 ^ k | lcg j x - lcg i x)) as [c Hc].
  { exists (lcg j x / 2 ^ k - lcg i x / 2 ^ k). pose proof (Z.div_mod (lcg j x) (2 ^ k)). pose proof (Z.div_mod (lcg i x) (2 ^ k)). lia. }
  assert ((2 ^ (k + 2) | (4 * lcg i x + 1) * (5 ^ Z.of_nat (j - i) - 1))) as Hd.
  { exists c. rewrite Z.mul_sub_distr_l, (Z.mul_comm _ (5 ^ _)), Z.mul_1_r. rewrite lcg_pow at 1.
    rewrite Z.mul_assoc, <- Z.pow_add_r by lia. replace (Z.of_nat (j - i) + Z.of_nat i) with (Z.of_nat j) by lia.
    rewrite <- lcg_pow, Z.pow_add_r by lia. lia. }
  replace (4 * lcg i x + 1) with (2 * (2 * lcg i x) + 1) in Hd by lia. apply odd_divide_pow2 in Hd; [|lia].
  apply five_order in Hd; [|lia..]. apply Z.divide_pos_le in Hd; lia.
Qed.

(** Among [2^k] successive indices modulo [2^k], every slot. *)
Lemma lcg_onto k x y : 0 <= k -> 0 <= y < 2 ^ k -> exists n, Z.of_nat n < 2 ^ k /\ lcg n x mod 2 ^ k = y.
Proof.
  intros Hk Hy. set (N := Z.to_nat (2 ^ k)). set (l := (fun n => lcg n x mod 2 ^ k) <$> seq 0 N).
  assert (NoDup l) as Hnd.
  { apply NoDup_fmap_2_strong; [|apply NoDup_seq]. intros i j Hi%elem_of_seq Hj%elem_of_seq E.
    destruct (Nat.lt_total i j) as [H|[H|H]]; [|done|]; exfalso; eapply (lcg_inj k x); [done|exact H|lia|done|done|exact H|lia|done]. }
  assert (l ⊆+ seqZ 0 (2 ^ k)) as Hsub.
  { apply NoDup_submseteq; [done|]. intros z (n & -> & _)%list_elem_of_fmap. apply elem_of_seqZ.
    pose proof (Z.mod_pos_bound (lcg n x) (2 ^ k)). lia. }
  assert (l ≡ₚ seqZ 0 (2 ^ k)) as Hperm.
  { apply submseteq_length_Permutation; [done|]. unfold l. rewrite length_fmap, length_seqZ, length_seq. done. }
  assert (y ∈ l) as (n & -> & Hn%elem_of_seq)%list_elem_of_fmap by (rewrite Hperm; apply elem_of_seqZ; lia).
  exists n. split; [lia|done].
Qed.
End Period.
