(* ===== verification/HashProps.v ===== *)
(** * The hash table is a map

    The invariant of a table, that probing returns in every table with an empty
    slot, and that hash_get, hash_set and hash_del act as the operations of a
    map from keys to values, through the growth and shrinking of the table. *)

From S2P Require Import Prelude Queue Memory Mmu Kernel Hash Invariant Preserve Progress KernelProps.
Import Hash.

Local Open Scope st_scope.

(** ** The probing sequence *)

Definition next_probe (p : Z * Z) : Z * Z := (u32 (5 * p.1 + p.2 + 1), Z.shiftr p.2 5).
Definition probe_state (msk h : Z) (n : nat) : Z * Z := Nat.iter n next_probe (Z.land (u32 h) msk, u32 h).
Definition probe (msk h : Z) (n : nat) : Z := Z.land (probe_state msk h n).1 msk.

Lemma lcg_succ n x : lcg (S n) x = 5 * lcg n x + 1.
Proof. revert x. induction n as [|n IH]; intros x; [done|]. change (lcg (S n) (5 * x + 1) = 5 * lcg (S n) x + 1). by rewrite IH. Qed.

Lemma perturb_range msk h n : 0 <= (probe_state msk h n).2 < 2 ^ (Z.max 0 (32 - 5 * Z.of_nat n)).
Proof.
  induction n as [|n IH]; [simpl; apply (uwrap_range 32); lia|]. unfold probe_state in *. simpl. rewrite Z.shiftr_div_pow2 by lia.
  set (p := (Nat.iter _ _ _).2) in *. split; [apply Z.div_pos; lia|]. apply Z.div_lt_upper_bound; [lia|].
  rewrite <- Z.pow_add_r by lia. eapply Z.lt_le_trans; [apply IH|]. apply Z.pow_le_mono_r; lia.
Qed.

Lemma perturb_zero msk h n : (probe_state msk h (7 + n)).2 = 0.
Proof. pose proof (perturb_range msk h (7 + n)) as H. replace (Z.max 0 _) with 0 in H by lia. lia. Qed.

Lemma land_pow2 k a : 0 <= k -> Z.land a (2 ^ k - 1) = a mod 2 ^ k.
Proof. intros. rewrite <- Z.land_ones by done. f_equal. rewrite Z.ones_equiv. lia. Qed.

Lemma probe_lcg k h n : 0 <= k <= 32 ->
  (probe_state (2 ^ k - 1) h (7 + n)).1 mod 2 ^ k = lcg n (probe_state (2 ^ k - 1) h 7).1 mod 2 ^ k.
Proof.
  intros Hk. induction n as [|n IH]; [rewrite Nat.add_0_r; exact eq_refl|]. rewrite lcg_succ. pose proof (perturb_zero (2 ^ k - 1) h n) as Hz.
  replace (7 + S n)%nat with (S (7 + n)) by lia.
  assert (probe_state (2 ^ k - 1) h (S (7 + n)) = next_probe (probe_state (2 ^ k - 1) h (7 + n))) as -> by exact eq_refl.
  generalize dependent (probe_state (2 ^ k - 1) h (7 + n)). intros st IH Hz. unfold next_probe. cbn [fst]. rewrite Hz, Z.add_0_r.
  unfold uwrap. rewrite Z.mod_mod_divide by (exists (2 ^ (32 - k)); rewrite <- Z.pow_add_r by lia; f_equal; lia).
  rewrite Z.add_mod, Z.mul_mod, IH by lia. by rewrite <- Z.mul_mod, <- Z.add_mod by lia.
Qed.

Lemma probe_range k h n : 0 <= k -> 0 <= probe (2 ^ k - 1) h n < 2 ^ k.
Proof. intros. unfold probe. rewrite land_pow2 by done. apply Z.mod_pos_bound. lia. Qed.

(** Every slot is visited within [7 + size] rounds. *)
Lemma probe_onto k h y : 0 <= k <= 32 -> 0 <= y < 2 ^ k -> exists n, Z.of_nat n < 7 + 2 ^ k /\ probe (2 ^ k - 1) h n = y.
Proof.
  intros Hk Hy. destruct (lcg_onto k (probe_state (2 ^ k - 1) h 7).1 y) as (n & Hn & E); [lia..|].
  exists (7 + n)%nat. split; [lia|]. unfold probe. rewrite land_pow2, probe_lcg by lia. done.
Qed.

(** ** Counting slots *)

Section Slots.
Context {Key : Type}.
Implicit Types (l : list (hash_slot Key)) (s : hash_slot Key).

Definition actives l : nat := length (filter (fun s => mode s = SL_ACTIVE) l).
Definition used l : nat := length (filter (fun s => mode s <> SL_EMPTY) l).

Lemma filter_insert_length (Q : hash_slot Key -> Prop) `{forall s, Decision (Q s)} l i s s0 : l !! i = Some s0 ->
  (length (filter Q (<[i := s]> l)) + (if decide (Q s0) then 1 else 0) = length (filter Q l) + (if decide (Q s) then 1 else 0))%nat.
Proof.
  intros Hi. pose proof (lookup_lt_Some _ _ _ Hi). rewrite insert_take_drop by done.
  rewrite <- (take_drop_middle l i s0 Hi) at 3. rewrite !filter_app, !length_app, !filter_cons.
  destruct (decide (Q s)), (decide (Q s0)); simpl; lia.
Qed.

Lemma actives_used l : (actives l <= used l)%nat.
Proof.
  unfold actives, used. induction l as [|s l IH]; [done|]. rewrite !filter_cons.
  destruct (decide (mode s = SL_ACTIVE)) as [E|E], (decide (mode s <> SL_EMPTY)) as [E'|E']; simpl; try lia.
  destruct E'. by rewrite E.
Qed.

Lemma empty_exists l : (used l < length l)%nat -> exists i s, l !! i = Some s /\ mode s = SL_EMPTY.
Proof.
  unfold used. induction l as [|s l IH]; simpl; [lia|]. rewrite filter_cons. destruct (decide (mode s <> SL_EMPTY)) as [E|E].
  - intros H. destruct IH as (i & s' & ? & ?); [simpl in H; lia|]. by exists (S i), s'.
  - intros _. exists 0%nat, s. split; [done|]. destruct (decide (mode s = SL_EMPTY)); [done|]. by destruct E.
Qed.

Lemma used_replicate n : used (replicate n (empty_slot (Key := Key))) = 0%nat /\ actives (replicate n (empty_slot (Key := Key))) = 0%nat.
Proof. unfold used, actives. induction n as [|n [IH1 IH2]]; [done|]. simpl. by rewrite !filter_cons. Qed.
End Slots.

(** ** The invariant *)

(** What the table relies on of the functions given to hash_init. *)
Record key_laws {Key : Type} {P : Pointer Key} (hf : Key -> Z) (eqk : Key -> Key -> bool) : Prop := {
  law_refl a : eqk a a = true;
  law_sym a b : eqk a b = true -> eqk b a = true;
  law_trans a b c : eqk a b = true -> eqk b c = true -> eqk a c = true;
  law_pointer a b : pointer a = pointer b -> eqk a b = true;
  law_hash a b : eqk a b = true -> hf a = hf b
}.

Section Table.
Context {Key : Type} {P : Pointer Key}.
Implicit Types (m : hash_t Key) (s : hash_slot Key) (k : Key).

Definition size_of m : Z := Z.of_nat (length (table m)).

(** The slot [i] is on the path of [h]: no empty slot comes before it. *)
Definition on_path m (h i : Z) : Prop :=
  exists n, probe (mask m) h n = i /\ forall n', (n' < n)%nat -> mode (slot_at m (probe (mask m) h n')) <> SL_EMPTY.

Record wf m : Prop := {
  wf_size : exists b, 3 <= b <= 27 /\ mask m = 2 ^ b - 1 /\ size_of m = 2 ^ b;
  wf_active : forall i s, table m !! i = Some s -> mode s = SL_ACTIVE ->
    exists k, key s = Some k /\ hash s = hfunc m k /\ on_path m (hfunc m k) (Z.of_nat i);
  wf_unique : forall i j s t k k', table m !! i = Some s -> table m !! j = Some t -> mode s = SL_ACTIVE ->
    mode t = SL_ACTIVE -> key s = Some k -> key t = Some k' -> cmp m k k' = true -> i = j;
  wf_count : count m = Z.of_nat (actives (table m));
  wf_fill : fill m = Z.of_nat (used (table m));
  wf_room : fill m < size_of m
}.

(** The key [k] has the value [v]. *)
Definition maps m k (v : Z) : Prop :=
  exists i s k', table m !! i = Some s /\ mode s = SL_ACTIVE /\ key s = Some k' /\ cmp m k' k = true /\ value s = v.
Definition absent m k : Prop := forall v, ~ maps m k v.

(** Less than two thirds of the slots have been used. *)
Definition balanced m : Prop := 3 * fill m < 2 * size_of m.

Lemma slot_at_lookup m i : (i < length (table m))%nat -> table m !! i = Some (slot_at m (Z.of_nat i)).
Proof. intros Hi. unfold slot_at. rewrite Nat2Z.id. rewrite nth_lookup. destruct (table m !! i) eqn:E; [done|]. apply lookup_ge_None in E. lia. Qed.

Context {m0 : hash_t Key} (Laws : key_laws (hfunc m0) (cmp m0)).

Lemma matches_iff m s k k' : key s = Some k' -> hash s = hfunc m0 k' -> cmp m = cmp m0 ->
  key_matches m s k (hfunc m0 k) = cmp m0 k' k.
Proof.
  intros Hk Hh Hc. unfold key_matches. rewrite Hk, Hh, Hc. destruct (Z.eqb_spec (pointer k') (pointer k)) as [E|E].
  - by rewrite (law_pointer _ _ Laws _ _ E).
  - simpl. destruct (cmp m0 k' k) eqn:Ec; [|apply andb_false_r]. by rewrite (law_hash _ _ Laws _ _ Ec), Z.eqb_refl.
Qed.

(** What hash_lookup promises. *)
Definition found m k i : Prop :=
  0 <= i < size_of m /\
  ((mode (slot_at m i) = SL_ACTIVE /\ exists k', key (slot_at m i) = Some k' /\ cmp m k' k = true) \/
   (mode (slot_at m i) <> SL_ACTIVE /\ absent m k /\ on_path m (hfunc m k) i)).

(** The first [n] slots of the path are used and do not hold [k]. *)
Definition passed m k n : Prop := forall n', (n' < n)%nat ->
  mode (slot_at m (probe (mask m) (hfunc m k) n')) <> SL_EMPTY /\
  (mode (slot_at m (probe (mask m) (hfunc m k) n')) = SL_ACTIVE ->
   forall k', key (slot_at m (probe (mask m) (hfunc m k) n')) = Some k' -> cmp m k' k = false).

Lemma slot_index m n h : wf m -> exists i, (i < length (table m))%nat /\ probe (mask m) h n = Z.of_nat i.
Proof.
  intros HW. destruct (wf_size _ HW) as (b & Hb & Em & Es). pose proof (probe_range b h n ltac:(lia)) as Hr. rewrite Em.
  exists (Z.to_nat (probe (2 ^ b - 1) h n)). unfold size_of in Es. lia.
Qed.

(** A key whose path has been followed to an empty slot is absent. *)
Lemma passed_absent m k n : wf m -> hfunc m = hfunc m0 -> cmp m = cmp m0 -> passed m k n ->
  mode (slot_at m (probe (mask m) (hfunc m k) n)) = SL_EMPTY -> absent m k.
Proof.
  intros HW Eh Ec Hp He v (i & s & k' & Hi & Hm & Hk & Hc & _).
  destruct (wf_active _ HW i s Hi Hm) as (k'' & Hk'' & Hh & n0 & Hn0 & Hpath). rewrite Hk in Hk''. injection Hk'' as <-.
  rewrite Ec in Hc. assert (hfunc m k' = hfunc m k) as E by (rewrite Eh; by apply (law_hash _ _ Laws)). rewrite E in *.
  assert (slot_at m (probe (mask m) (hfunc m k) n0) = s) as Es.
  { rewrite Hn0. pose proof (slot_at_lookup m i (lookup_lt_Some _ _ _ Hi)) as H. congruence. }
  destruct (Nat.lt_total n n0) as [Hlt|[->|Hlt]].
  - by apply (Hpath n Hlt).
  - congruence.
  - destruct (Hp n0 Hlt) as [_ Hf]. rewrite Es in Hf. specialize (Hf Hm k' Hk). rewrite Ec in Hf. congruence.
Qed.

Lemma lookup_loop_spec fuel m k n e fs : wf m -> hfunc m = hfunc m0 -> cmp m = cmp m0 -> passed m k n ->
  (n <= e < n + fuel)%nat -> mode (slot_at m (probe (mask m) (hfunc m k) e)) = SL_EMPTY ->
  (forall f, fs = Some f -> 0 <= f < size_of m /\ mode (slot_at m f) <> SL_ACTIVE /\ on_path m (hfunc m k) f) ->
  exists i, lookup_loop fuel m k (hfunc m k) (probe_state (mask m) (hfunc m k) n).1 (probe_state (mask m) (hfunc m k) n).2 fs = Ok i
    /\ found m k i.
Proof.
  intros HW Eh Ec. revert n fs. induction fuel as [|fuel IH]; intros n fs Hp He Hemp Hfs; [lia|].
  cbn [lookup_loop]. change (Z.land (probe_state (mask m) (hfunc m k) n).1 (mask m)) with (probe (mask m) (hfunc m k) n).
  change (u32 (5 * (probe_state (mask m) (hfunc m k) n).1 + (probe_state (mask m) (hfunc m k) n).2 + 1))
    with (probe_state (mask m) (hfunc m k) (S n)).1.
  change (Z.shiftr (probe_state (mask m) (hfunc m k) n).2 5) with (probe_state (mask m) (hfunc m k) (S n)).2.
  destruct (slot_index m n (hfunc m k) HW) as (i & Hi & Ei). pose proof (slot_at_lookup m i Hi) as Hs.
  assert (on_path m (hfunc m k) (Z.of_nat i)) as Hon. { exists n. split; [done|]. intros n' Hn'. by apply Hp. }
  destruct (mode (slot_at m (probe (mask m) (hfunc m k) n))) eqn:Em.
  - exists (default (probe (mask m) (hfunc m k) n) fs). split; [done|].
    pose proof (passed_absent m k n HW Eh Ec Hp Em) as Hab. destruct fs as [f|]; simpl.
    + destruct (Hfs f eq_refl) as (? & ? & ?). split; [done|]. by right.
    + rewrite Ei in *. split; [unfold size_of; lia|]. right. split_and!; [congruence|done|done].
  - rewrite Ei in Em |- *. destruct (wf_active _ HW i _ Hs Em) as (k' & Hk' & Hh & _).
    rewrite Eh in Hh |- *. rewrite (matches_iff m (slot_at m (Z.of_nat i)) k k' Hk' Hh Ec). rewrite <- Eh.
    destruct (cmp m0 k' k) eqn:Ek.
    + exists (Z.of_nat i). split; [done|]. split; [unfold size_of; lia|]. left. split; [done|]. exists k'. by rewrite Ec.
    + apply IH; [|destruct (decide (e = n)) as [->|]; [rewrite Ei in Hemp; congruence|lia]|done|done].
      intros n' Hn'. destruct (decide (n' = n)) as [->|]; [|apply Hp; lia]. rewrite Ei. split; [congruence|].
      intros _ k2 Hk2. rewrite Hk' in Hk2. injection Hk2 as <-. by rewrite Ec.
  - apply IH; [|destruct (decide (e = n)) as [->|]; [congruence|lia]|done|].
    + intros n' Hn'. destruct (decide (n' = n)) as [->|]; [|apply Hp; lia]. split; congruence.
    + intros f [= <-]. destruct fs as [f'|]; simpl; [by apply Hfs|]. rewrite Ei in *.
      split; [unfold size_of; lia|]. split; [congruence|done].
Qed.

(** hash_lookup returns in every well-formed table. *)
Lemma hash_lookup_spec m k : wf m -> hfunc m = hfunc m0 -> cmp m = cmp m0 ->
  exists i, hash_lookup m k (hfunc m k) = Ok i /\ found m k i.
Proof.
  intros HW Eh Ec. destruct (wf_size _ HW) as (b & Hb & Em & Es).
  destruct (empty_exists (table m)) as (j & s & Hj & Hs).
  { pose proof (wf_fill _ HW). pose proof (wf_room _ HW). unfold size_of in *. lia. }
  pose proof (lookup_lt_Some _ _ _ Hj) as Hlt.
  destruct (probe_onto b (hfunc m k) (Z.of_nat j)) as (e & He & Ee); [lia|unfold size_of in Es; lia|].
  destruct (lookup_loop_spec (7 + length (table m)) m k 0 e None HW Eh Ec) as (i & E & HF); [intros n'; lia| | |done|].
  - unfold size_of in Es. lia.
  - rewrite Em, Ee. rewrite (slot_at_lookup m j Hlt) in Hj. congruence.
  - exists i. split; [exact E|done].
Qed.
End Table.

(** ** Changing one slot *)

Section Change.
Context {Key : Type} {P : Pointer Key}.
Implicit Types (m : hash_t Key) (s : hash_slot Key) (k : Key).

(** [m'] is [m] with the slot [i] replaced by [s]; the counters are free. *)
Record changed m m' (i : nat) s : Prop := {
  ch_table : table m' = <[i := s]> (table m);
  ch_mask : mask m' = mask m;
  ch_hfunc : hfunc m' = hfunc m;
  ch_cmp : cmp m' = cmp m;
  ch_addr : table_addr m' = table_addr m;
  ch_index : (i < length (table m))%nat
}.

Lemma changed_lookup m m' i s j : changed m m' i s -> table m' !! j = if decide (j = i) then Some s else table m !! j.
Proof.
  intros [E _ _ _ _ Hi]. rewrite E. case_decide; [subst; by apply list_lookup_insert_eq|]. by apply list_lookup_insert_ne.
Qed.

Lemma changed_slot m m' i s x : changed m m' i s -> slot_at m' x = if decide (Z.to_nat x = i) then s else slot_at m x.
Proof.
  intros HC. unfold slot_at. rewrite !nth_lookup, (changed_lookup m m' i s _ HC). by case_decide.
Qed.

Lemma changed_size m m' i s : changed m m' i s -> size_of m' = size_of m.
Proof. intros [E _ _ _ _ _]. unfold size_of. by rewrite E, length_insert. Qed.

Lemma changed_path m m' i s h j : changed m m' i s -> mode s <> SL_EMPTY -> on_path m h j -> on_path m' h j.
Proof.
  intros HC Hs (n & <- & Hn). exists n. rewrite (ch_mask _ _ _ _ HC). split; [done|]. intros n' Hn'.
  rewrite (changed_slot m m' i s _ HC). case_decide; [done|by apply Hn].
Qed.

Lemma changed_counts m m' i s s0 : changed m m' i s -> table m !! i = Some s0 ->
  (used (table m') + (if decide (mode s0 <> SL_EMPTY) then 1 else 0) = used (table m) + (if decide (mode s <> SL_EMPTY) then 1 else 0))%nat /\
  (actives (table m') + (if decide (mode s0 = SL_ACTIVE) then 1 else 0) = actives (table m) + (if decide (mode s = SL_ACTIVE) then 1 else 0))%nat.
Proof.
  intros [E _ _ _ _ _] Hi. rewrite E.
  pose proof (filter_insert_length (fun s => mode s <> SL_EMPTY) (table m) i s s0 Hi) as HU.
  pose proof (filter_insert_length (fun s => mode s = SL_ACTIVE) (table m) i s s0 Hi) as HA.
  split; [exact HU|exact HA].
Qed.

Context {m0 : hash_t Key} (Laws : key_laws (hfunc m0) (cmp m0)).

(** A new key in a slot that is not active. *)
Lemma insert_key m m' i k v : wf m -> hfunc m = hfunc m0 -> cmp m = cmp m0 ->
  changed m m' i (mk_slot (Some k) v (hfunc m k) SL_ACTIVE) ->
  mode (slot_at m (Z.of_nat i)) <> SL_ACTIVE -> absent m k -> on_path m (hfunc m k) (Z.of_nat i) ->
  count m' = count m + 1 -> fill m' = (if decide (mode (slot_at m (Z.of_nat i)) = SL_EMPTY) then fill m + 1 else fill m) ->
  fill m' < size_of m ->
  wf m' /\ forall k' w, maps m' k' w <-> if cmp m0 k k' then w = v else maps m k' w.
Proof.
  intros HW Eh Ec HC Hna Hab Hon Hcnt Hfl Hroom. set (s := mk_slot _ _ _ _) in *.
  pose proof (slot_at_lookup m i (ch_index _ _ _ _ HC)) as Hi. set (s0 := slot_at m (Z.of_nat i)) in *.
  destruct (changed_counts m m' i s s0 HC Hi) as [HU HA].
  assert (forall j t k', table m !! j = Some t -> mode t = SL_ACTIVE -> key t = Some k' -> cmp m k' k = false) as Hnew.
  { intros j t k' Hj Hm Hk. destruct (cmp m k' k) eqn:E; [|done]. destruct (Hab (value t)). by exists j, t, k'. }
  split; [split|].
  - destruct (wf_size _ HW) as (b & ? & ? & ?). exists b. by rewrite (ch_mask _ _ _ _ HC), (changed_size _ _ _ _ HC).
  - intros j t Hj Hm. rewrite (changed_lookup _ _ _ _ j HC) in Hj. case_decide as E.
    + injection Hj as <-. exists k. rewrite (ch_hfunc _ _ _ _ HC). subst j. split_and!; [done|done|]. by apply (changed_path m m' i s).
    + destruct (wf_active _ HW j t Hj Hm) as (k' & ? & ? & ?). exists k'. rewrite (ch_hfunc _ _ _ _ HC). split_and!; [done|done|].
      by apply (changed_path m m' i s).
  - intros j j' t t' k1 k2 Hj Hj' Hm Hm' Hk Hk' Hcmp. rewrite (ch_cmp _ _ _ _ HC) in Hcmp.
    rewrite (changed_lookup _ _ _ _ j HC) in Hj. rewrite (changed_lookup _ _ _ _ j' HC) in Hj'. destruct (decide (j = i)) as [->|], (decide (j' = i)) as [->|]; [done| | |by eapply (wf_unique _ HW)].
    + injection Hj as <-. injection Hk as <-. rewrite Ec in Hcmp. apply (law_sym _ _ Laws) in Hcmp. rewrite <- Ec in Hcmp.
      pose proof (Hnew j' t' k2 Hj' Hm' Hk'). congruence.
    + injection Hj' as <-. injection Hk' as <-. pose proof (Hnew j t k1 Hj Hm Hk). congruence.
  - rewrite Hcnt, (wf_count _ HW). simpl in HA. destruct (decide (mode s0 = SL_ACTIVE)); [done|].
    destruct (decide (SL_ACTIVE = SL_ACTIVE)); [lia|done].
  - rewrite Hfl, (wf_fill _ HW). simpl in HU. destruct (decide (SL_ACTIVE <> SL_EMPTY)) as [_|[]]; [|done].
    destruct (decide (mode s0 = SL_EMPTY)) as [E|E], (decide (mode s0 <> SL_EMPTY)) as [E'|E']; try lia; by destruct E'.
  - by rewrite (changed_size _ _ _ _ HC).
  - intros k' w. unfold maps. rewrite (ch_cmp _ _ _ _ HC), Ec. split.
    + intros (j & t & k1 & Hj & Hm & Hk & Hcmp & Hv). rewrite (changed_lookup _ _ _ _ j HC) in Hj. case_decide as E.
      * injection Hj as <-. injection Hk as <-. rewrite Hcmp. done.
      * destruct (cmp m0 k k') eqn:Ek; [|by exists j, t, k1]. apply (law_sym _ _ Laws) in Ek.
        pose proof (law_trans _ _ Laws _ _ _ Hcmp Ek) as H. rewrite <- Ec in H. pose proof (Hnew j t k1 Hj Hm Hk). congruence.
    + destruct (cmp m0 k k') eqn:Ek.
      * intros ->. exists i, s, k. rewrite (changed_lookup _ _ _ _ i HC). by rewrite decide_True.
      * intros (j & t & k1 & Hj & Hm & Hk & Hcmp & Hv). exists j, t, k1. rewrite (changed_lookup _ _ _ _ j HC).
        rewrite decide_False; [done|]. intros ->. rewrite Hi in Hj. injection Hj as <-. done.
Qed.

(** A value changed in an active slot, or the slot deleted: what [k] maps to
    becomes what the new slot says. *)
Lemma replace_key m m' i k0 k s : wf m -> hfunc m = hfunc m0 -> cmp m = cmp m0 -> changed m m' i s ->
  mode (slot_at m (Z.of_nat i)) = SL_ACTIVE -> key (slot_at m (Z.of_nat i)) = Some k0 -> cmp m k0 k = true ->
  mode s <> SL_EMPTY -> (mode s = SL_ACTIVE -> key s = Some k0 /\ hash s = hfunc m k0) ->
  count m' = (if decide (mode s = SL_ACTIVE) then count m else count m - 1) -> fill m' = fill m ->
  wf m' /\ forall k' w, maps m' k' w <-> if cmp m0 k k' then mode s = SL_ACTIVE /\ w = value s else maps m k' w.
Proof.
  intros HW Eh Ec HC Hact Hk0 Hck Hne Hs Hcnt Hfl. rewrite Ec in Hck.
  pose proof (slot_at_lookup m i (ch_index _ _ _ _ HC)) as Hi. set (s0 := slot_at m (Z.of_nat i)) in *.
  destruct (changed_counts m m' i s s0 HC Hi) as [HU HA].
  assert (forall j t k1 k', table m !! j = Some t -> mode t = SL_ACTIVE -> key t = Some k1 -> cmp m0 k1 k' = true ->
    cmp m0 k k' = true -> j = i) as Honly.
  { intros j t k1 k' Hj Hm Hk1 H1 H2. apply (wf_unique _ HW j i t s0 k1 k0); try done. rewrite Ec.
    apply (law_trans _ _ Laws _ k'); [done|]. apply (law_sym _ _ Laws). by apply (law_trans _ _ Laws _ k). }
  split; [split|].
  - destruct (wf_size _ HW) as (b & ? & ? & ?). exists b. by rewrite (ch_mask _ _ _ _ HC), (changed_size _ _ _ _ HC).
  - intros j t Hj Hm. rewrite (changed_lookup _ _ _ _ j HC) in Hj. rewrite (ch_hfunc _ _ _ _ HC). case_decide as E.
    + injection Hj as <-. destruct (Hs Hm) as [Hk Hh]. exists k0. subst j. split_and!; [done|done|].
      destruct (wf_active _ HW i s0 Hi Hact) as (k1 & Hk1 & _ & Hp). rewrite Hk0 in Hk1. injection Hk1 as <-.
      by apply (changed_path m m' i s).
    + destruct (wf_active _ HW j t Hj Hm) as (k' & ? & ? & ?). exists k'. split_and!; [done|done|]. by apply (changed_path m m' i s).
  - intros j j' t t' k1 k2 Hj Hj' Hm Hm' Hk Hk' Hcmp. rewrite (ch_cmp _ _ _ _ HC) in Hcmp.
    rewrite (changed_lookup _ _ _ _ j HC) in Hj. rewrite (changed_lookup _ _ _ _ j' HC) in Hj'. destruct (decide (j = i)) as [->|], (decide (j' = i)) as [->|]; [done| | |by eapply (wf_unique _ HW)].
    + injection Hj as <-. destruct (Hs Hm) as [Hk2 _]. rewrite Hk in Hk2. injection Hk2 as ->. by apply (wf_unique _ HW i j' s0 t' k0 k2).
    + injection Hj' as <-. destruct (Hs Hm') as [Hk2 _]. rewrite Hk' in Hk2. injection Hk2 as ->. by apply (wf_unique _ HW j i t s0 k1 k0).
  - rewrite Hcnt, (wf_count _ HW). destruct (decide (mode s0 = SL_ACTIVE)); [|done]. destruct (decide (mode s = SL_ACTIVE)); lia.
  - rewrite Hfl, (wf_fill _ HW). destruct (decide (mode s <> SL_EMPTY)); [|done].
    destruct (decide (mode s0 <> SL_EMPTY)) as [_|E]; [lia|]. destruct E. by rewrite Hact.
  - rewrite (changed_size _ _ _ _ HC), Hfl. apply (wf_room _ HW).
  - intros k' w. unfold maps. rewrite (ch_cmp _ _ _ _ HC), Ec. split.
    + intros (j & t & k1 & Hj & Hm & Hk & Hcmp & Hv). rewrite (changed_lookup _ _ _ _ j HC) in Hj. case_decide as E.
      * injection Hj as <-. destruct (Hs Hm) as [Hk1 _]. rewrite Hk in Hk1. injection Hk1 as ->.
        rewrite (law_trans _ _ Laws k k0 k'); [done|by apply (law_sym _ _ Laws)|done].
      * destruct (cmp m0 k k') eqn:Ek; [|by exists j, t, k1]. by destruct (E (Honly j t k1 k' Hj Hm Hk Hcmp Ek)).
    + destruct (cmp m0 k k') eqn:Ek.
      * intros [Hm ->]. destruct (Hs Hm) as [Hk _]. exists i, s, k0. rewrite (changed_lookup _ _ _ _ i HC), decide_True by done.
        split_and!; try done. by apply (law_trans _ _ Laws _ k).
      * intros (j & t & k1 & Hj & Hm & Hk & Hcmp & Hv). exists j, t, k1. rewrite (changed_lookup _ _ _ _ j HC).
        rewrite decide_False; [done|]. intros ->. rewrite Hi in Hj. injection Hj as <-. rewrite Hk0 in Hk. injection Hk as <-.
        apply (law_sym _ _ Laws) in Hck. rewrite (law_trans _ _ Laws _ _ _ Hck Hcmp) in Ek. done.
Qed.
End Change.

(** ** Growing and shrinking *)

Section Resize.
Context {Key : Type} {P : Pointer Key} {C : Config} {L : MallocLaws C}.
Context {S : Type} {ops : QueueOps qid Z S}.
Implicit Types (m : hash_t Key) (s : hash_slot Key) (k : Key) (st : kernel S).

Lemma twp_alloc n o (Q : Z -> kernel S -> Prop) st : Q 0 st ->
  (forall z, n <> 0 -> z <> 0 -> heap st !! z = None -> Q z (set_heap (<[z := (n, o)]> (heap st)) st)) -> twp (mem_alloc n o) Q st.
Proof.
  intros H1 H2. unfold twp, mem_alloc. destruct (Z.eqb_spec n 0); [by exists 0, st|]. destruct (_ <=? n); [by exists 0, st|].
  destruct (malloc _ _) as [z|] eqn:E; [|by exists 0, st]. pose proof (malloc_region _ _ _ E). eexists z, _. split; [done|].
  apply H2; [done|lia|]. apply malloc_fresh in E. rewrite lookup_fmap in E. by destruct (heap st !! z).
Qed.

Lemma twp_free z n o (Q : unit -> kernel S -> Prop) st : heap st !! z = Some (n, o) -> n <> 0 ->
  Q tt (set_heap (delete z (heap st)) st) -> twp (mem_free z n) Q st.
Proof.
  intros Hz Hn HQ. eexists tt, _. split; [|exact HQ]. unfold mem_free. destruct (Z.eqb_spec n 0); [lia|].
  rewrite bool_decide_eq_true_2; [done|]. by rewrite Hz.
Qed.

Lemma twp_lift {A} (r : result A) a Q st : r = Ok a -> Q a st -> twp (lift r) Q st.
Proof. intros -> HQ. by exists a, st. Qed.

(** The block of the table is live. *)
Definition owned m st : Prop := exists o, heap st !! table_addr m = Some (u32 (size_of m * sizeof_hash_slot), o).

Definition fresh_table m t (n : nat) : hash_t Key := mk_hash 0 0 (Z.of_nat n - 1) t (replicate n empty_slot) (hfunc m) (cmp m).

Lemma fresh_table_wf m t b : 3 <= b <= 27 -> wf (fresh_table m t (Z.to_nat (2 ^ b))) /\ forall k, absent (fresh_table m t (Z.to_nat (2 ^ b))) k.
Proof.
  intros Hb. assert (0 < 2 ^ b) by lia.
  assert (forall i s, replicate (Z.to_nat (2 ^ b)) empty_slot !! i = Some s -> mode (Key := Key) s = SL_EMPTY) as Hemp.
  { intros i s Hi. apply lookup_replicate_1 in Hi as [-> _]. done. }
  split; [split; simpl|].
  - exists b. unfold size_of. simpl. rewrite length_replicate. lia.
  - intros i s Hi Hm. apply Hemp in Hi. congruence.
  - intros i j s t' k k' Hi _ Hm. apply Hemp in Hi. congruence.
  - by rewrite (proj2 (used_replicate _)).
  - by rewrite (proj1 (used_replicate _)).
  - unfold size_of. simpl. rewrite length_replicate. lia.
  - intros k v (i & s & k' & Hi & Hm & _). apply Hemp in Hi. congruence.
Qed.

Context {m0 : hash_t Key} (Laws : key_laws (hfunc m0) (cmp m0)).

Definition same_functions m : Prop := hfunc m = hfunc m0 /\ cmp m = cmp m0.

(** No slot has been deleted: as in a table just allocated. *)
Definition clean m : Prop := forall i s, table m !! i = Some s -> mode s <> SL_DELETED.

(** Slots of another table whose keys are new to this one. *)
Record importable m (l : list (hash_slot Key)) : Prop := {
  im_active : forall i s, l !! i = Some s -> mode s = SL_ACTIVE -> exists k, key s = Some k /\ hash s = hfunc m0 k;
  im_unique : forall i j s t k k', l !! i = Some s -> l !! j = Some t -> mode s = SL_ACTIVE -> mode t = SL_ACTIVE ->
    key s = Some k -> key t = Some k' -> cmp m0 k k' = true -> i = j;
  im_new : forall i s k, l !! i = Some s -> mode s = SL_ACTIVE -> key s = Some k -> absent m k
}.

Definition in_slots (l : list (hash_slot Key)) k (v : Z) : Prop :=
  exists i s k', l !! i = Some s /\ mode s = SL_ACTIVE /\ key s = Some k' /\ cmp m0 k' k = true /\ value s = v.

Lemma copy_active m s k st : wf m -> same_functions m -> clean m -> mode s = SL_ACTIVE -> key s = Some k ->
  hash s = hfunc m0 k -> absent m k -> fill m + 1 < size_of m ->
  twp (copy_slot m s) (fun m' st' => st' = st /\ wf m' /\ same_functions m' /\ clean m' /\ size_of m' = size_of m /\
    table_addr m' = table_addr m /\ fill m' = fill m + 1 /\
    (forall k' w, maps m' k' w <-> if cmp m0 k k' then w = value s else maps m k' w) /\
    (forall l', importable m (s :: l') -> importable m' l')) st.
Proof.
  intros HW [Eh Ec] Hcl Hm Hk Hh Hab Hroom. unfold copy_slot. rewrite Hm, Hk.
  destruct (hash_lookup_spec Laws m k HW Eh Ec) as (i & E & Hi & HF). apply twp_bind. eapply twp_lift; [exact E|]. apply twp_ret.
  destruct HF as [(Ha & k' & Hk' & Hc)|(Hna & _ & Hon)].
  { exfalso. apply (Hab (value (slot_at m i))). exists (Z.to_nat i), (slot_at m i), k'. split_and!; try done.
    pose proof (slot_at_lookup m (Z.to_nat i)) as H. rewrite Z2Nat.id in H by lia. apply H. unfold size_of in Hi. lia. }
  set (m' := set_counts _ _ _). pose proof (slot_at_lookup m (Z.to_nat i)) as Hsl. rewrite Z2Nat.id in Hsl by lia.
  specialize (Hsl ltac:(unfold size_of in Hi; lia)).
  assert (changed m m' (Z.to_nat i) (mk_slot (Some k) (value s) (hfunc m k) SL_ACTIVE)) as HC.
  { split; try done; [|unfold size_of in Hi; lia]. unfold m'. simpl. by rewrite Hh, Eh. }
  assert (mode (slot_at m i) = SL_EMPTY) as Hemp. { pose proof (Hcl _ _ Hsl). by destruct (mode (slot_at m i)). }
  destruct (insert_key Laws m m' (Z.to_nat i) k (value s) HW Eh Ec HC) as [HW' HM]; rewrite ?Z2Nat.id by lia; try done.
  { by rewrite Hemp. }
  split_and!; try done; [| |].
  - intros j t Hj. rewrite (changed_lookup _ _ _ _ j HC) in Hj. case_decide; [by injection Hj as <-|by eapply Hcl].
  - by apply (changed_size _ _ _ _ HC).
  - intros l' [I1 I2 I3]. split.
    + intros j t Hj. apply (I1 (Datatypes.S j) t Hj).
    + intros j j' t t' k1 k2 Hj Hj' ? ? ? ? ?. assert (Datatypes.S j = Datatypes.S j') as [= ->]; [|done]. by eapply (I2 (Datatypes.S j) (Datatypes.S j')).
    + intros j t k1 Hj Hmt Hkt w. rewrite HM. destruct (cmp m0 k k1) eqn:Ek; [|by apply (I3 (Datatypes.S j) t k1)].
      pose proof (I2 0%nat (Datatypes.S j) s t k k1 eq_refl Hj Hm Hmt Hk Hkt Ek). done.
Qed.

Lemma actives_cons s l : actives (s :: l) = ((if decide (mode s = SL_ACTIVE) then 1 else 0) + actives l)%nat.
Proof. unfold actives. rewrite filter_cons. by destruct (decide _). Qed.

Lemma in_slots_cons s l k v : in_slots (s :: l) k v <->
  (mode s = SL_ACTIVE /\ value s = v /\ exists k', key s = Some k' /\ cmp m0 k' k = true) \/ in_slots l k v.
Proof.
  split.
  - intros ([|i] & t & k' & Hi & Hm & Hk & Hc & Hv); simpl in Hi; [injection Hi as <-; left; eauto|].
    right. by exists i, t, k'.
  - intros [(Hm & Hv & k' & Hk & Hc)|(i & t & k' & ? & ? & ? & ? & ?)]; [by exists 0%nat, s, k'|by exists (Datatypes.S i), t, k'].
Qed.

Lemma copy_spec l m st : wf m -> same_functions m -> clean m -> importable m l -> fill m + Z.of_nat (actives l) < size_of m ->
  twp (hash_copy m l) (fun m' st' => st' = st /\ wf m' /\ same_functions m' /\ size_of m' = size_of m /\
    table_addr m' = table_addr m /\ fill m' = fill m + Z.of_nat (actives l) /\
    forall k w, maps m' k w <-> in_slots l k w \/ maps m k w) st.
Proof.
  revert m. induction l as [|s l IH]; intros m HW HS Hcl HI Hroom; simpl.
  { apply twp_ret. split_and!; try done; [change (actives []) with 0%nat; lia|]. intros k w. split; [by right|]. intros [(i & t & k' & Hi & _)|H]; [done|done]. }
  apply twp_bind. rewrite actives_cons in Hroom. destruct (decide (mode s = SL_ACTIVE)) as [Hm|Hm].
  - destruct (im_active _ _ HI 0%nat s eq_refl Hm) as (k & Hk & Hh).
    pose proof (im_new _ _ HI 0%nat s k eq_refl Hm Hk) as Hab.
    eapply twp_mono; [apply (copy_active m s k st HW HS Hcl Hm Hk Hh Hab); lia|].
    intros m1 ? (-> & HW1 & HS1 & Hcl1 & Es1 & Ea1 & Ef1 & HM1 & HI1).
    eapply twp_mono; [apply (IH m1 HW1 HS1 Hcl1 (HI1 l HI)); lia|].
    intros m2 ? (-> & HW2 & HS2 & Es2 & Ea2 & Ef2 & HM2). split_and!; try done; [congruence|congruence| |].
    + rewrite actives_cons, decide_True by done. lia.
    + intros k' w. rewrite HM2, HM1, in_slots_cons. destruct (cmp m0 k k') eqn:Ek.
      * split; [intros [?| ->]; [by left; right|left; left; eauto]|].
        intros [[(_ & -> & _)|?]|Hmp]; [by right|by left|]. destruct Hmp as (i & t & k1 & ? & ? & ? & Hc1 & ?).
        exfalso. apply (Hab (value t)). exists i, t, k1. split_and!; try done. destruct HS as [_ Ec]. rewrite Ec in Hc1 |- *.
        apply (law_trans _ _ Laws _ _ _ Hc1). by apply (law_sym _ _ Laws).
      * split; [intros [?|?]; [by left; right|by right]|]. intros [[(_ & _ & k1 & Hk1 & Hc1)|?]|?]; [|by left|by right]. congruence.
  - assert (copy_slot m s = ret (S := kernel S) m) as ->.
    { unfold copy_slot. destruct (mode s), (key s); done. }
    apply twp_ret. eapply twp_mono; [apply (IH m HW HS Hcl)|].
    + destruct HI as [I1 I2 I3]. split.
      * intros j t Hj. apply (I1 (Datatypes.S j) t Hj).
      * intros j j' t t' k1 k2 Hj Hj' ? ? ? ? ?. assert (Datatypes.S j = Datatypes.S j') as [= ->]; [|done]. by eapply (I2 (Datatypes.S j) (Datatypes.S j')).
      * intros j t k1 Hj. apply (I3 (Datatypes.S j) t k1 Hj).
    + lia.
    + intros m2 ? (-> & HW2 & HS2 & Es2 & Ea2 & Ef2 & HM2). split_and!; try done.
      * rewrite actives_cons, decide_False by done. lia.
      * intros k' w. rewrite HM2, in_slots_cons. clear -Hm. tauto.
Qed.

(** A table and its block, with the keys and values of [m]. *)
Definition same_map m m' : Prop := forall k w, maps m' k w <-> maps m k w.

Lemma block_size b : 3 <= b <= 27 -> u32 (2 ^ b * sizeof_hash_slot) = 2 ^ b * 16.
Proof.
  intros Hb. unfold sizeof_hash_slot. apply uwrap_small. replace (2 ^ 32) with (2 ^ 28 * 16) by done.
  assert (2 ^ b < 2 ^ 28) by (apply Z.pow_lt_mono_r; lia). lia.
Qed.

(** The table can hold its keys in [2^b] slots. *)
Lemma resize_spec m b st : wf m -> same_functions m -> owned m st -> 3 <= b <= 28 -> count m < 2 ^ b ->
  twp (resize m (size_of m) (2 ^ b)) (fun '(r, m') st' =>
    (r = -1 /\ m' = m /\ st' = st) \/
    (r = 0 /\ wf m' /\ same_functions m' /\ owned m' st' /\ same_map m m' /\ size_of m' = 2 ^ b /\ fill m' = count m)) st.
Proof.
  intros HW HS [o Ho] Hb Hcnt. destruct (wf_size _ HW) as (b0 & Hb0 & Em0 & Es0). unfold resize, hash_initialize.
  do 2 apply twp_bind. apply twp_alloc.
  { rewrite Z.eqb_refl. apply twp_ret, twp_ret. by left. }
  intros t Hn Ht Hfr. destruct (Z.eqb_spec t 0); [done|]. apply twp_ret. simpl (0 =? -1). cbv iota beta.
  assert (b <= 27) as Hb2. { destruct (decide (b = 28)) as [->|]; [|lia]. by destruct Hn. }
  assert (0 < 2 ^ b < 2 ^ 28) as Hp by (split; [lia|apply Z.pow_lt_mono_r; lia]).
  assert (u32 (2 ^ b - 1) = 2 ^ b - 1) as -> by (apply uwrap_small; change (2 ^ 32) with (2 ^ 28 * 16); lia).
  set (m1 := mk_hash _ _ _ _ _ _ _). assert (m1 = fresh_table m t (Z.to_nat (2 ^ b))) as Em1.
  { unfold m1, fresh_table. by rewrite Z2Nat.id by lia. }
  destruct (fresh_table_wf m t b) as [HW1 Hab1]; [lia|]. rewrite <- Em1 in HW1, Hab1. clearbody m1.
  assert (size_of m1 = 2 ^ b) as Es1. { rewrite Em1. unfold size_of. simpl. rewrite length_replicate. lia. }
  assert (fill m1 = 0) as Ef1 by (by rewrite Em1).
  apply twp_bind. eapply twp_mono; [apply (copy_spec (table m) m1)|].
  - done.
  - by rewrite Em1.
  - rewrite Em1. intros i s Hi. simpl in Hi. apply lookup_replicate_1 in Hi as [-> _]. done.
  - destruct HS as [Eh Ec]. split.
    + intros i s Hi Hm. destruct (wf_active _ HW i s Hi Hm) as (k & ? & ? & _). exists k. by rewrite <- Eh.
    + rewrite <- Ec. apply (wf_unique _ HW).
    + intros i s k _ _ _. apply Hab1.
  - rewrite Es1, Ef1, <- (wf_count _ HW). lia.
  - intros m2 ? (-> & HW2 & HS2 & Es2 & Ea2 & Ef2 & HM2). apply twp_bind. rewrite Es0, block_size in Ho |- * by done.
    assert (table_addr m <> t) as Hne by (intros E; rewrite E in Ho; simpl in Hfr; congruence).
    eapply twp_free; [simpl; by rewrite lookup_insert_ne|assert (0 < 2 ^ b0) by lia; lia|]. apply twp_ret. right. split_and!; try done.
    + exists OTable. rewrite Ea2, Es2, Es1, Em1. simpl. rewrite lookup_delete_ne by done. by rewrite lookup_insert_eq.
    + intros k w. rewrite HM2. destruct HS as [_ Ec]. unfold maps, in_slots. rewrite Ec. split; [|by left].
      intros [?|H]; [done|]. by destruct (Hab1 k w).
    + congruence.
    + rewrite Ef2, Ef1, <- (wf_count _ HW). lia.
Qed.

(** After one more slot was used, or one freed: hash_update keeps the map,
    and restores the balance when it succeeds. *)
Lemma update_spec m st : wf m -> same_functions m -> owned m st -> 3 * (fill m - 1) < 2 * size_of m ->
  twp (hash_update m) (fun '(r, m') st' => wf m' /\ same_functions m' /\ owned m' st' /\ same_map m m' /\
    (r = 0 /\ balanced m' \/ r = -1)) st.
Proof.
  intros HW HS Ho Hf. destruct (wf_size _ HW) as (b & Hb & Em & Es).
  pose proof (wf_count _ HW) as Hc. pose proof (wf_fill _ HW) as Hu. pose proof (actives_used (table m)) as Hau.
  pose proof (wf_room _ HW) as Hroom. rewrite Es in Hf, Hroom.
  assert (8 <= 2 ^ b <= 2 ^ 27) as Hp by (split; [apply (Z.pow_le_mono_r 2 3); lia|apply Z.pow_le_mono_r; lia]).
  assert (2 ^ 27 = 134217728) as E27 by done. unfold hash_update. rewrite Em. replace (2 ^ b - 1 + 1) with (2 ^ b) by lia.
  assert (2 ^ (32 - 1) = 2147483648) as E31 by done.
  rewrite (swrap_small 32 (2 ^ b)), (swrap_small 32 (2 * 2 ^ b)), (swrap_small 32 (3 * fill m)), (swrap_small 32 (4 * count m)) by lia.
  rewrite Z.shiftl_mul_pow2, Z.shiftr_div_pow2 by lia. rewrite !Z.pow_1_r.
  destruct (Z.leb_spec (2 * 2 ^ b) (3 * fill m)).
  - rewrite (swrap_small 32) by lia. destruct (Z.ltb_spec (2 ^ b * 2) (2 ^ b)); [lia|].
    replace (2 ^ b * 2) with (2 ^ (b + 1)) by (rewrite Z.pow_add_r by lia; lia). rewrite <- Es.
    assert (2 ^ (b + 1) = 2 * 2 ^ b) as Eb by (rewrite Z.pow_add_r by lia; lia).
    eapply twp_mono; [apply (resize_spec m (b + 1) st HW HS Ho); lia|].
    intros [r m'] st' [(-> & -> & ->)|(-> & ? & ? & ? & ? & Es' & Ef')].
    + split_and!; try done. by right.
    + split_and!; try done. left. split; [done|]. unfold balanced. lia.
  - destruct ((HASH_MINSIZE <? 2 ^ b) && (4 * count m <=? 2 ^ b)) eqn:Esh.
    + apply andb_true_iff in Esh as [H8%Z.ltb_lt H4%Z.leb_le]. unfold HASH_MINSIZE in H8.
      assert (3 < b) as Hb3. { apply (Z.pow_lt_mono_r_iff 2); lia. }
      assert (2 ^ b = 2 * 2 ^ (b - 1)) as Eb by (rewrite <- Z.pow_succ_r by lia; f_equal; lia).
      replace (2 ^ b / 2) with (2 ^ (b - 1)) by (rewrite Eb, Z.mul_comm, Z.div_mul; lia). rewrite <- Es.
      eapply twp_mono; [apply (resize_spec m (b - 1) st HW HS Ho); lia|].
      intros [r m'] st' [(-> & -> & ->)|(-> & ? & ? & ? & ? & Es' & Ef')].
      * split_and!; try done. by right.
      * split_and!; try done. left. split; [done|]. unfold balanced. lia.
    + apply twp_ret. split_and!; try done. left. split; [done|]. unfold balanced. lia.
Qed.
End Resize.

(** ** Properties *)

Section HashTheorems.
Context {Key : Type} {P : Pointer Key} {C : Config} {L : MallocLaws C}.
Context {S : Type} {ops : QueueOps qid Z S}.
Implicit Types (m : hash_t Key) (k : Key) (st : kernel S).

Lemma get_maps m k d : key_laws (hfunc m) (cmp m) -> wf m ->
  exists v, hash_get (Some m) k d = Ok v /\ (maps m k v \/ absent m k /\ v = d).
Proof.
  intros Laws HW. destruct (hash_lookup_spec Laws m k HW eq_refl eq_refl) as (i & E & Hi & HF). simpl. rewrite E.
  eexists. split; [done|]. unfold is_active.
  destruct HF as [(Ha & k' & Hk' & Hc)|(Hna & Hab & _)].
  - rewrite bool_decide_eq_true_2 by done. left. exists (Z.to_nat i), (slot_at m i), k'. split_and!; try done.
    pose proof (slot_at_lookup m (Z.to_nat i)) as H. rewrite Z2Nat.id in H by lia. apply H. unfold size_of in Hi. lia.
  - rewrite bool_decide_eq_false_2 by done. by right.
Qed.

Lemma maps_functional m k v w : key_laws (hfunc m) (cmp m) -> wf m -> maps m k v -> maps m k w -> v = w.
Proof.
  intros Laws HW (i & s & k1 & Hi & Hm & Hk & Hc & <-) (j & t & k2 & Hj & Hm' & Hk' & Hc' & <-).
  assert (i = j) as <-; [|congruence]. eapply (wf_unique _ HW); [exact Hi|exact Hj|done|done|done|done|].
  apply (law_trans _ _ Laws _ k); [done|]. by apply (law_sym _ _ Laws).
Qed.

Lemma get_maps_iff m k d : key_laws (hfunc m) (cmp m) -> wf m ->
  (forall v, maps m k v -> hash_get (Some m) k d = Ok v) /\ (absent m k -> hash_get (Some m) k d = Ok d).
Proof.
  intros Laws HW. destruct (get_maps m k d Laws HW) as (v & E & [Hv|[Hab ->]]).
  - split; [intros w Hw; rewrite E; f_equal; by eapply maps_functional|]. intros Hab. by destruct (Hab v).
  - split; [|done]. intros w Hw. by destruct (Hab w).
Qed.

(** Two tables that agree on what a key maps to. *)
Lemma get_agree m m' k d : key_laws (hfunc m) (cmp m) -> wf m -> hfunc m' = hfunc m -> cmp m' = cmp m -> wf m' ->
  (forall w, maps m' k w <-> maps m k w) -> hash_get (Some m') k d = hash_get (Some m) k d.
Proof.
  intros Laws HW Eh Ec HW' HM. assert (key_laws (hfunc m') (cmp m')) as Laws' by (by rewrite Eh, Ec).
  destruct (get_maps m k d Laws HW) as (v & E & Hv). rewrite E. destruct (get_maps_iff m' k d Laws' HW') as [H1 H2].
  destruct Hv as [Hv|[Hab ->]]; [by apply H1, HM|]. apply H2. intros w Hw. by apply (Hab w), HM.
Qed.

Lemma set_slot_changed m m' i s : 0 <= i < size_of m -> table m' = table m -> mask m' = mask m -> hfunc m' = hfunc m ->
  cmp m' = cmp m -> table_addr m' = table_addr m -> changed m (set_slot m' i s) (Z.to_nat i) s.
Proof. intros Hi E1 E2 E3 E4 E5. split; simpl; [by rewrite E1|done..|]. unfold size_of in Hi. lia. Qed.

(** C28: in every well-formed table hash_lookup ends, after at most [7 + size]
    rounds, on a slot of the table: the active slot of the key when the key
    is there, and otherwise a slot free for it. *)
Theorem hash_lookup_terminates m k : key_laws (hfunc m) (cmp m) -> wf m ->
  exists i, hash_lookup m k (hfunc m k) = Ok i /\ 0 <= i < size_of m /\
    ((exists v, maps m k v) <-> mode (slot_at m i) = SL_ACTIVE) /\
    (mode (slot_at m i) = SL_ACTIVE -> maps m k (value (slot_at m i))).
Proof.
  intros Laws HW. destruct (hash_lookup_spec Laws m k HW eq_refl eq_refl) as (i & E & Hi & HF). exists i.
  assert (table m !! Z.to_nat i = Some (slot_at m i)) as Hs.
  { pose proof (slot_at_lookup m (Z.to_nat i)) as H. rewrite Z2Nat.id in H by lia. apply H. unfold size_of in Hi. lia. }
  split; [done|]. split; [done|]. destruct HF as [(Ha & k' & Hk' & Hc)|(Hna & Hab & _)].
  - assert (maps m k (value (slot_at m i))) by (by exists (Z.to_nat i), (slot_at m i), k'). split; [split|]; eauto.
  - split; [split|]; [intros [v Hv]; by destruct (Hab v)|done|done].
Qed.

Lemma set_spec m k v st : key_laws (hfunc m) (cmp m) -> wf m -> balanced m -> owned m st ->
  twp (set_in m k v) (fun '(r, m') st' => wf m' /\ owned m' st' /\ hfunc m' = hfunc m /\ cmp m' = cmp m /\
    (r = 0 /\ balanced m' \/ r = -1) /\ forall k' w, maps m' k' w <-> if cmp m k k' then w = v else maps m k' w) st.
Proof.
  intros Laws HW HB Ho.
  unfold set_in. destruct (hash_lookup_spec Laws m k HW eq_refl eq_refl) as (i & E & Hi & HF).
  apply twp_bind. eapply twp_lift; [exact E|]. unfold is_active. destruct HF as [(Ha & k0 & Hk0 & Hc)|(Hna & Hab & Hon)].
  - rewrite bool_decide_eq_true_2 by done. apply twp_ret. set (s := mk_slot _ _ _ _). set (m' := set_slot m i s).
    assert (changed m m' (Z.to_nat i) s) as HC by (by apply set_slot_changed).
    destruct (wf_active _ HW (Z.to_nat i) (slot_at m i)) as (k1 & Hk1 & Hh1 & _);
      [rewrite (slot_at_lookup m _ (ch_index _ _ _ _ HC)); by rewrite Z2Nat.id by lia|done|]. rewrite Hk0 in Hk1. injection Hk1 as <-.
    destruct (replace_key Laws m m' (Z.to_nat i) k0 k s HW eq_refl eq_refl HC) as [HW' HM]; rewrite ?Z2Nat.id by lia; try done.
    { simpl. by rewrite Ha. }
    { simpl. by rewrite Ha. }
    split_and!; try done.
    + destruct Ho as [o Ho]. exists o. by rewrite (changed_size _ _ _ _ HC).
    + left. split; [done|]. unfold balanced. by rewrite (changed_size _ _ _ _ HC).
    + intros k' w. rewrite HM. destruct (cmp m k k'); [|done]. simpl. naive_solver.
  - rewrite bool_decide_eq_false_2 by done. set (s := mk_slot _ _ _ _). set (m1 := set_counts _ _ _). set (m' := set_slot m1 i s).
    assert (changed m m' (Z.to_nat i) s) as HC by (by apply set_slot_changed).
    assert (fill m' = if decide (mode (slot_at m i) = SL_EMPTY) then fill m + 1 else fill m) as Ef.
    { unfold m', m1. simpl. by destruct (decide _), (bool_decide_reflect (mode (slot_at m i) = SL_EMPTY)). }
    assert (fill m' < size_of m) as Hroom.
    { unfold balanced in HB. destruct (wf_size _ HW) as (b & Hb & _ & Es). rewrite Es in HB |- *.
      assert (8 <= 2 ^ b) by (apply (Z.pow_le_mono_r 2 3); lia). rewrite Ef. destruct (decide _); lia. }
    destruct (insert_key Laws m m' (Z.to_nat i) k v HW eq_refl eq_refl HC) as [HW' HM]; rewrite ?Z2Nat.id by lia; try done.
    eapply twp_mono; [apply (update_spec Laws m' st HW')|].
    + done.
    + destruct Ho as [o Ho]. exists o. by rewrite (changed_size _ _ _ _ HC).
    + rewrite (changed_size _ _ _ _ HC). unfold balanced in HB. rewrite Ef. destruct (decide _); lia.
    + intros [r m2] st' (HW2 & [Eh Ec] & Ho2 & HM2 & Hr). split_and!; try done. intros k' w. by rewrite (HM2 k' w), HM.
Qed.

Lemma del_spec m k st : key_laws (hfunc m) (cmp m) -> wf m -> balanced m -> owned m st ->
  twp (del_in m k) (fun '(r, m') st' => wf m' /\ owned m' st' /\ hfunc m' = hfunc m /\ cmp m' = cmp m /\
    (r = 0 /\ balanced m' \/ r = -1) /\ forall k' w, maps m' k' w <-> cmp m k k' = false /\ maps m k' w) st.
Proof.
  intros Laws HW HB Ho.
  unfold del_in. destruct (hash_lookup_spec Laws m k HW eq_refl eq_refl) as (i & E & Hi & HF).
  apply twp_bind. eapply twp_lift; [exact E|]. unfold is_active. destruct HF as [(Ha & k0 & Hk0 & Hc)|(Hna & Hab & Hon)].
  - rewrite bool_decide_eq_true_2 by done. simpl. set (s := mk_slot _ _ _ _). set (m' := set_counts _ _ _).
    assert (changed m m' (Z.to_nat i) s) as HC. { destruct (set_slot_changed m m i s Hi); try done. }
    destruct (replace_key Laws m m' (Z.to_nat i) k0 k s HW eq_refl eq_refl HC) as [HW' HM]; rewrite ?Z2Nat.id by lia; try done.
    eapply twp_mono; [apply (update_spec Laws m' st HW')|].
    + done.
    + destruct Ho as [o Ho]. exists o. by rewrite (changed_size _ _ _ _ HC).
    + rewrite (changed_size _ _ _ _ HC). unfold balanced in HB. simpl. lia.
    + intros [r m2] st' (HW2 & [Eh Ec] & Ho2 & HM2 & Hr). split_and!; try done. intros k' w.
      rewrite (HM2 k' w), HM. destruct (cmp m k k'); simpl; naive_solver.
  - rewrite bool_decide_eq_false_2 by done. simpl. apply twp_ret. split_and!; try done; [by left|].
    intros k' w. split; [|by intros [_ ?]]. intros Hm. split; [|done]. destruct (cmp m k k') eqn:Ek; [|done].
    exfalso. destruct Hm as (j & t & k1 & ? & ? & ? & Hc & ?). apply (Hab (value t)). exists j, t, k1. split_and!; try done.
    apply (law_trans _ _ Laws _ _ _ Hc). by apply (law_sym _ _ Laws).
Qed.

(** C29: hash_set on a balanced table returns, and afterwards hash_get answers
    the new value for the key and what it answered before for every other
    key, whether the table was left, grown or could not be grown; when it
    returns 0 the table is balanced again. *)
Theorem hash_set_get m k v st : key_laws (hfunc m) (cmp m) -> wf m -> balanced m -> owned m st ->
  exists r m' st', hash_set (Some m) k v st = Ok ((r, Some m'), st') /\ wf m' /\ owned m' st' /\
    hfunc m' = hfunc m /\ cmp m' = cmp m /\ (r = 0 /\ balanced m' \/ r = -1) /\
    forall k' d, hash_get (Some m') k' d = if cmp m k k' then Ok v else hash_get (Some m) k' d.
Proof.
  intros Laws HW HB Ho.
  destruct (set_spec m k v st Laws HW HB Ho) as ([r m'] & st' & E & HW' & Ho' & Eh & Ec & Hr & HM). exists r, m', st'.
  split; [unfold hash_set, on_map, bind; by rewrite E|]. split_and!; try done. intros k' d.
  assert (key_laws (hfunc m') (cmp m')) as Laws' by (by rewrite Eh, Ec).
  destruct (cmp m k k') eqn:Ek.
  - apply (get_maps_iff m' k' d Laws' HW'). apply HM. by rewrite Ek.
  - apply get_agree; try done. intros w. rewrite HM. by rewrite Ek.
Qed.

(** Hash_del on a balanced table returns, and afterwards the key is absent
    and hash_get answers what it answered before for every other key, whether
    or not the table was shrunk. *)
Theorem hash_del_get m k st : key_laws (hfunc m) (cmp m) -> wf m -> balanced m -> owned m st ->
  exists r m' st', hash_del (Some m) k st = Ok ((r, Some m'), st') /\ wf m' /\ owned m' st' /\
    hfunc m' = hfunc m /\ cmp m' = cmp m /\ (r = 0 /\ balanced m' \/ r = -1) /\
    forall k' d, hash_get (Some m') k' d = if cmp m k k' then Ok d else hash_get (Some m) k' d.
Proof.
  intros Laws HW HB Ho.
  destruct (del_spec m k st Laws HW HB Ho) as ([r m'] & st' & E & HW' & Ho' & Eh & Ec & Hr & HM). exists r, m', st'.
  split; [unfold hash_del, on_map, bind; by rewrite E|]. split_and!; try done. intros k' d.
  assert (key_laws (hfunc m') (cmp m')) as Laws' by (by rewrite Eh, Ec).
  destruct (cmp m k k') eqn:Ek.
  - apply (get_maps_iff m' k' d Laws' HW'). intros w [Hf _]%HM. congruence.
  - apply get_agree; try done. intros w. rewrite HM. naive_solver.
Qed.

(** A table just initialised is empty. *)
Lemma hash_init_spec m hf c st : twp (hash_init m hf c) (fun '(r, m') st' =>
  r = -1 /\ m' = m \/ r = 0 /\ wf m' /\ balanced m' /\ owned m' st' /\ hfunc m' = hf /\ cmp m' = c /\ forall k, absent m' k) st.
Proof.
  unfold hash_init, hash_initialize. do 2 apply twp_bind. apply twp_alloc.
  { rewrite Z.eqb_refl. apply twp_ret, twp_ret. by left. }
  intros t Hn Ht Hfr. destruct (Z.eqb_spec t 0); [done|]. apply twp_ret, twp_ret. right.
  destruct (fresh_table_wf (mk_hash 0 0 0 0 [] hf c) t 3) as [HW Hab]; [lia|]. split_and!; try done.
  exists OTable. simpl. by rewrite lookup_insert_eq.
Qed.
End HashTheorems.

(** The two kinds of tables meet the laws. *)
Lemma direct_laws : key_laws hash_direct_hfunc hash_direct_cmp.
Proof. split; unfold hash_direct_cmp, pointer, pointer_key; intros *; rewrite ?Z.eqb_eq; congruence. Qed.

Lemma string_laws str : key_laws (hash_string_hfunc str) (hash_string_cmp str).
Proof.
  split; unfold hash_string_cmp, hash_string_hfunc, pointer, pointer_key; intros *; rewrite ?bool_decide_eq_true; congruence.
Qed.

(** A string table with the keys "a" at 100 and 101 and "b" at 102. *)
Definition demo_str (a : Z) : list Z := if a =? 102 then [98] else [97].
Definition no_table : hash_t Z := mk_hash 0 0 0 0 [] (fun _ => 0) (fun _ _ => false).
Definition demo_table : hash_t Z * LK :=
  match hash_init_string demo_str no_table demo_kernel with Ok ((_, m), st) => (m, st) | Err _ => (no_table, demo_kernel) end.

Lemma demo_table_ok : wf demo_table.1 /\ balanced demo_table.1 /\ owned demo_table.1 demo_table.2 /\
  key_laws (hfunc demo_table.1) (cmp demo_table.1).
Proof.
  destruct (hash_init_spec no_table (hash_string_hfunc demo_str) (hash_string_cmp demo_str) demo_kernel) as ([r m] & st & E & H).
  unfold demo_table, hash_init_string. rewrite E. simpl. destruct H as [[-> _]|(_ & H1 & H2 & H3 & Eh & Ec & _)].
  - exfalso. assert (match hash_init no_table (hash_string_hfunc demo_str) (hash_string_cmp demo_str) demo_kernel with
      Ok ((r, _), _) => r | Err _ => -1 end = 0) as E0 by (vm_compute; reflexivity). rewrite E in E0. discriminate E0.
  - split; [exact H1|]. split; [exact H2|]. split; [exact H3|]. rewrite Eh, Ec. apply string_laws.
Qed.

Lemma hash_lookup_terminates_witness :
  exists i, hash_lookup demo_table.1 100 (hfunc demo_table.1 100) = Ok i /\ 0 <= i < size_of demo_table.1.
Proof.
  destruct demo_table_ok as (HW & _ & _ & Laws).
  destruct (hash_lookup_terminates demo_table.1 100 Laws HW) as (i & E & Hi & _). exists i. split; [exact E|exact Hi].
Defined.

Lemma hash_set_get_witness :
  exists r m' st', hash_set (Some demo_table.1) 100 7 demo_table.2 = Ok ((r, Some m'), st') /\ hash_get (Some m') 101 0 = Ok 7 /\ hash_get (Some m') 102 0 = Ok 0.
Proof.
  destruct demo_table_ok as (HW & HB & Ho & Laws).
  destruct (hash_set_get demo_table.1 100 7 demo_table.2 Laws HW HB Ho) as (r & m' & st' & E & _ & _ & _ & _ & _ & Hg).
  exists r, m', st'. split; [exact E|]. rewrite !Hg. split; vm_compute; reflexivity.
Defined.

Lemma hash_del_get_witness :
  exists r m' st', hash_del (Some demo_table.1) 100 demo_table.2 = Ok ((r, Some m'), st') /\ hash_get (Some m') 101 5 = Ok 5.
Proof.
  destruct demo_table_ok as (HW & HB & Ho & Laws).
  destruct (hash_del_get demo_table.1 100 demo_table.2 Laws HW HB Ho) as (r & m' & st' & E & _ & _ & _ & _ & _ & Hg).
  exists r, m', st'. split; [exact E|]. rewrite Hg. vm_compute. reflexivity.
Defined.
