(* ===== verification/SharedMemory.v ===== *)
(** * Shared memory (kernel/shared_memory.c)

    Areas of one page named by strings, found through a hash table.  The table
    holds pointers to copies of the names in the kernel heap; [key_strings] is
    what these copies hold.  A call gets the strings of the caller's memory as
    a function from addresses. *)

From S2P Require Import Prelude Queue Memory Mmu Kernel Hash.
Import Hash.

Local Open Scope st_scope.

Definition MAX_SHARED_PAGES : Z := 100.
Definition sizeof_hash_t : Z := 24.

Record shm := mk_shm {
  NUMBER_SHARED_PAGES : Z;
  hash_head : option (hash_t Z);
  key_strings : gmap Z (list Z)
}.

(** The string at an address, in the kernel heap or in the caller's memory. *)
Definition string_at (user : Z -> list Z) (sh : shm) (a : Z) : list Z := default (user a) (key_strings sh !! a).

(** The table with the functions of hash_init_string: they read the strings
    when they are called. *)
Definition with_strings (str : Z -> list Z) (m : hash_t Z) : hash_t Z :=
  mk_hash (fill m) (count m) (mask m) (table_addr m) (table m) (hash_string_hfunc str) (hash_string_cmp str).

Definition zeroed_hash : hash_t Z := mk_hash 0 0 0 0 [] (fun _ => 0) (fun _ _ => false).

Section SharedMemory.
Context {S : Type} {ops : QueueOps qid Z S} {C : Config}.
Abbreviation KM := (ST (kernel S)).
Implicit Types (user : Z -> list Z) (sh : shm).

(** The result of hash_init_string is not tested: when it fails the table is
    left as mem_alloc zeroed it, or not there at all. *)
Definition initalize_hash_head sh : KM shm :=
  let! h := mem_alloc sizeof_hash_t OHash in
  let! '(r, m) := hash_init_string (fun _ => []) zeroed_hash in
  if h =? 0 then
    if r =? -1 then ret (mk_shm (NUMBER_SHARED_PAGES sh) None (key_strings sh)) else fail Faulted
  else ret (mk_shm (NUMBER_SHARED_PAGES sh) (Some m) (key_strings sh)).

(** The table, whose slots are at a null address if it was not initialised. *)
Definition table_of_keys user sh : KM (option (hash_t Z)) :=
  match hash_head sh with
  | None => ret None
  | Some m => if table_addr m =? 0 then fail Faulted else ret (Some (with_strings (string_at user sh) m))
  end.

(** [hash_get(hash_head, key, NULL)] *)
Definition find_key user sh (key : Z) : KM Z :=
  let! m := table_of_keys user sh in
  lift (hash_get m key 0).

Definition shm_create user (key : Z) sh : KM (Z * shm) :=
  if MAX_SHARED_PAGES <=? NUMBER_SHARED_PAGES sh then ret (0, sh) else
  let sh := mk_shm (NUMBER_SHARED_PAGES sh + 1) (hash_head sh) (key_strings sh) in
  if key =? 0 then ret (0, sh) else
  let! v := find_key user sh key in
  if negb (v =? 0) then ret (0, sh) else
  let! shared_memory := lift_mmu (virtual_malloc 4096) in
  let name := string_at user sh key in
  let! key_address := mem_alloc (u32 (Z.of_nat (length name) + 1)) OKey in
  if key_address =? 0 then fail Faulted else
  let sh := mk_shm (NUMBER_SHARED_PAGES sh) (hash_head sh) (<[key_address := name]> (key_strings sh)) in
  let! m := table_of_keys user sh in
  let! '(_, m) := hash_set m key_address shared_memory in
  ret (shared_memory, mk_shm (NUMBER_SHARED_PAGES sh) m (key_strings sh)).

(** The message printed for a missing key is left out; the page at the address
    found, null or not, is mapped in the current address space. *)
Definition map_shared (shared_memory : Z) : MMU unit :=
  let! pd := get_current_pagedir in
  let! ptable_entry := get_ptable_entry_from_virtual_address shared_memory pd true PAGE_TABLE_USER_RW in
  write32 ptable_entry (Z.lor (page_base shared_memory) PAGE_TABLE_USER_RW).

Definition shm_acquire user (key : Z) sh : KM Z :=
  let! shared_memory := find_key user sh key in
  do! lift_mmu (map_shared shared_memory) in
  ret shared_memory.

Definition shm_release user (key : Z) sh : KM shm :=
  if NUMBER_SHARED_PAGES sh <? 0 then ret sh else
  let sh := mk_shm (NUMBER_SHARED_PAGES sh - 1) (hash_head sh) (key_strings sh) in
  let! address := find_key user sh key in
  if negb (address =? 0) then
    do! lift_mmu (virtual_free address 4096) in
    let! m := table_of_keys user sh in
    let! '(_, m) := hash_del m key in
    ret (mk_shm (NUMBER_SHARED_PAGES sh) m (key_strings sh))
  else ret sh.
End SharedMemory.
