(* ===== verification/SharedProps.v ===== *)
(** * Shared areas are found by name

    The table of shared_memory.c as a map from names to addresses, what
    creating and releasing an area does to it, and what acquiring one does to
    the address space of the caller. *)

From S2P Require Import Prelude Queue Memory Mmu Kernel Invariant Preserve Progress KernelProps Hash HashProps SharedMemory.
Import Hash.

Local Open Scope st_scope.

(** ** Names *)

Section Names.
Implicit Types (sh : shm) (m : hash_t Z) (user str : Z -> list Z) (nm : list Z).

(** The name [nm] stands for the area at [v]. *)
Definition named sh nm (v : Z) : Prop :=
  exists m i s a, hash_head sh = Some m /\ table m !! i = Some s /\ mode s = SL_ACTIVE /\ key s = Some a /\
    key_strings sh !! a = Some nm /\ value s = v.

(** The names in the kernel heap. *)
Definition heap_strings sh (a : Z) : list Z := default [] (key_strings sh !! a).

(** The keys of the active slots are copies of names, in live blocks. *)
Record shm_wf {S} sh (k : kernel S) m : Prop := {
  sw_head : hash_head sh = Some m;
  sw_table : wf (with_strings (heap_strings sh) m);
  sw_owned : owned m k;
  sw_addr : table_addr m <> 0;
  sw_keys : forall i s a, table m !! i = Some s -> mode s = SL_ACTIVE -> key s = Some a -> is_Some (key_strings sh !! a);
  sw_live : forall a, is_Some (key_strings sh !! a) -> is_Some (heap k !! a) /\ a <> table_addr m
}.

(** Functions that agree on the keys of a table. *)
Lemma wf_agree m str str' : wf (with_strings str m) ->
  (forall i s a, table m !! i = Some s -> mode s = SL_ACTIVE -> key s = Some a -> str' a = str a) -> wf (with_strings str' m).
Proof.
  intros [HS HA HU HC HF HR] E. split; try done.
  - intros i s Hi Hm. destruct (HA i s Hi Hm) as (a & Hk & Hh & Hp). exists a. split; [done|]. simpl in *.
    unfold hash_string_hfunc. rewrite (E i s a Hi Hm Hk). done.
  - intros i j s t a b Hi Hj Hs Ht Ha Hb. simpl. unfold hash_string_cmp. rewrite (E i s a), (E j t b) by done.
    by apply (HU i j s t a b).
Qed.

Lemma shm_wf_table {S} sh (k : kernel S) m user : shm_wf sh k m -> wf (with_strings (string_at user sh) m).
Proof.
  intros HW. eapply wf_agree; [apply HW|]. intros i s a Hi Hm Hk. destruct (sw_keys _ _ _ HW i s a Hi Hm Hk) as [nm E].
  unfold string_at, heap_strings. by rewrite E.
Qed.

(** What the table maps a pointer to is what the string there names. *)
Lemma maps_named {S} sh (k : kernel S) m user key v : shm_wf sh k m ->
  maps (with_strings (string_at user sh) m) key v <-> named sh (string_at user sh key) v.
Proof.
  intros HW. split.
  - intros (i & s & a & Hi & Hm & Hk & Hc & Hv). exists m, i, s, a. split_and!; try done; [apply HW|].
    destruct (sw_keys _ _ _ HW i s a Hi Hm Hk) as [nm E]. rewrite E. simpl in Hc. unfold hash_string_cmp in Hc.
    apply bool_decide_eq_true in Hc. rewrite <- Hc. unfold string_at. by rewrite E.
  - intros (m' & i & s & a & Hm' & Hi & Hm & Hk & E & Hv). rewrite (sw_head _ _ _ HW) in Hm'. injection Hm' as <-.
    exists i, s, a. split_and!; try done. simpl. unfold hash_string_cmp. apply bool_decide_eq_true. unfold string_at at 1. by rewrite E.
Qed.

Lemma table_of_keys_ok {S} {ops : QueueOps qid Z S} sh (k0 k : kernel S) m user : shm_wf sh k0 m ->
  table_of_keys user sh k = Ok (Some (with_strings (string_at user sh) m), k).
Proof.
  intros HW. unfold table_of_keys. rewrite (sw_head _ _ _ HW). destruct (Z.eqb_spec (table_addr m) 0) as [E|]; [|done].
  by destruct (sw_addr _ _ _ HW).
Qed.

(** Finding a key looks at the table and at no other part of the kernel. *)
Lemma find_key_ok {S} {ops : QueueOps qid Z S} sh (k0 k : kernel S) m user key : shm_wf sh k0 m ->
  exists v, find_key user sh key k = Ok (v, k) /\
    (named sh (string_at user sh key) v \/ (forall w, ~ named sh (string_at user sh key) w) /\ v = 0).
Proof.
  intros HW. pose proof (shm_wf_table sh k0 m user HW) as Hwf.
  destruct (get_maps (with_strings (string_at user sh) m) key 0 (string_laws _) Hwf) as (v & E & Hv). exists v. split.
  - unfold find_key, bind. rewrite (table_of_keys_ok sh k0 k m user HW). unfold lift. by rewrite E.
  - destruct Hv as [Hv|[Hab ->]]; [left; by apply (maps_named sh k0 m)|right]. split; [|done]. intros w Hw. apply (Hab w). by apply (maps_named sh k0 m).
Qed.

(** What is found is the area named, of which there is one. *)
Lemma find_named {S} sh (k : kernel S) m user key p w : shm_wf sh k m -> named sh (string_at user sh key) p ->
  named sh (string_at user sh key) w \/ (forall w, ~ named sh (string_at user sh key) w) /\ w = 0 -> p = w.
Proof.
  intros HW Hp [Hw|[Hw _]]; [|by destruct (Hw p)]. apply (maps_named sh k m) in Hp; [|done]. apply (maps_named sh k m) in Hw; [|done].
  exact (maps_functional (with_strings (string_at user sh) m) key p w (string_laws _) (shm_wf_table sh k m user HW) Hp Hw).
Qed.
End Names.

(** ** Where the keys of a table come from *)

Section Keys.
Context {S : Type} {ops : QueueOps qid Z S} {C : Config} {Pk : Z -> Prop}.
Implicit Types (m : hash_t Z) (s : hash_slot Z).

Definition slot_ok s : Prop := mode s = SL_ACTIVE -> forall a, key s = Some a -> Pk a.
Definition all_keys m : Prop := Forall slot_ok (table m).

Lemma slot_at_ok m i : all_keys m -> slot_ok (slot_at m i).
Proof.
  intros HK. unfold slot_at. rewrite nth_lookup. destruct (table m !! Z.to_nat i) as [s|] eqn:E; [|done].
  exact (Forall_lookup_1 _ _ _ _ HK E).
Qed.

Lemma set_slot_ok m i s : all_keys m -> slot_ok s -> all_keys (set_slot m i s).
Proof. intros HK Hs. by apply Forall_insert. Qed.

Lemma wp_lift {A} (r : result A) Q (k : kernel S) : (forall a, r = Ok a -> Q a k) -> wp (lift r) Q k.
Proof. intros H. unfold wp, lift. destruct r; auto. Qed.

Lemma copy_keys old m (k : kernel S) : all_keys m -> Forall slot_ok old -> wp (hash_copy m old) (fun m' _ => all_keys m') k.
Proof.
  revert m k. induction old as [|s old IH]; intros m k HK HO; simpl; [by apply wp_ret|].
  apply Forall_cons in HO as [Hs HO]. apply wp_bind. apply (wp_mono _ (fun m' _ => all_keys m')); [|intros; by apply IH].
  unfold copy_slot. destruct (mode s) eqn:Em; [by apply wp_ret| |by apply wp_ret]. destruct (key s) as [a|] eqn:Ek; [|by apply wp_ret].
  apply wp_bind, wp_lift. intros i _. apply wp_ret. apply set_slot_ok; [done|]. intros _ b [= <-]. by apply Hs.
Qed.

Lemma update_keys m (k : kernel S) : all_keys m -> wp (hash_update m) (fun '(_, m') _ => all_keys m') k.
Proof.
  intros HK.
  assert (forall o n, wp (resize m o n) (fun '(_, m') _ => all_keys m') k) as HR.
  { intros o n. unfold resize, hash_initialize. apply wp_bind, wp_bind. unfold wp at 1. destruct (mem_alloc _ _ k) as [[t k1]|]; [|done].
    destruct (t =? 0); apply wp_ret; cbn beta iota; [by apply wp_ret|]. cbn [Z.eqb]. apply wp_bind.
    eapply wp_mono; [apply copy_keys; [|exact HK]|].
    { apply Forall_replicate. by intros. }
    intros m' k2 Hm'. apply wp_bind. unfold wp. destruct (mem_free _ _ k2) as [[[] k3]|]; [|done]. done. }
  unfold hash_update. destruct (_ <=? _).
  - destruct (_ <? _); [by apply wp_ret|apply HR].
  - destruct (_ && _); [apply HR|by apply wp_ret].
Qed.

Lemma set_keys m a v (k : kernel S) : all_keys m -> Pk a -> wp (set_in m a v) (fun '(_, m') _ => all_keys m') k.
Proof.
  intros HK Ha. unfold set_in. apply wp_bind, wp_lift. intros i _. pose proof (slot_at_ok m i HK) as Hs. destruct (is_active _).
  - apply wp_ret. by apply set_slot_ok.
  - apply update_keys. apply set_slot_ok; [done|]. by intros _ b [= <-].
Qed.

Lemma del_keys m a (k : kernel S) : all_keys m -> wp (del_in m a) (fun '(_, m') _ => all_keys m') k.
Proof.
  intros HK. unfold del_in. apply wp_bind, wp_lift. intros i _. destruct (negb _); [by apply wp_ret|].
  apply update_keys. apply set_slot_ok; done.
Qed.
End Keys.
Arguments slot_ok : clear implicits.
Arguments all_keys : clear implicits.

(** ** What the table operations leave of the heap *)

Section Blocks.
Context {S : Type} {ops : QueueOps qid Z S} {C : Config} {L : MallocLaws C}.
Implicit Types (m : hash_t Z) (k : kernel S).

Lemma wp_alloc n o Q k : Q 0 k ->
  (forall z, z <> 0 -> heap k !! z = None -> Q z (set_heap (<[z := (n, o)]> (heap k)) k)) -> wp (mem_alloc n o) Q k.
Proof.
  intros H1 H2. unfold wp, mem_alloc. destruct (n =? 0); [done|]. destruct (_ <=? n); [done|].
  destruct (malloc _ _) as [z|] eqn:E; [|done]. pose proof (malloc_region _ _ _ E). apply H2; [lia|].
  apply malloc_fresh in E. rewrite lookup_fmap in E. by destruct (heap k !! z).
Qed.

(** Live blocks other than the slots of [m] stay so, and are not the slots of [m']. *)
Definition heap_kept m k m' k' : Prop :=
  (forall a, is_Some (heap k !! a) -> a <> table_addr m -> is_Some (heap k' !! a) /\ a <> table_addr m') /\
  (table_addr m <> 0 -> table_addr m' <> 0).

Lemma heap_kept_refl m m' k : table_addr m' = table_addr m -> heap_kept m k m' k.
Proof. intros E. split; rewrite E; auto. Qed.

Lemma copy_same old m k : wp (hash_copy m old) (fun m' k' => k' = k /\ table_addr m' = table_addr m) k.
Proof.
  revert m. induction old as [|s old IH]; intros m; simpl; [by apply wp_ret|]. apply wp_bind.
  apply (wp_mono _ (fun m' k' => k' = k /\ table_addr m' = table_addr m)).
  - unfold copy_slot. destruct (mode s); [by apply wp_ret| |by apply wp_ret]. destruct (key s); [|by apply wp_ret].
    apply wp_bind, wp_lift. intros i _. by apply wp_ret.
  - intros m' k' [-> E]. eapply wp_mono; [apply IH|]. intros m2 k2 [-> E2]. by rewrite E2.
Qed.

Lemma update_heap m k : wp (hash_update m) (fun '(_, m') k' => heap_kept m k m' k') k.
Proof.
  assert (forall o n, wp (resize m o n) (fun '(_, m') k' => heap_kept m k m' k') k) as HR.
  { intros o n. unfold resize, hash_initialize. apply wp_bind, wp_bind, wp_alloc.
    - rewrite Z.eqb_refl. apply wp_ret, wp_ret. by apply heap_kept_refl.
    - intros z Hz Hf. destruct (Z.eqb_spec z 0); [done|]. apply wp_ret. cbn beta iota. cbn [Z.eqb]. apply wp_bind.
      eapply wp_mono; [apply copy_same|]. intros m' k' [-> E]. apply wp_bind. unfold wp at 1, mem_free. simpl.
      destruct (_ =? 0); [|case_bool_decide; [|done]]; simpl; (split; [|rewrite E; auto]); rewrite E; simpl;
        intros a Ha Hne; assert (a <> z) by (intros ->; rewrite Hf in Ha; by destruct Ha);
        rewrite ?lookup_delete_ne by done; by rewrite lookup_insert_ne. }
  unfold hash_update. destruct (_ <=? _).
  - destruct (_ <? _); [by apply wp_ret, heap_kept_refl|apply HR].
  - destruct (_ && _); [apply HR|by apply wp_ret, heap_kept_refl].
Qed.

Lemma update_vm m k : wp (hash_update m) (fun _ k' => vm k' = vm k) k.
Proof.
  assert (forall o n, wp (resize m o n) (fun _ k' => vm k' = vm k) k) as HR.
  { intros o n. unfold resize, hash_initialize. apply wp_bind, wp_bind, wp_alloc.
    - rewrite Z.eqb_refl. by apply wp_ret, wp_ret.
    - intros z Hz Hf. destruct (Z.eqb_spec z 0); [done|]. apply wp_ret. cbn beta iota. cbn [Z.eqb]. apply wp_bind.
      eapply wp_mono; [apply copy_same|]. intros m' k' [-> E]. apply wp_bind. unfold wp at 1, mem_free.
      destruct (_ =? 0); [done|]. by case_bool_decide. }
  unfold hash_update. destruct (_ <=? _).
  - destruct (_ <? _); [by apply wp_ret|apply HR].
  - destruct (_ && _); [apply HR|by apply wp_ret].
Qed.

Lemma del_vm m a k : wp (del_in m a) (fun _ k' => vm k' = vm k) k.
Proof. unfold del_in. apply wp_bind, wp_lift. intros i _. destruct (negb _); [by apply wp_ret|apply update_vm]. Qed.

Lemma set_heap_kept m a v k : wp (set_in m a v) (fun '(_, m') k' => heap_kept m k m' k') k.
Proof.
  unfold set_in. apply wp_bind, wp_lift. intros i _. destruct (is_active _); [by apply wp_ret, heap_kept_refl|].
  eapply wp_mono; [apply update_heap|]. by intros [r m'] k'.
Qed.

Lemma del_heap_kept m a k : wp (del_in m a) (fun '(_, m') k' => heap_kept m k m' k') k.
Proof.
  unfold del_in. apply wp_bind, wp_lift. intros i _. destruct (negb _); [by apply wp_ret, heap_kept_refl|].
  eapply wp_mono; [apply update_heap|]. by intros [r m'] k'.
Qed.
End Blocks.

(** ** Creating and releasing *)

Section Areas.
Context {S : Type} {ops : QueueOps qid Z S} {C : Config} {L : MallocLaws C}.
Implicit Types (sh : shm) (m : hash_t Z) (user str : Z -> list Z) (k : kernel S).

Lemma named_maps sh m0 m str nm v : hash_head sh = Some m0 -> table m0 = table m -> cmp m = hash_string_cmp str ->
  (forall i s a, table m !! i = Some s -> mode s = SL_ACTIVE -> key s = Some a -> key_strings sh !! a = Some (str a)) ->
  named sh nm v <-> exists q, str q = nm /\ maps m q v.
Proof.
  intros Hh Ht Hc HK. split.
  - intros (m1 & i & s & a & Hm1 & Hi & Hs & Ha & Hnm & Hv). rewrite Hh in Hm1. injection Hm1 as <-. rewrite Ht in Hi.
    rewrite (HK i s a Hi Hs Ha) in Hnm. injection Hnm as Hnm. exists a. split; [done|]. exists i, s, a. split_and!; try done.
    rewrite Hc. unfold hash_string_cmp. by apply bool_decide_eq_true.
  - intros (q & <- & i & s & a & Hi & Hs & Ha & Hcm & Hv). exists m0, i, s, a. rewrite Ht. split_and!; try done.
    rewrite (HK i s a Hi Hs Ha). f_equal. rewrite Hc in Hcm. unfold hash_string_cmp in Hcm. by apply bool_decide_eq_true in Hcm.
Qed.

(** An operation that changes the table for the keys that hold [name] only. *)
Lemma named_after sh sh' m m' str name (X : Z -> Prop) : hash_head sh = Some m -> hash_head sh' = Some m' -> cmp m' = hash_string_cmp str ->
  (forall i s a, table m !! i = Some s -> mode s = SL_ACTIVE -> key s = Some a -> key_strings sh !! a = Some (str a)) ->
  (forall i s a, table m' !! i = Some s -> mode s = SL_ACTIVE -> key s = Some a -> key_strings sh' !! a = Some (str a)) ->
  (forall q w, maps m' q w <-> if decide (str q = name) then X w else maps (with_strings str m) q w) ->
  (forall w, X w -> exists q, str q = name) ->
  forall nm w, named sh' nm w <-> if decide (nm = name) then X w else named sh nm w.
Proof.
  intros Hh Hh' Hc HK HK' HM HX nm w. rewrite (named_maps sh' m' m' str nm w Hh' eq_refl Hc HK').
  case_decide as Hd.
  - subst nm. split; [intros (q & E & Hq); apply HM in Hq; by rewrite decide_True in Hq|].
    intros Hw. destruct (HX w Hw) as [q E]. exists q. split; [done|]. apply HM. by rewrite decide_True.
  - rewrite (named_maps sh m (with_strings str m) str nm w Hh eq_refl eq_refl HK).
    split; intros (q & E & Hq); exists q; (split; [done|]); [apply HM in Hq; by rewrite decide_False in Hq by congruence|apply HM; by rewrite decide_False by congruence].
Qed.

Lemma heap_string sh a : is_Some (key_strings sh !! a) -> key_strings sh !! a = Some (heap_strings sh a).
Proof. unfold heap_strings. by intros [x ->]. Qed.

(** The table, changed by an operation, with the copies [ks] of the names. *)
Lemma changed_wf n m m1 k1 r m' k' str ks : hash_string_cmp str = cmp m1 -> hash_string_hfunc str = hfunc m1 ->
  table_addr m1 = table_addr m -> table_addr m <> 0 ->
  (forall a, is_Some (ks !! a) -> ks !! a = Some (str a)) ->
  (forall a, is_Some (ks !! a) -> is_Some (heap k1 !! a) /\ a <> table_addr m) ->
  wf m' -> owned m' k' -> hfunc m' = hfunc m1 -> cmp m' = cmp m1 -> all_keys (fun a => is_Some (ks !! a)) m' -> heap_kept m1 k1 m' k' ->
  shm_wf (mk_shm n (Some m') ks) k' m' /\
  (forall i s a, table m' !! i = Some s -> mode s = SL_ACTIVE -> key s = Some a -> ks !! a = Some (str a)) /\ r = r :> Z.
Proof.
  intros Ec Eh Ea Hna Hks Hlive HW Ho Eh' Ec' HK [Hk1 Hk2].
  assert (forall i s a, table m' !! i = Some s -> mode s = SL_ACTIVE -> key s = Some a -> is_Some (ks !! a)) as HK'.
  { intros i s a Hi Hs Ha. exact (Forall_lookup_1 _ _ _ _ HK Hi Hs a Ha). }
  split_and!; [|eauto|done]. split; simpl; try done.
  - apply (wf_agree m' str).
    + replace (with_strings str m') with m'; [done|]. destruct m'. unfold with_strings. simpl in *. by rewrite Eh, Ec, Eh', Ec'.
    + intros i s a Hi Hs Ha. unfold heap_strings. simpl. by rewrite (Hks a (HK' i s a Hi Hs Ha)).
  - rewrite Ea in Hk2. auto.
  - intros a Ha. destruct (Hlive a Ha) as [H1 H2]. rewrite <- Ea in H2. by apply Hk1.
Qed.

(** What shm_create does when the key names no area, the maximum is not
    reached, and a page and a block for the name can be allocated. *)
Lemma create_names user key sh k m p v z k1 : shm_wf sh k m -> balanced m -> NUMBER_SHARED_PAGES sh < MAX_SHARED_PAGES -> key <> 0 ->
  (forall w, ~ named sh (string_at user sh key) w) -> virtual_malloc 4096 (vm k) = Ok (p, v) ->
  mem_alloc (u32 (Z.of_nat (length (string_at user sh key)) + 1)) OKey (set_vm v k) = Ok (z, k1) -> z <> 0 ->
  exists sh' k' m', shm_create user key sh k = Ok ((p, sh'), k') /\ shm_wf sh' k' m' /\
    NUMBER_SHARED_PAGES sh' = NUMBER_SHARED_PAGES sh + 1 /\
    forall nm w, named sh' nm w <-> if decide (nm = string_at user sh key) then w = p else named sh nm w.
Proof.
  intros HW HB Hmax Hkey Hnew Hv Hz Hz0. set (name := string_at user sh key) in *.
  set (ks := <[z := name]> (key_strings sh)). set (n := NUMBER_SHARED_PAGES sh + 1).
  assert (heap k !! z = None /\ heap k1 = <[z := (u32 (Z.of_nat (length name) + 1), OKey)]> (heap k)) as [Hfresh Eheap].
  { assert (wp (mem_alloc (u32 (Z.of_nat (length name) + 1)) OKey) (fun z k1 => z <> 0 -> heap k !! z = None /\ heap k1 = <[z := (u32 (Z.of_nat (length name) + 1), OKey)]> (heap k)) (set_vm v k)) as Hw.
    { apply wp_alloc; [done|]. intros z' _ Hf _. by split. }
    exact (wp_Ok _ _ _ _ _ Hw Hz Hz0). }
  set (sh1 := mk_shm n (hash_head sh) ks). set (str := string_at user sh1).
  assert (key_strings sh !! z = None) as Hzk.
  { destruct (key_strings sh !! z) eqn:E; [|done]. destruct (sw_live _ _ _ HW z) as [[? ?] _]; [by eexists|congruence]. }
  assert (forall a, is_Some (key_strings sh !! a) -> str a = heap_strings sh a) as Hstr.
  { intros a [x Hx]. unfold str, string_at, heap_strings. simpl. unfold ks. rewrite lookup_insert_ne by congruence. by rewrite Hx. }
  assert (str z = name) as Ez by (unfold str, string_at; simpl; unfold ks; by rewrite lookup_insert_eq).
  assert (wf (with_strings str m)) as Hwf.
  { eapply wf_agree; [apply HW|]. intros i s a Hi Hs Ha. apply Hstr. by apply (sw_keys _ _ _ HW i s a). }
  assert (owned (with_strings str m) k1) as Ho1.
  { destruct (sw_owned _ _ _ HW) as [o Ho]. exists o. rewrite Eheap, lookup_insert_ne; [exact Ho|]. intros E. simpl in E. rewrite <- E in Ho. congruence. }
  destruct (set_spec (with_strings str m) z p k1 (string_laws str) Hwf HB Ho1) as ([r m'] & k' & E & HW' & Ho' & Eh' & Ec' & _ & HM).
  pose proof (wp_Ok _ _ _ _ _ (set_keys (Pk := fun a => is_Some (ks !! a)) (with_strings str m) z p k1
    ltac:(apply Forall_lookup; intros i s Hi Hs a Ha; destruct (sw_keys _ _ _ HW i s a Hi Hs Ha) as [x Hx]; unfold ks; rewrite lookup_insert; case_decide; by eexists)
    ltac:(unfold ks; rewrite lookup_insert_eq; by eexists)) E) as HK.
  pose proof (wp_Ok _ _ _ _ _ (set_heap_kept (with_strings str m) z p k1) E) as Hkept. cbn beta iota in HK, Hkept.
  destruct (changed_wf n m (with_strings str m) k1 r m' k' str ks) as (HS' & HK' & _); try done.
  { apply HW. }
  { intros a Ha. unfold str, string_at. simpl. by destruct Ha as [x ->]. }
  { intros a Ha. unfold ks in Ha. rewrite Eheap, lookup_insert. destruct (decide (z = a)) as [<-|Hne].
    - split; [by eexists|]. intros ->. destruct (sw_owned _ _ _ HW) as [o Ho]. congruence.
    - rewrite lookup_insert_ne in Ha by done. by apply (sw_live _ _ _ HW). }
  exists (mk_shm n (Some m') ks), k', m'. split_and!; [|exact HS'|done|].
  - unfold shm_create. destruct (Z.leb_spec MAX_SHARED_PAGES (NUMBER_SHARED_PAGES sh)); [lia|]. destruct (Z.eqb_spec key 0); [done|].
    assert (find_key user (mk_shm n (hash_head sh) (key_strings sh)) key k = Ok (0, k)) as Hfind.
    { destruct (find_key_ok sh k k m user key HW) as (w & Ew & [Hw|[_ ->]]); [by destruct (Hnew w)|exact Ew]. }
    fold n. unfold bind at 1. rewrite Hfind. cbn [negb Z.eqb]. unfold bind at 1, lift_mmu. rewrite Hv.
    change (string_at user (mk_shm n (hash_head sh) (key_strings sh)) key) with name. unfold bind at 1. rewrite Hz.
    destruct (Z.eqb_spec z 0); [done|]. cbn [NUMBER_SHARED_PAGES hash_head key_strings]. fold ks. fold sh1. unfold bind at 1.
    unfold table_of_keys. cbn [hash_head sh1]. rewrite (sw_head _ _ _ HW). destruct (Z.eqb_spec (table_addr m) 0) as [E0|]; [by destruct (sw_addr _ _ _ HW)|].
    fold str. unfold hash_set, on_map, bind, ret. rewrite E. done.
  - apply (named_after sh _ m m' str name (fun w => w = p)); try done.
    + apply HW.
    + intros i s a Hi Hs Ha. rewrite Hstr by (by apply (sw_keys _ _ _ HW i s a)). by apply heap_string, (sw_keys _ _ _ HW i s a).
    + intros q w. rewrite HM. simpl. unfold hash_string_cmp. rewrite Ez.
      destruct (decide (str q = name)); [rewrite bool_decide_eq_true_2 by congruence|rewrite bool_decide_eq_false_2 by congruence]; done.
    + intros w _. by exists z.
Qed.

(** Releasing a named area gives its page back and takes the name out of
    the table; every other name stands for what it stood for. *)
Theorem shm_release_forgets user key sh k m p v : shm_wf sh k m -> balanced m -> 0 <= NUMBER_SHARED_PAGES sh ->
  named sh (string_at user sh key) p -> p <> 0 -> virtual_free p 4096 (vm k) = Ok (tt, v) ->
  exists sh' k' m', shm_release user key sh k = Ok (sh', k') /\ shm_wf sh' k' m' /\ vm k' = v /\
    NUMBER_SHARED_PAGES sh' = NUMBER_SHARED_PAGES sh - 1 /\
    forall nm w, named sh' nm w <-> nm <> string_at user sh key /\ named sh nm w.
Proof.
  intros HW HB Hn Hp Hp0 Hv. set (str := string_at user sh). set (n := NUMBER_SHARED_PAGES sh - 1). set (k1 := set_vm v k).
  assert (shm_wf (mk_shm n (hash_head sh) (key_strings sh)) k m) as HWn by (destruct HW; by split).
  assert (shm_wf (mk_shm n (hash_head sh) (key_strings sh)) k1 m) as HW1 by (destruct HW; by split).
  pose proof (shm_wf_table sh k m user HW) as Hwf.
  destruct (del_spec (with_strings str m) key k1 (string_laws str) Hwf HB (sw_owned _ _ _ HW)) as ([r m'] & k' & E & HW' & Ho' & Eh' & Ec' & _ & HM).
  pose proof (wp_Ok _ _ _ _ _ (del_keys (Pk := fun a => is_Some (key_strings sh !! a)) (with_strings str m) key k1
    ltac:(apply Forall_lookup; intros i s Hi Hs a Ha; by apply (sw_keys _ _ _ HW i s a))) E) as HK.
  pose proof (wp_Ok _ _ _ _ _ (del_heap_kept (with_strings str m) key k1) E) as Hkept.
  pose proof (wp_Ok _ _ _ _ _ (del_vm (with_strings str m) key k1) E) as Hvm. cbn beta iota in HK, Hkept, Hvm.
  destruct (changed_wf n m (with_strings str m) k1 r m' k' str (key_strings sh)) as (HS' & HK' & _); try done.
  { apply HW. }
  { intros a [x Hx]. unfold str, string_at. by rewrite Hx. }
  { apply HW. }
  exists (mk_shm n (Some m') (key_strings sh)), k', m'. split_and!; [|exact HS'|done|done|].
  - unfold shm_release. destruct (Z.ltb_spec (NUMBER_SHARED_PAGES sh) 0); [lia|]. fold n.
    destruct (find_key_ok _ k k m user key HWn) as (w & Ew & Hw). unfold bind at 1. rewrite Ew.
    replace w with p; [|by apply (find_named sh k m user key)].
    destruct (Z.eqb_spec p 0); [done|]. cbn [negb]. unfold bind at 1, lift_mmu. rewrite Hv. fold k1.
    unfold bind at 1. rewrite (table_of_keys_ok _ k1 k1 m user HW1). change (string_at user _) with str. unfold hash_del, on_map, bind, ret. by rewrite E.
  - intros nm w. rewrite (named_after sh (mk_shm n (Some m') (key_strings sh)) m m' str (str key) (fun _ => False)); try done.
    + fold str. case_decide; naive_solver.
    + apply HW.
    + intros i s a Hi Hs Ha. destruct (sw_keys _ _ _ HW i s a Hi Hs Ha) as [x Hx]. unfold str, string_at. by rewrite Hx.
    + intros q w0. rewrite HM. simpl. unfold hash_string_cmp.
      destruct (decide (str q = str key)); [rewrite bool_decide_eq_true_2 by congruence|rewrite bool_decide_eq_false_2 by congruence]; naive_solver.
Qed.
End Areas.

(** ** Acquiring *)

Section Acquire.
Implicit Types (s : mmu) (va : Z).

Lemma page_offset va va' : 0 <= va < 2 ^ 32 -> va' / 4096 = va / 4096 -> page_base va + Z.land va' 0xFFF = va'.
Proof. intros H E. rewrite page_base_eq, land_fff by done. Z.to_euclidean_division_equations. lia. Qed.

(** The page of [va] is mapped to itself, readable and writable by the
    process; no other page of the address space moves. *)
Lemma map_shared_ok s l va : WF (cr3 s) s l -> 0 <= va < 2 ^ 32 -> l <> [] ->
  exists s' l', map_shared va s = Ok (tt, s') /\ cr3 s' = cr3 s /\ WF (cr3 s') s' l' /\
    forall va', 0 <= va' < 2 ^ 32 -> translate (memory s') (cr3 s') va' =
      if decide (va' / 4096 = va / 4096) then Some va' else translate (memory s) (cr3 s) va'.
Proof.
  intros HW Hva Hl. assert (present_flags PAGE_TABLE_USER_RW) as Hfl by done.
  destruct (get_entry_create (cr3 s) s l va _ HW Hva Hfl ltac:(done)) as (m1 & t & l' & E & Hc & Ht & El).
  pose proof (created_wf _ _ _ _ _ m1 t l' HW Hva Hfl Hc Ht El) as HW1.
  pose proof (created_table_of _ _ _ _ _ m1 t l' HW Hva Hfl Hc Ht El) as Htab.
  pose proof (created_pde _ _ _ _ _ m1 t l' HW Hva Hfl Hc Ht El (pd_index va) (pd_index_range va Hva)) as Hpde.
  rewrite decide_True in Hpde by done. pose proof (pt_index_range va) as Hpt.
  assert (0 <= page_base va < 2 ^ 32 /\ page_base va mod 4096 = 0) as [Hp1 Hp2].
  { rewrite page_base_eq by done. Z.to_euclidean_division_equations. lia. }
  set (v := page_base va + PAGE_TABLE_USER_RW).
  assert (0 <= v < 2 ^ 32) as Hv by (unfold v, PAGE_TABLE_USER_RW; Z.to_euclidean_division_equations; lia).
  assert (word m1 (cr3 s) (pd_index va) <> 0) as Hnz by (rewrite Hpde; by apply (entry_nonzero (cr3 s) s va)).
  pose proof (write_entry_wf _ _ _ va v HW1 Hva Hv Hnz) as HW2.
  pose proof (write_entry_translate _ _ _ va v HW1 Hva Hv Hnz) as HT2.
  cbn [upd memory] in HW2, HT2. rewrite Htab in HW2, HT2.
  exists (set_memory (store32 m1 (t + 4 * pt_index va) v) (upd m1 (default 0 (head l')) s)), l'. split_and!; [|reflexivity|exact HW2|].
  - unfold map_shared, bind, get_current_pagedir, gets. rewrite E. rewrite (lor_low_add 12) by (done || lia || apply Hfl).
    by rewrite write32_ok by (unfold frame in Ht; lia).
  - intros va' Hva'. cbn [set_memory memory cr3 upd]. rewrite HT2 by done. destruct (decide (va' / 4096 = va / 4096)) as [Ed|Ed].
    + unfold v. rewrite testbit0_add by done. simpl. rewrite page_base_entry by (done || apply Hfl). f_equal. by apply page_offset.
    + by apply (created_translate _ _ _ _ _ m1 t l' HW Hva Hfl Hc Ht El).
Qed.

Lemma acquire_maps {S} {ops : QueueOps qid Z S} user key sh (k0 k : kernel S) m l : shm_wf sh k0 m ->
  (forall v, named sh (string_at user sh key) v -> 0 <= v < 2 ^ 32) -> WF (cr3 (vm k)) (vm k) l -> l <> [] ->
  exists v s', shm_acquire user key sh k = Ok (v, set_vm s' k) /\
    (named sh (string_at user sh key) v \/ (forall w, ~ named sh (string_at user sh key) w) /\ v = 0) /\
    cr3 s' = cr3 (vm k) /\
    forall va, 0 <= va < 2 ^ 32 -> translate (memory s') (cr3 s') va =
      if decide (va / 4096 = v / 4096) then Some va else translate (memory (vm k)) (cr3 (vm k)) va.
Proof.
  intros HW Hr HV Hl. destruct (find_key_ok sh k0 k m user key HW) as (v & Ev & Hv). exists v.
  destruct (map_shared_ok (vm k) l v HV) as (s' & l' & E & Ec & _ & HT); [|done|].
  { destruct Hv as [Hv|[_ ->]]; [by apply Hr|lia]. }
  exists s'. split_and!; try done. unfold shm_acquire, bind, lift_mmu. by rewrite Ev, E.
Qed.

(** C39: an area made with shm_create is found by name from every address
    space: shm_acquire, called later with a key that holds the same string,
    returns the same page, mapped at its own address in the address space of
    the caller, where no other page moves.  Creating an area leaves the other
    names as they were. *)
Theorem shm_create_acquire {S} {ops : QueueOps qid Z S} {C : Config} {L : MallocLaws C} user key sh (k : kernel S) m p v z k1 :
  shm_wf sh k m -> balanced m -> NUMBER_SHARED_PAGES sh < MAX_SHARED_PAGES -> key <> 0 -> (forall w, ~ named sh (string_at user sh key) w) ->
  virtual_malloc 4096 (vm k) = Ok (p, v) -> 0 <= p < 2 ^ 32 ->
  mem_alloc (u32 (Z.of_nat (length (string_at user sh key)) + 1)) OKey (set_vm v k) = Ok (z, k1) -> z <> 0 ->
  exists sh' k', shm_create user key sh k = Ok ((p, sh'), k') /\
    (forall nm w, nm <> string_at user sh key -> named sh' nm w <-> named sh nm w) /\
    forall user2 key2 (k2 : kernel S) l, string_at user2 sh' key2 = string_at user sh key -> WF (cr3 (vm k2)) (vm k2) l -> l <> [] ->
      exists s', shm_acquire user2 key2 sh' k2 = Ok (p, set_vm s' k2) /\ cr3 s' = cr3 (vm k2) /\
        forall va, 0 <= va < 2 ^ 32 -> translate (memory s') (cr3 s') va =
          if decide (va / 4096 = p / 4096) then Some va else translate (memory (vm k2)) (cr3 (vm k2)) va.
Proof.
  intros HW HB Hmax Hkey Hnew Hv Hp Hz Hz0.
  destruct (create_names user key sh k m p v z k1 HW HB Hmax Hkey Hnew Hv Hz Hz0) as (sh' & k' & m' & E & HW' & _ & HN).
  exists sh', k'. split; [done|]. split; [intros nm w Hne; rewrite HN; by rewrite decide_False|].
  intros user2 key2 k2 l Hs HV Hl.
  assert (forall w, named sh' (string_at user2 sh' key2) w <-> w = p) as Hnm by (intros w; rewrite Hs, HN; by rewrite decide_True).
  destruct (acquire_maps user2 key2 sh' k' k2 m' l HW') as (w & s' & E2 & Hw & Hr); try done; [intros w; by intros ->%Hnm|].
  exists s'. replace p with w; [done|]. destruct Hw as [Hw|[Hw _]]; [by apply Hnm|]. by destruct (Hw p); apply Hnm.
Qed.

(** Shm_acquire of a key that names no area maps the null page, readable
    and writable by the process, before it returns the null pointer. *)
Theorem shm_acquire_missing {S} {ops : QueueOps qid Z S} user key sh (k : kernel S) m l : shm_wf sh k m ->
  (forall v, ~ named sh (string_at user sh key) v) -> WF (cr3 (vm k)) (vm k) l -> l <> [] ->
  exists s', shm_acquire user key sh k = Ok (0, set_vm s' k) /\
    forall va, 0 <= va < 4096 -> translate (memory s') (cr3 s') va = Some va.
Proof.
  intros HW Hn HV Hl. destruct (acquire_maps user key sh k k m l HW) as (v & s' & E & Hv & _ & HT); try done.
  { intros v Hv. by destruct (Hn v). }
  destruct Hv as [Hv|[_ ->]]; [by destruct (Hn v)|]. exists s'. split; [done|]. intros va Hva.
  rewrite HT, decide_True; [done|rewrite !Z.div_small by lia; done|lia].
Qed.
End Acquire.

(** ** Examples: the table as the boot code leaves it, and an area "a" *)

Definition demo_user (a : Z) : list Z := if a =? 500 then [97] else [98].
Definition demo_shm : shm * LK :=
  match initalize_hash_head (mk_shm 0 None ∅) demo_kernel with Ok r => r | Err _ => (mk_shm 0 None ∅, demo_kernel) end.

Section Init.
Context {S : Type} {ops : QueueOps qid Z S} {C : Config} {L : MallocLaws C}.
(** The table of initalize_hash_head names nothing, unless an allocation
    failed. *)
Lemma initalize_hash_head_ok sh (k k' : kernel S) sh' : initalize_hash_head sh k = Ok (sh', k') -> key_strings sh = ∅ ->
  (hash_head sh' = None \/ exists m, hash_head sh' = Some m /\ table_addr m = 0) \/
  exists m, shm_wf sh' k' m /\ balanced m /\ forall nm v, ~ named sh' nm v.
Proof.
  unfold initalize_hash_head. intros E Ek. unfold bind at 1 in E. destruct (mem_alloc _ _ k) as [[h k1]|]; [|done].
  destruct (hash_init_spec zeroed_hash (hash_string_hfunc (fun _ => [])) (hash_string_cmp (fun _ => [])) k1) as ([r m] & k2 & Ei & Hi).
  unfold bind, hash_init_string in E. rewrite Ei in E. destruct (h =? 0); [destruct (r =? -1); [|done]; injection E as <- <-; auto|].
  injection E as <- <-. destruct Hi as [[_ ->]|(-> & HW & HB & Ho & Eh & Ec & Hab)]; [left; right; by eexists|].
  assert (forall i s, table m !! i = Some s -> mode s = SL_ACTIVE -> False) as Hna.
  { intros i s Hi Hs. destruct (wf_active _ HW i s Hi Hs) as (a & Ha & _). apply (Hab a (value s)). exists i, s, a.
    split_and!; try done. by rewrite Ec. }
  destruct (decide (table_addr m = 0)) as [E0|E0]; [left; right; by eexists|]. right. exists m. split_and!; [|done|].
  - split; simpl; try done; rewrite ?Ek.
    + apply (wf_agree m (fun _ => [])).
      * destruct m. unfold with_strings. simpl in *. by subst.
      * intros i s a Hi Hs. by destruct (Hna i s).
    + intros i s a Hi Hs. by destruct (Hna i s).
    + intros a [x Hx]. by rewrite lookup_empty in Hx.
  - intros nm v (m1 & i & s & a & Hm & Hi & Hs & _). injection Hm as <-. by destruct (Hna i s).
Qed.
End Init.

Lemma demo_shm_ok : exists m, shm_wf demo_shm.1 demo_shm.2 m /\ balanced m /\ forall nm v, ~ named demo_shm.1 nm v.
Proof.
  unfold demo_shm. destruct (initalize_hash_head (mk_shm 0 None ∅) demo_kernel) as [[sh k]|] eqn:E; [|by vm_compute in E].
  destruct (initalize_hash_head_ok _ _ _ _ E eq_refl) as [Hn|H]; [|exact H]. exfalso.
  assert (match initalize_hash_head (mk_shm 0 None ∅) demo_kernel with
    Ok (sh, _) => match hash_head sh with Some m => negb (table_addr m =? 0) | None => false end | Err _ => false end = true) as E1
    by (vm_compute; reflexivity).
  rewrite E in E1. destruct Hn as [Hn|(m & Hm & Ha)]; [by rewrite Hn in E1|]. by rewrite Hm, Ha in E1.
Qed.

(** The page and the block of the name in that state. *)
Definition demo_page : Z := match virtual_malloc 4096 (vm demo_shm.2) with Ok (p, _) => p | Err _ => 0 end.
Definition demo_vm_after : mmu := match virtual_malloc 4096 (vm demo_shm.2) with Ok (_, v) => v | Err _ => vm demo_shm.2 end.
Definition demo_alloc : result (Z * LK) := mem_alloc 2 OKey (set_vm demo_vm_after demo_shm.2).

Lemma demo_allocs : virtual_malloc 4096 (vm demo_shm.2) = Ok (demo_page, demo_vm_after) /\ exists z k, demo_alloc = Ok (z, k) /\ z <> 0.
Proof.
  split.
  - assert (match virtual_malloc 4096 (vm demo_shm.2) with Ok _ => true | Err _ => false end = true) as E by (vm_compute; reflexivity).
    unfold demo_page, demo_vm_after. by destruct (virtual_malloc 4096 (vm demo_shm.2)) as [[p v]|].
  - assert (match demo_alloc with Ok (z, _) => negb (z =? 0) | Err _ => false end = true) as E by (vm_compute; reflexivity).
    destruct demo_alloc as [[z k]|]; [|done]. exists z, k. split; [done|]. by intros ->.
Qed.

Lemma demo_facts : NUMBER_SHARED_PAGES demo_shm.1 < MAX_SHARED_PAGES /\ string_at demo_user demo_shm.1 500 = [97] /\ 0 <= demo_page < 2 ^ 32 /\ demo_page <> 0.
Proof. by repeat split; vm_compute. Qed.

(** The area "a" made. *)
Definition demo_named : shm * LK :=
  match shm_create demo_user 500 demo_shm.1 demo_shm.2 with Ok ((_, sh), k) => (sh, k) | Err _ => demo_shm end.
Definition demo_released : mmu := match virtual_free demo_page 4096 (vm demo_named.2) with Ok (_, v) => v | Err _ => vm demo_named.2 end.

Lemma demo_named_ok : exists m, shm_wf demo_named.1 demo_named.2 m /\ balanced m /\ named demo_named.1 [97] demo_page.
Proof.
  destruct demo_shm_ok as (m & HW & HB & Hn). destruct demo_allocs as [Hv (z & k & Hz & Hz0)]. destruct demo_facts as (H1 & Es & _).
  assert (mem_alloc (u32 (Z.of_nat (length (string_at demo_user demo_shm.1 500)) + 1)) OKey (set_vm demo_vm_after demo_shm.2) = Ok (z, k)) as Hz'
    by (rewrite Es; exact Hz).
  destruct (create_names demo_user 500 demo_shm.1 demo_shm.2 m demo_page demo_vm_after z k HW HB H1 ltac:(lia) (fun w => Hn _ w) Hv Hz' Hz0)
    as (sh' & k' & m' & E & HW' & _ & HN).
  unfold demo_named. rewrite E. exists m'. cbn [fst snd]. split; [exact HW'|]. split; [|rewrite HN, Es; by rewrite decide_True].
  assert (match shm_create demo_user 500 demo_shm.1 demo_shm.2 with
    Ok ((_, sh), _) => match hash_head sh with Some m => 3 * fill m <? 2 * size_of m | None => false end | Err _ => false end = true) as Eb by (vm_compute; reflexivity).
  rewrite E in Eb. rewrite (sw_head _ _ _ HW') in Eb. by apply Z.ltb_lt in Eb.
Qed.

Lemma shm_release_forgets_witness : exists sh' k', shm_release demo_user 500 demo_named.1 demo_named.2 = Ok (sh', k') /\
  NUMBER_SHARED_PAGES sh' = 0 /\ forall w, ~ named sh' [97] w.
Proof.
  destruct demo_named_ok as (m & HW & HB & Hn).
  assert (string_at demo_user demo_named.1 500 = [97]) as Es by (vm_compute; reflexivity).
  destruct (shm_release_forgets demo_user 500 demo_named.1 demo_named.2 m demo_page demo_released HW HB) as (sh' & k' & m' & E & _ & _ & En & HN).
  - vm_compute. discriminate.
  - rewrite Es. exact Hn.
  - apply demo_facts.
  - assert (match virtual_free demo_page 4096 (vm demo_named.2) with Ok _ => true | Err _ => false end = true) as E by (vm_compute; reflexivity).
    unfold demo_released. by destruct (virtual_free demo_page 4096 (vm demo_named.2)) as [[[] v]|].
  - exists sh', k'. split; [exact E|]. split; [rewrite En; vm_compute; reflexivity|]. intros w Hw. apply HN in Hw as [Hw _]. apply Hw. symmetry. exact Es.
Defined.

(** The address space of [demo]. *)
Definition demo_space : LK := set_vm demo demo_shm.2.

Lemma shm_acquire_missing_witness : exists s', shm_acquire demo_user 500 demo_shm.1 demo_space = Ok (0, set_vm s' demo_space) /\
  translate (memory s') (cr3 s') 8 = Some 8.
Proof.
  destruct demo_shm_ok as (m & HW & _ & Hn).
  assert (shm_wf demo_shm.1 demo_space m) as HW' by (destruct HW; split; assumption).
  destruct (shm_acquire_missing demo_user 500 demo_shm.1 demo_space m demo_free HW') as (s' & E & HT).
  - intros v. apply Hn.
  - exact demo_wf.
  - discriminate.
  - exists s'. split; [exact E|]. apply HT. lia.
Defined.

Lemma shm_create_acquire_witness : exists sh' k' s', shm_create demo_user 500 demo_shm.1 demo_shm.2 = Ok ((demo_page, sh'), k') /\
  shm_acquire (fun _ => [97]) 900 sh' demo_space = Ok (demo_page, set_vm s' demo_space) /\
  translate (memory s') (cr3 s') demo_page = Some demo_page.
Proof.
  destruct demo_shm_ok as (m & HW & HB & Hn). destruct demo_allocs as [Hv (z & k & Hz & Hz0)]. destruct demo_facts as (H1 & Es & Hp & _).
  assert (mem_alloc (u32 (Z.of_nat (length (string_at demo_user demo_shm.1 500)) + 1)) OKey (set_vm demo_vm_after demo_shm.2) = Ok (z, k)) as Hz'
    by (rewrite Es; exact Hz).
  destruct (shm_create_acquire demo_user 500 demo_shm.1 demo_shm.2 m demo_page demo_vm_after z k HW HB H1 ltac:(lia) (fun w => Hn _ w) Hv Hp Hz' Hz0)
    as (sh' & k' & E & _ & HA).
  destruct (HA (fun _ => [97]) 900 demo_space demo_free) as (s' & E2 & _ & HT).
  - assert (match shm_create demo_user 500 demo_shm.1 demo_shm.2 with
      Ok ((_, sh), _) => bool_decide (key_strings sh !! 900 = None) | Err _ => false end = true) as E9 by (vm_compute; reflexivity).
    rewrite E in E9. apply bool_decide_eq_true in E9. rewrite Es. unfold string_at. rewrite E9. reflexivity.
  - exact demo_wf.
  - discriminate.
  - exists sh', k', s'. split; [exact E|]. split; [exact E2|]. rewrite HT by exact Hp. rewrite decide_True by reflexivity. reflexivity.
Defined.
