(* ===== verification/Processor.v ===== *)
(** * Segment and interrupt tables (kernel/boot/processor_structs.c, kernel/time.c)

    The descriptors and gates the kernel writes in the tables of the
    processor, read back the way the i386 reads them; the interrupt controller
    and the timer, as the bytes sent to their ports. *)

From S2P Require Import Prelude Memory Cstring.

(** ** Formats *)

Definition SZ_32 : Z := 0x4.
Definition SZ_G : Z := 0x8.
Definition ACC_TASK_GATE : Z := 0x05.
Definition ACC_TSS : Z := 0x09.
Definition ACC_DATA_W : Z := 0x12.
Definition ACC_CODE_R : Z := 0x1a.
Definition ACC_PL_K : Z := 0x00.
Definition ACC_PL_U : Z := 0x60.
Definition ACC_P : Z := 0x80.

(** kernel/segment.h, kernel/boot/processor_structs.h *)
Definition BASE_TSS : Z := 0x08.
Definition KERNEL_CS : Z := 0x10.
Definition KERNEL_DS : Z := 0x18.
Definition USER_CS : Z := 0x43.
Definition USER_DS : Z := 0x4b.
Definition TRAP_TSS_BASE : Z := 0x50.
Definition GDT_ENTRIES : Z := 8192.
Definition IDT_ENTRIES : Z := 256.
Definition HANDLER_ENTRIES : Z := 32.
Definition sizeof_tss : Z := 104.

(** The two words of the 64-bit entry, [p0] first. *)
Definition fill_descriptor (addr limit access sizebits : Z) : Z * Z :=
  let base := u32 addr in
  let '(limit, sizebits) := if 0xfffff <? limit then (Z.shiftr limit 12, Z.lor sizebits SZ_G) else (limit, sizebits) in
  let p0 := u32 (Z.land limit 0xffff + Z.shiftl (Z.land base 0xffff) 16) in
  let p1 := Z.land (Z.shiftr base 16) 0xff in
  let p1 := Z.lor p1 (Z.shiftl (Z.land (Z.lor access ACC_P) 0xff) 8) in
  let p1 := Z.lor p1 (Z.land limit 0xf0000) in
  let p1 := Z.lor p1 (u32 (Z.shiftl (Z.land sizebits 0xf) 20)) in
  let p1 := Z.lor p1 (Z.land base 0xff000000) in
  (p0, p1).

(** [selector] is an [unsigned short], [access] and [word_count] are
    [unsigned char]s; [selector << 16] is computed on [int]. *)
Definition fill_gate (offset selector access word_count : Z) : Z * Z :=
  let p0 := Z.land offset 0xffff in
  let p0 := Z.lor p0 (u32 (Z.shiftl (u16 selector) 16)) in
  let p1 := Z.land (u8 word_count) 0xf in
  let p1 := Z.lor p1 (Z.shiftl (Z.lor (u8 access) ACC_P) 8) in
  let p1 := Z.lor p1 (Z.land offset 0xffff0000) in
  (p0, p1).

(** ** What the processor reads *)

Record segment := mk_segment { seg_base : Z; seg_limit : Z; seg_access : Z; seg_flags : Z }.

(** Bits [lo] to [lo + n - 1]. *)
Definition field (v lo n : Z) : Z := v / 2 ^ lo mod 2 ^ n.

(** With the granularity bit the limit counts pages. *)
Definition segment_of (e : Z * Z) : segment :=
  let raw := field e.1 0 16 + 2 ^ 16 * field e.2 16 4 in
  let flags := field e.2 20 4 in
  mk_segment (field e.1 16 16 + 2 ^ 16 * field e.2 0 8 + 2 ^ 24 * field e.2 24 8)
    (if Z.testbit flags 3 then raw * 4096 + 4095 else raw) (field e.2 8 8) flags.

Record gate := mk_gate { gate_offset : Z; gate_selector : Z; gate_access : Z }.
Definition gate_of (e : Z * Z) : gate :=
  mk_gate (field e.1 0 16 + 2 ^ 16 * field e.2 16 16) (field e.1 16 16) (field e.2 8 8).

(** The privilege level that may use an entry, whether it is present. *)
Definition dpl (access : Z) : Z := field access 5 2.
Definition present (access : Z) : bool := Z.testbit access 7.

Ltac fields := unfold field; Z.to_euclidean_division_equations; lia.

Lemma land_low n v : 0 <= n -> Z.land v (Z.ones n) = field v 0 n.
Proof. intros. unfold field. by rewrite Z.land_ones, Z.div_1_r. Qed.

(** A mask of [n] bits from bit [lo] on. *)
Lemma land_mid v lo n : 0 <= lo -> 0 <= n -> Z.land v (Z.shiftl (Z.ones n) lo) = 2 ^ lo * field v lo n.
Proof.
  intros Hlo Hn. unfold field. rewrite <- Z.shiftr_div_pow2, <- Z.land_ones, Z.mul_comm, <- Z.shiftl_mul_pow2 by done.
  apply Z.bits_inj'. intros i Hi. rewrite Z.land_spec, !Z.shiftl_spec by done. destruct (Z.lt_ge_cases i lo).
  - rewrite !(Z.testbit_neg_r _ (i - lo)) by lia. apply andb_false_r.
  - rewrite Z.land_spec, Z.shiftr_spec by lia. do 2 f_equal. lia.
Qed.

Lemma field_range v lo n : 0 <= n -> 0 <= field v lo n < 2 ^ n.
Proof. intros. apply Z.mod_pos_bound. lia. Qed.

(** [lor] of a field above the bits of [a]. *)
Lemma lor_field a b lo : 0 <= lo -> 0 <= a < 2 ^ lo -> Z.lor a (2 ^ lo * b) = a + 2 ^ lo * b.
Proof.
  intros Hlo Ha. rewrite Z.lor_comm, (lor_low_add lo) by (done || rewrite Z.mul_comm; apply Z.mod_mul; lia). lia.
Qed.

Lemma shiftl_mul a lo : 0 <= lo -> Z.shiftl a lo = 2 ^ lo * a.
Proof. intros. rewrite Z.shiftl_mul_pow2 by done. lia. Qed.

Lemma lor_present access : 0 <= access < 2 ^ 8 -> 0 <= Z.lor access ACC_P < 2 ^ 8.
Proof.
  intros Ha. destruct (Z.lt_ge_cases access 128) as [Hlt|Hge].
  - change ACC_P with (2 ^ 7 * 1). rewrite (lor_field access 1 7) by lia. lia.
  - replace access with (2 ^ 7 * 1 + (access - 128)) by lia. rewrite <- (lor_low_add 7 (2 ^ 7 * 1)) by (done || lia).
    rewrite <- Z.lor_assoc, (Z.lor_comm (access - 128)), Z.lor_assoc. change (Z.lor (2 ^ 7 * 1) ACC_P) with (2 ^ 7 * 1).
    rewrite (lor_low_add 7) by (done || lia). lia.
Qed.

(** The words of a descriptor as sums of fields. *)
Lemma fill_descriptor_words base limit access sizebits : 0 <= base < 2 ^ 32 -> 0 <= limit < 2 ^ 20 -> 0 <= access < 2 ^ 8 -> 0 <= sizebits < 2 ^ 4 ->
  fill_descriptor base limit access sizebits =
    (field limit 0 16 + 2 ^ 16 * field base 0 16,
     field base 16 8 + 2 ^ 8 * Z.lor access ACC_P + 2 ^ 16 * field limit 16 4 + 2 ^ 20 * sizebits + 2 ^ 24 * field base 24 8).
Proof.
  intros Hb Hl Ha Hs. unfold fill_descriptor. rewrite (uwrap_small 32 base) by done.
  destruct (Z.ltb_spec 0xfffff limit); [lia|].
  pose proof (lor_present access Ha) as Hp.
  change 0xffff with (Z.ones 16). change 0xff with (Z.ones 8). change 0xf with (Z.ones 4).
  change 0xf0000 with (Z.shiftl (Z.ones 4) 16). change 0xff000000 with (Z.shiftl (Z.ones 8) 24).
  rewrite !land_mid, !land_low, !shiftl_mul by lia. rewrite Z.shiftr_div_pow2 by lia.
  pose proof (field_range base 0 16 ltac:(lia)). pose proof (field_range limit 0 16 ltac:(lia)).
  pose proof (field_range (base / 2 ^ 16) 0 8 ltac:(lia)). pose proof (field_range limit 16 4 ltac:(lia)).
  rewrite (uwrap_small 32) by lia.
  replace (field (Z.lor access ACC_P) 0 8) with (Z.lor access ACC_P) by (unfold field; rewrite Z.div_1_r, Z.mod_small; done).
  replace (field sizebits 0 4) with sizebits by (unfold field; rewrite Z.div_1_r, Z.mod_small; done).
  rewrite (uwrap_small 32) by lia.
  replace (field (base / 2 ^ 16) 0 8) with (field base 16 8) in * by (unfold field; by rewrite Z.div_1_r).
  rewrite (lor_field _ _ 8) by lia. rewrite (lor_field _ _ 16) by lia. rewrite (lor_field _ _ 20) by lia. rewrite (lor_field _ _ 24) by lia.
  done.
Qed.

Definition word_pair (e : Z * Z) : Prop := 0 <= e.1 < 2 ^ 32 /\ 0 <= e.2 < 2 ^ 32.

(** A descriptor whose limit needs no scaling. *)
Lemma small_descriptor base limit access sizebits : 0 <= base < 2 ^ 32 -> 0 <= limit < 2 ^ 20 -> 0 <= access < 2 ^ 8 -> 0 <= sizebits < 2 ^ 4 ->
  let e := fill_descriptor base limit access sizebits in
  word_pair e /\ segment_of e = mk_segment base (if Z.testbit sizebits 3 then limit * 4096 + 4095 else limit) (Z.lor access ACC_P) sizebits.
Proof.
  intros Hb Hl Ha Hs e. unfold e. rewrite fill_descriptor_words by done. pose proof (lor_present access Ha) as Hp. revert Hp.
  generalize (Z.lor access ACC_P). intros a Hp.
  assert (forall x y, x = y -> forall b : bool, (if b then x * 4096 + 4095 else x) = if b then y * 4096 + 4095 else y) as HE by (by intros x y ->).
  unfold word_pair, segment_of. cbn [fst snd]. split; [split; fields|]. f_equal; [fields| |fields|fields].
  replace (field _ 20 4) with sizebits by fields. apply HE. fields.
Qed.

(** The processor reads a descriptor of fill_descriptor back as the segment
    it was asked for: the base, the access rights with the present bit, the
    size bits, and the limit, exactly up to 1 MB and rounded up to the end of a
    page above, where the granularity bit is set. *)
Lemma fill_descriptor_read_back base limit access sizebits : 0 <= base < 2 ^ 32 -> 0 <= limit < 2 ^ 32 -> 0 <= access < 2 ^ 8 -> 0 <= sizebits < 2 ^ 3 ->
  segment_of (fill_descriptor base limit access sizebits) =
    if limit <=? 0xfffff then mk_segment base limit (Z.lor access ACC_P) sizebits
    else mk_segment base (limit / 4096 * 4096 + 4095) (Z.lor access ACC_P) (sizebits + SZ_G).
Proof.
  intros Hb Hl Ha Hs. destruct (Z.leb_spec limit 0xfffff).
  - destruct (small_descriptor base limit access sizebits) as [_ ->]; try lia. replace (Z.testbit sizebits 3) with false; [done|].
    rewrite <- (Z.mod_small sizebits (2 ^ 3)) by done. by rewrite Z.mod_pow2_bits_high.
  - assert (Z.lor sizebits SZ_G = sizebits + SZ_G) as Eg by (change SZ_G with (2 ^ 3 * 1); rewrite (lor_field sizebits 1 3); lia).
    replace (fill_descriptor base limit access sizebits) with (fill_descriptor base (limit / 4096) access (sizebits + SZ_G)).
    + destruct (small_descriptor base (limit / 4096) access (sizebits + SZ_G)) as [_ ->]; try done; [Z.to_euclidean_division_equations; lia|unfold SZ_G; lia|].
      replace (Z.testbit (sizebits + SZ_G) 3) with true; [done|]. rewrite <- Eg, Z.lor_spec. symmetry. apply orb_true_r.
    + unfold fill_descriptor. destruct (Z.ltb_spec 0xfffff (limit / 4096)); [Z.to_euclidean_division_equations; lia|].
      destruct (Z.ltb_spec 0xfffff limit); [|lia]. rewrite Eg, (Z.shiftr_div_pow2 limit 12) by lia. by change (2 ^ 12) with 4096.
Qed.

(** Gates. *)
Lemma fill_gate_read offset selector access word_count : 0 <= offset < 2 ^ 32 -> 0 <= selector < 2 ^ 16 -> 0 <= access < 2 ^ 8 ->
  let e := fill_gate offset selector access word_count in
  word_pair e /\ gate_of e = mk_gate offset selector (Z.lor access ACC_P).
Proof.
  intros Ho Hs Ha e. unfold e, fill_gate. rewrite (uwrap_small 16), (uwrap_small 8 access) by done.
  change 0xffff with (Z.ones 16). change 0xf with (Z.ones 4). change 0xffff0000 with (Z.shiftl (Z.ones 16) 16).
  rewrite !land_mid, !land_low, !shiftl_mul by lia. rewrite (uwrap_small 32) by lia.
  pose proof (field_range offset 0 16 ltac:(lia)). pose proof (field_range (u8 word_count) 0 4 ltac:(lia)).
  pose proof (lor_present access Ha) as Hp. revert Hp. generalize (Z.lor access ACC_P). intros a Hp.
  rewrite (lor_field _ _ 16) by lia. rewrite (lor_field _ _ 8) by lia. rewrite (lor_field _ _ 16) by lia.
  unfold word_pair, gate_of. cbn [fst snd]. split; [split; fields|]. f_equal; fields.
Qed.

(** ** Tables *)

Section Tables.
Implicit Types (m : mem) (e : Z * Z).

(** Entry [i] of the table at [t]; [long long]s are stored low word first. *)
Definition store_entry m (t i : Z) e : mem := store32 (store32 m (t + 8 * i) e.1) (t + 8 * i + 4) e.2.
Definition load_entry m (t i : Z) : Z * Z := (load32 m (t + 8 * i), load32 m (t + 8 * i + 4)).

Lemma load_store_entry m t i e j : word_pair e ->
  load_entry (store_entry m t i e) t j = if decide (j = i) then e else load_entry m t j.
Proof.
  intros [H1 H2]. unfold load_entry, store_entry. case_decide as E.
  - subst j. rewrite load32_store32_ne, !load32_store32_eq, !uwrap_small by lia. by destruct e.
  - rewrite !load32_store32_ne by lia. done.
Qed.

(** [for (i = 0; i < n; i++) fill(table + first + i, entry(i))] *)
Definition store_entries m (t first n : Z) (entry : Z -> Z * Z) : mem :=
  fold_left (fun m i => store_entry m t (first + i) (entry i)) (seqZ 0 n) m.

Lemma load_store_entries m t first n entry j : (forall i, 0 <= i < n -> word_pair (entry i)) ->
  load_entry (store_entries m t first n entry) t j = if decide (first <= j < first + n) then entry (j - first) else load_entry m t j.
Proof.
  intros Hw. unfold store_entries.
  assert (forall l m, (forall i, i ∈ l -> 0 <= i < n) -> NoDup l ->
    load_entry (fold_left (fun m i => store_entry m t (first + i) (entry i)) l m) t j =
      if decide (j - first ∈ l) then entry (j - first) else load_entry m t j) as H.
  { induction l as [|x l IH]; intros m0 Hl Hn; cbn [fold_left]; [by rewrite decide_False by set_solver|].
    apply NoDup_cons in Hn as [Hx Hn]. rewrite IH by (done || set_solver). rewrite load_store_entry by (apply Hw, Hl; set_solver).
    destruct (decide (j - first ∈ l)); [by rewrite decide_True by set_solver|]. destruct (decide (j = first + x)) as [->|Hne].
    - rewrite decide_True by (rewrite elem_of_cons; left; lia). f_equal. lia.
    - rewrite decide_False; [done|]. rewrite elem_of_cons. intros [?|?]; [lia|done]. }
  rewrite H; [|by intros i ?%elem_of_seqZ; lia|apply NoDup_seqZ].
  repeat case_decide; try done; rewrite elem_of_seqZ in *; lia.
Qed.

Definition task_descriptor (base : Z) : Z * Z := fill_descriptor base (sizeof_tss - 1) (Z.lor (Z.lor ACC_PL_K ACC_TSS) ACC_P) 0.

(** The table is at [gdt], the task segments at [tss] and [trap_tss]; loading
    it and the segment registers leaves the memory as it is. *)
Definition setup_gdt m (gdt tss trap_tss : Z) : mem :=
  let m := memset m gdt 0 (8 * GDT_ENTRIES) in
  let m := store_entry m gdt (BASE_TSS / 8) (task_descriptor tss) in
  let m := store_entry m gdt (KERNEL_CS / 8) (fill_descriptor 0 0xffffffff (Z.lor ACC_PL_K ACC_CODE_R) SZ_32) in
  let m := store_entry m gdt (KERNEL_DS / 8) (fill_descriptor 0 0xffffffff (Z.lor ACC_PL_K ACC_DATA_W) SZ_32) in
  let m := store_entry m gdt (USER_CS / 8) (fill_descriptor 0 0xffffffff (Z.lor ACC_PL_U ACC_CODE_R) SZ_32) in
  let m := store_entry m gdt (USER_DS / 8) (fill_descriptor 0 0xffffffff (Z.lor ACC_PL_U ACC_DATA_W) SZ_32) in
  store_entries m gdt (TRAP_TSS_BASE / 8) HANDLER_ENTRIES (fun i => task_descriptor (trap_tss + sizeof_tss * i)).

Definition trap_gate (i : Z) : Z * Z :=
  fill_gate 0 (TRAP_TSS_BASE + 8 * i) (ACC_TASK_GATE + if i =? 3 then 0x60 else 0) 0.

(** The task state segment of exception [i], at [ts]; the offsets are those of
    struct x86_tss. *)
Definition setup_trap_task m (ts stack_top handler pgdir : Z) : mem :=
  let m := store32 m (ts + 8) KERNEL_DS in
  let m := store32 m (ts + 4) stack_top in
  let m := store32 m (ts + 80) KERNEL_DS in
  let m := store32 m (ts + 56) (load32 m (ts + 4)) in
  let m := store16 m (ts + 102) sizeof_tss in
  let m := store32 m (ts + 76) KERNEL_CS in
  let m := store32 m (ts + 32) handler in
  let m := store32 m (ts + 84) KERNEL_DS in
  let m := store32 m (ts + 72) KERNEL_DS in
  let m := store32 m (ts + 88) 0 in
  let m := store32 m (ts + 92) 0 in
  let m := store32 m (ts + 36) 2 in
  let m := store16 m (ts + 100) 0 in
  store32 m (ts + 28) pgdir.

Definition setup_idt m (idt trap_tss stack_top pgdir : Z) (handlers : Z -> Z) : mem :=
  let m := memset m idt 0 (8 * IDT_ENTRIES) in
  fold_left (fun m i => store_entry (setup_trap_task m (trap_tss + sizeof_tss * i) stack_top (handlers i) pgdir) idt i (trap_gate i))
    (seqZ 0 HANDLER_ENTRIES) m.

Definition setup_tss m (tss first_stack_top pgdir : Z) : mem :=
  let m := memset m tss 0 sizeof_tss in
  let m := store32 m (tss + 8) KERNEL_DS in
  let m := store32 m (tss + 4) first_stack_top in
  let m := store16 m (tss + 102) sizeof_tss in
  store32 m (tss + 28) pgdir.

(** ** What is written where *)

(** [m'] differs from [m] in the [n] bytes from [a] on only. *)
Definition within m m' (a n : Z) : Prop := forall b, b < a \/ a + n <= b -> load8 m' b = load8 m b.

Lemma within_refl m a n : within m m a n.
Proof. by intros b _. Qed.
Lemma within_store32 m m' a n b v : within m m' a n -> a <= b -> b + 4 <= a + n -> within m (store32 m' b v) a n.
Proof. intros H H1 H2 c Hc. rewrite load8_store32_ne by lia. by apply H. Qed.
Lemma within_store16 m m' a n b v : within m m' a n -> a <= b -> b + 2 <= a + n -> within m (store16 m' b v) a n.
Proof. intros H H1 H2 c Hc. rewrite load8_store16_ne by lia. by apply H. Qed.
Lemma within_memset m a n c : 0 <= n -> within m (memset m a c n) a n.
Proof. intros Hn b Hb. rewrite (memset_filled m a c n Hn b). by rewrite decide_False by lia. Qed.

Lemma within_entry m m' a n t j : within m m' a n -> t + 8 * j + 8 <= a \/ a + n <= t + 8 * j -> load_entry m' t j = load_entry m t j.
Proof. intros H Hd. unfold load_entry, load32, load16. rewrite !H by lia. done. Qed.

Ltac in_area :=
  repeat match goal with
  | |- within _ (store32 _ _ _) _ _ => apply within_store32; [|lia..]
  | |- within _ (store16 _ _ _) _ _ => apply within_store16; [|lia..]
  | |- within _ (memset _ _ _ _) _ _ => apply within_memset; lia
  | |- within ?m ?m _ _ => apply within_refl
  end.

Lemma trap_task_within m ts st h pg : within m (setup_trap_task m ts st h pg) ts sizeof_tss.
Proof. unfold setup_trap_task, sizeof_tss. cbv zeta. in_area. Qed.

Lemma setup_tss_within m tss st pg : within m (setup_tss m tss st pg) tss sizeof_tss.
Proof. unfold setup_tss, sizeof_tss. cbv zeta. in_area. Qed.

Lemma trap_gate_read i : 0 <= i < HANDLER_ENTRIES -> word_pair (trap_gate i) /\
  gate_of (trap_gate i) = mk_gate 0 (TRAP_TSS_BASE + 8 * i) (Z.lor (ACC_TASK_GATE + if i =? 3 then 0x60 else 0) ACC_P).
Proof.
  unfold HANDLER_ENTRIES, trap_gate. intros Hi. set (a := ACC_TASK_GATE + _). assert (0 <= a < 2 ^ 8) as Ha by (unfold a, ACC_TASK_GATE; destruct (i =? 3); lia).
  exact (fill_gate_read 0 (TRAP_TSS_BASE + 8 * i) a 0 ltac:(lia) ltac:(unfold TRAP_TSS_BASE; lia) Ha).
Qed.

(** The gates of setup_idt, the task segments being elsewhere. *)
Lemma setup_idt_gates m idt trap_tss st pg h i : idt + 8 * IDT_ENTRIES <= trap_tss -> 0 <= i < HANDLER_ENTRIES ->
  load_entry (setup_idt m idt trap_tss st pg h) idt i = trap_gate i.
Proof.
  unfold IDT_ENTRIES. intros Hd Hi. unfold setup_idt. cbv zeta. generalize (memset m idt 0 (8 * IDT_ENTRIES)). clear m. intros m.
  assert (forall l m, (forall x, x ∈ l -> 0 <= x < HANDLER_ENTRIES) -> i ∈ l \/ load_entry m idt i = trap_gate i ->
    load_entry (fold_left (fun m i => store_entry (setup_trap_task m (trap_tss + sizeof_tss * i) st (h i) pg) idt i (trap_gate i)) l m) idt i = trap_gate i) as H.
  { induction l as [|x l IH]; intros m0 Hl Hor; cbn [fold_left]; [destruct Hor; [set_solver|done]|].
    apply IH; [set_solver|]. destruct Hor as [[<-|?]%elem_of_cons|E]; [right|by left|right].
    - rewrite load_store_entry, decide_True by (done || by apply trap_gate_read). done.
    - pose proof (Hl x ltac:(set_solver)) as Hx. rewrite load_store_entry by (by apply trap_gate_read).
      case_decide; [by subst|]. rewrite (within_entry m0 _ _ _ _ _ (trap_task_within m0 _ st (h x) pg)); [done|].
      left. unfold HANDLER_ENTRIES, sizeof_tss in *. lia. }
  apply H; [by intros x ?%elem_of_seqZ; lia|]. left. apply elem_of_seqZ. lia.
Qed.

Lemma setup_idt_within m idt trap_tss st pg h t j : t + 8 * j + 8 <= trap_tss -> idt + 8 * IDT_ENTRIES <= t + 8 * j ->
  load_entry (setup_idt m idt trap_tss st pg h) t j = load_entry m t j.
Proof.
  unfold IDT_ENTRIES. intros H1 H2. unfold setup_idt. cbv zeta.
  rewrite <- (within_entry m (memset m idt 0 (8 * IDT_ENTRIES)) idt (8 * IDT_ENTRIES)); [|by apply within_memset|unfold IDT_ENTRIES; lia].
  generalize (memset m idt 0 (8 * IDT_ENTRIES)). clear m. intros m.
  assert (forall i, i ∈ seqZ 0 HANDLER_ENTRIES -> 0 <= i < HANDLER_ENTRIES) as Hl by (by intros i ?%elem_of_seqZ; lia).
  revert m Hl. generalize (seqZ 0 HANDLER_ENTRIES). induction l as [|x l IH]; intros m Hl; cbn [fold_left]; [done|].
  rewrite IH by set_solver. pose proof (Hl x ltac:(set_solver)) as Hx. unfold HANDLER_ENTRIES in *.
  rewrite <- (within_entry m _ _ _ t j (trap_task_within m (trap_tss + sizeof_tss * x) st (h x) pg)) by (unfold sizeof_tss; lia).
  apply (within_entry _ _ (idt + 8 * x) 8); [unfold store_entry; in_area|lia].
Qed.

(** ** The tables after the boot *)

(** The tables are where the linker script puts them (kernel/build/kernel.lds). *)
Definition idt : Z := 0x1000.
Definition gdt : Z := 0x10000.

Definition cpu_tables m (tss trap_tss trap_stack_top first_stack_top pgdir : Z) (handlers : Z -> Z) : mem :=
  let m := setup_gdt m gdt tss trap_tss in
  let m := setup_idt m idt trap_tss trap_stack_top pgdir handlers in
  setup_tss m tss first_stack_top pgdir.

Lemma flat_segment access : 0 <= access < 2 ^ 8 -> word_pair (fill_descriptor 0 0xffffffff access SZ_32) /\
  segment_of (fill_descriptor 0 0xffffffff access SZ_32) = mk_segment 0 0xffffffff (Z.lor access ACC_P) 0xc.
Proof.
  intros Ha. split; [|exact (fill_descriptor_read_back 0 0xffffffff access SZ_32 ltac:(lia) ltac:(lia) Ha ltac:(done))].
  change (fill_descriptor 0 0xffffffff access SZ_32) with (fill_descriptor 0 0xfffff access 0xc). exact (proj1 (small_descriptor 0 0xfffff access 0xc ltac:(lia) ltac:(lia) Ha ltac:(lia))).
Qed.

Lemma flat_at access : (0 <=? access) && (access <? 2 ^ 8) = true ->
  segment_of (fill_descriptor 0 0xffffffff access SZ_32) = mk_segment 0 0xffffffff (Z.lor access ACC_P) 0xc.
Proof. intros [? ?]%andb_true_iff. apply flat_segment. lia. Qed.

Lemma task_segment base : 0 <= base < 2 ^ 32 -> word_pair (task_descriptor base) /\
  segment_of (task_descriptor base) = mk_segment base (sizeof_tss - 1) (Z.lor ACC_TSS ACC_P) 0.
Proof. intros Hb. exact (small_descriptor base (sizeof_tss - 1) 0x89 0 Hb ltac:(done) ltac:(lia) ltac:(lia)). Qed.

Lemma setup_gdt_entries m g tss trap_tss : 0 <= tss < 2 ^ 32 -> 0 <= trap_tss -> trap_tss + sizeof_tss * HANDLER_ENTRIES <= 2 ^ 32 ->
  let e := load_entry (setup_gdt m g tss trap_tss) g in
  e 2 = fill_descriptor 0 0xffffffff ACC_CODE_R SZ_32 /\ e 3 = fill_descriptor 0 0xffffffff ACC_DATA_W SZ_32 /\
  e 8 = fill_descriptor 0 0xffffffff 0x7a SZ_32 /\ e 9 = fill_descriptor 0 0xffffffff 0x72 SZ_32 /\ e 1 = task_descriptor tss /\
  forall i, 0 <= i < HANDLER_ENTRIES -> e (10 + i) = task_descriptor (trap_tss + sizeof_tss * i).
Proof.
  intros H1 H2 H3 e. unfold e, setup_gdt. cbv zeta. unfold HANDLER_ENTRIES, sizeof_tss in H3.
  assert (forall i, 0 <= i < HANDLER_ENTRIES -> word_pair (task_descriptor (trap_tss + sizeof_tss * i))) as Hw.
  { unfold HANDLER_ENTRIES, sizeof_tss. intros i Hi. apply task_segment. lia. }
  assert (forall a, 0 <= a < 2 ^ 8 -> word_pair (fill_descriptor 0 0xffffffff a SZ_32)) as Hf by (intros; by apply flat_segment).
  assert (word_pair (task_descriptor tss)) as Ht by (by apply task_segment).
  split_and!; [..|intros i Hi; rewrite load_store_entries by exact Hw; change (TRAP_TSS_BASE / 8) with 10;
    rewrite decide_True by (unfold HANDLER_ENTRIES in *; lia); f_equal; unfold sizeof_tss; lia].
  all: rewrite load_store_entries by exact Hw; change (TRAP_TSS_BASE / 8) with 10; rewrite decide_False by lia.
  all: rewrite !load_store_entry by (exact Ht || by apply Hf); reflexivity.
Qed.

(** C26: after the boot code has set up the tables of the processor, the
    selectors of the kernel and of the programs stand for flat 4 GB segments of
    privilege 0 and 3; each of the 32 exceptions has a present task gate to the
    task of its own state segment, and a program may raise no exception but the
    breakpoint. *)
Theorem cpu_init_tables m tss trap_tss tst fst_top pg handlers : 0x20000 <= tss < 2 ^ 32 -> 0x20000 <= trap_tss -> trap_tss + sizeof_tss * HANDLER_ENTRIES <= 2 ^ 32 ->
  let m' := cpu_tables m tss trap_tss tst fst_top pg handlers in
  let seg sel := segment_of (load_entry m' gdt (sel / 8)) in
  seg KERNEL_CS = mk_segment 0 0xffffffff (Z.lor ACC_CODE_R ACC_P) 0xc /\ seg KERNEL_DS = mk_segment 0 0xffffffff (Z.lor ACC_DATA_W ACC_P) 0xc /\
  seg USER_CS = mk_segment 0 0xffffffff (Z.lor (Z.lor ACC_PL_U ACC_CODE_R) ACC_P) 0xc /\
  seg USER_DS = mk_segment 0 0xffffffff (Z.lor (Z.lor ACC_PL_U ACC_DATA_W) ACC_P) 0xc /\
  seg BASE_TSS = mk_segment tss (sizeof_tss - 1) (Z.lor ACC_TSS ACC_P) 0 /\
  forall i, 0 <= i < HANDLER_ENTRIES -> let g := gate_of (load_entry m' idt i) in
    seg (gate_selector g) = mk_segment (trap_tss + sizeof_tss * i) (sizeof_tss - 1) (Z.lor ACC_TSS ACC_P) 0 /\
    present (gate_access g) = true /\ Z.land (gate_access g) 0x1f = ACC_TASK_GATE /\ (dpl (gate_access g) = if i =? 3 then 3 else 0).
Proof.
  intros H1 H2 H3 m'.
  destruct (setup_gdt_entries m gdt tss trap_tss) as (E2 & E3 & E8 & E9 & E1 & E10); [lia..|].
  assert (forall j, 0 <= j < 42 -> load_entry m' gdt j = load_entry (setup_gdt m gdt tss trap_tss) gdt j) as Hg.
  { intros j Hj. unfold m', cpu_tables. cbv zeta. rewrite (within_entry _ _ _ _ _ _ (setup_tss_within _ tss fst_top pg)) by (unfold gdt; lia).
    apply setup_idt_within; unfold gdt, idt, IDT_ENTRIES; lia. }
  assert (forall i, 0 <= i < HANDLER_ENTRIES -> load_entry m' idt i = trap_gate i) as Hi.
  { intros i Hi. unfold m', cpu_tables. cbv zeta. rewrite (within_entry _ _ _ _ _ _ (setup_tss_within _ tss fst_top pg)) by (unfold idt, HANDLER_ENTRIES in *; lia).
    apply setup_idt_gates; [unfold idt, IDT_ENTRIES; lia|done]. }
  intros seg. unfold seg. clear seg. revert Hg Hi. generalize (load_entry m' idt), (load_entry m' gdt). clear m'. intros ie ge Hg Hi.
  change (KERNEL_CS / 8) with 2. change (KERNEL_DS / 8) with 3. change (USER_CS / 8) with 8. change (USER_DS / 8) with 9. change (BASE_TSS / 8) with 1.
  rewrite !Hg by lia. rewrite E1, E2, E3, E8, E9. unfold HANDLER_ENTRIES, sizeof_tss in H3.
  rewrite (flat_at ACC_CODE_R eq_refl), (flat_at ACC_DATA_W eq_refl), (flat_at 0x7a eq_refl), (flat_at 0x72 eq_refl). rewrite (proj2 (task_segment tss ltac:(lia))).
  split_and!; [reflexivity..|].
  intros i Hr. unfold HANDLER_ENTRIES in *. rewrite (Hi i Hr). destruct (trap_gate_read i Hr) as [_ ->]. cbn [gate_selector gate_access].
  replace ((TRAP_TSS_BASE + 8 * i) / 8) with (10 + i) by (unfold TRAP_TSS_BASE; Z.to_euclidean_division_equations; lia).
  rewrite Hg, E10 by lia. rewrite (proj2 (task_segment (trap_tss + sizeof_tss * i) ltac:(unfold sizeof_tss; lia))). split; [reflexivity|].
  clear. destruct (i =? 3); repeat split; reflexivity.
Qed.
End Tables.

Lemma cpu_init_tables_witness :
  segment_of (load_entry (cpu_tables ∅ 0x200000 0x200100 0x300000 0x400000 0x500000 (fun i => 0x600000 + i)) gdt (USER_CS / 8)) =
    mk_segment 0 0xffffffff 0xfa 0xc.
Proof.
  destruct (cpu_init_tables ∅ 0x200000 0x200100 0x300000 0x400000 0x500000 (fun i => 0x600000 + i) ltac:(lia) ltac:(lia) ltac:(unfold sizeof_tss, HANDLER_ENTRIES; lia))
    as (_ & _ & H & _).
  exact H.
Defined.
