(* ===== verification/Interrupts.v ===== *)
(** * Interrupt gates, interrupt controller and timer (kernel/time.c,
      kernel/boot/processor_structs.c)

    The gate init_IT_handler installs, as the processor reads it; the bytes
    sent to the controller and to the timer, and what they make them do. *)

From S2P Require Import Prelude Memory Cstring System Screen Info Processor.

(** ** Ports *)

(** The bytes sent to ports, the latest first. *)
Abbreviation port_log := (list (Z * Z)).
Definition out_byte (value port : Z) (l : port_log) : port_log := (u8 value, port) :: l.

(** Port 0x21 reads the mask register of the controller: once the controller
    is initialised, the byte last written there. *)
Definition mask_register (l : port_log) : Z :=
  match filter (fun x => x.2 = 0x21) l with x :: _ => x.1 | [] => 0 end.

Definition setup_pic (l : port_log) : port_log :=
  let l := out_byte 0x11 0x20 l in
  let l := out_byte 0x20 0x21 l in
  let l := out_byte 0x4 0x21 l in
  let l := out_byte 0x1 0x21 l in
  let l := out_byte 0x11 0xa0 l in
  let l := out_byte 0x28 0xa1 l in
  let l := out_byte 0x2 0xa1 l in
  let l := out_byte 0x1 0xa1 l in
  let l := out_byte 0x20 0x20 l in
  let l := out_byte 0x20 0xa0 l in
  let l := out_byte 0xff 0x21 l in
  out_byte 0xff 0xa1 l.

(** [bool_tab] is a [uint8_t]. *)
Definition mask_IRQ (num_IRQ : Z) (mask : bool) (l : port_log) : port_log :=
  let bool_tab := mask_register l in
  let bool_tab :=
    if negb mask then Z.land bool_tab (u8 (Z.lnot (Z.shiftl 1 num_IRQ)))
    else u8 (Z.lor bool_tab (Z.shiftl 1 num_IRQ)) in
  out_byte bool_tab 0x21 l.

(** [QUARTZ / frequency] is a divide error when the frequency is 0. *)
Definition set_clock_frequency (frequency : Z) (c : clock) (l : port_log) : result (clock * port_log) :=
  if frequency =? 0 then Err Faulted else
  let ticks := QUARTZ / frequency in
  let c := mk_clock ticks frequency (hours c) (minutes c) (seconds c) in
  let poids_faible := u8 (Z.land ticks 0xFF) in
  let poids_fort := u8 (Z.shiftr (Z.land ticks 0xFF00) 8) in
  let l := out_byte 0x34 0x43 l in
  let l := out_byte poids_faible 0x40 l in
  Ok (c, out_byte poids_fort 0x40 l).

(** What is stored at [quartz] and at [ticks]. *)
Definition clock_settings (c : clock) : Z * Z := (QUARTZ, clock_ticks c).

Definition init_IT_handler (num_IT handler : Z) (software_interrupt : bool) (m : mem) : mem :=
  let start := 0x1000 + 8 * num_IT in
  let gate := if software_interrupt then 0xEE00 else 0x8E00 in
  let m := store32 m start (Z.lor (Z.shiftl KERNEL_CS 16) (Z.land handler 0xFFFF)) in
  store32 m (start + 4) (Z.lor (Z.land handler 0xFFFF0000) gate).

(** The whole of cpu_init. *)
Definition cpu_init (tss trap_tss trap_stack_top first_stack_top pgdir : Z) (handlers : Z -> Z) (s : mem * port_log) : mem * port_log :=
  (cpu_tables s.1 tss trap_tss trap_stack_top first_stack_top pgdir handlers, setup_pic s.2).

(** ** What they do *)

Definition irq_masked (l : port_log) (i : Z) : bool := Z.testbit (mask_register l) i.

Lemma mask_register_out v l : mask_register (out_byte v 0x21 l) = u8 v.
Proof. done. Qed.

Lemma mask_register_range l : Forall (fun x => 0 <= x.1 < 2 ^ 8) l -> 0 <= mask_register l < 2 ^ 8.
Proof.
  intros H. unfold mask_register. destruct (filter _ l) as [|x l'] eqn:E; [lia|].
  rewrite Forall_forall in H. apply H. apply (list_elem_of_filter (fun x => x.2 = 0x21) l). rewrite E. by left.
Qed.

(** Mask_IRQ on one of the eight lines of the controller changes the mask of
    that line as asked and of no other. *)
Theorem mask_IRQ_exact n b l i : 0 <= n < 8 -> 0 <= i < 8 ->
  irq_masked (mask_IRQ n b l) i = if decide (i = n) then b else irq_masked l i.
Proof.
  intros Hn Hi. unfold irq_masked, mask_IRQ. rewrite mask_register_out.
  assert (forall v, Z.testbit (u8 v) i = Z.testbit v i) as H8 by (intros; apply Z.mod_pow2_bits_low; lia).
  rewrite H8, Z.shiftl_1_l. destruct b; cbn [negb].
  - rewrite H8, Z.lor_spec, Z.pow2_bits_eqb by lia. case_decide as E.
    + subst. by rewrite Z.eqb_refl, orb_true_r.
    + destruct (Z.eqb_spec n i); [lia|]. apply orb_false_r.
  - rewrite Z.land_spec, H8, Z.lnot_spec, Z.pow2_bits_eqb by lia. case_decide as E.
    + subst. rewrite Z.eqb_refl. apply andb_false_r.
    + destruct (Z.eqb_spec n i); [lia|]. apply andb_true_r.
Qed.
Lemma mask_IRQ_exact_witness : irq_masked (mask_IRQ 0 false (setup_pic [])) 0 = false /\ irq_masked (mask_IRQ 0 false (setup_pic [])) 1 = true.
Proof.
  split; [exact (mask_IRQ_exact 0 false (setup_pic []) 0 ltac:(lia) ltac:(lia))|exact (mask_IRQ_exact 0 false (setup_pic []) 1 ltac:(lia) ltac:(lia))].
Defined.

(** The divisor the timer was given: two bytes on port 0x40, low then high. *)
Definition timer_divisor (l : port_log) : Z :=
  match filter (fun x => x.2 = 0x40) l with x :: y :: _ => y.1 + 2 ^ 8 * x.1 | _ => 0 end.

(** For every frequency the 16-bit divisor of the timer can give, the timer
    is programmed with the largest period, in ticks of the quartz, whose
    frequency is at least the one asked, and clock_settings reports it. *)
Theorem timer_programmed f c l : 19 <= f <= QUARTZ -> exists c' l', set_clock_frequency f c l = Ok (c', l') /\
  timer_divisor l' = QUARTZ / f /\ clock_settings c' = (QUARTZ, QUARTZ / f) /\ clock_frequency c' = f /\
  timer_divisor l' * f <= QUARTZ < (timer_divisor l' + 1) * f.
Proof.
  intros Hf. unfold set_clock_frequency. destruct (Z.eqb_spec f 0); [lia|]. eexists _, _. split; [done|].
  assert (0 < QUARTZ / f < 2 ^ 16) as Hq by (unfold QUARTZ in *; split; [apply Z.div_str_pos; lia|apply Z.div_lt_upper_bound; lia]).
  assert (forall l, timer_divisor (out_byte (u8 (Z.shiftr (Z.land (QUARTZ / f) 0xFF00) 8)) 0x40 (out_byte (u8 (Z.land (QUARTZ / f) 0xFF)) 0x40 l)) = QUARTZ / f) as Hd.
  { intros l'. unfold timer_divisor, out_byte. rewrite !filter_cons, !decide_True by done. cbn [fst]. change 0xFF00 with (Z.shiftl (Z.ones 8) 8). change 0xFF with (Z.ones 8).
    rewrite land_mid, land_low, Z.shiftr_div_pow2 by lia. unfold uwrap. revert Hq. generalize (QUARTZ / f). intros q Hq.  fields. }
  rewrite Hd. split_and!; try done; [|]; pose proof (Z.div_mod QUARTZ f ltac:(lia)); pose proof (Z.mod_pos_bound QUARTZ f ltac:(lia)); nia.
Qed.
Lemma timer_programmed_witness : exists c' l', set_clock_frequency 200 (mk_clock 200 0 0 0 0) [] = Ok (c', l') /\ timer_divisor l' = 5965.
Proof.
  destruct (timer_programmed 200 (mk_clock 200 0 0 0 0) [] ltac:(unfold QUARTZ; lia)) as (c' & l' & E & H & _). exists c', l'. split; [exact E|exact H].
Defined.

(** Init_IT_handler makes vector n a present interrupt gate to the handler in
    the kernel's code segment, which programs may raise exactly when it is
    declared a software interrupt, and changes no other vector. *)
Theorem handler_installed n h soft m : 0 <= n < IDT_ENTRIES -> 0 <= h < 2 ^ 32 ->
  let m' := init_IT_handler n h soft m in
  let g := gate_of (load_entry m' idt n) in
  gate_offset g = h /\ gate_selector g = KERNEL_CS /\ present (gate_access g) = true /\
  Z.land (gate_access g) 0x1f = 0xe /\ dpl (gate_access g) = (if soft then 3 else 0) /\
  forall i, i <> n -> load_entry m' idt i = load_entry m idt i.
Proof.
  intros Hn Hh m' g.
  set (e := (Z.lor (Z.shiftl KERNEL_CS 16) (Z.land h 0xFFFF), Z.lor (Z.land h 0xFFFF0000) (if soft then 0xEE00 else 0x8E00))).
  assert (e = (2 ^ 16 * KERNEL_CS + field h 0 16, 2 ^ 16 * field h 16 16 + 2 ^ 8 * (if soft then 0xEE else 0x8E))) as Ee.
  { unfold e. change 0xFFFF with (Z.ones 16). change 0xFFFF0000 with (Z.shiftl (Z.ones 16) 16).
    rewrite land_mid, land_low, (shiftl_mul KERNEL_CS) by lia. pose proof (field_range h 0 16 ltac:(lia)).
    rewrite (lor_low_add 16 (2 ^ 16 * KERNEL_CS)) by (done || lia).
    rewrite (lor_low_add 16 (2 ^ 16 * field h 16 16)) by (lia || destruct soft; lia || (rewrite Z.mul_comm; apply Z.mod_mul; lia)). by destruct soft. }
  assert (word_pair e) as Hw.
  { rewrite Ee. pose proof (field_range h 0 16 ltac:(lia)). pose proof (field_range h 16 16 ltac:(lia)).
    unfold word_pair, KERNEL_CS. cbn [fst snd]. destruct soft; lia. }
  assert (m' = store_entry m idt n e) as Em by done.
  assert (g = mk_gate h KERNEL_CS (if soft then 0xEE else 0x8E)) as Eg.
  { unfold g. rewrite Em, load_store_entry, decide_True, Ee by done. unfold gate_of. cbn [fst snd]. unfold KERNEL_CS.
    f_equal; destruct soft; fields. }
  clearbody g. subst g. cbn [gate_offset gate_selector gate_access]. split_and!; [done|done|by destruct soft..|].
  intros i Hi. rewrite Em, load_store_entry, decide_False by done. done.
Qed.
Lemma handler_installed_witness : gate_of (load_entry (init_IT_handler 49 0x123456 true ∅) idt 49) = mk_gate 0x123456 KERNEL_CS 0xEE.
Proof.
  destruct (handler_installed 49 0x123456 true ∅ ltac:(unfold IDT_ENTRIES; lia) ltac:(lia)) as (H1 & H2 & _).
  destruct (gate_of _) as [o s a] eqn:E. cbn in H1, H2. subst. f_equal. vm_compute in E. congruence.
Defined.
