(* ===== verification/EarlyMm.v ===== *)
(** * The first page tables (kernel/boot/early_mm.c)

    Before paging starts the boot code checks the sections of the kernel and
    maps them one after the other at their own addresses.  The result is a
    directory on which [Mmu] builds, in which the first page is not mapped and
    the code is read only. *)

From S2P Require Import Prelude Memory Cstring Mmu.

(** The symbols of the linker script. *)
Record layout := mk_layout {
  start_sym : Z;
  text_start : Z; text_end : Z;
  multiboot_start : Z; multiboot_end : Z;
  bootstrap_stack_start : Z; bootstrap_stack_end : Z;
  rodata_start : Z; rodata_end : Z;
  data_start : Z; data_end : Z;
  bss_start : Z; bss_end : Z;
  end_sym : Z;
  mem_end : Z;
  pgdir_sym : Z;
  pgtab : Z
}.

Definition PAGE_DIR_FLAGS : Z := 0x00000003.

(** A failed assertion stops the machine. *)
Definition ASSERT_ALIGNED (symbol : Z) : bool := page_base symbol =? symbol.
Definition ASSERT_CONSISTENT (first last : Z) : bool := negb (last - first <? 4096).

(** The test of .bss is that of .data again. *)
Definition early_mm_check (y : layout) : bool :=
  ASSERT_ALIGNED (start_sym y)
  && ASSERT_ALIGNED (text_start y) && ASSERT_ALIGNED (text_end y) && ASSERT_CONSISTENT (text_start y) (text_end y)
  && ASSERT_ALIGNED (multiboot_start y) && ASSERT_ALIGNED (multiboot_end y) && ASSERT_CONSISTENT (multiboot_start y) (multiboot_end y)
  && ASSERT_ALIGNED (bootstrap_stack_start y) && ASSERT_ALIGNED (bootstrap_stack_end y) && ASSERT_CONSISTENT (bootstrap_stack_start y) (bootstrap_stack_end y)
  && ASSERT_ALIGNED (rodata_start y) && ASSERT_ALIGNED (rodata_end y) && ASSERT_CONSISTENT (rodata_start y) (rodata_end y)
  && ASSERT_ALIGNED (data_start y) && ASSERT_ALIGNED (data_end y) && ASSERT_CONSISTENT (data_start y) (data_end y)
  && ASSERT_ALIGNED (data_start y) && ASSERT_ALIGNED (data_end y) && ASSERT_CONSISTENT (data_start y) (data_end y)
  && ASSERT_CONSISTENT (start_sym y) (end_sym y).

(** [for (i = first; i < last; i++) array[i] = value(i)] *)
Definition fill_words (array first last : Z) (value : Z -> Z) (m : mem) : mem :=
  fold_left (fun m i => store32 m (array + 4 * i) (value i)) (seqZ first (last - first)) m.

Definition early_mm_fill_pgdir (pagedir pagetab count : Z) (m : mem) : mem :=
  let m := fill_words pagedir 0 count (fun i => Z.lor (u32 (pagetab + i * 0x1000)) PAGE_DIR_FLAGS) m in
  fill_words pagedir count 1024 (fun _ => 0) m.

(** [fuel] bounds the passes. *)
Fixpoint map_loop (fuel : nat) (pdir address last flags : Z) (m : mem) : result mem :=
  match fuel with
  | O => Err Diverged
  | S fuel' =>
      if address <? last then
        let ptable := page_base (load32 m (pdir + 4 * pd_index address)) in
        map_loop fuel' pdir (u32 (address + 4096)) last flags (store32 m (ptable + 4 * pt_index address) (Z.lor (page_base address) flags))
      else Ok m
  end.
Definition early_mm_map_region (pdir first last flags : Z) (m : mem) : result mem :=
  map_loop (S (Z.to_nat ((last - first) / 4096 + 1))) pdir first last flags m.

(** The calls of early_mm_map_region in early_mm_map_kernel, in their order. *)
Definition regions (y : layout) : list (Z * Z * Z) :=
  [ (4096, start_sym y, PAGE_TABLE_RW);
    (start_sym y, text_start y, PAGE_TABLE_RW);
    (text_start y, text_end y, PAGE_TABLE_RO);
    (multiboot_start y, multiboot_end y, PAGE_TABLE_RO);
    (rodata_start y, rodata_end y, PAGE_TABLE_RO);
    (bootstrap_stack_start y, bootstrap_stack_end y, PAGE_TABLE_RW);
    (data_start y, data_end y, PAGE_TABLE_RW);
    (bss_start y, bss_end y, PAGE_TABLE_RW);
    (end_sym y, mem_end y, PAGE_TABLE_RW) ].

Definition map_regions (pdir : Z) (l : list (Z * Z * Z)) (m : mem) : result mem :=
  fold_left (fun r x => rbind r (early_mm_map_region pdir x.1.1 x.1.2 x.2)) l (Ok m).

Definition early_mm_map_kernel (y : layout) (m : mem) : result mem :=
  let m := memset m (pgtab y) 0 (4096 * 64) in
  let m := early_mm_fill_pgdir (pgdir_sym y) (pgtab y) 64 m in
  let m := store32 m (pgtab y) 0 in
  map_regions (pgdir_sym y) (regions y) m.

(** ** Loops *)

Section Words.
Implicit Types m : mem.

Lemma fill_words_load array first last value m : first <= last ->
  (forall i, first <= i < last -> load32 (fill_words array first last value m) (array + 4 * i) = u32 (value i)) /\
  forall b, b + 4 <= array + 4 * first \/ array + 4 * last <= b -> load32 (fill_words array first last value m) b = load32 m b.
Proof.
  intros Hl. unfold fill_words. remember (Z.to_nat (last - first)) as n eqn:En. revert first m Hl En.
  induction n as [|n IH]; intros first m Hl En.
  - assert (last = first) as -> by lia. rewrite Z.sub_diag. simpl. split; [intros; lia|done].
  - rewrite seqZ_cons by lia. cbn [fold_left]. replace (Z.pred (last - first)) with (last - Z.succ first) by lia.
    destruct (IH (Z.succ first) (store32 m (array + 4 * first) (value first)) ltac:(lia) ltac:(lia)) as [H1 H2]. split.
    + intros i Hi. destruct (decide (i = first)) as [->|]; [|apply H1; lia]. rewrite H2 by lia. apply load32_store32_eq.
    + intros b Hb. rewrite H2 by lia. apply load32_store32_ne. lia.
Qed.
End Words.

(** ** What the tables say *)

(** The page [q] is one of those a call maps. *)
Definition covers (x : Z * Z * Z) (q : Z) : bool :=
  (x.1.1 / 4096 <=? q) && (x.1.1 + 4096 * (q - x.1.1 / 4096) <? x.1.2).

(** The flags of the last call that maps the page, none when no call does. *)
Definition flags_of (l : list (Z * Z * Z)) (q : Z) (acc : option Z) : option Z :=
  fold_left (fun o x => if covers x q then Some x.2 else o) l acc.

Definition writable (m : mem) (pd va : Z) : bool :=
  Z.testbit (load32 m (page_base (load32 m (pd + 4 * pd_index va)) + 4 * pt_index va)) 1.

Section Tables.
Context (pd pt : Z).
Hypothesis Hpd : frame pd.
Hypothesis Hpt : frame pt.
Hypothesis Hptm : pt + 4096 * 64 <= MEMORY_START.
Hypothesis Hdis : pd + 4096 <= pt \/ pt + 4096 * 64 <= pd.
Implicit Types m : mem.

Definition directory m : Prop :=
  (forall i, 0 <= i < 64 -> load32 m (pd + 4 * i) = pt + 4096 * i + 3) /\ (forall i, 64 <= i < 1024 -> load32 m (pd + 4 * i) = 0).
Definition pte m (q : Z) : Z := load32 m (pt + 4 * q).

(** The entry of an address below 256 MB. *)
Lemma entry_address m va : directory m -> 0 <= va < 2 ^ 28 ->
  page_base (load32 m (pd + 4 * pd_index va)) + 4 * pt_index va = pt + 4 * (va / 4096).
Proof.
  intros [Hd _] Hva. rewrite pd_index_eq, pt_index_eq. unfold frame, MEMORY_START in *.
  rewrite Hd by (Z.to_euclidean_division_equations; lia).
  rewrite page_base_entry by (Z.to_euclidean_division_equations; lia). Z.to_euclidean_division_equations; lia.
Qed.

Lemma store_directory m q v : directory m -> 0 <= q < 65536 -> directory (store32 m (pt + 4 * q) v).
Proof. intros [H1 H2] Hq. split; intros i Hi; rewrite load32_store32_ne by lia; auto. Qed.

Lemma pte_store m q v r : 0 <= v < 2 ^ 32 -> pte (store32 m (pt + 4 * q) v) r = if decide (r = q) then v else pte m r.
Proof.
  intros Hv. unfold pte. case_decide as E; [subst; rewrite load32_store32_eq; by apply uwrap_small|]. by apply load32_store32_ne; lia.
Qed.

Lemma map_loop_spec n address last flags m : 0 <= address -> last <= 2 ^ 28 -> 0 <= flags < 4096 -> last <= address + 4096 * Z.of_nat n -> directory m ->
  exists m', map_loop (S n) pd address last flags m = Ok m' /\ directory m' /\
    forall q, 0 <= q < 65536 -> pte m' q = if covers (address, last, flags) q then 4096 * q + flags else pte m q.
Proof.
  intros Ha Hl Hf. revert address m Ha. induction n as [|n IH]; intros address m Ha Hn Hd.
  - exists m. cbn [map_loop]. destruct (Z.ltb_spec address last); [lia|]. split_and!; try done. intros q Hq. unfold covers. simpl.
    destruct (Z.leb_spec (address / 4096) q); simpl; [|done]. destruct (Z.ltb_spec (address + 4096 * (q - address / 4096)) last); [lia|done].
  - cbn [map_loop]. destruct (Z.ltb_spec address last) as [Hlt|Hge].
    + rewrite entry_address by (done || lia). set (q0 := address / 4096).
      assert (0 <= q0 < 65536) as Hq0 by (unfold q0; Z.to_euclidean_division_equations; lia).
      assert (Z.lor (page_base address) flags = 4096 * q0 + flags) as ->.
      { rewrite page_base_eq by lia. rewrite (lor_low_add 12) by (done || lia || apply Z.mod_mul; lia). unfold q0. lia. }
      rewrite (uwrap_small 32) by lia.
      destruct (IH (address + 4096) (store32 m (pt + 4 * q0) (4096 * q0 + flags))) as (m' & E & Hd' & Hp); [lia|lia|by apply store_directory|].
      exists m'. split_and!; [exact E|done|]. intros q Hq. rewrite Hp by done. rewrite pte_store by lia. unfold covers. simpl. fold q0.
      replace ((address + 4096) / 4096) with (q0 + 1) by (unfold q0; Z.to_euclidean_division_equations; lia).
      destruct (decide (q = q0)) as [->|Hne].
      * destruct (Z.leb_spec (q0 + 1) q0); [lia|]. destruct (Z.leb_spec q0 q0); [|lia]. simpl.
        destruct (Z.ltb_spec (address + 4096 * (q0 - q0)) last); [done|lia].
      * replace (address + 4096 + 4096 * (q - (q0 + 1))) with (address + 4096 * (q - q0)) by lia.
        destruct (Z.leb_spec (q0 + 1) q); destruct (Z.leb_spec q0 q); lia || done.
    + exists m. split_and!; try done. intros q Hq. unfold covers. simpl.
      destruct (Z.leb_spec (address / 4096) q); simpl; [|done]. destruct (Z.ltb_spec (address + 4096 * (q - address / 4096)) last); [lia|done].
Qed.

Lemma map_regions_spec l m : Forall (fun x => 0 <= x.1.1 /\ x.1.2 <= 2 ^ 28 /\ 0 <= x.2 < 4096) l -> directory m ->
  exists m', map_regions pd l m = Ok m' /\ directory m' /\
    forall q o, 0 <= q < 65536 -> pte m q = from_option (fun f => 4096 * q + f) 0 o ->
      pte m' q = from_option (fun f => 4096 * q + f) 0 (flags_of l q o).
Proof.
  intros Hl. unfold map_regions. revert m. induction l as [|[[a b] f] l IH]; intros m Hd; [by exists m|].
  apply Forall_cons in Hl as [(Ha & Hb & Hf) Hl]. simpl in Ha, Hb, Hf. cbn [fold_left fst snd].
  destruct (map_loop_spec (Z.to_nat ((b - a) / 4096 + 1)) a b f m) as (m1 & E & Hd1 & Hp1); try done; [Z.to_euclidean_division_equations; lia|].
  unfold early_mm_map_region. cbn [rbind]. rewrite E. destruct (IH Hl m1 Hd1) as (m' & E' & Hd' & Hp). exists m'. split_and!; [exact E'|done|].
  intros q o Hq Ho. unfold flags_of. cbn [fold_left]. apply (Hp q (if covers (a, b, f) q then Some f else o) Hq).
  rewrite Hp1 by done. by destruct (covers (a, b, f) q).
Qed.

(** The tables cleared, the directory filled. *)
Lemma early_tables m : let m1 := store32 (early_mm_fill_pgdir pd pt 64 (memset m pt 0 (4096 * 64))) pt 0 in
  directory m1 /\ forall q, 0 <= q < 65536 -> pte m1 q = 0.
Proof.
  pose proof (memset_filled m pt 0 (4096 * 64) ltac:(lia)) as HM. revert HM. generalize (memset m pt 0 (4096 * 64)). intros m0 HM m1. unfold frame, MEMORY_START in *.
  unfold m1, early_mm_fill_pgdir. set (f := fun i => Z.lor _ _).
  destruct (fill_words_load pd 0 64 f m0 ltac:(lia)) as [A1 A2].
  destruct (fill_words_load pd 64 1024 (fun _ => 0) (fill_words pd 0 64 f m0) ltac:(lia)) as [B1 B2].
  split; [split|].
  - intros i Hi. rewrite load32_store32_ne by lia. rewrite B2, A1 by lia. unfold f.
    rewrite (uwrap_small 32 (pt + i * 0x1000)), (lor_low_add 12), uwrap_small by (done || unfold PAGE_DIR_FLAGS; Z.to_euclidean_division_equations; lia).
    unfold PAGE_DIR_FLAGS. lia.
  - intros i Hi. rewrite load32_store32_ne by lia. by rewrite B1.
  - intros q Hq. unfold pte. destruct (decide (q = 0)) as [->|]; [rewrite Z.mul_0_r, Z.add_0_r; apply load32_store32_eq|].
    rewrite load32_store32_ne, B2, A2 by lia. unfold load32, load16. rewrite !HM, !decide_True by lia. done.
Qed.

Lemma directory_boot m : pd < MEMORY_START -> directory m -> boot_directory pd m.
Proof.
  intros Hlow [H1 H2]. unfold frame, MEMORY_START in *.
  assert (forall i, 0 <= i < 1024 -> word m pd i <> 0 -> 0 <= i < 64 /\ word m pd i = pt + 4096 * i + 3 /\ table_of m pd i = pt + 4096 * i) as HT.
  { intros i Hi Hw. unfold table_of, word in *. destruct (Z.lt_ge_cases i 64); [|by rewrite H2 in Hw by lia].
    rewrite H1 by lia. split_and!; [lia..|]. apply page_base_entry; Z.to_euclidean_division_equations; lia. }
  split_and!; try (unfold frame; done || lia).
  - intros i Hi Hw. destruct (HT i Hi Hw) as (Hi' & E & ->). rewrite E. unfold frame.
    split; [rewrite testbit0_add by (Z.to_euclidean_division_equations; lia); done|]. unfold MEMORY_START. split_and!; Z.to_euclidean_division_equations; lia.
  - intros i j Hi Hj Hne Hwi Hwj. destruct (HT i Hi Hwi) as (_ & _ & ->), (HT j Hj Hwj) as (_ & _ & ->). lia.
Qed.

(** The processor and the entries. *)
Lemma directory_translate m va : directory m -> 0 <= va < 2 ^ 32 ->
  translate m pd va = if va <? 2 ^ 28 then (let e := pte m (va / 4096) in if Z.testbit e 0 then Some (page_base e + va mod 4096) else None) else None.
Proof.
  intros Hd Hva. unfold translate. destruct (Z.ltb_spec va (2 ^ 28)).
  - pose proof (entry_address m va Hd ltac:(lia)) as HE. destruct Hd as [H1 _].
    assert (0 <= pd_index va < 64) by (rewrite pd_index_eq; Z.to_euclidean_division_equations; lia).
    rewrite HE, (H1 (pd_index va)), land_fff by done. unfold frame in *.
    rewrite testbit0_add by (Z.to_euclidean_division_equations; lia). done.
  - destruct Hd as [_ H2]. rewrite H2; [done|]. rewrite pd_index_eq. Z.to_euclidean_division_equations; lia.
Qed.
End Tables.

(** ** The kernel's map *)

(** The sections follow each other, on page boundaries, and the tables are in
    the part of the kernel that is neither code nor data. *)
Record layout_ok (y : layout) : Prop := {
  lo_order : 4096 <= start_sym y <= text_start y /\ text_start y <= text_end y <= multiboot_start y /\
    multiboot_start y <= multiboot_end y <= bootstrap_stack_start y /\ bootstrap_stack_start y <= bootstrap_stack_end y <= rodata_start y /\
    rodata_start y <= rodata_end y <= data_start y /\ data_start y <= data_end y <= bss_start y /\
    bss_start y <= bss_end y <= end_sym y /\ end_sym y <= mem_end y /\ mem_end y = 2 ^ 28;
  lo_aligned : Forall (fun x => x.1.1 mod 4096 = 0 /\ x.1.2 mod 4096 = 0) (regions y);
  lo_pgdir : frame (pgdir_sym y) /\ pgdir_sym y < MEMORY_START;
  lo_pgtab : frame (pgtab y) /\ pgtab y + 4096 * 64 <= MEMORY_START;
  lo_tables : pgdir_sym y + 4096 <= pgtab y \/ pgtab y + 4096 * 64 <= pgdir_sym y
}.

Definition between (a b va : Z) : bool := (a <=? va) && (va <? b).

(** How an address is mapped: code and constants read only, the first page and
    what is above 256 MB not at all. *)
Definition kernel_page (y : layout) (va : Z) : option bool :=
  if between (text_start y) (text_end y) va || between (multiboot_start y) (multiboot_end y) va || between (rodata_start y) (rodata_end y) va then Some false
  else if between 4096 (text_start y) va || between (bootstrap_stack_start y) (bootstrap_stack_end y) va || between (data_start y) (data_end y) va
       || between (bss_start y) (bss_end y) va || between (end_sym y) (mem_end y) va then Some true
  else None.

Lemma covers_aligned a b f va : a mod 4096 = 0 -> b mod 4096 = 0 -> covers (a, b, f) (va / 4096) = between a b va.
Proof.
  intros Ha Hb. unfold covers, between. simpl. apply eq_true_iff_eq. rewrite !andb_true_iff, !Z.leb_le, !Z.ltb_lt.
  split; Z.to_euclidean_division_equations; lia.
Qed.

Lemma flags_kernel_page y va : layout_ok y ->
  flags_of (regions y) (va / 4096) None = (fun w : bool => if w then PAGE_TABLE_RW else PAGE_TABLE_RO) <$> kernel_page y va.
Proof.
  intros [HO HA _ _ _]. unfold flags_of, regions in *. rewrite !Forall_cons in HA. simpl in HA.
  destruct HA as ([? ?] & [? ?] & [? ?] & [? ?] & [? ?] & [? ?] & [? ?] & [? ?] & [? ?] & _).
  cbn [fold_left]. rewrite !covers_aligned by done. cbn [snd]. unfold kernel_page.
  assert (forall a b, reflect (a <= va < b) (between a b va)) as HR.
  { intros a b. apply iff_reflect. unfold between. rewrite andb_true_iff, Z.leb_le, Z.ltb_lt. done. }
  repeat match goal with |- context [between ?a ?b va] => destruct (HR a b) end; try done; lia.
Qed.


(** The symbols of the linker script for small sections. *)
Definition demo_layout : layout :=
  mk_layout 0x100000 0x143000 0x160000 0x160000 0x161000 0x161000 0x165000 0x165000 0x180000 0x180000 0x190000 0x190000 0x200000 0x200000 0x10000000 0x101000 0x102000.
Lemma demo_layout_ok : layout_ok demo_layout.
Proof. split; simpl; [lia|repeat constructor|unfold frame, MEMORY_START; repeat split; lia|unfold frame, MEMORY_START; repeat split; lia|lia]. Qed.

