(* ===== verification/Kbd.v ===== *)
(** * The keyboard driver (kernel/kbd-linux/scancode.c, keyboard.c, kernel/keyboard-glue.c)

    A scancode is translated to a keycode, the keycode and the modifiers give a
    symbol, and the symbol a handler, which sends characters to the kernel.  The
    strings given to keyboard_data are collected in [data], oldest first. *)

From S2P Require Import Prelude Keymap.

Module Kbd.
Local Open Scope st_scope.

(** ** Constants *)

Definition SC_LIM : Z := 89.
Definition E1_PAUSE : Z := 119.
Definition NR_SHIFT : Z := 9.
Definition KG_SHIFT : Z := 0.
Definition KG_CAPSSHIFT : Z := 8.
Definition KT_LATIN : Z := 0.
Definition KT_SPEC : Z := 2.
Definition KT_SHIFT : Z := 7.
Definition KT_LETTER : Z := 11.
Definition KT_SLOCK : Z := 12.
Definition KTYP (x : Z) : Z := Z.shiftr x 8.
Definition KVAL (x : Z) : Z := Z.land x 0xff.
Definition U (x : Z) : Z := Z.lxor x 0xf000.
Definition VC_NUMLOCK : Z := 1.
Definition VC_CAPSLOCK : Z := 2.
Definition LED_SHOW_FLAGS : Z := 0.
Definition LED_SHOW_IOCTL : Z := 1.
Definition LED_SHOW_MEM : Z := 2.
Definition VC_XLATE : Z := 0.
Definition VC_MEDIUMRAW : Z := 1.
Definition VC_RAW : Z := 2.
Definition VC_UNICODE : Z := 3.
Definition VC_APPLIC : Z := 0.
Definition VC_CKMODE : Z := 1.
Definition VC_REPEAT : Z := 2.
Definition VC_CRLF : Z := 3.
Definition VC_META : Z := 4.
Definition MAX_NR_CONSOLES : Z := 63.
Definition KBD_DEFMODE : Z := Z.lor (Z.shiftl 1 VC_REPEAT) (Z.shiftl 1 VC_META).
Definition TYPES_ALLOWED_IN_RAW_MODE : Z := Z.lor (Z.shiftl 1 KT_SPEC) (Z.shiftl 1 KT_SHIFT).
Definition SPECIALS_ALLOWED_IN_RAW_MODE : Z := Z.shiftl 1 15.

(** ** State *)

(** The settings of a console; default_ledflagstate is written and never read. *)
Record kbd_struct := mk_kbd { lockstate : Z; slockstate : Z; ledmode : Z; ledflagstate : Z; kbdmode : Z; modeflags : Z }.
Definition set_lockstate (x : Z) (k : kbd_struct) : kbd_struct := mk_kbd x (slockstate k) (ledmode k) (ledflagstate k) (kbdmode k) (modeflags k).
Definition set_slockstate (x : Z) (k : kbd_struct) : kbd_struct := mk_kbd (lockstate k) x (ledmode k) (ledflagstate k) (kbdmode k) (modeflags k).
Definition set_ledmode (x : Z) (k : kbd_struct) : kbd_struct := mk_kbd (lockstate k) (slockstate k) x (ledflagstate k) (kbdmode k) (modeflags k).
Definition set_ledflagstate (x : Z) (k : kbd_struct) : kbd_struct := mk_kbd (lockstate k) (slockstate k) (ledmode k) x (kbdmode k) (modeflags k).
Definition set_kbdmode (x : Z) (k : kbd_struct) : kbd_struct := mk_kbd (lockstate k) (slockstate k) (ledmode k) (ledflagstate k) x (modeflags k).
Definition set_modeflags (x : Z) (k : kbd_struct) : kbd_struct := mk_kbd (lockstate k) (slockstate k) (ledmode k) (ledflagstate k) (kbdmode k) x.

(** The static variables of the driver.  fg_console is 0: of the table of
    consoles only the first entry, [kbd], is used.  [key_down] is the bitmap of
    256 bits as one number; [tty] tells that the pointer is not null, [stopped]
    is the field of console_tty. *)
Record driver := mk_driver { prev_scancode : Z;
  high_keys : list Z;
  e0_keys : list Z;
  k_down : list Z;
  key_down : Z;
  dead_key_next : Z;
  shift_state : Z;
  npadch : Z;
  diacr : Z;
  rep : bool;
  kbd : kbd_struct;
  tty : bool;
  stopped : bool;
  ledstate : Z;
  ledioctl : Z;
  ledptrs : list (option (Z * Z));
  tasklet_enabled : bool;
  initialized : bool;
  data : list (list Z) }.
Definition set_prev_scancode (x : Z) (d : driver) : driver := mk_driver x (high_keys d) (e0_keys d) (k_down d) (key_down d) (dead_key_next d) (shift_state d) (npadch d) (diacr d) (rep d) (kbd d) (tty d) (stopped d) (ledstate d) (ledioctl d) (ledptrs d) (tasklet_enabled d) (initialized d) (data d).
Definition set_high_keys (x : list Z) (d : driver) : driver := mk_driver (prev_scancode d) x (e0_keys d) (k_down d) (key_down d) (dead_key_next d) (shift_state d) (npadch d) (diacr d) (rep d) (kbd d) (tty d) (stopped d) (ledstate d) (ledioctl d) (ledptrs d) (tasklet_enabled d) (initialized d) (data d).
Definition set_e0_keys (x : list Z) (d : driver) : driver := mk_driver (prev_scancode d) (high_keys d) x (k_down d) (key_down d) (dead_key_next d) (shift_state d) (npadch d) (diacr d) (rep d) (kbd d) (tty d) (stopped d) (ledstate d) (ledioctl d) (ledptrs d) (tasklet_enabled d) (initialized d) (data d).
Definition set_k_down (x : list Z) (d : driver) : driver := mk_driver (prev_scancode d) (high_keys d) (e0_keys d) x (key_down d) (dead_key_next d) (shift_state d) (npadch d) (diacr d) (rep d) (kbd d) (tty d) (stopped d) (ledstate d) (ledioctl d) (ledptrs d) (tasklet_enabled d) (initialized d) (data d).
Definition set_key_down (x : Z) (d : driver) : driver := mk_driver (prev_scancode d) (high_keys d) (e0_keys d) (k_down d) x (dead_key_next d) (shift_state d) (npadch d) (diacr d) (rep d) (kbd d) (tty d) (stopped d) (ledstate d) (ledioctl d) (ledptrs d) (tasklet_enabled d) (initialized d) (data d).
Definition set_dead_key_next (x : Z) (d : driver) : driver := mk_driver (prev_scancode d) (high_keys d) (e0_keys d) (k_down d) (key_down d) x (shift_state d) (npadch d) (diacr d) (rep d) (kbd d) (tty d) (stopped d) (ledstate d) (ledioctl d) (ledptrs d) (tasklet_enabled d) (initialized d) (data d).
Definition set_shift_state (x : Z) (d : driver) : driver := mk_driver (prev_scancode d) (high_keys d) (e0_keys d) (k_down d) (key_down d) (dead_key_next d) x (npadch d) (diacr d) (rep d) (kbd d) (tty d) (stopped d) (ledstate d) (ledioctl d) (ledptrs d) (tasklet_enabled d) (initialized d) (data d).
Definition set_npadch (x : Z) (d : driver) : driver := mk_driver (prev_scancode d) (high_keys d) (e0_keys d) (k_down d) (key_down d) (dead_key_next d) (shift_state d) x (diacr d) (rep d) (kbd d) (tty d) (stopped d) (ledstate d) (ledioctl d) (ledptrs d) (tasklet_enabled d) (initialized d) (data d).
Definition set_diacr (x : Z) (d : driver) : driver := mk_driver (prev_scancode d) (high_keys d) (e0_keys d) (k_down d) (key_down d) (dead_key_next d) (shift_state d) (npadch d) x (rep d) (kbd d) (tty d) (stopped d) (ledstate d) (ledioctl d) (ledptrs d) (tasklet_enabled d) (initialized d) (data d).
Definition set_rep (x : bool) (d : driver) : driver := mk_driver (prev_scancode d) (high_keys d) (e0_keys d) (k_down d) (key_down d) (dead_key_next d) (shift_state d) (npadch d) (diacr d) x (kbd d) (tty d) (stopped d) (ledstate d) (ledioctl d) (ledptrs d) (tasklet_enabled d) (initialized d) (data d).
Definition set_kbd (x : kbd_struct) (d : driver) : driver := mk_driver (prev_scancode d) (high_keys d) (e0_keys d) (k_down d) (key_down d) (dead_key_next d) (shift_state d) (npadch d) (diacr d) (rep d) x (tty d) (stopped d) (ledstate d) (ledioctl d) (ledptrs d) (tasklet_enabled d) (initialized d) (data d).
Definition set_tty (x : bool) (d : driver) : driver := mk_driver (prev_scancode d) (high_keys d) (e0_keys d) (k_down d) (key_down d) (dead_key_next d) (shift_state d) (npadch d) (diacr d) (rep d) (kbd d) x (stopped d) (ledstate d) (ledioctl d) (ledptrs d) (tasklet_enabled d) (initialized d) (data d).
Definition set_stopped (x : bool) (d : driver) : driver := mk_driver (prev_scancode d) (high_keys d) (e0_keys d) (k_down d) (key_down d) (dead_key_next d) (shift_state d) (npadch d) (diacr d) (rep d) (kbd d) (tty d) x (ledstate d) (ledioctl d) (ledptrs d) (tasklet_enabled d) (initialized d) (data d).
Definition set_ledstate (x : Z) (d : driver) : driver := mk_driver (prev_scancode d) (high_keys d) (e0_keys d) (k_down d) (key_down d) (dead_key_next d) (shift_state d) (npadch d) (diacr d) (rep d) (kbd d) (tty d) (stopped d) x (ledioctl d) (ledptrs d) (tasklet_enabled d) (initialized d) (data d).
Definition set_ledioctl (x : Z) (d : driver) : driver := mk_driver (prev_scancode d) (high_keys d) (e0_keys d) (k_down d) (key_down d) (dead_key_next d) (shift_state d) (npadch d) (diacr d) (rep d) (kbd d) (tty d) (stopped d) (ledstate d) x (ledptrs d) (tasklet_enabled d) (initialized d) (data d).
Definition set_ledptrs (x : list (option (Z * Z))) (d : driver) : driver := mk_driver (prev_scancode d) (high_keys d) (e0_keys d) (k_down d) (key_down d) (dead_key_next d) (shift_state d) (npadch d) (diacr d) (rep d) (kbd d) (tty d) (stopped d) (ledstate d) (ledioctl d) x (tasklet_enabled d) (initialized d) (data d).
Definition set_tasklet_enabled (x : bool) (d : driver) : driver := mk_driver (prev_scancode d) (high_keys d) (e0_keys d) (k_down d) (key_down d) (dead_key_next d) (shift_state d) (npadch d) (diacr d) (rep d) (kbd d) (tty d) (stopped d) (ledstate d) (ledioctl d) (ledptrs d) x (initialized d) (data d).
Definition set_initialized (x : bool) (d : driver) : driver := mk_driver (prev_scancode d) (high_keys d) (e0_keys d) (k_down d) (key_down d) (dead_key_next d) (shift_state d) (npadch d) (diacr d) (rep d) (kbd d) (tty d) (stopped d) (ledstate d) (ledioctl d) (ledptrs d) (tasklet_enabled d) x (data d).
Definition set_data (x : list (list Z)) (d : driver) : driver := mk_driver (prev_scancode d) (high_keys d) (e0_keys d) (k_down d) (key_down d) (dead_key_next d) (shift_state d) (npadch d) (diacr d) (rep d) (kbd d) (tty d) (stopped d) (ledstate d) (ledioctl d) (ledptrs d) (tasklet_enabled d) (initialized d) x.

Abbreviation D := (ST driver).
Definition upd_kbd (f : kbd_struct -> kbd_struct) (d : driver) : driver := set_kbd (f (kbd d)) d.

(** ** Scancodes (scancode.c) *)

Definition initial_high_keys : list Z := [
   124; 125; 126; 127; 0; 0; 0;
   0; 0; 0; 0; 0; 0; 0; 0;
   0; 0; 0; 0; 0; 122; 0; 123;
   0; 0; 0; 89; 120; 0; 0; 90;
   91; 92; 93; 94;
   95; 124; 121; 0].

Definition initial_e0_keys : list Z := [
   0; 0; 0; 0; 0; 0; 0; 0;
   0; 0; 0; 0; 0; 0; 0; 0;
   0; 0; 0; 0; 0; 0; 0; 0;
   0; 0; 0; 0; 96; 97; 0; 0;
   0; 0; 0; 0; 0; 0; 0; 0;
   0; 0; 0; 0; 0; 0; 0; 0;
   0; 0; 0; 0; 0; 98; 0; 99;
   100; 0; 0; 0; 0; 113; 114; 115;
   116; 117; 0; 0; 0; 0; 101; 102;
   103; 104; 0; 105; 124; 106; 118; 107;
   108; 109; 110; 111; 0; 0; 0; 0;
   0; 0; 0; 125; 126; 127; 0; 0;
   0; 0; 0; 0; 0; 0; 0; 0;
   0; 0; 0; 0; 0; 0; 0; 112;
   0; 0; 0; 0; 0; 0; 0; 0;
   0; 0; 0; 0; 0; 0; 0; 0].

Definition at_index (l : list Z) (i : Z) : Z := nth (Z.to_nat i) l 0.

(** [-EINVAL] is -1; the arguments are unsigned. *)
Definition kbd_setkeycode (scancode keycode : Z) : D Z :=
  if (scancode <? SC_LIM) || (255 <? scancode) || (127 <? keycode) then ret (-1) else
  do! modify (fun d =>
    if scancode <? 128 then set_high_keys (<[Z.to_nat (scancode - SC_LIM) := keycode]> (high_keys d)) d
    else set_e0_keys (<[Z.to_nat (scancode - 128) := keycode]> (e0_keys d)) d) in
  ret 0.

Definition kbd_getkeycode (scancode : Z) : D Z :=
  gets (fun d =>
    if (scancode <? SC_LIM) || (255 <? scancode) then -1
    else if scancode <? 128 then at_index (high_keys d) (scancode - SC_LIM)
    else at_index (e0_keys d) (scancode - 128)).

(** The functions of keyboard.c on top of them. *)
Definition setkeycode (scancode keycode : Z) : D Z := kbd_setkeycode scancode keycode.
Definition getkeycode (scancode : Z) : D Z := kbd_getkeycode scancode.

(** [None] is the result 0; [Some keycode] is 1 with the keycode written. *)
Definition kbd_translate (scancode : Z) : D (option Z) :=
  if (scancode =? 0xe0) || (scancode =? 0xe1) then do! modify (set_prev_scancode scancode) in ret None else
  if (scancode =? 0x00) || (scancode =? 0xff) then do! modify (set_prev_scancode 0) in ret None else
  let scancode := Z.land scancode 0x7f in
  let! d := gets id in
  let prev := prev_scancode d in
  if negb (prev =? 0) then
    if negb (prev =? 0xe0) then
      if (prev =? 0xe1) && (scancode =? 0x1d) then do! modify (set_prev_scancode 0x100) in ret None
      else if (prev =? 0x100) && (scancode =? 0x45) then do! modify (set_prev_scancode 0) in ret (Some E1_PAUSE)
      else do! modify (set_prev_scancode 0) in ret None
    else
      do! modify (set_prev_scancode 0) in
      if (scancode =? 0x2a) || (scancode =? 0x36) then ret None else
      if negb (at_index (e0_keys d) scancode =? 0) then ret (Some (at_index (e0_keys d) scancode)) else ret None
  else if SC_LIM <=? scancode then
    let keycode := at_index (high_keys d) (scancode - SC_LIM) in
    if keycode =? 0 then ret None else ret (Some keycode)
  else ret (Some scancode).

(** [up_flag] is a [char]: 0200 is -128. *)
Definition UP : Z := s8 128.
Definition kbd_unexpected_up (keycode : Z) : Z := if (SC_LIM <=? keycode) || (keycode =? 85) then 0 else UP.

(** ** Output (keyboard-glue.c) *)

(** The string at a buffer, up to its zero. *)
Fixpoint cstr (l : list Z) : list Z :=
  match l with [] => [] | x :: l => if u8 x =? 0 then [] else u8 x :: cstr l end.

Definition keyboard_send_str (str : list Z) : D unit := modify (fun d => set_data (data d ++ [cstr str]) d).
Definition keyboard_send_ch (ch : Z) : D unit := keyboard_send_str [ch; 0].

Definition put_queue (ch : Z) : D unit := let! t := gets tty in if t then keyboard_send_ch ch else ret tt.
Definition puts_queue (cp : list Z) : D unit := let! t := gets tty in if t then keyboard_send_str cp else ret tt.

Definition to_utf8 (c : Z) : D unit :=
  if c <? 0x80 then put_queue c
  else if c <? 0x800 then
    do! put_queue (Z.lor 0xc0 (Z.shiftr c 6)) in
    put_queue (Z.lor 0x80 (Z.land c 0x3f))
  else
    do! put_queue (Z.lor 0xe0 (Z.shiftr c 12)) in
    do! put_queue (Z.lor 0x80 (Z.land (Z.shiftr c 6) 0x3f)) in
    put_queue (Z.lor 0x80 (Z.land c 0x3f)).

Definition applkey (key : Z) (mode : bool) : D unit := puts_queue [0x1b; (if mode then 79 else 91); key; 0].

(** ** Flags (linux/kbd_kern.h) *)

Definition vc_kbd_mode (k : kbd_struct) (flag : Z) : bool := negb (Z.land (Z.shiftr (modeflags k) flag) 1 =? 0).
Definition vc_kbd_led (k : kbd_struct) (flag : Z) : bool := negb (Z.land (Z.shiftr (ledflagstate k) flag) 1 =? 0).
Definition set_vc_kbd_led (flag : Z) (k : kbd_struct) : kbd_struct := set_ledflagstate (uwrap 3 (Z.lor (ledflagstate k) (Z.shiftl 1 flag))) k.
Definition clr_vc_kbd_led (flag : Z) (k : kbd_struct) : kbd_struct := set_ledflagstate (uwrap 3 (Z.land (ledflagstate k) (Z.lnot (Z.shiftl 1 flag)))) k.
Definition chg_vc_kbd_led (flag : Z) (k : kbd_struct) : kbd_struct := set_ledflagstate (uwrap 3 (Z.lxor (ledflagstate k) (Z.shiftl 1 flag))) k.
Definition chg_vc_kbd_lock (flag : Z) (k : kbd_struct) : kbd_struct := set_lockstate (u8 (Z.lxor (lockstate k) (Z.shiftl 1 flag))) k.
Definition chg_vc_kbd_slock (flag : Z) (k : kbd_struct) : kbd_struct := set_slockstate (u8 (Z.lxor (slockstate k) (Z.shiftl 1 flag))) k.

(** ** The state of the modifiers *)

Definition test_bit (nr : Z) (d : driver) : bool := Z.testbit (key_down d) nr.
Definition test_and_set_bit (nr : Z) : D bool :=
  let! b := gets (test_bit nr) in do! modify (fun d => set_key_down (Z.setbit (key_down d) nr) d) in ret b.
Definition test_and_clear_bit (nr : Z) : D bool :=
  let! b := gets (test_bit nr) in do! modify (fun d => set_key_down (Z.clearbit (key_down d) nr) d) in ret b.

(** Accesses to k_down, an array of [NR_SHIFT] bytes. *)
Definition get_k_down (v : Z) : D Z := let! d := gets id in lift_opt Faulted (if v <? 0 then None else k_down d !! Z.to_nat v).
Definition put_k_down (v x : Z) : D unit :=
  let! _ := get_k_down v in modify (fun d => set_k_down (<[Z.to_nat v := u8 x]> (k_down d)) d).

(** One key that is down, in compute_shiftstate. *)
Definition count_key (k : Z) : D unit :=
  let! b := gets (test_bit k) in
  if b then
    let sym := U (at_index plain_map k) in
    if (KTYP sym =? KT_SHIFT) || (KTYP sym =? KT_SLOCK) then
      let val := if KVAL sym =? KG_CAPSSHIFT then KG_SHIFT else KVAL sym in
      let! n := get_k_down val in
      do! put_k_down val (n + 1) in
      modify (fun d => set_shift_state (Z.lor (shift_state d) (Z.shiftl 1 val)) d)
    else ret tt
  else ret tt.

(** A word of the bitmap is skipped if it has no bit on. *)
Definition key_word (i : Z) (d : driver) : Z := Z.land (Z.shiftr (key_down d) (32 * i)) (Z.ones 32).
Definition compute_shiftstate : D unit :=
  do! modify (set_shift_state 0) in
  do! modify (fun d => set_k_down (replicate (length (k_down d)) 0) d) in
  for_each (seqZ 0 8) (fun i =>
    let! w := gets (key_word i) in
    if negb (w =? 0) then for_each (seqZ 0 32) (fun j => count_key (32 * i + j)) else ret tt).

(** ** Special keys *)

Definition enter : D unit :=
  let! d := gets id in
  do! (if negb (diacr d =? 0) then do! put_queue (diacr d) in modify (set_diacr 0) else ret tt) in
  do! put_queue 13 in
  if vc_kbd_mode (kbd d) VC_CRLF then put_queue 10 else ret tt.

Definition caps_toggle : D unit :=
  let! r := gets rep in if r then ret tt else modify (upd_kbd (chg_vc_kbd_led VC_CAPSLOCK)).
Definition caps_on : D unit :=
  let! r := gets rep in if r then ret tt else modify (upd_kbd (set_vc_kbd_led VC_CAPSLOCK)).

Definition keyboard_stop_tty : D unit := let! s := gets stopped in if s then ret tt else modify (set_stopped true).
Definition keyboard_start_tty : D unit := let! s := gets stopped in if negb s then ret tt else modify (set_stopped false).
Definition hold : D unit :=
  let! d := gets id in
  if rep d || negb (tty d) then ret tt else
  if stopped d then keyboard_start_tty else keyboard_stop_tty.

Definition bare_num : D unit := let! r := gets rep in if negb r then modify (upd_kbd (chg_vc_kbd_led VC_NUMLOCK)) else ret tt.
Definition num : D unit :=
  let! k := gets kbd in if vc_kbd_mode k VC_APPLIC then applkey 80 true else bare_num.

(** The consoles: only the first is allocated, and changing to another does
    nothing. *)
Definition fg_console : Z := 0.
Definition last_console : Z := 0.
Definition keyboard_vc_cons_allocated (nr : Z) : bool := nr =? 0.
Definition vc_cons_allocated (i : Z) : bool := if MAX_NR_CONSOLES <=? u32 i then false else keyboard_vc_cons_allocated (u32 i).
Definition set_console (nr : Z) : D unit := ret tt.
Definition lastcons : D unit := set_console last_console.

Fixpoint decr_console_loop (fuel : nat) (i : Z) : result Z :=
  match fuel with
  | O => Err Diverged
  | S n =>
      if i =? fg_console then Ok i else
      let i := if i =? -1 then MAX_NR_CONSOLES - 1 else i in
      if vc_cons_allocated i then Ok i else decr_console_loop n (i - 1)
  end.
Fixpoint incr_console_loop (fuel : nat) (i : Z) : result Z :=
  match fuel with
  | O => Err Diverged
  | S n =>
      if i =? fg_console then Ok i else
      let i := if i =? MAX_NR_CONSOLES then 0 else i in
      if vc_cons_allocated i then Ok i else incr_console_loop n (i + 1)
  end.
Definition on_console (r : result Z) : D unit := match r with Ok i => set_console i | Err e => fail e end.
Definition decr_console : D unit := on_console (decr_console_loop 65 (fg_console - 1)).
Definition incr_console : D unit := on_console (incr_console_loop 65 (fg_console + 1)).

Definition compose : D unit := modify (set_dead_key_next 1).
Definition do_null : D unit := compute_shiftstate.

(** Functions of the glue that do nothing, and the special keys that call them. *)
Definition keyboard_show_ptregs : D unit := ret tt.
Definition keyboard_show_mem : D unit := ret tt.
Definition keyboard_show_state : D unit := ret tt.
Definition keyboard_send_intr : D unit := ret tt.
Definition keyboard_scrollfront (lines : Z) : D unit := ret tt.
Definition keyboard_scrollback (lines : Z) : D unit := ret tt.
Definition keyboard_ctrl_alt_del : D unit := ret tt.
Definition keyboard_do_SAK : D unit := ret tt.
Definition keyboard_reset_vc (new_console : Z) : D unit := ret tt.
Definition keyboard_spawn_console : D unit := ret tt.
Definition show_ptregs : D unit := keyboard_show_ptregs.
Definition send_intr : D unit := let! t := gets tty in if negb t then ret tt else keyboard_send_intr.
Definition scroll_forw : D unit := keyboard_scrollfront 0.
Definition scroll_back : D unit := keyboard_scrollback 0.
Definition boot_it : D unit := keyboard_ctrl_alt_del.
Definition SAK : D unit := do! keyboard_do_SAK in keyboard_reset_vc fg_console.

Definition spec_fn_table : list (D unit) := [
  do_null; enter; show_ptregs; keyboard_show_mem;
  keyboard_show_state; send_intr; lastcons; caps_toggle;
  num; hold; scroll_forw; scroll_back;
  boot_it; caps_on; compose; SAK;
  decr_console; incr_console; keyboard_spawn_console; bare_num].

(** ** Handlers *)

Definition pressed (up_flag : Z) (m : D unit) : D unit := if negb (up_flag =? 0) then ret tt else m.

Definition do_spec (value up_flag : Z) : D unit :=
  pressed up_flag (
  let! k := gets kbd in
  match spec_fn_table !! Z.to_nat value with
  | None => ret tt
  | Some f =>
      if ((kbdmode k =? VC_RAW) || (kbdmode k =? VC_MEDIUMRAW)) && (Z.land SPECIALS_ALLOWED_IN_RAW_MODE (Z.shiftl 1 value) =? 0) then ret tt
      else f
  end).

(** The search in accent_table. *)
Definition accented (d ch : Z) : option Z :=
  match list_find (fun e => e.1.1 = d /\ e.1.2 = ch) accent_table with Some (_, e) => Some e.2 | None => None end.
Definition handle_diacr (ch : Z) : D Z :=
  let! d := gets diacr in
  do! modify (set_diacr 0) in
  match accented d ch with
  | Some r => ret r
  | None => if (ch =? 32) || (ch =? d) then ret d else do! put_queue d in ret ch
  end.

Definition do_self (value up_flag : Z) : D unit :=
  pressed up_flag (
  let! d := gets id in
  let! value := (if negb (diacr d =? 0) then handle_diacr value else ret value) in
  if negb (dead_key_next d =? 0) then do! modify (set_dead_key_next 0) in modify (set_diacr value)
  else put_queue value).

Definition do_dead2 (value up_flag : Z) : D unit :=
  pressed up_flag (
  let! d := gets diacr in
  let! x := (if negb (d =? 0) then handle_diacr value else ret value) in
  modify (set_diacr x)).
Definition ret_diacr : list Z := [96; 39; 94; 126; 34; 44].
Definition do_dead (value up_flag : Z) : D unit :=
  let! v := lift_opt Faulted (ret_diacr !! Z.to_nat value) in do_dead2 v up_flag.

Definition do_cons (value up_flag : Z) : D unit := pressed up_flag (set_console value).
Definition do_fn (value up_flag : Z) : D unit :=
  pressed up_flag (match func_table !! Z.to_nat value with Some s => puts_queue s | None => ret tt end).

Definition cur_chars : list Z := [66; 68; 67; 65; 0].
Definition do_cur (value up_flag : Z) : D unit :=
  pressed up_flag (
  let! k := gets kbd in
  let! c := lift_opt Faulted (cur_chars !! Z.to_nat value) in
  applkey c (vc_kbd_mode k VC_CKMODE)).

(** "0123456789+-*/\015,.?()" and "pqrstuvwxylSRQMnnmPQ" *)
Definition pad_chars : list Z := [48; 49; 50; 51; 52; 53; 54; 55; 56; 57; 43; 45; 42; 47; 13; 44; 46; 63; 40; 41; 0].
Definition app_map : list Z := [112; 113; 114; 115; 116; 117; 118; 119; 120; 121; 108; 83; 82; 81; 77; 110; 110; 109; 80; 81; 0].

(** The keys of the pad without NumLock; the values are those of K_P0 to
    K_PDOT, and of the keys they stand for. *)
Definition pad_key (k : kbd_struct) (value : Z) : option (D unit) :=
  match value with
  | 15 | 16 => Some (do_fn 22 0)
  | 0 => Some (do_fn 21 0)
  | 1 => Some (do_fn 23 0)
  | 2 => Some (do_cur 0 0)
  | 3 => Some (do_fn 25 0)
  | 4 => Some (do_cur 1 0)
  | 6 => Some (do_cur 2 0)
  | 7 => Some (do_fn 20 0)
  | 8 => Some (do_cur 3 0)
  | 9 => Some (do_fn 24 0)
  | 5 => Some (applkey 71 (vc_kbd_mode k VC_APPLIC))
  | _ => None
  end.
Definition do_pad (value up_flag : Z) : D unit :=
  pressed up_flag (
  let! k := gets kbd in
  let! s := get_k_down KG_SHIFT in
  if vc_kbd_mode k VC_APPLIC && (s =? 0) then
    let! c := lift_opt Faulted (app_map !! Z.to_nat value) in applkey c true
  else
  match (if negb (vc_kbd_led k VC_NUMLOCK) then pad_key k value else None) with
  | Some m => m
  | None =>
      let! c := lift_opt Faulted (pad_chars !! Z.to_nat value) in
      do! put_queue c in
      if (value =? 14) && vc_kbd_mode k VC_CRLF then put_queue 10 else ret tt
  end).

Definition do_shift (value up_flag : Z) : D unit :=
  let! d := gets id in
  let old_state := shift_state d in
  if rep d then ret tt else
  let! value :=
    (if value =? KG_CAPSSHIFT then
       do! (if up_flag =? 0 then modify (upd_kbd (clr_vc_kbd_led VC_CAPSLOCK)) else ret tt) in ret KG_SHIFT
     else ret value) in
  let! n := get_k_down value in
  do! (if negb (up_flag =? 0) then if negb (n =? 0) then put_k_down value (n - 1) else ret tt else put_k_down value (n + 1)) in
  let! n := get_k_down value in
  do! modify (fun d =>
    if negb (n =? 0) then set_shift_state (Z.lor (shift_state d) (Z.shiftl 1 value)) d
    else set_shift_state (Z.land (shift_state d) (Z.lnot (Z.shiftl 1 value))) d) in
  let! d := gets id in
  if negb (up_flag =? 0) && negb (shift_state d =? old_state) && negb (npadch d =? -1) then
    do! (if kbdmode (kbd d) =? VC_UNICODE then to_utf8 (Z.land (npadch d) 0xffff) else put_queue (Z.land (npadch d) 0xff)) in
    modify (set_npadch (-1))
  else ret tt.

Definition do_meta (value up_flag : Z) : D unit :=
  pressed up_flag (
  let! k := gets kbd in
  if vc_kbd_mode k VC_META then do! put_queue 27 in put_queue value else put_queue (Z.lor value 0x80)).

(** The product is that of [int]s. *)
Definition do_ascii (value up_flag : Z) : D unit :=
  pressed up_flag (
  let '(base, value) := if value <? 10 then (10, value) else (16, u8 (value - 10)) in
  let! n := gets npadch in
  modify (set_npadch (if n =? -1 then value else s32 (n * base + value)))).

Definition do_lock (value up_flag : Z) : D unit :=
  let! r := gets rep in
  if negb (up_flag =? 0) || r then ret tt else modify (upd_kbd (chg_vc_kbd_lock value)).

(** key_maps has MAX_NR_KEYMAPS = 256 entries. *)
Definition key_map (i : Z) : D (option (list Z)) :=
  if (i <? 0) || (256 <=? i) then fail Faulted else ret (key_maps i).

Definition do_slock (value up_flag : Z) : D unit :=
  do! do_shift value up_flag in
  let! r := gets rep in
  if negb (up_flag =? 0) || r then ret tt else
  do! modify (upd_kbd (chg_vc_kbd_slock value)) in
  let! k := gets kbd in
  let! m := key_map (Z.lxor (lockstate k) (slockstate k)) in
  match m with
  | None => modify (upd_kbd (fun k => chg_vc_kbd_slock value (set_slockstate 0 k)))
  | Some _ => ret tt
  end.

Definition do_lowercase (value up_flag : Z) : D unit := ret tt.
Definition do_ignore (value up_flag : Z) : D unit := ret tt.

(** key_handler *)
Definition key_handler (type value up_flag : Z) : D unit :=
  match type with
  | 0 => do_self value up_flag
  | 1 => do_fn value up_flag
  | 2 => do_spec value up_flag
  | 3 => do_pad value up_flag
  | 4 => do_dead value up_flag
  | 5 => do_cons value up_flag
  | 6 => do_cur value up_flag
  | 7 => do_shift value up_flag
  | 8 => do_meta value up_flag
  | 9 => do_ascii value up_flag
  | 10 => do_lock value up_flag
  | 11 => do_lowercase value up_flag
  | 12 => do_slock value up_flag
  | 13 => do_dead2 value up_flag
  | 14 | 15 => do_ignore value up_flag
  | _ => fail Faulted
  end.

(** ** handle_scancode *)

(** The symbol of a key and its handler. *)
Definition handle_symbol (keycode up_flag : Z) (raw_mode : bool) : D unit :=
  let! d := gets id in
  let shift_final := Z.lxor (Z.lor (shift_state d) (slockstate (kbd d))) (lockstate (kbd d)) in
  let! m := key_map shift_final in
  match m with
  | None => do! compute_shiftstate in modify (upd_kbd (set_slockstate 0))
  | Some m =>
      let keysym := at_index m keycode in
      let type := u8 (KTYP keysym) in
      if 0xf0 <=? type then
        let type := type - 0xf0 in
        if raw_mode && (Z.land TYPES_ALLOWED_IN_RAW_MODE (Z.shiftl 1 type) =? 0) then ret tt else
        let! '(type, keysym) :=
          (if type =? KT_LETTER then
             if vc_kbd_led (kbd d) VC_CAPSLOCK then
               let! m' := key_map (Z.lxor shift_final (Z.shiftl 1 KG_SHIFT)) in
               ret (KT_LATIN, match m' with Some m' => at_index m' keycode | None => keysym end)
             else ret (KT_LATIN, keysym)
           else ret (type, keysym)) in
        do! key_handler type (Z.land keysym 0xff) up_flag in
        if type =? KT_SLOCK then ret tt else modify (upd_kbd (set_slockstate 0))
      else if (up_flag =? 0) && negb raw_mode then to_utf8 keysym
      else ret tt
  end.

Definition keyboard_tty_do_repeat_key : bool := true.

(** From the keycode on. *)
Definition handle_keycode (keycode up_flag : Z) (raw_mode : bool) : D unit :=
  let! up_flag :=
    (if negb (up_flag =? 0) then
       do! modify (set_rep false) in
       let! b := test_and_clear_bit keycode in
       ret (if b then up_flag else kbd_unexpected_up keycode)
     else
       let! b := test_and_set_bit keycode in
       do! modify (set_rep b) in
       ret up_flag) in
  let! k := gets kbd in
  let! raw_mode := (if kbdmode k =? VC_MEDIUMRAW then do! put_queue (keycode + up_flag) in ret true else ret raw_mode) in
  let! d := gets id in
  if negb (rep d) || (vc_kbd_mode (kbd d) VC_REPEAT && tty d && keyboard_tty_do_repeat_key) then handle_symbol keycode up_flag raw_mode
  else ret tt.

Definition handle_scancode (scancode : Z) (down : bool) : D unit :=
  let up_flag := if down then 0 else UP in
  do! modify (set_tty true) in
  let! k := gets kbd in
  let raw_mode := kbdmode k =? VC_RAW in
  do! (if raw_mode then put_queue (Z.lor scancode up_flag) else ret tt) in
  let! c := kbd_translate scancode in
  match c with
  | None => ret tt
  | Some keycode => handle_keycode keycode up_flag raw_mode
  end.

(** ** Lights *)

(** A light shown from memory: the address and the mask, once registered; the
    memory is read with [peek]. *)
Definition mem_led (peek : Z -> Z) (p : option (Z * Z)) (bit : Z) (leds : Z) : Z :=
  match p with
  | None => leds
  | Some (addr, mask) => if negb (Z.land (peek addr) mask =? 0) then Z.lor leds bit else Z.land leds (Z.lnot bit)
  end.
Definition led_at (l : list (option (Z * Z))) (i : nat) : option (Z * Z) := mjoin (l !! i).
Definition getledstate (d : driver) : Z := ledstate d.
Definition getleds (peek : Z -> Z) (d : driver) : Z :=
  if ledmode (kbd d) =? LED_SHOW_IOCTL then ledioctl d else
  let leds := ledflagstate (kbd d) in
  if ledmode (kbd d) =? LED_SHOW_MEM then
    u8 (mem_led peek (led_at (ledptrs d) 2) 4 (mem_led peek (led_at (ledptrs d) 1) 2 (mem_led peek (led_at (ledptrs d) 0) 1 leds)))
  else leds.

(** kbd_leds is an empty function and kbd_ledfunc is null. *)
Definition kbd_bh (peek : Z -> Z) : D unit :=
  let! leds := gets (getleds peek) in
  let! l := gets ledstate in
  if negb (leds =? l) then modify (set_ledstate leds) else ret tt.

Definition keyboard_schedule_tasklet (peek : Z -> Z) : D unit :=
  let! e := gets tasklet_enabled in if e then kbd_bh peek else ret tt.

Definition setledstate (peek : Z -> Z) (led : Z) : D unit :=
  do! (if Z.land led (Z.lnot 7) =? 0 then
         do! modify (set_ledioctl (u8 led)) in modify (upd_kbd (set_ledmode LED_SHOW_IOCTL))
       else modify (upd_kbd (set_ledmode LED_SHOW_FLAGS))) in
  keyboard_schedule_tasklet peek.

Definition register_leds (console led addr mask : Z) : D unit :=
  let on_kbd (m : Z) := if console =? fg_console then modify (upd_kbd (set_ledmode m)) else ret tt in
  if led <? 3 then
    do! modify (fun d => set_ledptrs (<[Z.to_nat led := Some (addr, mask)]> (ledptrs d)) d) in
    on_kbd LED_SHOW_MEM
  else on_kbd LED_SHOW_FLAGS.

Definition kbd0 : kbd_struct := mk_kbd 0 0 LED_SHOW_FLAGS 0 VC_XLATE KBD_DEFMODE.
Definition kbd_init (peek : Z -> Z) : D unit :=
  do! modify (set_kbd kbd0) in
  do! modify (set_tasklet_enabled true) in
  keyboard_schedule_tasklet peek.

(** The entry point, with what is at the registered addresses. *)
Definition do_scancode (peek : Z -> Z) (scancode : Z) : D unit :=
  let! i := gets initialized in
  do! (if negb i then do! modify (set_initialized true) in kbd_init peek else ret tt) in
  if negb (scancode =? 0x00) && negb (scancode =? 0xff) then
    do! handle_scancode (u8 scancode) (Z.land scancode 0x80 =? 0) in
    kbd_bh peek
  else ret tt.

(** An interrupt: the strings it gives to keyboard_data, and the driver. *)
Definition scan (peek : Z -> Z) (scancode : Z) (d : driver) : result (list (list Z) * driver) :=
  match do_scancode peek scancode (set_data [] d) with
  | Ok (_, d) => Ok (data d, set_data [] d)
  | Err e => Err e
  end.

(** The static variables before the first interrupt. *)
Definition zeroed : driver :=
  mk_driver 0 initial_high_keys initial_e0_keys (replicate 9 0) 0 0 0 (-1) 0 false (mk_kbd 0 0 0 0 0 0) false false 0xff 0 [None; None; None] false false [].
End Kbd.
