(* ===== verification/KbdProps.v ===== *)
(** * The keyboard driver keeps track of the modifiers

    The counters of the modifiers are what a recount of the keys that are down
    gives, whatever keys are pressed and released; and every text can be typed. *)

From S2P Require Import Prelude Keymap Kbd.
Import Kbd.

Local Open Scope st_scope.

(** ** Counting *)

(** The modifier a key stands for, in compute_shiftstate. *)
Definition modifier (c : Z) : option Z :=
  let sym := U (at_index plain_map c) in
  if (KTYP sym =? KT_SHIFT) || (KTYP sym =? KT_SLOCK) then Some (if KVAL sym =? KG_CAPSSHIFT then KG_SHIFT else KVAL sym) else None.

#[global] Arguments modifier : simpl never.
#[global] Arguments at_index : simpl never.
#[global] Arguments key_maps : simpl never.

Definition keycodes : list Z := seqZ 0 256.

Lemma keycode_cases (P : Z -> bool) : forallb P keycodes = true -> forall c, 0 <= c < 256 -> P c = true.
Proof. intros H c Hc. rewrite forallb_forall in H. apply H, list_elem_of_In, elem_of_seqZ. lia. Qed.

Lemma modifier_range c v : modifier c = Some v -> 0 <= c < 256 -> 0 <= v < 4.
Proof.
  intros E Hc. assert (match modifier c with Some v => (0 <=? v) && (v <? 4) | None => true end = true) as H.
  { revert c Hc E. intros c Hc _. apply (keycode_cases (fun c => match modifier c with Some v => (0 <=? v) && (v <? 4) | None => true end)); [vm_compute; reflexivity|done]. }
  rewrite E in H. lia.
Qed.

Definition stands (c v : Z) : bool := match modifier c with Some w => w =? v | None => false end.
#[global] Arguments stands : simpl never.
Lemma stands_true c v : stands c v = true <-> modifier c = Some v.
Proof. unfold stands. destruct (modifier c); [|done]. rewrite Z.eqb_eq. split; [by intros ->|by intros [= ->]]. Qed.

(** How many of the keys of a list are down and stand for [v]. *)
Fixpoint count (v kd : Z) (l : list Z) : Z :=
  match l with
  | [] => 0
  | c :: l => Z.b2z (Z.testbit kd c && stands c v) + count v kd l
  end.

Section Count.
Implicit Types (v kd c : Z) (l : list Z).

Lemma count_app v kd l l' : count v kd (l ++ l') = count v kd l + count v kd l'.
Proof. induction l as [|c l IH]; simpl; lia. Qed.

Lemma count_none v l : count v 0 l = 0.
Proof. induction l as [|c l IH]; simpl; [done|]. by rewrite Z.bits_0. Qed.

Lemma count_nonneg v kd l : 0 <= count v kd l.
Proof. induction l as [|c l IH]; simpl; [lia|]. destruct (_ && _); simpl; lia. Qed.

Lemma count_same v kd kd' l : (forall c, c ∈ l -> Z.testbit kd' c = Z.testbit kd c) -> count v kd' l = count v kd l.
Proof. induction l as [|c l IH]; intros H; simpl; [done|]. rewrite H, IH by set_solver. done. Qed.

Lemma count_pos v kd l : 0 < count v kd l <-> exists c, c ∈ l /\ Z.testbit kd c = true /\ modifier c = Some v.
Proof.
  induction l as [|c l IH]; simpl; [split; [lia|intros (c & Hc & _); set_solver]|].
  pose proof (count_nonneg v kd l). destruct (Z.testbit kd c && _) eqn:E; simpl.
  - split; [|lia]. intros _. apply andb_true_iff in E as [E1 E2%stands_true]. exists c. set_solver.
  - rewrite Z.add_0_l, IH. split; [set_solver|]. intros (c' & [->|Hc]%elem_of_cons & H1 & H2); [|eauto].
    apply stands_true in H2. by rewrite H1, H2 in E.
Qed.

(** A modifier pressed or released. *)
Lemma count_press v kd c l : 0 <= c -> NoDup l -> c ∈ l -> Z.testbit kd c = false ->
  count v (Z.setbit kd c) l = count v kd l + Z.b2z (stands c v).
Proof.
  intros H0 Hn Hc Hb. induction Hn as [|x l Hx Hn IH]; [set_solver|]. simpl. apply elem_of_cons in Hc as [<-|Hc].
  - rewrite Z.setbit_eq, Hb by done. rewrite (count_same v kd); [simpl; lia|]. intros y Hy. apply Z.setbit_neq; [done|]. intros ->. done.
  - rewrite IH by done. rewrite Z.setbit_neq; [lia|done|]. intros ->. done.
Qed.

Lemma count_release v kd c l : 0 <= c -> NoDup l -> c ∈ l -> Z.testbit kd c = true ->
  count v (Z.clearbit kd c) l = count v kd l - Z.b2z (stands c v).
Proof.
  intros H0 Hn Hc Hb.
  assert (kd = Z.setbit (Z.clearbit kd c) c) as E.
  { apply Z.bits_inj'. intros i Hi. destruct (decide (i = c)) as [->|Hne]; [by rewrite Z.setbit_eq|].
    rewrite Z.setbit_neq, Z.clearbit_neq by done. done. }
  pose proof (count_press v (Z.clearbit kd c) c l H0 Hn Hc (Z.clearbit_eq _ _)) as H. rewrite <- E in H. lia.
Qed.

(** At most six keys are modifiers. *)
Definition modifiers (l : list Z) : Z := Z.of_nat (length (filter (fun c => is_Some (modifier c)) l)).
Lemma count_bound v kd l : count v kd l <= modifiers l.
Proof.
  unfold modifiers. induction l as [|c l IH]; simpl; [lia|]. rewrite filter_cons. case_decide as Hm; simpl.
  - destruct (_ && _); simpl; lia.
  - replace (stands c v) with false; [rewrite andb_false_r; simpl; lia|]. symmetry. apply not_true_iff_false. intros E%stands_true. apply Hm. by eexists.
Qed.
Lemma count_small v kd n : 0 <= n <= 256 -> 0 <= count v kd (seqZ 0 n) <= 6.
Proof.
  intros Hn. split; [apply count_nonneg|]. pose proof (count_nonneg v kd (seqZ (0 + n) (256 - n))).
  enough (count v kd (seqZ 0 n ++ seqZ (0 + n) (256 - n)) <= 6) by (rewrite count_app in *; lia).
  rewrite <- seqZ_app by lia. replace (n + (256 - n)) with 256 by lia.
  etrans; [apply count_bound|]. apply Z.leb_le. vm_compute. reflexivity.
Qed.

Lemma count_high v kd l : 4 <= v -> (forall c, c ∈ l -> 0 <= c < 256) -> count v kd l = 0.
Proof.
  intros Hv Hl. destruct (Z.eq_dec (count v kd l) 0) as [E|E]; [done|]. pose proof (count_nonneg v kd l).
  destruct (proj1 (count_pos v kd l) ltac:(lia)) as (c & Hc & _ & Hm). apply modifier_range in Hm; [lia|]. auto.
Qed.
End Count.

(** ** Recounting *)

Lemma twp_state {S A} (k : S -> ST S A) Q s : twp (k s) Q s -> twp (let! x := gets id in k x) Q s.
Proof. intros H. by apply twp_bind, twp_gets. Qed.

(** The counters and the state are those of the keys of [l]. *)
Record tracked (l : list Z) (d : driver) : Prop := {
  tr_length : length (k_down d) = 9%nat;
  tr_count : forall v, 0 <= v < 9 -> k_down d !! Z.to_nat v = Some (count v (key_down d) l);
  tr_positive : 0 <= shift_state d;
  tr_state : forall v, 0 <= v -> Z.testbit (shift_state d) v = (0 <? count v (key_down d) l)
}.

(** Only the counters change. *)
Definition recounts (d d' : driver) : Prop := exists ss ks, d' = set_shift_state ss (set_k_down ks d).
Lemma recounts_refl d : recounts d d.
Proof. exists (shift_state d), (k_down d). by destruct d. Qed.
Lemma recounts_trans d1 d2 d3 : recounts d1 d2 -> recounts d2 d3 -> recounts d1 d3.
Proof. intros (? & ? & ->) (ss & ks & ->). by exists ss, ks. Qed.
Lemma recounts_key_down d d' : recounts d d' -> key_down d' = key_down d.
Proof. by intros (? & ? & ->). Qed.

Lemma twp_put_k_down v x (Q : unit -> driver -> Prop) d : 0 <= v < 9 -> length (k_down d) = 9%nat ->
  Q tt (set_k_down (<[Z.to_nat v := u8 x]> (k_down d)) d) -> twp (put_k_down v x) Q d.
Proof.
  intros Hv Hl HQ. unfold put_k_down, get_k_down. apply twp_bind, twp_bind, twp_gets. destruct (Z.ltb_spec v 0); [lia|].
  destruct (lookup_lt_is_Some_2 (k_down d) (Z.to_nat v)) as [y Hy]; [lia|]. eapply twp_lift_opt; [exact Hy|]. by apply twp_modify.
Qed.
Lemma twp_get_k_down v n (Q : Z -> driver -> Prop) d : 0 <= v -> k_down d !! Z.to_nat v = Some n -> Q n d -> twp (get_k_down v) Q d.
Proof.
  intros Hv Hn HQ. unfold get_k_down. apply twp_bind, twp_gets. destruct (Z.ltb_spec v 0); [lia|]. by eapply twp_lift_opt.
Qed.

Lemma lor_bit a v i : 0 <= v -> 0 <= i -> Z.testbit (Z.lor a (Z.shiftl 1 v)) i = Z.testbit a i || (i =? v).
Proof.
  intros Hv Hi. rewrite Z.lor_spec, Z.shiftl_spec by done. f_equal. destruct (Z.eqb_spec i v) as [->|Hne]; [by rewrite Z.sub_diag|].
  destruct (Z.lt_ge_cases i v); [by rewrite Z.testbit_neg_r by lia|]. replace 1 with (2 ^ 0) by done. apply Z.pow2_bits_false. lia.
Qed.
Lemma clear_bit a v i : 0 <= v -> 0 <= i -> Z.testbit (Z.land a (Z.lnot (Z.shiftl 1 v))) i = Z.testbit a i && negb (i =? v).
Proof.
  intros Hv Hi. rewrite Z.land_spec, Z.lnot_spec by done. f_equal. f_equal. rewrite <- (Z.lor_0_l (Z.shiftl 1 v)), lor_bit by done. by rewrite Z.bits_0.
Qed.

(** One more key of modifier [v], in the counters. *)
Lemma tracked_count l kd v ks n x : length ks = 9%nat -> (forall w, 0 <= w < 9 -> ks !! Z.to_nat w = Some (count w kd l)) -> 0 <= v < 9 -> u8 x = n ->
  forall w, 0 <= w < 9 -> (<[Z.to_nat v := u8 x]> ks) !! Z.to_nat w = Some (if w =? v then n else count w kd l).
Proof.
  intros Hl Hk Hv Hn w Hw. destruct (Z.eqb_spec w v) as [->|Hne]; [rewrite list_lookup_insert_eq by lia; by subst|].
  rewrite list_lookup_insert_ne by lia. by apply Hk.
Qed.

Lemma count_key_ok n d : 0 <= n < 256 -> tracked (seqZ 0 n) d -> twp (count_key n) (fun _ d' => recounts d d' /\ tracked (seqZ 0 (n + 1)) d') d.
Proof.
  intros Hn [Hl Hk Hp Hs].
  assert (forall v kd, count v kd (seqZ 0 (n + 1)) = count v kd (seqZ 0 n) + Z.b2z (Z.testbit kd n && stands n v)) as Hc.
  { intros v kd. rewrite seqZ_app, count_app by lia. change (seqZ (0 + n) 1) with [0 + n]. simpl. rewrite Z.add_0_r. done. }
  assert (forall v, Z.testbit (key_down d) n && stands n v = false -> count v (key_down d) (seqZ 0 (n + 1)) = count v (key_down d) (seqZ 0 n)) as Hsame.
  { intros v E. rewrite Hc, E. simpl. lia. }
  unfold count_key. apply twp_bind, twp_gets. unfold test_bit. destruct (Z.testbit (key_down d) n) eqn:Eb.
  2: { apply twp_ret. split; [apply recounts_refl|]. split; try done; intros; rewrite Hsame by done; auto. }
  destruct (modifier n) as [v|] eqn:Em.
  2: { assert (forall v, stands n v = false) as Hf by (intros v; unfold stands; by rewrite Em).
       unfold modifier in Em. destruct (_ || _); [done|]. apply twp_ret. split; [apply recounts_refl|].
       split; try done; intros; rewrite Hsame by (simpl; auto); auto. }
  pose proof (modifier_range n v Em Hn) as Hv. pose proof (count_small v (key_down d) n ltac:(lia)) as Hb.
  assert (forall w, stands n w = (w =? v)) as Hst by (intros w; unfold stands; rewrite Em; apply Z.eqb_sym).
  unfold modifier in Em. destruct (_ || _); [|done]. injection Em as Em. rewrite Em.
  apply twp_bind. apply (twp_get_k_down v (count v (key_down d) (seqZ 0 n))); [lia|apply Hk; lia|].
  apply twp_bind. apply twp_put_k_down; [lia|done|]. apply twp_modify. split; [by eexists _, _|]. split; cbn [set_shift_state set_k_down k_down key_down shift_state].
  - by rewrite length_insert.
  - intros w Hw. rewrite (tracked_count (seqZ 0 n) (key_down d) v _ (count v (key_down d) (seqZ 0 n) + 1)); try done; [|lia|by rewrite uwrap_small by lia].
    f_equal. rewrite Hc, Eb, Hst. simpl. destruct (Z.eqb_spec w v) as [->|]; simpl; lia.
  - apply Z.lor_nonneg. split; [done|]. apply Z.shiftl_nonneg. lia.
  - intros w Hw. rewrite lor_bit, Hs by lia. rewrite Hc, Eb, Hst. simpl. pose proof (count_nonneg w (key_down d) (seqZ 0 n)).
    destruct (Z.eqb_spec w v) as [->|]; simpl; [rewrite orb_true_r; symmetry; apply Z.ltb_lt; lia|]. by rewrite orb_false_r, Z.add_0_r.
Qed.

(** A loop over an interval. *)
Lemma twp_for_range {S} (body : Z -> ST S unit) (I : Z -> S -> Prop) n : 0 <= n -> forall i s, I i s ->
  (forall j s, i <= j < i + n -> I j s -> twp (body j) (fun _ => I (j + 1)) s) -> twp (for_each (seqZ i n) body) (fun _ => I (i + n)) s.
Proof.
  intros Hn. pattern n. revert n Hn. apply natlike_ind.
  - intros i s HI _. rewrite Z.add_0_r. by apply twp_ret.
  - intros n Hn IH i s HI Hb. rewrite seqZ_cons by lia. apply twp_bind. eapply twp_mono; [apply Hb; [lia|done]|].
    intros [] s1 H1. rewrite Z.pred_succ. replace (i + Z.succ n) with (Z.succ i + n) by lia.
    apply IH; [by rewrite <- Z.add_1_r|]. intros j s2 Hj. apply Hb. lia.
Qed.

Lemma key_word_zero i d c : 0 <= i -> key_word i d = 0 -> 32 * i <= c < 32 * i + 32 -> Z.testbit (key_down d) c = false.
Proof.
  intros Hi E Hc. assert (Z.testbit (key_word i d) (c - 32 * i) = false) as H by (by rewrite E, Z.bits_0).
  unfold key_word in H. rewrite Z.land_spec, Z.shiftr_spec, Z.ones_spec_low, andb_true_r in H by lia.
  by replace (c - 32 * i + 32 * i) with c in H by lia.
Qed.

Lemma compute_shiftstate_ok d : length (k_down d) = 9%nat ->
  twp compute_shiftstate (fun _ d' => recounts d d' /\ tracked keycodes d') d.
Proof.
  intros Hl. unfold compute_shiftstate. apply twp_bind, twp_modify, twp_bind, twp_modify.
  set (d0 := set_k_down _ _). assert (recounts d d0) as H0 by (by eexists _, _).
  assert (tracked (seqZ 0 0) d0) as HT.
  { subst d0. split; cbn [k_down shift_state set_k_down set_shift_state]; [by rewrite length_replicate| |done|].
    - intros v Hv. rewrite lookup_replicate_2 by lia. done.
    - intros v _. by rewrite Z.bits_0. }
  clearbody d0. apply (twp_for_range _ (fun i d' => recounts d d' /\ tracked (seqZ 0 (32 * i)) d') 8); [done|by split|].
  intros i d1 Hi [HR1 HT1]. apply twp_bind, twp_gets. destruct (Z.eqb_spec (key_word i d1) 0) as [E|_]; cbn [negb].
  - apply twp_ret. split; [done|]. destruct HT1 as [Ha Hb Hc Hd].
    assert (forall v, count v (key_down d1) (seqZ 0 (32 * (i + 1))) = count v (key_down d1) (seqZ 0 (32 * i))) as Hcount.
    { intros v. replace (32 * (i + 1)) with (32 * i + 32) by lia. rewrite seqZ_app, count_app by lia.
      enough (count v (key_down d1) (seqZ (0 + 32 * i) 32) = 0) by lia. rewrite (count_same v 0); [|intros c ?%elem_of_seqZ; rewrite Z.bits_0; apply (key_word_zero i d1); lia].
      apply count_none. }
    split; try done; intros; rewrite Hcount; auto.
  - eapply twp_mono; [apply (twp_for_range _ (fun j d' => recounts d d' /\ tracked (seqZ 0 (32 * i + j)) d') 32); [done|by rewrite Z.add_0_r|]|].
    + intros j d2 Hj [HR2 HT2]. eapply twp_mono; [apply count_key_ok; [lia|done]|]. intros [] d3 [HR3 HT3].
      split; [by eapply recounts_trans|]. by rewrite Z.add_assoc.
    + intros [] d2. by replace (32 * (i + 1)) with (32 * i + (0 + 32)) by lia.
Qed.

(** ** Handlers that are not about modifiers *)

(** What these handlers leave alone: all but the text being composed, the
    lights, and the output. *)
Definition core (d : driver) : driver :=
  set_data [] (set_diacr 0 (set_dead_key_next 0 (set_npadch 0 (set_stopped false (upd_kbd (fun k => set_slockstate 0 (set_ledflagstate 0 k)) d))))).

Definition quiet (m : D unit) : Prop := forall d, length (k_down d) = 9%nat -> twp m (fun _ d' => core d' = core d) d.

Lemma core_k_down d d' : core d' = core d -> k_down d' = k_down d.
Proof. intros E. by apply (f_equal k_down) in E. Qed.

Lemma quiet_ret : quiet (ret tt).
Proof. intros d _. by apply twp_ret. Qed.
Lemma quiet_bind (m m' : D unit) : quiet m -> quiet m' -> quiet (do! m in m').
Proof.
  intros Hm Hm' d Hl. apply twp_bind. eapply twp_mono; [by apply Hm|]. intros [] d1 E. eapply twp_mono; [apply Hm'; by rewrite (core_k_down d)|].
  intros [] d2 ->. done.
Qed.
Lemma quiet_gets {A} (f : driver -> A) (m : A -> D unit) : (forall a, quiet (m a)) -> quiet (let! a := gets f in m a).
Proof. intros Hm d Hl. apply twp_bind, twp_gets. by apply Hm. Qed.
Lemma quiet_modify f : (forall d, core (f d) = core d) -> quiet (modify f).
Proof. intros H d _. by apply twp_modify. Qed.
Lemma quiet_if (b : bool) m m' : quiet m -> quiet m' -> quiet (if b then m else m').
Proof. by destruct b. Qed.
Lemma quiet_pressed u m : quiet m -> quiet (pressed u m).
Proof. intros. apply quiet_if; [apply quiet_ret|done]. Qed.

Ltac quiet_tac :=
  repeat first
    [ apply quiet_ret
    | apply quiet_modify; by intros []
    | apply quiet_pressed
    | apply quiet_gets; intros ?
    | apply quiet_if
    | apply quiet_bind
    | match goal with |- quiet (match ?x with _ => _ end) => destruct x end ].

Lemma quiet_put_queue ch : quiet (put_queue ch).
Proof. unfold put_queue, keyboard_send_ch, keyboard_send_str. quiet_tac. Qed.
Lemma quiet_puts_queue s : quiet (puts_queue s).
Proof. unfold puts_queue, keyboard_send_str. quiet_tac. Qed.
Lemma quiet_applkey k m : quiet (applkey k m).
Proof. apply quiet_puts_queue. Qed.
Lemma quiet_to_utf8 c : quiet (to_utf8 c).
Proof. unfold to_utf8. repeat first [apply quiet_if|apply quiet_bind|apply quiet_put_queue]. Qed.

Lemma quiet_value (m : D Z) (f : Z -> D unit) : (forall d, length (k_down d) = 9%nat -> twp m (fun _ d' => core d' = core d) d) ->
  (forall x, quiet (f x)) -> quiet (let! x := m in f x).
Proof.
  intros Hm Hf d Hl. apply twp_bind. eapply twp_mono; [by apply Hm|]. intros x d1 E. eapply twp_mono; [apply Hf; by rewrite (core_k_down d)|].
  intros [] d2 ->. done.
Qed.
Lemma quiet_diacr ch d : length (k_down d) = 9%nat -> twp (handle_diacr ch) (fun _ d' => core d' = core d) d.
Proof.
  intros Hl. unfold handle_diacr. apply twp_bind, twp_gets, twp_bind, twp_modify. destruct (accented _ _); [by apply twp_ret|].
  destruct (_ || _); [by apply twp_ret|]. apply twp_bind. eapply twp_mono; [by apply quiet_put_queue|]. intros [] d1 E. apply twp_ret. by rewrite E.
Qed.

Create HintDb quiet.
#[export] Hint Resolve quiet_put_queue quiet_puts_queue quiet_applkey quiet_to_utf8 quiet_ret : quiet.

Lemma quiet_self v u : quiet (do_self v u).
Proof.
  apply quiet_pressed, quiet_gets. intros d. apply quiet_value.
  - intros d1 Hl. destruct (negb _); [by apply quiet_diacr|by apply twp_ret].
  - intros x. destruct (negb _); [quiet_tac|auto with quiet].
Qed.
Lemma quiet_dead2 v u : quiet (do_dead2 v u).
Proof.
  apply quiet_pressed, quiet_gets. intros d. apply quiet_value; [|intros x; quiet_tac].
  intros d1 Hl. destruct (negb _); [by apply quiet_diacr|by apply twp_ret].
Qed.
Lemma quiet_fn v u : quiet (do_fn v u).
Proof. apply quiet_pressed. destruct (_ !! _); auto with quiet. Qed.
Lemma quiet_cur v u : 0 <= v < 4 -> quiet (do_cur v u).
Proof.
  intros Hv. apply quiet_pressed, quiet_gets. intros k d Hl. apply twp_bind.
  destruct (lookup_lt_is_Some_2 cur_chars (Z.to_nat v)) as [c Hc]; [simpl; lia|]. eapply twp_lift_opt; [exact Hc|]. by apply quiet_applkey.
Qed.
Lemma quiet_pad v u : 0 <= v < 20 -> quiet (do_pad v u).
Proof.
  intros Hv. apply quiet_pressed, quiet_gets. intros k d Hl. apply twp_bind.
  destruct (lookup_lt_is_Some_2 (k_down d) 0) as [n Hn]; [lia|]. apply (twp_get_k_down 0 n); [done|exact Hn|].
  destruct (_ && _).
  { destruct (lookup_lt_is_Some_2 app_map (Z.to_nat v)) as [c Hc]; [simpl; lia|]. apply twp_bind. eapply twp_lift_opt; [exact Hc|]. by apply quiet_applkey. }
  assert (forall f, pad_key k v = Some f -> quiet f) as Hf.
  { intros f. unfold pad_key. repeat case_match; intros; simplify_eq; first [apply quiet_fn|apply quiet_cur; lia|apply quiet_applkey]. }
  destruct (if negb _ then pad_key k v else None) as [f|] eqn:E.
  - apply Hf; [|done]. by destruct (negb _).
  - destruct (lookup_lt_is_Some_2 pad_chars (Z.to_nat v)) as [c Hc]; [simpl; lia|]. apply twp_bind. eapply twp_lift_opt; [exact Hc|].
    assert (quiet (do! put_queue c in if (v =? 14) && vc_kbd_mode k VC_CRLF then put_queue 10 else ret tt)) as Hq; [|by apply Hq].
    apply quiet_bind; [auto with quiet|]. apply quiet_if; auto with quiet.
Qed.
Lemma quiet_meta v u : quiet (do_meta v u).
Proof. apply quiet_pressed, quiet_gets. intros k. apply quiet_if; [apply quiet_bind|]; auto with quiet. Qed.
Lemma quiet_ascii v u : quiet (do_ascii v u).
Proof. apply quiet_pressed. destruct (if v <? 10 then _ else _) as [b x]. quiet_tac. Qed.

(** The special keys but the one that recounts. *)
Lemma quiet_specials : Forall quiet (tail spec_fn_table).
Proof.
  assert (quiet enter).
  { apply quiet_gets. intros d. apply quiet_bind; [apply quiet_if; [apply quiet_bind; [auto with quiet|quiet_tac]|apply quiet_ret]|].
    apply quiet_bind; [auto with quiet|]. apply quiet_if; auto with quiet. }
  assert (quiet bare_num) by (unfold bare_num; quiet_tac).
  assert (quiet num) by (apply quiet_gets; intros k; apply quiet_if; auto with quiet).
  assert (quiet hold) by (unfold hold, keyboard_start_tty, keyboard_stop_tty; quiet_tac).
  assert (quiet caps_toggle) by (unfold caps_toggle; quiet_tac). assert (quiet caps_on) by (unfold caps_on; quiet_tac).
  assert (quiet compose) by (unfold compose; quiet_tac).
  assert (quiet send_intr) by (unfold send_intr; quiet_tac). assert (quiet SAK) by (unfold SAK; apply quiet_bind; apply quiet_ret).
  unfold spec_fn_table. cbn [tail]. repeat constructor; try assumption; apply quiet_ret.
Qed.
Lemma quiet_spec_fn v f : spec_fn_table !! v = Some f -> v <> 0%nat -> quiet f.
Proof. intros E Hv. destruct v as [|v]; [done|]. exact (Forall_lookup_1 _ _ v f quiet_specials E). Qed.

(** ** The symbols of the maps *)

(** A symbol the handlers can take; the modifiers are at the same keys in all
    maps. *)
Definition symbol_ok (c sym : Z) : bool :=
  let t := u8 (KTYP sym) - 0xf0 in
  let v := Z.land sym 0xff in
  (0xf0 <=? u8 (KTYP sym)) &&
  match modifier c with
  | Some w => (t =? 7) && (v =? w)
  | None =>
      match t with
      | 0 | 1 | 5 | 8 | 9 | 11 => true
      | 2 | 3 => v <? 20
      | 6 => v <? 4
      | _ => false
      end
  end.

Lemma maps_ok i m c : key_maps i = Some m -> 0 <= c < 256 -> symbol_ok c (at_index m c) = true.
Proof.
  unfold key_maps. repeat case_match; intros [= <-]; revert c; apply keycode_cases; vm_compute; reflexivity.
Qed.

(** ** One key *)

Definition frame (d : driver) : driver := core (set_shift_state 0 (set_k_down [] d)).

Lemma core_frame d d' : core d' = core d -> frame d' = frame d.
Proof. intros E. apply (f_equal (fun x => set_shift_state 0 (set_k_down [] x))) in E. exact E. Qed.
Lemma recounts_frame d d' : recounts d d' -> frame d' = frame d.
Proof. by intros (? & ? & ->). Qed.
Lemma core_tracked l d d' : core d' = core d -> tracked l d -> tracked l d'.
Proof.
  intros E [H1 H2 H3 H4]. pose proof (f_equal k_down E) as E1. pose proof (f_equal key_down E) as E2. pose proof (f_equal shift_state E) as E3.
  cbn in E1, E2, E3. split; rewrite ?E1, ?E2, ?E3; done.
Qed.

(** The counters of [d] are those of the keys [kd]. *)
Definition tracked_for (kd : Z) (d : driver) : Prop := tracked keycodes (set_key_down kd d).

Lemma tracked_move kd d : tracked_for kd d -> (forall v, 0 <= v -> count v (key_down d) keycodes = count v kd keycodes) -> tracked keycodes d.
Proof.
  intros [H1 H2 H3 H4] Hc. cbn in *. split; [done| |done|].
  - intros v Hv. by rewrite Hc, H2 by lia.
  - intros v Hv. by rewrite Hc, H4 by lia.
Qed.

(** [kd] becomes [key_down d] by the key [c]. *)
Definition moves (kd c up : Z) (d : driver) : Prop :=
  if rep d then key_down d = kd
  else if up =? 0 then key_down d = Z.setbit kd c /\ Z.testbit kd c = false
  else key_down d = Z.clearbit kd c /\ Z.testbit kd c = true.

Definition delta (d : driver) (up : Z) : Z := if rep d then 0 else if up =? 0 then 1 else -1.
Lemma moves_count kd c up d v : 0 <= c < 256 -> moves kd c up d ->
  count v (key_down d) keycodes = count v kd keycodes + delta d up * Z.b2z (stands c v).
Proof.
  intros Hc. unfold moves, delta. assert (c ∈ keycodes) as Hin by (apply elem_of_seqZ; lia). assert (NoDup keycodes) as Hn by apply NoDup_seqZ.
  destruct (rep d); [intros ->; lia|]. destruct (up =? 0); intros [-> Hb].
  - rewrite count_press by (done || lia). lia.
  - rewrite count_release by (done || lia). lia.
Qed.

(** The counter of [v] set to what the keys say, and its bit. *)
Definition recounted (v n : Z) (d : driver) : driver :=
  let d := set_k_down (<[Z.to_nat v := u8 n]> (k_down d)) d in
  set_shift_state (if negb (n =? 0) then Z.lor (shift_state d) (Z.shiftl 1 v) else Z.land (shift_state d) (Z.lnot (Z.shiftl 1 v))) d.

Lemma recounted_tracked kd c v up d : 0 <= c < 256 -> modifier c = Some v -> tracked_for kd d -> moves kd c up d ->
  tracked keycodes (recounted v (count v (key_down d) keycodes) d).
Proof.
  intros Hc Hm [H1 H2 H3 H4] Hmv. cbn in H1, H2, H3, H4. pose proof (modifier_range c v Hm Hc) as Hv.
  pose proof (count_small v (key_down d) 256 ltac:(lia)) as Hb. fold keycodes in Hb.
  assert (forall w, w <> v -> count w (key_down d) keycodes = count w kd keycodes) as Hne.
  { intros w Hw. rewrite (moves_count kd c up d w Hc Hmv). unfold stands. rewrite Hm. destruct (Z.eqb_spec v w); [lia|]. simpl. lia. }
  unfold recounted. split; cbn [k_down key_down shift_state set_k_down set_shift_state].
  - by rewrite length_insert.
  - intros w Hw. rewrite (tracked_count keycodes kd v _ (count v (key_down d) keycodes)); try done; [|lia|by rewrite uwrap_small by lia].
    destruct (Z.eqb_spec w v) as [->|Hwv]; [done|]. by rewrite Hne.
  - destruct (negb _); [apply Z.lor_nonneg; split; [done|]; apply Z.shiftl_nonneg; lia|]. apply Z.land_nonneg. by left.
  - intros w Hw. destruct (Z.eqb_spec (count v (key_down d) keycodes) 0) as [E|E]; cbn [negb].
    + rewrite clear_bit, H4 by lia. destruct (Z.eqb_spec w v) as [->|Hwv]; [by rewrite E, andb_false_r|]. by rewrite andb_true_r, Hne.
    + rewrite lor_bit, H4 by lia. destruct (Z.eqb_spec w v) as [->|Hwv]; [rewrite orb_true_r; symmetry; apply Z.ltb_lt; lia|]. by rewrite orb_false_r, Hne.
Qed.

Lemma do_shift_ok kd c v up d : 0 <= c < 256 -> modifier c = Some v -> tracked_for kd d -> moves kd c up d ->
  twp (do_shift v up) (fun _ d' => frame d' = frame d /\ tracked keycodes d') d.
Proof.
  intros Hc Hm HT Hmv. pose proof (modifier_range c v Hm Hc) as Hv. unfold do_shift. apply twp_state.
  destruct (rep d) eqn:Er.
  { apply twp_ret. split; [done|]. apply (tracked_move kd); [done|]. intros w _. rewrite (moves_count kd c up d w Hc Hmv). unfold delta. rewrite Er. lia. }
  replace (v =? KG_CAPSSHIFT) with false by (symmetry; apply Z.eqb_neq; unfold KG_CAPSSHIFT; lia). apply twp_bind, twp_ret.
  pose proof (recounted_tracked kd c v up d Hc Hm HT Hmv) as HR. destruct HT as [H1 H2 _ _]. cbn in H1, H2.
  pose proof (moves_count kd c up d v Hc Hmv) as Hcount. unfold delta, stands in Hcount. rewrite Er, Hm, Z.eqb_refl in Hcount.
  pose proof (count_small v (key_down d) 256 ltac:(lia)) as Hb. pose proof (count_small v kd 256 ltac:(lia)) as Hb'. fold keycodes in Hb, Hb'.
  set (n := count v (key_down d) keycodes) in *. set (n0 := count v kd keycodes) in *.
  apply twp_bind, (twp_get_k_down v n0); [lia|by apply H2; lia|]. apply twp_bind.
  assert (twp (if negb (up =? 0) then if negb (n0 =? 0) then put_k_down v (n0 - 1) else ret tt else put_k_down v (n0 + 1))
    (fun _ d' => d' = set_k_down (<[Z.to_nat v := u8 n]> (k_down d)) d) d) as Hput.
  { destruct (up =? 0) eqn:Eu; cbn [negb Z.b2z] in *; [apply twp_put_k_down; [lia|done|]; do 3 f_equal; lia|].
    destruct (Z.eqb_spec n0 0); cbn [negb]; [lia|]. apply twp_put_k_down; [lia|done|]. do 3 f_equal. lia. }
  eapply twp_mono; [exact Hput|]. intros [] d1 ->. apply twp_bind, (twp_get_k_down v n); [lia|..].
  { cbn. rewrite list_lookup_insert_eq by lia. by rewrite uwrap_small by lia. }
  apply twp_bind, twp_modify. match goal with |- twp _ _ ?x => replace x with (recounted v n d) by (unfold recounted; cbn; by destruct (negb (n =? 0))) end.
  assert (frame (recounted v n d) = frame d) as HF by (by apply recounts_frame; eexists _, _).
  apply twp_state. destruct (_ && _); [|by apply twp_ret].
  assert (quiet (do! (if kbdmode (kbd (recounted v n d)) =? VC_UNICODE then to_utf8 (Z.land (npadch (recounted v n d)) 0xffff) else put_queue (Z.land (npadch (recounted v n d)) 0xff)) in
    modify (set_npadch (-1)))) as Hq by (apply quiet_bind; [apply quiet_if; auto with quiet|quiet_tac]).
  eapply twp_mono; [apply Hq; apply HR|]. intros [] d2 E. split; [rewrite <- HF; by apply core_frame|by eapply core_tracked].
Qed.

Lemma tracked_index d : tracked keycodes d \/ (exists kd, tracked_for kd d) -> 0 <= shift_state d < 16.
Proof.
  assert (forall d, tracked keycodes d -> 0 <= shift_state d < 16) as H.
  { clear. intros d [_ _ H3 H4]. split; [done|].
    assert (Z.shiftr (shift_state d) 4 = 0) as E.
    { apply Z.bits_inj'. intros i Hi. rewrite Z.shiftr_spec, Z.bits_0, H4 by lia. rewrite count_high; [done|lia|]. by intros c ?%elem_of_seqZ. }
    rewrite Z.shiftr_div_pow2 in E by done. change (2 ^ 4) with 16 in E. pose proof (Z.mod_pos_bound (shift_state d) 16). pose proof (Z.div_mod (shift_state d) 16). lia. }
  intros [HT|[kd HT]]; [by apply H|]. apply (H (set_key_down kd d) HT).
Qed.

Lemma twp_key_map i (Q : option (list Z) -> driver -> Prop) d : 0 <= i < 256 -> Q (key_maps i) d -> twp (key_map i) Q d.
Proof. intros Hi HQ. unfold key_map. destruct (Z.ltb_spec i 0), (Z.leb_spec 256 i); try lia. by apply twp_ret. Qed.

Lemma other_map_index s : 0 <= s < 16 -> 0 <= Z.lxor s (Z.shiftl 1 KG_SHIFT) < 256.
Proof.
  intros Hs. assert (forallb (fun s => (0 <=? Z.lxor s (Z.shiftl 1 KG_SHIFT)) && (Z.lxor s (Z.shiftl 1 KG_SHIFT) <? 256)) (seqZ 0 16) = true) as H by (vm_compute; reflexivity).
  rewrite forallb_forall in H. specialize (H s). rewrite <- list_elem_of_In, elem_of_seqZ in H. specialize (H ltac:(lia)). lia.
Qed.

Definition key_post (d d' : driver) : Prop := frame d' = frame d /\ tracked keycodes d' /\ slockstate (kbd d') = 0.

Lemma key_done d d1 : frame d1 = frame d -> tracked keycodes d1 -> twp (modify (upd_kbd (set_slockstate 0))) (fun _ d' => key_post d d') d1.
Proof.
  intros HF HT. apply twp_modify. assert (core (upd_kbd (set_slockstate 0) d1) = core d1) as E by done.
  split; [rewrite <- HF; by apply core_frame|]. split; [by eapply core_tracked|done].
Qed.

(** A handler other than those of modifiers. *)
Lemma key_handler_ok t v up d : tracked keycodes d ->
  (match t with 0 | 1 | 5 | 8 | 9 | 11 => true | 2 | 3 => v <? 20 | 6 => v <? 4 | _ => false end) = true -> 0 <= v -> kbdmode (kbd d) = VC_XLATE ->
  twp (key_handler t v up) (fun _ d' => frame d' = frame d /\ tracked keycodes d') d.
Proof.
  intros HT Ht Hv Hx. pose proof (tr_length _ _ HT) as Hl.
  assert (forall m, quiet m -> twp m (fun _ d' => frame d' = frame d /\ tracked keycodes d') d) as Hq.
  { intros m Hm. eapply twp_mono; [by apply Hm|]. intros [] d' E. split; [by apply core_frame|by eapply core_tracked]. }
  assert ((v <? 20) = true -> twp (do_spec v up) (fun _ d' => frame d' = frame d /\ tracked keycodes d') d) as Hspec.
  { intros Hv20. unfold do_spec, pressed. destruct (negb _); [by apply twp_ret|]. apply twp_bind, twp_gets. rewrite Hx. cbn [VC_XLATE Z.eqb orb andb].
    destruct (lookup_lt_is_Some_2 spec_fn_table (Z.to_nat v)) as [f Hf]; [simpl; lia|]. rewrite Hf.
    destruct (decide (Z.to_nat v = 0%nat)) as [E|E]; [|by apply Hq, (quiet_spec_fn (Z.to_nat v))].
    rewrite E in Hf. injection Hf as <-. eapply twp_mono; [by apply compute_shiftstate_ok|]. intros [] d' [HR HT']. split; [by apply recounts_frame|done]. }
  assert (quiet (do_cons v up)) as Hcons by (unfold do_cons; quiet_tac).
  unfold key_handler. repeat case_match; simplify_eq; try done;
    first [by apply Hspec|apply Hq; first [apply quiet_self|apply quiet_fn|apply quiet_pad; lia|exact Hcons|apply quiet_cur; lia|apply quiet_meta|apply quiet_ascii|apply quiet_ret]].
Qed.

Lemma handle_symbol_ok kd c up d : 0 <= c < 256 -> tracked_for kd d -> moves kd c up d ->
  lockstate (kbd d) = 0 -> slockstate (kbd d) = 0 -> kbdmode (kbd d) = VC_XLATE -> twp (handle_symbol c up false) (fun _ d' => key_post d d') d.
Proof.
  intros Hc HT Hmv Hlock Hslock Hx. pose proof (tracked_index d (or_intror (ex_intro _ kd HT))) as Hs.
  unfold handle_symbol. apply twp_state. rewrite Hlock, Hslock, Z.lor_0_r, Z.lxor_0_r. apply twp_bind, twp_key_map; [lia|].
  destruct (key_maps (shift_state d)) as [m|] eqn:Em.
  2: { apply twp_bind. eapply twp_mono; [apply compute_shiftstate_ok; apply HT|]. intros [] d1 [HR HT1]. by apply key_done; [apply recounts_frame|]. }
  pose proof (maps_ok _ m c Em Hc) as Hsym. unfold symbol_ok in Hsym. set (sym := at_index m c) in *.
  apply andb_true_iff in Hsym as [Ht Hsym]. rewrite Ht. cbn [andb]. set (t := u8 (KTYP sym) - 0xf0) in *.
  destruct (modifier c) as [w|] eqn:Ew.
  - apply andb_true_iff in Hsym as [Ht7%Z.eqb_eq Hw%Z.eqb_eq]. rewrite Ht7. apply twp_bind, twp_ret. cbn beta iota. rewrite Hw.
    apply twp_bind. eapply twp_mono; [by apply (do_shift_ok kd c w up d)|]. intros [] d1 [HF HT1]. by apply key_done.
  - assert (tracked keycodes d) as HT0.
    { apply (tracked_move kd); [done|]. intros v _. rewrite (moves_count kd c up d v Hc Hmv). unfold stands. rewrite Ew. simpl. lia. }
    assert (forall t' k, (match t' with 0 | 1 | 5 | 8 | 9 | 11 => true | 2 | 3 => Z.land k 0xff <? 20 | 6 => Z.land k 0xff <? 4 | _ => false end) = true ->
      twp (do! key_handler t' (Z.land k 0xff) up in if t' =? KT_SLOCK then ret tt else modify (upd_kbd (set_slockstate 0))) (fun _ d' => key_post d d') d) as Hrun.
    { intros t' k Ht'. apply twp_bind. eapply twp_mono; [apply key_handler_ok; [done|done|apply Z.land_nonneg; by right|done]|].
      intros [] d1 [HF HT1]. destruct (Z.eqb_spec t' KT_SLOCK) as [->|_]; [done|by apply key_done]. }
    apply twp_bind. destruct (Z.eqb_spec t KT_LETTER) as [E|E]; [|by apply twp_ret, Hrun].
    destruct (vc_kbd_led _ _); [|by apply twp_ret, Hrun]. apply twp_bind, twp_key_map; [by apply other_map_index|]. by apply twp_ret, Hrun.
Qed.

(** ** Scancodes *)

(** The keycode of a scancode, and the prefix that is left. *)
Definition translated (prev sc : Z) : option Z * Z :=
  match kbd_translate sc (set_prev_scancode prev zeroed) with Ok (r, d) => (r, prev_scancode d) | Err _ => (None, 0) end.

Definition default_tables (d : driver) : Prop := high_keys d = initial_high_keys /\ e0_keys d = initial_e0_keys.

Lemma translate_eq sc d : default_tables d ->
  kbd_translate sc d = Ok ((translated (prev_scancode d) sc).1, set_prev_scancode (translated (prev_scancode d) sc).2 d).
Proof.
  intros [H1 H2]. unfold translated. set (z := set_prev_scancode (prev_scancode d) zeroed).
  assert (prev_scancode z = prev_scancode d /\ high_keys z = initial_high_keys /\ e0_keys z = initial_e0_keys) as (Z1 & Z2 & Z3) by done.
  assert (forall p, prev_scancode (set_prev_scancode p z) = p) as Z4 by done. assert (set_prev_scancode (prev_scancode d) d = d) as Hd by (by destruct d).
  clearbody z. unfold kbd_translate, bind, gets, modify, ret, id. cbv beta iota zeta.
  repeat (match goal with |- context [if ?b then _ else _] => destruct b end; cbv beta iota; cbn [fst snd]; rewrite ?Z4, ?Z1, ?Z2, ?Z3, ?H1, ?H2, ?Hd; try done).
Qed.

Lemma table_range l i : Forall (fun x => 0 <= x < 128) l -> 0 <= at_index l i < 128.
Proof.
  intros Hl. unfold at_index. destruct (decide (Z.to_nat i < length l)%nat) as [Hi|Hi].
  - rewrite Forall_forall in Hl. apply Hl. apply list_elem_of_In, nth_In. done.
  - rewrite nth_overflow by lia. lia.
Qed.

Lemma translated_range prev sc c : 0 <= sc < 256 -> (translated prev sc).1 = Some c -> 0 <= c < 128.
Proof.
  intros Hsc. assert (0 <= Z.land sc 0x7f < 128) as Hl by (change 0x7f with (Z.ones 7); rewrite Z.land_ones by done; apply Z.mod_pos_bound; done).
  assert (forall i, 0 <= at_index initial_high_keys i < 128) as Hh by (intros; apply table_range; repeat constructor; done).
  assert (forall i, 0 <= at_index initial_e0_keys i < 128) as He by (intros; apply table_range; repeat constructor; done).
  unfold translated. set (z := set_prev_scancode prev zeroed). assert (high_keys z = initial_high_keys /\ e0_keys z = initial_e0_keys) as [Z2 Z3] by done.
  clearbody z. unfold kbd_translate, bind, gets, modify, ret, id. cbv beta iota zeta.
  repeat (match goal with |- context [if ?b then _ else _] => destruct b end; cbv beta iota; cbn [fst snd]; rewrite ?Z2, ?Z3; try done); intros [= <-]; try done; auto.
Qed.

(** The presses (true) and releases of keys a sequence of scancodes stands for. *)
Fixpoint key_events (prev : Z) (l : list Z) : list (Z * bool) :=
  match l with
  | [] => []
  | sc :: l =>
      if (sc =? 0x00) || (sc =? 0xff) then key_events prev l else
      let '(r, prev) := translated prev sc in
      match r with Some c => (c, Z.land sc 0x80 =? 0) :: key_events prev l | None => key_events prev l end
  end.

(** The keys that are down; a key that is released must be down. *)
Definition move_key (kd : Z) (e : Z * bool) : Z := if e.2 then Z.setbit kd e.1 else Z.clearbit kd e.1.
Fixpoint paired (kd : Z) (l : list (Z * bool)) : Prop :=
  match l with [] => True | e :: l => (e.2 = false -> Z.testbit kd e.1 = true) /\ paired (move_key kd e) l end.

(** ** The invariant of the driver *)

Record KInv (d : driver) : Prop := {
  ki_tracked : tracked keycodes d;
  ki_lock : lockstate (kbd d) = 0;
  ki_slock : slockstate (kbd d) = 0;
  ki_mode : kbdmode (kbd d) = VC_XLATE;
  ki_tables : default_tables d
}.

Lemma key_post_inv d1 d' : key_post d1 d' -> lockstate (kbd d1) = 0 -> kbdmode (kbd d1) = VC_XLATE -> default_tables d1 ->
  KInv d' /\ key_down d' = key_down d1 /\ prev_scancode d' = prev_scancode d1 /\ initialized d' = initialized d1.
Proof.
  intros (HF & HT & Hs) Hl Hm [Hh He].
  pose proof (f_equal (fun x => lockstate (kbd x)) HF) as E1. pose proof (f_equal (fun x => kbdmode (kbd x)) HF) as E2.
  pose proof (f_equal high_keys HF) as E3. pose proof (f_equal e0_keys HF) as E4.
  pose proof (f_equal key_down HF) as E5. pose proof (f_equal prev_scancode HF) as E6. pose proof (f_equal initialized HF) as E7.
  cbn in E1, E2, E3, E4, E5, E6, E7. split; [|done]. split; try congruence. split; congruence.
Qed.

Lemma setbit_idem kd c : 0 <= c -> Z.testbit kd c = true -> Z.setbit kd c = kd.
Proof.
  intros Hc Hb. apply Z.bits_inj'. intros i Hi. destruct (decide (i = c)) as [->|Hne]; [by rewrite Z.setbit_eq|]. by rewrite Z.setbit_neq.
Qed.

Lemma handle_keycode_ok c down d : KInv d -> 0 <= c < 128 -> (down = false -> Z.testbit (key_down d) c = true) ->
  twp (handle_keycode c (if down then 0 else UP) false)
    (fun _ d' => KInv d' /\ key_down d' = move_key (key_down d) (c, down) /\ prev_scancode d' = prev_scancode d /\ initialized d' = initialized d) d.
Proof.
  intros [HT Hl Hs Hm Htab] Hc Hd. unfold handle_keycode. apply twp_bind.
  set (r := down && Z.testbit (key_down d) c). set (d1 := set_rep r (set_key_down (move_key (key_down d) (c, down)) d)).
  assert (tracked_for (key_down d) d1) as HT1 by (destruct HT; by split).
  assert (moves (key_down d) c (if down then 0 else UP) d1) as Hmv.
  { unfold moves, d1, r, move_key. destruct down; cbn [rep set_rep key_down set_key_down fst snd andb]; [|by split; [|apply Hd]].
    destruct (Z.testbit (key_down d) c) eqn:E; [by apply setbit_idem; [lia|]|done]. }
  assert (twp (if negb ((if down then 0 else UP) =? 0) then do! modify (set_rep false) in let! b := test_and_clear_bit c in ret (if b then (if down then 0 else UP) else kbd_unexpected_up c)
    else let! b := test_and_set_bit c in do! modify (set_rep b) in ret (if down then 0 else UP)) (fun u d' => u = (if down then 0 else UP) /\ d' = d1) d) as H1.
  { destruct down; cbn [Z.eqb UP negb].
    - unfold test_and_set_bit. apply twp_bind, twp_bind, twp_gets, twp_bind, twp_modify, twp_ret, twp_bind, twp_modify, twp_ret. done.
    - unfold test_and_clear_bit. apply twp_bind, twp_modify, twp_bind, twp_bind, twp_gets, twp_bind, twp_modify, twp_ret, twp_ret.
      unfold test_bit. cbn [key_down set_rep]. by rewrite Hd. }
  eapply twp_mono; [exact H1|]. intros u d2 [-> ->]. apply twp_bind, twp_gets. replace (kbdmode (kbd d1) =? VC_MEDIUMRAW) with false by (cbn; by rewrite Hm).
  apply twp_bind, twp_ret, twp_state.
  assert (forall d', key_post d1 d' -> KInv d' /\ key_down d' = move_key (key_down d) (c, down) /\ prev_scancode d' = prev_scancode d /\ initialized d' = initialized d) as Hpost.
  { intros d' HP. by apply (key_post_inv d1). }
  destruct (negb (rep d1) || _) eqn:Eb.
  - eapply twp_mono; [apply (handle_symbol_ok (key_down d)); [lia|done..]|]. intros [] d' HP. by apply Hpost.
  - apply twp_ret, Hpost. apply orb_false_iff in Eb as [Er%negb_false_iff _]. split; [done|]. split; [|done].
    apply (tracked_move (key_down d)); [done|]. intros v _. unfold moves in Hmv. rewrite Er in Hmv. by rewrite Hmv.
Qed.

(** Steps that touch the lights only. *)
Lemma kbd_bh_ok peek d : KInv d -> twp (kbd_bh peek) (fun _ d' => KInv d' /\ key_down d' = key_down d /\ prev_scancode d' = prev_scancode d) d.
Proof.
  intros HK. unfold kbd_bh. apply twp_bind, twp_gets, twp_bind, twp_gets. destruct (negb _); [|by apply twp_ret].
  apply twp_modify. split; [|done]. destruct HK as [[] ? ? ? []]. by split; [split|..].
Qed.

Lemma kbd_init_ok peek d : KInv d -> twp (kbd_init peek) (fun _ d' => KInv d' /\ key_down d' = key_down d /\ prev_scancode d' = prev_scancode d) d.
Proof.
  intros HK. unfold kbd_init, keyboard_schedule_tasklet. apply twp_bind, twp_modify, twp_bind, twp_modify, twp_bind, twp_gets.
  eapply twp_mono; [apply kbd_bh_ok|done]. destruct HK as [[] ? ? ? []]. by split; [split|..].
Qed.

Lemma handle_scancode_ok sc d : KInv d -> 0 <= sc < 256 -> let '(r, prev) := translated (prev_scancode d) sc in let down := Z.land sc 0x80 =? 0 in
  match r with Some c => down = false -> Z.testbit (key_down d) c = true | None => True end ->
  twp (handle_scancode sc down) (fun _ d' => KInv d' /\ prev_scancode d' = prev /\
    key_down d' = match r with Some c => move_key (key_down d) (c, down) | None => key_down d end) d.
Proof.
  intros HK Hsc. destruct (translated _ _) as [r prev] eqn:E. intros down Hr. unfold handle_scancode. apply twp_bind, twp_modify, twp_bind, twp_gets.
  set (d1 := set_tty true d). assert (KInv d1) as HK1 by (destruct HK as [[] ? ? ? []]; by split; [split|..]).
  replace (kbdmode (kbd d1) =? VC_RAW) with false by (by rewrite (ki_mode _ HK1)). apply twp_bind, twp_ret, twp_bind.
  pose proof (translate_eq sc d1 (ki_tables _ HK1)) as Et. change (prev_scancode d1) with (prev_scancode d) in Et. rewrite E in Et. cbn [fst snd] in Et.
  exists r, (set_prev_scancode prev d1). split; [exact Et|].
  assert (KInv (set_prev_scancode prev d1)) as HK2 by (destruct HK1 as [[] ? ? ? []]; by split; [split|..]).
  destruct r as [c|]; [|by apply twp_ret].
  assert (0 <= c < 128) as Hc by (apply (translated_range (prev_scancode d) sc); [done|by rewrite E]).
  eapply twp_mono; [exact (handle_keycode_ok c down _ HK2 Hc Hr)|]. intros [] d' (H1 & H2 & H3 & _). done.
Qed.

Lemma do_scancode_ok peek sc d : KInv d -> 0 <= sc < 256 -> sc <> 0 -> sc <> 0xff -> let '(r, prev) := translated (prev_scancode d) sc in let down := Z.land sc 0x80 =? 0 in
  match r with Some c => down = false -> Z.testbit (key_down d) c = true | None => True end ->
  twp (do_scancode peek sc) (fun _ d' => KInv d' /\ prev_scancode d' = prev /\
    key_down d' = match r with Some c => move_key (key_down d) (c, down) | None => key_down d end) d.
Proof.
  intros HK Hsc H0 H1. destruct (translated _ _) as [r prev] eqn:E. intros down Hr. unfold do_scancode. apply twp_bind, twp_gets, twp_bind.
  apply (twp_mono _ (fun _ d1 => KInv d1 /\ key_down d1 = key_down d /\ prev_scancode d1 = prev_scancode d)).
  { destruct (negb _); [|by apply twp_ret]. apply twp_bind, twp_modify. eapply twp_mono; [apply kbd_init_ok|done]. destruct HK as [[] ? ? ? []]. by split; [split|..]. }
  intros [] d1 (HK1 & Hkd & Hprev). rewrite (proj2 (Z.eqb_neq sc 0) H0), (proj2 (Z.eqb_neq sc 0xff) H1). cbn [negb andb].
  rewrite uwrap_small by lia. apply twp_bind. pose proof (handle_scancode_ok sc d1 HK1 Hsc) as Hsc1. rewrite Hprev, E, Hkd in Hsc1.
  eapply twp_mono; [by apply Hsc1|]. intros [] d2 (HK2 & Hp2 & Hk2). eapply twp_mono; [by apply kbd_bh_ok|]. intros [] d3 (HK3 & Hk3 & Hp3). split_and!; [done|by rewrite Hp3|by rewrite Hk3, Hk2].
Qed.

Definition scancodes (peek : Z -> Z) (l : list Z) : D unit := for_each l (do_scancode peek).

Lemma scancodes_ok peek l d : KInv d -> Forall (fun sc => 0 <= sc < 256) l -> paired (key_down d) (key_events (prev_scancode d) l) ->
  twp (scancodes peek l) (fun _ d' => KInv d' /\ key_down d' = fold_left move_key (key_events (prev_scancode d) l) (key_down d)) d.
Proof.
  intros HK Hl. revert d HK. induction Hl as [|sc l Hsc Hl IH]; intros d HK HP; [by apply twp_ret|]. cbn [scancodes for_each key_events] in *. apply twp_bind.
  destruct (Z.eqb_spec sc 0) as [->|H0]; [|destruct (Z.eqb_spec sc 0xff) as [->|H1]]; cbn [orb] in *.
  1,2: apply (twp_mono _ (fun _ d1 => KInv d1 /\ key_down d1 = key_down d /\ prev_scancode d1 = prev_scancode d));
    [|intros [] d1 (HK1 & E1 & E2); specialize (IH d1 HK1); rewrite E1, E2 in IH; exact (IH HP)].
  1,2: unfold do_scancode; apply twp_bind, twp_gets, twp_bind; eapply twp_mono; [|intros [] d1 H; exact (twp_ret tt _ d1 H)]; destruct (negb _); [|by apply twp_ret];
    apply twp_bind, twp_modify; eapply twp_mono; [apply kbd_init_ok|done]; destruct HK as [[] ? ? ? []]; by split; [split|..].
  pose proof (do_scancode_ok peek sc d HK Hsc H0 H1) as Hstep. destruct (translated (prev_scancode d) sc) as [[c|] prev]; cbv zeta in Hstep.
  - destruct HP as [HP1 HP2]. eapply twp_mono; [by apply Hstep|]. intros [] d1 (HK1 & <- & E1). cbn [fold_left]. rewrite <- E1 in *. by apply IH.
  - eapply twp_mono; [by apply Hstep|]. intros [] d1 (HK1 & <- & E1). rewrite <- E1 in *. by apply IH.
Qed.

Lemma zeroed_ok : KInv zeroed.
Proof.
  split; [|done..]. split; [done| |done|].
  - intros v Hv. change (k_down zeroed) with (replicate 9 0). change (key_down zeroed) with 0. by rewrite lookup_replicate_2, count_none by lia.
  - intros v _. change (shift_state zeroed) with 0. change (key_down zeroed) with 0. by rewrite Z.bits_0, count_none.
Qed.

(** The keys determine the counters. *)
Lemma recounts_unique d d' : recounts d d' -> tracked keycodes d -> tracked keycodes d' -> d' = d.
Proof.
  intros HR [L1 C1 P1 S1] [L2 C2 P2 S2]. pose proof (recounts_key_down _ _ HR) as Ek. rewrite Ek in C2, S2.
  assert (k_down d' = k_down d) as E1.
  { apply list_eq_same_length with (n := 9%nat); [done|done|]. intros i x y Hi Hx Hy.
    specialize (C1 (Z.of_nat i) ltac:(lia)). specialize (C2 (Z.of_nat i) ltac:(lia)). rewrite Nat2Z.id in C1, C2. congruence. }
  assert (shift_state d' = shift_state d) as E2 by (apply Z.bits_inj'; intros i Hi; by rewrite S1, S2).
  destruct HR as (ss & ks & ->). cbn in E1, E2. subst. by destruct d.
Qed.

(** C33: the driver keeps track of the modifiers: after any sequence of scancodes in
    which only keys that are down are released, it has not failed, the keys it
    takes for down are those that are, a modifier is on exactly when one of its
    keys is down, and recounting the keys would change nothing. *)
Theorem modifiers_tracked peek l : Forall (fun sc => 0 <= sc < 256) l -> paired 0 (key_events 0 l) ->
  exists d, scancodes peek l zeroed = Ok (tt, d) /\ key_down d = fold_left move_key (key_events 0 l) 0 /\
    (forall v, 0 <= v -> Z.testbit (shift_state d) v = true <-> exists c, 0 <= c < 256 /\ Z.testbit (key_down d) c = true /\ modifier c = Some v) /\
    compute_shiftstate d = Ok (tt, d).
Proof.
  intros Hl HP. destruct (scancodes_ok peek l zeroed zeroed_ok Hl HP) as ([] & d & E & HK & Hk). exists d. split_and!; [done|done| |].
  - intros v Hv. rewrite (tr_state _ _ (ki_tracked _ HK)) by done. rewrite Z.ltb_lt, count_pos. unfold keycodes.
    split; intros (c & Hc & H); exists c; (split; [apply elem_of_seqZ in Hc || apply elem_of_seqZ; lia|done]).
  - destruct (compute_shiftstate_ok d (tr_length _ _ (ki_tracked _ HK))) as ([] & d' & E' & HR & HT). rewrite E'. do 2 f_equal.
    apply recounts_unique; [done| |done]. apply HK.
Qed.
Lemma modifiers_tracked_witness : exists d, scancodes (fun _ => 0) [0x2a; 0x1e; 0xe0; 0x38; 0x9e; 0xaa] zeroed = Ok (tt, d) /\ key_down d = Z.setbit 0 100 /\ shift_state d = 2.
Proof.
  destruct (modifiers_tracked (fun _ => 0) [0x2a; 0x1e; 0xe0; 0x38; 0x9e; 0xaa]) as (d & E & Hk & _ & _).
  - repeat constructor; lia.
  - vm_compute. repeat split; discriminate.
  - exists d. split; [exact E|]. split; [rewrite Hk; vm_compute; reflexivity|]. vm_compute in E. injection E as <-. reflexivity.
Defined.

(** ** Typing *)

(** The first key of a map with the character [c]. *)
Definition key_of (m : list Z) (c : Z) : option Z :=
  match list_find (fun x => x = Z.lor 0xf000 c \/ x = Z.lor 0xfb00 c) m with Some (i, _) => Some (Z.of_nat i) | None => None end.

(** The scancodes of a character: its key is pressed and released, alone or with
    Shift, AltGr or Control held down. *)
Definition strokes (c : Z) : list Z :=
  match key_of plain_map c, key_of shift_map c, key_of altgr_map c, key_of ctrl_map c with
  | Some k, _, _, _ => [k; k + 0x80]
  | None, Some k, _, _ => [0x2a; k; k + 0x80; 0xaa]
  | None, None, Some k, _ => [0xe0; 0x38; k; k + 0x80; 0xe0; 0xb8]
  | None, None, None, Some k => [0x1d; k; k + 0x80; 0x9d]
  | None, None, None, None => []
  end.

(** The driver when no key is down. *)
Definition at_rest : driver := set_tty true (set_initialized true (set_tasklet_enabled true (set_ledstate 0 (set_kbd kbd0 zeroed)))).

(** Interrupts one after the other, with all they send. *)
Fixpoint scans (peek : Z -> Z) (l : list Z) (d : driver) : result (list (list Z) * driver) :=
  match l with
  | [] => Ok ([], d)
  | sc :: l =>
      match scan peek sc d with
      | Ok (out, d) => match scans peek l d with Ok (out', d) => Ok (out ++ out', d) | Err e => Err e end
      | Err e => Err e
      end
  end.

Definition ascii : list Z := seqZ 1 127.

(** The first key also sets the driver up. *)
Lemma type_char peek : Forall (fun c => scans peek (strokes c) at_rest = Ok ([[c]], at_rest) /\ scans peek (strokes c) zeroed = Ok ([[c]], at_rest)) ascii.
Proof.
  let l := eval vm_compute in ascii in change ascii with l.
  repeat (apply Forall_cons; split; [vm_compute; split; reflexivity|]). by apply Forall_nil.
Qed.

Lemma scans_app peek l l' d out d1 out' d2 : scans peek l d = Ok (out, d1) -> scans peek l' d1 = Ok (out', d2) -> scans peek (l ++ l') d = Ok (out ++ out', d2).
Proof.
  revert d out. induction l as [|sc l IH]; intros d out; cbn [scans app]; [by intros [= <- <-]|].
  destruct (scan peek sc d) as [[o d3]|]; [|done]. destruct (scans peek l d3) as [[o' d4]|] eqn:E; [|done].
  intros [= <- <-] E'. rewrite (IH d3 o' E E'). by rewrite app_assoc.
Qed.

Lemma type_text peek text : Forall (fun c => 1 <= c < 128) text ->
  scans peek (concat (map strokes text)) at_rest = Ok (map (fun c => [c]) text, at_rest).
Proof.
  induction 1 as [|c text Hc Ht IH]; [done|]. cbn [map concat]. eapply (scans_app peek _ _ _ [[c]]); [|exact IH].
  apply (proj1 (Forall_forall _ _) (type_char peek)), elem_of_seqZ. lia.
Qed.

Lemma type_text_first peek c text : Forall (fun c => 1 <= c < 128) (c :: text) ->
  scans peek (concat (map strokes (c :: text))) zeroed = Ok (map (fun c => [c]) (c :: text), at_rest).
Proof.
  intros [Hc Ht]%Forall_cons. cbn [map concat]. eapply (scans_app peek _ _ _ [[c]]); [|by apply type_text].
  apply (proj1 (Forall_forall _ _) (type_char peek)), elem_of_seqZ. lia.
Qed.
