(* ===== verification/Machine.v ===== *)
(** * The machine (kernel/syscall_kernel.c, kernel/time.c, kernel/keyboard.c,
      user/lib/syscall_user.c)

    All parts of the kernel in one state, and what an interrupt does to it: the
    clock interrupt with its display, a system call given by the registers, a
    page fault.  The stubs of the user library and the dispatcher agree on
    numbers and registers. *)

From S2P Require Import Prelude Queue Memory Cstring Format Mmu Kernel Process MessageQueue Semaphore System Screen Info Hash SharedMemory Processor Interrupts Keymap Kbd.

Local Open Scope st_scope.

(** ** State *)

(** kernel/keyboard.c, with the driver; nothing in the kernel writes [readchar]. *)
Record keyboard := mk_keyboard { CONSOLE_ECHO : Z; readchar : Z; drv : Kbd.driver }.

Record machine (S : Type) := mk_machine { kern : kernel S; screen : console; shared : shm; clk : clock; kbd : keyboard; sent : port_log }.
Arguments mk_machine {S}.
Arguments kern {S} m. Arguments screen {S} m. Arguments shared {S} m. Arguments clk {S} m. Arguments kbd {S} m. Arguments sent {S} m.

(** Up to [2 ^ n] rounds of a loop that ends with a result. *)
Fixpoint until {A R} (n : nat) (round : A -> A + R) (a : A) : A + R :=
  match n with
  | O => round a
  | Datatypes.S n' => match until n' round a with inl a' => until n' round a' | inr r => inr r end
  end.

(** Bytes and strings of the current process, through its page tables.  A string
    of more than [2 ^ 32] bytes has no end. *)
Definition load_user8 (s : mmu) (va : Z) : result Z :=
  match translate (memory s) (cr3 s) va with Some pa => Ok (load8 (memory s) pa) | None => Err Faulted end.

Definition string_round (s : mmu) (x : list Z * Z) : (list Z * Z) + result (list Z) :=
  match load_user8 s x.2 with
  | Err e => inr (Err e)
  | Ok b => if b =? 0 then inr (Ok (rev x.1)) else inl (b :: x.1, u32 (x.2 + 1))
  end.
Definition user_string (s : mmu) (va : Z) : result (list Z) :=
  match until 32 (string_round s) ([], va) with inl _ => Err Diverged | inr r => r end.

Fixpoint user_bytes (s : mmu) (n : nat) (va : Z) : result (list Z) :=
  match n with
  | O => Ok []
  | Datatypes.S n' =>
      match load_user8 s va with
      | Err e => Err e
      | Ok b => match user_bytes s n' (u32 (va + 1)) with Ok l => Ok (b :: l) | Err e => Err e end
      end
  end.

(** ** Requests *)

(** What the dispatcher makes of the registers; pointers are addresses. *)
Inductive request :=
| RStart (name ssize prio arg : Z)
| RCall (c : call)
| RConsWrite (str size : Z) | RConsRead (str len : Z) | RConsEcho (on : Z)
| RClockSettings (quartz ticks : Z)
| RSysInfo
| RShmCreate (key : Z) | RShmAcquire (key : Z) | RShmRelease (key : Z).

(** The numbers are those of shared/syscall_nums.h; [(int)param] is [s32];
    [dispatch] narrows to [short]. *)
Definition decode (syscall_num param1 param2 param3 param4 : Z) : option request :=
  match syscall_num with
  | 0 => Some (RStart param1 param2 (s32 param3) param4)
  | 1 => Some (RCall GETPID)
  | 2 => Some (RCall (GETPRIO (s32 param1)))
  | 3 => Some (RCall (CHPRIO (s32 param1) (s32 param2)))
  | 4 => Some (RCall (KILL (s32 param1)))
  | 5 => Some (RCall (WAITPID (s32 param1) param2))
  | 6 => Some (RCall (EXIT (s32 param1)))
  | 7 => Some (RConsWrite param1 param2)
  | 8 => Some (RConsRead param1 param2)
  | 9 => Some (RConsEcho (s32 param1))
  | 10 => Some (RCall (SCOUNT (s32 param1)))
  | 11 => Some (RCall (SCREATE (s32 param1)))
  | 12 => Some (RCall (SDELETE (s32 param1)))
  | 13 => Some (RCall (SIGNAL (s32 param1)))
  | 14 => Some (RCall (SIGNALN (s32 param1) (s32 param2)))
  | 15 => Some (RCall (SRESET (s32 param1) (s32 param2)))
  | 16 => Some (RCall (TRY_WAIT (s32 param1)))
  | 17 => Some (RCall (WAIT (s32 param1)))
  | 18 => Some (RCall (PCOUNT (s32 param1) param2))
  | 19 => Some (RCall (PCREATE (s32 param1)))
  | 20 => Some (RCall (PDELETE (s32 param1)))
  | 21 => Some (RCall (PRECEIVE (s32 param1) param2))
  | 22 => Some (RCall (PRESET (s32 param1)))
  | 23 => Some (RCall (PSEND (s32 param1) (s32 param2)))
  | 24 => Some (RClockSettings param1 param2)
  | 25 => Some (RCall CURRENT_CLOCK)
  | 26 => Some (RCall (WAIT_CLOCK param1))
  | 27 => Some RSysInfo
  | 28 => Some (RShmCreate param1)
  | 29 => Some (RShmAcquire param1)
  | 30 => Some (RShmRelease param1)
  | _ => None
  end.

(** A null pointer passes. *)
Definition valid_user_address (address : Z) : bool :=
  if negb (address =? 0) && (u32 address <? 0x4000000) then false else true.

(** ** The user library *)

(** The call of __syscall each stub makes: the number and the arguments, as the
    words pushed.  cons_read passes no argument.  The stubs of the semaphores are
    under WITH_SEM, those of the messages under WITH_MSG, which the build of the
    library selects. *)
Definition stub (r : request) : Z * list Z :=
  match r with
  | RStart name ssize prio arg => (0, [name; ssize; u32 prio; arg])
  | RCall c =>
      match c with
      | START _ _ _ _ => (0, [])
      | GETPID => (1, [])
      | GETPRIO pid => (2, [u32 pid])
      | CHPRIO pid newprio => (3, [u32 pid; u32 newprio])
      | KILL pid => (4, [u32 pid])
      | WAITPID pid retval => (5, [u32 pid; retval])
      | EXIT retval => (6, [u32 retval])
      | SCOUNT sem => (10, [u32 sem])
      | SCREATE count => (11, [u32 count])
      | SDELETE sem => (12, [u32 sem])
      | SIGNAL sem => (13, [u32 sem])
      | SIGNALN sem count => (14, [u32 sem; u32 count])
      | SRESET sem count => (15, [u32 sem; u32 count])
      | TRY_WAIT sem => (16, [u32 sem])
      | WAIT sem => (17, [u32 sem])
      | PCOUNT fid count => (18, [u32 fid; count])
      | PCREATE count => (19, [u32 count])
      | PDELETE fid => (20, [u32 fid])
      | PRECEIVE fid message => (21, [u32 fid; message])
      | PRESET fid => (22, [u32 fid])
      | PSEND fid message => (23, [u32 fid; u32 message])
      | CURRENT_CLOCK => (25, [])
      | WAIT_CLOCK wakeup => (26, [wakeup])
      end
  | RConsWrite str size => (7, [str; size])
  | RConsRead _ _ => (8, [])
  | RConsEcho on => (9, [u32 on])
  | RClockSettings quartz ticks => (24, [quartz; ticks])
  | RSysInfo => (27, [])
  | RShmCreate key => (28, [key])
  | RShmAcquire key => (29, [key])
  | RShmRelease key => (30, [key])
  end.

(** __syscall of the library and __do_interruption: the arguments are copied in
    a zeroed array whose first words go in ebx, ecx, edx, esi and edi. *)
Definition interruption (num : Z) (args : list Z) : Z * Z * Z * Z * Z :=
  (num, nth 0 args 0, nth 1 args 0, nth 2 args 0, nth 3 args 0).

(** Arguments of the types of the stubs. *)
Definition int (x : Z) : Prop := - 2 ^ 31 <= x < 2 ^ 31.
Definition short (x : Z) : Prop := - 2 ^ 15 <= x < 2 ^ 15.
Definition word32 (x : Z) : Prop := 0 <= x < 2 ^ 32.
Definition typed (r : request) : Prop :=
  match r with
  | RStart _ _ prio _ => int prio
  | RCall c =>
      match c with
      | START _ _ _ _ => False
      | GETPID | CURRENT_CLOCK | WAIT_CLOCK _ => True
      | GETPRIO x | KILL x | EXIT x | SCOUNT x | SDELETE x | SIGNAL x | TRY_WAIT x | WAIT x
      | PCREATE x | PDELETE x | PRESET x | WAITPID x _ | PCOUNT x _ | PRECEIVE x _ => int x
      | SCREATE x => short x
      | CHPRIO x y | PSEND x y => int x /\ int y
      | SIGNALN x y | SRESET x y => int x /\ short y
      end
  | RConsRead str len => str = 0 /\ len = 0
  | RConsEcho x => int x
  | _ => True
  end.

Lemma s32_u32 x : int x -> s32 (u32 x) = x.
Proof.
  intros H. unfold int in H. rewrite <- (swrap_small 32 x) at 2 by lia. unfold swrap, uwrap.
  rewrite Z.add_mod_idemp_l by lia. done.
Qed.
Lemma short_int x : short x -> int x.
Proof. unfold short, int. lia. Qed.

(** C27: the stubs of the user library and the dispatcher of the kernel agree: a
    call with arguments of the declared types, turned into a number and
    registers by the library, is decoded to the same call. *)
Theorem stubs_reach_handlers r : typed r ->
  let '(num, ebx, ecx, edx, esi) := interruption (stub r).1 (stub r).2 in decode num ebx ecx edx esi = Some r.
Proof.
  destruct r as [| [] | | | | | | | |]; cbn; intros H; try done;
    repeat match goal with H : _ /\ _ |- _ => destruct H end; subst; rewrite ?s32_u32 by (done || by apply short_int); done.
Qed.
Lemma stubs_reach_handlers_witness : decode 23 (u32 3) (u32 (-7)) 0 0 = Some (RCall (PSEND 3 (-7))).
Proof. exact (stubs_reach_handlers (RCall (PSEND 3 (-7))) ltac:(unfold typed, int; lia)). Defined.

(** ** Interrupts *)

Section Machine.
Context {S : Type} {ops : QueueOps qid Z S} {C : Config}.
Abbreviation MM := (ST (machine S)).

Definition set_kern (k : kernel S) (m : machine S) : machine S := mk_machine k (screen m) (shared m) (clk m) (kbd m) (sent m).
Definition set_screen (s : console) (m : machine S) : machine S := mk_machine (kern m) s (shared m) (clk m) (kbd m) (sent m).

(** The parts of the machine, each with its own state. *)
Definition in_kernel {A} (f : ST (kernel S) A) : MM A :=
  fun m => match f (kern m) with Ok (a, k) => Ok (a, set_kern k m) | Err e => Err e end.
Definition to_screen (f : console -> console) : MM unit := modify (fun m => set_screen (f (screen m)) m).
Definition to_ports (f : port_log -> port_log) : MM unit :=
  modify (fun m => mk_machine (kern m) (screen m) (shared m) (clk m) (kbd m) (f (sent m))).
Definition to_shared {A} (f : shm -> ST (kernel S) (A * shm)) : MM A :=
  fun m => match f (shared m) (kern m) with
           | Ok ((a, sh), k) => Ok (a, mk_machine k (screen m) sh (clk m) (kbd m) (sent m))
           | Err e => Err e end.
Definition checked {A} (f : machine S -> result A) : MM A :=
  fun m => match f m with Ok a => Ok (a, m) | Err e => Err e end.

(** A function of info.c: it reads the kernel and writes the screen. *)
Definition show (f : console -> ST (kernel S) console) : MM unit :=
  fun m => match f (screen m) (kern m) with Ok (s, k) => Ok (tt, set_screen s (set_kern k m)) | Err e => Err e end.

(** printf in the kernel: each call of console_putbytes reaches the screen. *)
Definition kprintf (str : Z -> list Z) (fmt args : list Z) : MM unit :=
  let! calls := checked (fun _ => vprintf str fmt args) in
  to_screen (fun s => fold_left (fun s bytes => console_putbytes bytes s) calls s).

(** [outb(0x20, 0x20)] *)
Definition acknowledge : MM unit := to_ports (out_byte 0x20 0x20).

(** The display of tic_PIT: the clock, then the banner. *)
Definition display_tick : MM unit :=
  do! (fun m => match show_time (time_count (kern m)) (clk m) (screen m) with
                | Ok (c, s) => Ok (tt, mk_machine (kern m) s (shared m) c (kbd m) (sent m))
                | Err e => Err e end) in
  do! show write_process_table in
  do! show write_queue_table in
  do! show write_activable in
  show write_finished.

(** The whole of tic_PIT. *)
Definition timer_interrupt : MM control :=
  do! acknowledge in
  do! in_kernel count_tick in
  do! display_tick in
  in_kernel schedule_tick.

(** "Page Fault occurred\n" *)
Definition pagefault_message : list Z := [80; 97; 103; 101; 32; 70; 97; 117; 108; 116; 32; 111; 99; 99; 117; 114; 114; 101; 100; 10].
Definition pagefault_interrupt : MM control :=
  do! kprintf (fun _ => []) pagefault_message [] in
  in_kernel (exit 0).

Definition gpf_interrupt : MM control := fail Panicked.

(** ** System calls *)

(** kernel/keyboard.c *)
Definition keyboard_data (str : list Z) : MM unit :=
  let! k := gets kbd in
  if negb (CONSOLE_ECHO k =? 0) then kprintf (fun _ => str) [37; 115] [1] else ret tt.

(** The byte read from port 0x60 is an argument.  The driver calls keyboard_data
    while it runs; printing does not touch its state. *)
Definition keyboard_interrupt (scancode : Z) : MM unit :=
  let! out := (fun m =>
    match Kbd.scan (load32 (memory (vm (kern m)))) scancode (drv (kbd m)) with
    | Ok (out, d) => Ok (out, mk_machine (kern m) (screen m) (shared m) (clk m) (mk_keyboard (CONSOLE_ECHO (kbd m)) (readchar (kbd m)) d) (sent m))
    | Err e => Err e end) in
  do! for_each out keyboard_data in
  acknowledge.

Definition console_echo (on : Z) : MM unit :=
  modify (fun m => mk_machine (kern m) (screen m) (shared m) (clk m) (mk_keyboard (u8 on) (readchar (kbd m)) (drv (kbd m))) (sent m)).

(** [while (readchar == 0);] never ends when it starts with 0. *)
Definition console_readchar : MM Z :=
  let! k := gets kbd in
  if readchar k =? 0 then fail Diverged else
  do! modify (fun m => mk_machine (kern m) (screen m) (shared m) (clk m) (mk_keyboard (CONSOLE_ECHO k) 0 (drv k)) (sent m)) in
  ret (s8 (readchar k)).
Definition console_readline (s len : Z) : Z := 0.

(** The string at [key], which the code reads when [needed]. *)
Definition read_key (needed : bool) (key : Z) : MM unit :=
  if needed then let! _ := checked (fun m => user_string (vm (kern m)) key) in ret tt else ret tt.
Definition user_strings (m : machine S) (va : Z) : list Z :=
  match user_string (vm (kern m)) va with Ok s => s | Err _ => [] end.

(** "Shared memory for key %s not found\n" *)
Definition missing_key : list Z :=
  [83; 104; 97; 114; 101; 100; 32; 109; 101; 109; 111; 114; 121; 32; 102; 111; 114; 32; 107; 101; 121; 32; 37; 115; 32; 110; 111; 116; 32; 102; 111; 117; 110; 100; 10].

(** The message of shm_acquire is printed before the page is mapped, on another
    part of the state. *)
Definition perform (r : request) : MM control :=
  match r with
  | RStart name ssize prio arg =>
      if 0x10000000 <? ssize then ret (Return (-1)) else
      let! nm := checked (fun m => user_string (vm (kern m)) name) in
      in_kernel (start nm ssize prio arg)
  | RCall c => in_kernel (dispatch c)
  | RConsWrite str size =>
      if negb (valid_user_address str) then ret (Return 0) else
      let! bytes := checked (fun m => user_bytes (vm (kern m)) (Z.to_nat (s32 size)) str) in
      do! to_screen (console_putbytes bytes) in
      ret (Return 0)
  | RConsRead s len => ret (Return (console_readline s len))
  | RConsEcho on => do! console_echo on in ret (Return 0)
  | RClockSettings quartz ticks =>
      let! c := gets (fun m => clock_settings (clk m)) in
      do! in_kernel (lift_mmu (store_user32 quartz c.1)) in
      do! in_kernel (lift_mmu (store_user32 ticks c.2)) in
      ret (Return 0)
  | RSysInfo => do! show sys_info in ret (Return 0)
  | RShmCreate key =>
      let! sh := gets shared in
      do! read_key ((NUMBER_SHARED_PAGES sh <? MAX_SHARED_PAGES) && negb (key =? 0)) key in
      let! user := gets user_strings in
      let! p := to_shared (shm_create user key) in
      ret (Return (s32 p))
  | RShmAcquire key =>
      do! read_key true key in
      let! user := gets user_strings in
      let! p := to_shared (fun sh => let! p := shm_acquire user key sh in ret (p, sh)) in
      do! (if p =? 0 then kprintf (fun _ => user key) missing_key [1] else ret tt) in
      ret (Return (s32 p))
  | RShmRelease key =>
      let! sh := gets shared in
      do! read_key (negb (NUMBER_SHARED_PAGES sh <? 0)) key in
      let! user := gets user_strings in
      do! to_shared (fun sh => let! sh := shm_release user key sh in ret (tt, sh)) in
      ret (Return 0)
  end.

(** The registers eax, ebx, ecx, edx, esi; edi is not used. *)
Definition __syscall (eax ebx ecx edx esi : Z) : MM control :=
  do! acknowledge in
  match decode (s32 eax) ebx ecx edx esi with
  | Some r => perform r
  | None => fail Panicked
  end.

Inductive interrupt := Clock | Key (scancode : Z) | Int49 (eax ebx ecx edx esi : Z) | PageFaultTrap | GeneralProtection.

Definition handle_interrupt (i : interrupt) : MM control :=
  match i with
  | Clock => timer_interrupt
  | Key scancode => do! keyboard_interrupt scancode in ret (Return 0)
  | Int49 eax ebx ecx edx esi => __syscall eax ebx ecx edx esi
  | PageFaultTrap => pagefault_interrupt
  | GeneralProtection => gpf_interrupt
  end.

(** An interrupt of the current process, until a process is back in user mode. *)
Definition machine_step (i : interrupt) : MM (option Z) :=
  let! c := handle_interrupt i in
  match c with
  | Return v => ret (match i with Int49 _ _ _ _ _ => Some v | _ => None end)
  | Resume c => in_kernel (resume c)
  end.
End Machine.
