(* ===== verification/MachineProps.v ===== *)
(** * Every interrupt keeps the machine consistent

    The invariant of the kernel, and that the table of the shared areas is a
    block of its own, hold from one interrupt to the next: the clock interrupt
    with its display, every system call by its number, a page fault. *)

From S2P Require Import Prelude Queue Memory Mmu Kernel Process MessageQueue Semaphore System Screen Info Invariant Preserve Progress KernelProps Display Hash SharedMemory SharedProps Interrupts Keymap Kbd Machine.
Import (hints) Hash.

Local Open Scope st_scope.

Abbreviation LM := (machine (gmap qid (list Z))).

(** ** Blocks of other owners *)

Section Foreign.
Implicit Types (k : LK) (sh : shm).

Definition foreign_of k : Foreign := filter (fun x => foreign_owner x.2.2 = true) (heap k).

Lemma inv_less {F : Foreign} k : Inv k -> @Inv no_foreign k.
Proof.
  intros [[HT HQ HP HO HN HS HH HB HHe HPi HLo HQt HMb HSt HSb HI _] Hc]. split; [by split|done].
Qed.

Lemma inv_more k : Inv k -> @Inv (foreign_of k) k.
Proof.
  intros [[HT HQ HP HO HN HS HH HB HHe HPi HLo HQt HMb HSt HSb HI _] Hc]. split; [|done]. split; try done.
  intros a b. unfold foreign, foreign_of. by intros [? ?]%map_lookup_filter_Some.
Qed.

(** A step that keeps the invariant whatever the foreign blocks are keeps these
    blocks. *)
Lemma foreign_kept k k' a n o : @Inv (foreign_of k) k' -> heap k !! a = Some (n, o) -> foreign_owner o = true -> heap k' !! a = Some (n, o).
Proof. intros [HC _] Ha Ho. apply (c_foreign _ _ HC a (n, o)). unfold foreign, foreign_of. by apply map_lookup_filter_Some. Qed.

(** The slots of the table of names are in a block of their own. *)
Definition table_block k (h : Hash.hash_t Z) : Prop := Hash.table_addr h = 0 \/ exists n, heap k !! Hash.table_addr h = Some (n, OTable).
Definition shm_ok sh k : Prop := from_option (table_block k) True (hash_head sh).

Lemma shm_ok_kept sh k k' : @Inv (foreign_of k) k' -> shm_ok sh k -> shm_ok sh k'.
Proof.
  intros HI. unfold shm_ok, table_block. destruct (hash_head sh) as [h|]; [|done]. simpl.
  intros [?|[n Hn]]; [by left|]. right. exists n. by apply (foreign_kept k k').
Qed.

(** Allocating, and releasing a foreign block. *)
Lemma inv_alloc k z b : Inv k -> heap k !! z = None -> 0 < z < MEMORY_START -> Inv (set_heap (<[z := b]> (heap k)) k).
Proof. intros [HC Hc] Hz Hr. split; [by apply core_alloc|done]. Qed.

Lemma inv_free k z n o : Inv k -> heap k !! z = Some (n, o) -> foreign_owner o = true -> Inv (set_heap (delete z (heap k)) k).
Proof.
  intros [[HT HQ HP HO HN HS HH HB HHe HPi HLo HQt HMb HSt HSb HI _] Hc] Hz Ho. split; [|done].
  assert (forall x m p, heap k !! x = Some (m, p) -> foreign_owner p = false -> delete z (heap k) !! x = heap k !! x) as Hkeep.
  { intros x m p Hx Hp. rewrite lookup_delete_ne; [done|]. intros <-. congruence. }
  split; try done; simpl.
  - intros a p Hp. destruct (HB a p Hp) as [(H1 & H2 & H3 & H4)|?]; [left|by right].
    split_and!; simpl; [by rewrite (Hkeep _ _ _ H1)|by rewrite (Hkeep _ _ _ H2)| |done]. intros Hn. by rewrite (Hkeep _ _ _ (H3 Hn)); [apply H3|].
  - intros a b. rewrite lookup_delete_Some. intros [_ Ha]. eauto.
  - intros a q Hq. destruct (HMb a q Hq) as (? & ? & ?). split_and!; simpl; [by erewrite Hkeep|by erewrite Hkeep|done].
  - intros a s Hs. destruct (HSb a s Hs). split; [by erewrite Hkeep|done].
Qed.

Lemma inv_set_vm k v : Inv k -> Inv (set_vm v k).
Proof. intros [HC Hc]. split; [by apply core_set_vm|done]. Qed.
End Foreign.

(** ** The shared areas *)

Section Areas.
Context {C : Config} {L : MallocLaws C}.
Implicit Types (k : LK) (sh : shm) (h : Hash.hash_t Z).

(** [wp_alloc] for the invariant. *)
Lemma alloc_ok n o k : Inv k -> wp (mem_alloc n o) (fun z k' => Inv k' /\ (forall h, table_block k h -> table_block k' h) /\
  (z <> 0 -> heap k' !! z = Some (n, o) /\ heap k !! z = None)) k.
Proof.
  intros HI. apply wp_mem_alloc; [by split_and!|]. intros z Hz Hf Hr. split_and!; [by apply inv_alloc| |].
  - intros h [?|[n' Hn]]; [by left|]. right. exists n'. simpl. rewrite lookup_insert_ne; [done|]. congruence.
  - intros _. simpl. by rewrite lookup_insert_eq.
Qed.

Definition table_post (x : Z * Hash.hash_t Z) k : Prop := Inv k /\ table_block k x.2.

Lemma resize_ok h a b k : Inv k -> table_block k h -> Hash.table_addr h <> 0 -> wp (Hash.resize h a b) table_post k.
Proof.
  intros HI [?|[n0 Hn]] H0; [done|]. unfold Hash.resize, Hash.hash_initialize. do 2 apply wp_bind. eapply wp_mono; [by apply alloc_ok|].
  intros z k1 (HI1 & HT & Hz). destruct (Z.eqb_spec z 0) as [->|Hz0]; apply wp_ret; cbn beta iota.
  { change (-1 =? -1) with true. apply wp_ret. split; [done|]. apply HT. right. by exists n0. }
  change (0 =? -1) with false. cbn beta iota. destruct (Hz Hz0) as [Hz1 Hz2]. apply wp_bind. eapply wp_mono; [apply copy_same|]. intros h' k' [-> Ea].
  assert (Hash.table_addr h' = z) as Ez by (rewrite Ea; done).
  apply wp_bind. unfold wp at 1, mem_free. destruct (_ =? 0); [apply wp_ret; split; [done|right; cbn [snd]; rewrite Ez; by eexists]|].
  case_bool_decide; [|done]. destruct (HT h) as [?|[n1 Hn1]]; [by right; exists n0|done|].
  apply wp_ret. split; [by eapply inv_free|]. right. cbn [snd]. rewrite Ez. eexists. simpl. rewrite lookup_delete_ne; [done|]. intros E. congruence.
Qed.

Lemma update_ok h k : Inv k -> table_block k h -> Hash.table_addr h <> 0 -> wp (Hash.hash_update h) table_post k.
Proof.
  intros HI HT H0. unfold Hash.hash_update. destruct (_ <=? _).
  - destruct (_ <? _); [by apply wp_ret|by apply resize_ok].
  - destruct (_ && _); [by apply resize_ok|by apply wp_ret].
Qed.

(** Setting and deleting a key. *)
Lemma set_in_ok h a v k : Inv k -> table_block k h -> Hash.table_addr h <> 0 -> wp (Hash.set_in h a v) table_post k.
Proof.
  intros HI HT H0. unfold Hash.set_in. apply wp_bind, wp_lift. intros i _. destruct (Hash.is_active _); [by apply wp_ret|by apply update_ok].
Qed.
Lemma del_in_ok h a k : Inv k -> table_block k h -> Hash.table_addr h <> 0 -> wp (Hash.del_in h a) table_post k.
Proof.
  intros HI HT H0. unfold Hash.del_in. apply wp_bind, wp_lift. intros i _. destruct (negb _); [by apply wp_ret|by apply update_ok].
Qed.

Definition shm_post (sh : shm) k : Prop := Inv k /\ shm_ok sh k.

Lemma table_of_keys_wp user sh Q k : shm_ok sh k ->
  (hash_head sh = None -> Q None k) ->
  (forall h, Hash.table_addr h <> 0 -> table_block k h -> Q (Some h) k) -> wp (table_of_keys user sh) Q k.
Proof.
  intros HS H1 H2. unfold table_of_keys, shm_ok in *. destruct (hash_head sh) as [h|]; [|by apply wp_ret, H1].
  destruct (Z.eqb_spec (Hash.table_addr h) 0); [apply wp_fail|]. by apply wp_ret, H2.
Qed.

Lemma find_key_wp user key sh Q k : (forall v, Q v k) -> wp (find_key user sh key) Q k.
Proof.
  intros HQ. unfold find_key, table_of_keys. apply wp_bind. destruct (hash_head sh) as [h|]; [|by apply wp_ret, wp_lift; auto].
  destruct (_ =? 0); [apply wp_fail|]. apply wp_ret, wp_lift. auto.
Qed.

Lemma on_table h f k : wp (f h) table_post k -> wp (Hash.on_map (Some h) f) (fun x k' => Inv k' /\ from_option (table_block k') True x.2) k.
Proof. intros H. unfold Hash.on_map. apply wp_bind. eapply wp_mono; [done|]. intros [r h'] k' [HI HT]. by apply wp_ret. Qed.

Lemma lift_mmu_ok {A} (f : MMU A) sh k : shm_post sh k -> wp (lift_mmu f) (fun _ => shm_post sh) k.
Proof. intros [HI HS]. apply wp_lift_mmu. intros x v. split; [by apply inv_set_vm|done]. Qed.

Lemma shm_create_ok user key sh k : shm_post sh k -> wp (shm_create user key sh) (fun x k' => shm_post x.2 k') k.
Proof.
  intros HP. unfold shm_create. destruct (_ <=? _); [by apply wp_ret|]. set (sh1 := mk_shm _ _ _).
  assert (shm_post sh1 k) as HP1 by done. destruct (key =? 0); [by apply wp_ret|].
  apply wp_bind, find_key_wp. intros v. destruct (negb _); [by apply wp_ret|].
  apply wp_bind. eapply wp_mono; [by apply (lift_mmu_ok _ sh1)|]. intros p k1 [HI1 HS1].
  apply wp_bind. eapply wp_mono; [by apply alloc_ok|]. intros z k2 (HI2 & HT & _). destruct (z =? 0); [apply wp_fail|].
  assert (forall ks, shm_ok (mk_shm (NUMBER_SHARED_PAGES sh1) (hash_head sh1) ks) k2) as HS2.
  { intros ks. unfold shm_ok in *. simpl in *. destruct (hash_head sh); [by apply HT|done]. }
  apply wp_bind, table_of_keys_wp; [done|intros E|intros h Ha Hb].
  - apply wp_bind, wp_ret, wp_ret. by split.
  - apply wp_bind. eapply wp_mono; [by apply on_table, set_in_ok|]. intros [r m] k3 [HI3 Hm]. by apply wp_ret.
Qed.

Lemma shm_acquire_ok user key sh k : shm_post sh k -> wp (shm_acquire user key sh) (fun _ k' => shm_post sh k') k.
Proof.
  intros HP. unfold shm_acquire. apply wp_bind, find_key_wp. intros v. apply wp_bind.
  eapply wp_mono; [by apply (lift_mmu_ok _ sh)|]. intros [] k1 H1. by apply wp_ret.
Qed.

Lemma shm_release_ok user key sh k : shm_post sh k -> wp (shm_release user key sh) shm_post k.
Proof.
  intros HP. unfold shm_release. destruct (_ <? _); [by apply wp_ret|]. set (sh1 := mk_shm _ _ _).
  assert (shm_post sh1 k) as HP1 by done. apply wp_bind, find_key_wp. intros v. destruct (negb _); [|by apply wp_ret].
  apply wp_bind. eapply wp_mono; [by apply (lift_mmu_ok _ sh1)|]. intros [] k1 [HI1 HS1].
  apply wp_bind, table_of_keys_wp; [done|intros E|intros h Ha Hb].
  - apply wp_bind, wp_ret, wp_ret. by split.
  - apply wp_bind. eapply wp_mono; [by apply on_table, del_in_ok|]. intros [r m] k3 [HI3 Hm]. by apply wp_ret.
Qed.
End Areas.

(** ** Interrupts *)

Section Interrupts.
Context {C : Config} {L : MallocLaws C}.
Implicit Types (m : LM) (k : LK).

(** The machine is consistent. *)
Definition MInv m : Prop := shm_post (shared m) (kern m).

Lemma wp_in_kernel {A} (f : ST LK A) Q m : wp f (fun a k => Q a (set_kern k m)) (kern m) -> wp (in_kernel f) Q m.
Proof. unfold wp, in_kernel. by destruct (f (kern m)) as [[]|]. Qed.
Lemma wp_to_shared {A} (f : shm -> ST LK (A * shm)) Q m :
  wp (f (shared m)) (fun x k => Q x.1 (mk_machine k (screen m) x.2 (clk m) (kbd m) (sent m))) (kern m) -> wp (to_shared f) Q m.
Proof. unfold wp, to_shared. by destruct (f (shared m) (kern m)) as [[[] ?]|]. Qed.
Lemma wp_checked {A} (f : LM -> result A) Q m : (forall a, Q a m) -> wp (checked f) Q m.
Proof. intros HQ. unfold wp, checked. by destruct (f m). Qed.

(** A computation that leaves the kernel and the shared areas alone. *)
Definition outside {A} (f : ST LM A) : Prop := forall m, wp f (fun _ m' => kern m' = kern m /\ shared m' = shared m) m.

Lemma outside_bind {A B} (f : ST LM A) (g : A -> ST LM B) : outside f -> (forall a, outside (g a)) -> outside (bind f g).
Proof.
  intros Hf Hg m. apply wp_bind. eapply wp_mono; [apply Hf|]. intros a m1 [<- <-]. apply Hg.
Qed.
Lemma outside_modify f : (forall m : LM, kern (f m) = kern m /\ shared (f m) = shared m) -> outside (modify f).
Proof. intros H m. apply wp_modify, H. Qed.
Lemma outside_ret {A} (a : A) : outside (ret a).
Proof. intros m. by apply wp_ret. Qed.
Lemma outside_checked {A} (f : LM -> result A) : outside (checked f).
Proof. intros m. by apply wp_checked. Qed.
Lemma outside_kprintf str fmt args : outside (kprintf str fmt args).
Proof. apply outside_bind; [apply outside_checked|]. intros calls. by apply outside_modify. Qed.
Lemma outside_read_key b key : outside (read_key b key).
Proof. unfold read_key. destruct b; [|apply outside_ret]. apply outside_bind; [apply outside_checked|]. intros. apply outside_ret. Qed.

Lemma outside_keyboard_data str : outside (keyboard_data str).
Proof.
  intros m. unfold keyboard_data. apply wp_bind, wp_gets. destruct (negb _); [apply outside_kprintf|apply outside_ret].
Qed.
Lemma outside_keyboard sc : outside (keyboard_interrupt sc).
Proof.
  apply outside_bind.
  { intros m. unfold wp. destruct (Kbd.scan _ _ _) as [[out d]|]; done. }
  intros out. apply outside_bind; [|intros _; by apply outside_modify].
  induction out as [|s out IH]; [apply outside_ret|]. apply outside_bind; [apply outside_keyboard_data|intros _; exact IH].
Qed.

Lemma wp_outside {A} (f : ST LM A) Q m : outside f -> (forall a m', kern m' = kern m -> shared m' = shared m -> Q a m') -> wp f Q m.
Proof. intros Hf HQ. eapply wp_mono; [apply Hf|]. intros a m' [? ?]. by apply HQ. Qed.

(** A handler of the kernel, whatever the foreign blocks are. *)
Lemma kernel_ok {A} (f : ST LK A) (P : A -> LK -> Prop) m : MInv m ->
  (forall F : Foreign, @Inv F (kern m) -> wp f (fun a k => @Inv F k /\ P a k) (kern m)) ->
  wp (in_kernel f) (fun a m' => MInv m' /\ P a (kern m')) m.
Proof.
  intros [HI HS] Hf. apply wp_in_kernel. eapply wp_mono; [apply (Hf (foreign_of (kern m))), inv_more, HI|].
  intros a k [HI' HP]. split; [|done]. split; [exact (@inv_less _ _ HI')|]. by apply (shm_ok_kept _ (kern m)).
Qed.

Lemma show_outside (f : console -> ST LK console) m Q : MInv m -> (forall k s, Inv k -> paints k s (f s)) ->
  (forall m', kern m' = kern m -> shared m' = shared m -> Q tt m') -> wp (show f) Q m.
Proof.
  intros [HI _] Hf HQ. unfold wp, show. destruct (Hf (kern m) (screen m) HI) as (s' & -> & _). by apply HQ.
Qed.

Lemma minv_eq m m' : kern m' = kern m -> shared m' = shared m -> MInv m -> MInv m'.
Proof. unfold MInv. by intros -> ->. Qed.

Lemma banner_paints k s : Inv k -> paints k s (write_process_table s) /\ paints k s (write_queue_table s) /\
  paints k s (write_activable s) /\ paints k s (write_finished s).
Proof.
  intros [HC _]. destruct (c_heads _ _ HC) as (HA & HF & _).
  split_and!; [by eapply write_process_table_paints|by eapply write_queue_table_paints|by eapply (show_queue_paints k s ∅ QAct)|by eapply (show_queue_paints k s ∅ QFin)].
Qed.

(** The display of the clock interrupt reads the kernel only. *)
Lemma display_ok m : MInv m -> wp display_tick (fun _ m' => kern m' = kern m /\ shared m' = shared m) m.
Proof.
  intros HM. unfold display_tick. apply wp_bind. unfold wp at 1. destruct (show_time _ _ _) as [[c s]|]; [|done].
  set (m1 := mk_machine _ _ _ _ _ _). assert (kern m1 = kern m /\ shared m1 = shared m) as [E1 E2] by done. clearbody m1.
  apply wp_bind, show_outside; [by apply (minv_eq m)|intros k s0 HI; apply (banner_paints k s0 HI)|]. intros m2 K2 S2.
  apply wp_bind, show_outside; [apply (minv_eq m); congruence|intros k s0 HI; apply (banner_paints k s0 HI)|]. intros m3 K3 S3.
  apply wp_bind, show_outside; [apply (minv_eq m); congruence|intros k s0 HI; apply (banner_paints k s0 HI)|]. intros m4 K4 S4.
  apply show_outside; [apply (minv_eq m); congruence|intros k s0 HI; apply (banner_paints k s0 HI)|]. intros m5 K5 S5. split; congruence.
Qed.

Definition MInv_post (r : control) m : Prop := MInv m /\ resumes r (kern m).

Lemma handler_ok (f : ST LK control) m : MInv m -> (forall F : Foreign, @Inv F (kern m) -> wp f Inv_post (kern m)) -> wp (in_kernel f) MInv_post m.
Proof. intros HM Hf. by apply (kernel_ok f resumes). Qed.

Lemma timer_ok m : MInv m -> wp timer_interrupt MInv_post m.
Proof.
  intros HM. unfold timer_interrupt. apply wp_bind, wp_modify, wp_bind.
  eapply wp_mono; [apply (kernel_ok count_tick (fun _ _ => True)); [by apply (minv_eq m)|intros F HI; eapply wp_mono; [by apply count_tick_ok|done]]|].
  intros [] m1 [HM1 _]. apply wp_bind. eapply wp_mono; [by apply display_ok|]. intros [] m2 [E1 E2].
  apply handler_ok; [by apply (minv_eq m1)|]. intros F HI. by apply schedule_tick_ok.
Qed.

Lemma pagefault_ok m : MInv m -> current_pid (kern m) <> 0 -> wp pagefault_interrupt MInv_post m.
Proof.
  intros HM Hc. unfold pagefault_interrupt. apply wp_bind, wp_outside; [apply outside_kprintf|]. intros [] m1 E1 E2.
  apply handler_ok; [by apply (minv_eq m)|]. intros F HI. eapply wp_mono; [apply exit_ok; [done|by rewrite E1]|apply sched_inv_post].
Qed.

Lemma areas_ok {A} (f : shm -> ST LK (A * shm)) Q m : MInv m -> wp (f (shared m)) (fun x k => shm_post x.2 k) (kern m) ->
  (forall a m', MInv m' -> Q a m') -> wp (to_shared f) Q m.
Proof. intros HM Hf HQ. apply wp_to_shared. eapply wp_mono; [exact Hf|]. intros [a sh] k HP. by apply HQ. Qed.

Lemma perform_ok r m : MInv m -> current_pid (kern m) <> 0 -> wp (perform r) MInv_post m.
Proof.
  intros HM Hc. destruct r; cbn [perform].
  - destruct (_ <? ssize); [by apply wp_ret|]. apply wp_bind, wp_checked. intros nm. apply handler_ok; [done|]. intros F HI. by apply start_ok.
  - apply handler_ok; [done|]. intros F HI. by apply dispatch_ok.
  - destruct (negb _); [by apply wp_ret|]. apply wp_bind, wp_checked. intros bytes. by apply wp_bind, wp_modify, wp_ret.
  - by apply wp_ret.
  - by apply wp_bind, wp_modify, wp_ret.
  - apply wp_bind, wp_gets, wp_bind.
    assert (forall (f : MMU unit) m, MInv m -> wp (in_kernel (lift_mmu f)) (fun _ => MInv) m) as Hst.
    { intros f m0 H0. apply wp_in_kernel. eapply wp_mono; [exact (lift_mmu_ok f (shared m0) (kern m0) H0)|by intros]. }
    eapply wp_mono; [by apply Hst|]. intros [] m1 HM1. apply wp_bind. eapply wp_mono; [by apply Hst|]. intros [] m2 HM2. by apply wp_ret.
  - apply wp_bind, show_outside; [done| |].
    + intros k s0 HI. unfold sys_info. apply paints_bind; [apply (banner_paints k s0 HI)|]. intros s1.
      apply paints_bind; [apply (banner_paints k s1 HI)|]. intros s2. apply paints_bind; [apply (banner_paints k s2 HI)|]. intros s3. apply (banner_paints k s3 HI).
    + intros m1 E1 E2. apply wp_ret. split; [by apply (minv_eq m)|done].
  - apply wp_bind, wp_gets, wp_bind, wp_outside; [apply outside_read_key|]. intros [] m1 E1 E2. apply wp_bind, wp_gets, wp_bind.
    apply areas_ok; [by apply (minv_eq m)|apply shm_create_ok; by apply (minv_eq m)|]. intros p m2 HM2. by apply wp_ret.
  - apply wp_bind, wp_outside; [apply outside_read_key|]. intros [] m1 E1 E2. apply wp_bind, wp_gets, wp_bind.
    apply areas_ok; [by apply (minv_eq m)| |].
    + apply wp_bind. eapply wp_mono; [apply shm_acquire_ok; by apply (minv_eq m)|]. intros p k HP. by apply wp_ret.
    + intros p m2 HM2. apply wp_bind, wp_outside; [destruct (p =? 0); [apply outside_kprintf|apply outside_ret]|].
      intros [] m3 E3 E4. apply wp_ret. split; [by apply (minv_eq m2)|done].
  - apply wp_bind, wp_gets, wp_bind, wp_outside; [apply outside_read_key|]. intros [] m1 E1 E2. apply wp_bind, wp_gets, wp_bind.
    apply areas_ok; [by apply (minv_eq m)| |].
    + apply wp_bind. eapply wp_mono; [apply shm_release_ok; by apply (minv_eq m)|]. intros sh k HP. by apply wp_ret.
    + intros [] m2 HM2. by apply wp_ret.
Qed.

(** The interrupts a process raises; the idle process, an endless loop, raises
    none. *)
Definition raised (i : interrupt) : bool := match i with Clock | Key _ => false | _ => true end.

Lemma machine_step_ok i m : MInv m -> (raised i = true -> current_pid (kern m) <> 0) -> wp (machine_step i) (fun _ => MInv) m.
Proof.
  intros HM Hc. unfold machine_step. apply wp_bind. apply (wp_mono _ MInv_post).
  - destruct i as [|sc|eax ebx ecx edx esi| |]; cbn [handle_interrupt]; [by apply timer_ok| | |by apply pagefault_ok; [|apply Hc]|apply wp_fail].
    { apply wp_bind, wp_outside; [apply outside_keyboard|]. intros [] m1 E1 E2. apply wp_ret. split; [by apply (minv_eq m)|done]. }
    unfold __syscall. apply wp_bind, wp_modify. destruct (decode _ _ _ _ _); [|apply wp_fail].
    apply perform_ok; [by apply (minv_eq m)|by apply Hc].
  - intros [v|c] m1 [HM1 Hr]; [by apply wp_ret|]. eapply wp_mono; [apply (kernel_ok (resume c) (fun _ _ => True)); [done|]|by intros ? ? []].
    intros F HI. eapply wp_mono; [apply resume_ok; [done|]|done]. destruct Hr as (a & p & Ht & Hp & <-). pose proof (proj1 HI) as HC.
    destruct (c_table _ _ HC _ _ Ht) as (_ & q & Hq & E). rewrite Hp in Hq. injection Hq as <-. rewrite <- E. apply (c_local _ _ HC a p Hp).
Qed.

Inductive machine_reachable (m0 : LM) : LM -> Prop :=
| machine_start : machine_reachable m0 m0
| machine_next m i r m' : machine_reachable m0 m -> (raised i = true -> current_pid (kern m) <> 0) ->
    machine_step i m = Ok (r, m') -> machine_reachable m0 m'.

Lemma machine_reachable_inv m0 m : MInv m0 -> machine_reachable m0 m -> MInv m.
Proof. intros H0 Hr. induction Hr as [|m i r m' _ IH Hi E]; [done|]. exact (wp_Ok _ _ _ _ _ (machine_step_ok i m IH Hi) E). Qed.
End Interrupts.
