(* ===== verification/Typed.v ===== *)
(** * Values keep their C types

    The model computes in [Z] and writes wrap-arounds where the code computes
    with them.  This file shows that the records of the kernel hold values of
    the types of their C fields in every state it reaches, whatever programs
    pass to it through the stubs: no field needs a reduction the model lacks. *)

From S2P Require Import Prelude Queue Memory Mmu Kernel Process MessageQueue Semaphore System Invariant Preserve Progress KernelProps Machine.
Import ListQueue.

Local Open Scope st_scope.

Definition typed_child (c : Child) : Prop := int (child_pid c) /\ int (child_priority c).

(** kernel/process.h: the fields of a process that are [int], or [unsigned long]
    for the date; a priority is at most MAXPRIO. *)
Record typed_process (p : Process) : Prop := {
  ty_pid : int (pid p);
  ty_priority : int (priority p) /\ priority p <= MAXPRIO;
  ty_wakeup : word32 (wakeup_date p);
  ty_father : int (father_pid p);
  ty_waited : int (waited_pid p);
  ty_message : int (message p);
  ty_sem : int (waited_sem p);
  ty_retval : int (retval p);
  ty_children : Forall typed_child (children p)
}.

Record typed_kernel (k : LK) : Prop := {
  tk_procs : forall a p, procs k !! a = Some p -> typed_process p;
  tk_msgqs : forall a q, msgqs k !! a = Some q -> Forall int (buffer q);
  tk_sems : forall a s, sems k !! a = Some s -> short (count s);
  tk_current : int (current_pid k);
  tk_time : word32 (time_count k)
}.

(** The arguments of a system call that reach a field unreduced. *)
Definition typed_call (c : call) : Prop :=
  match c with
  | START _ _ prio _ => int prio
  | EXIT v => int v
  | PSEND _ m => int m
  | WAIT_CLOCK w => word32 w
  | _ => True
  end.
Definition typed_event (e : event) : Prop := match e with Syscall c => typed_call c | _ => True end.

(** A computation that keeps the types. *)
Definition keeps_types {A} (m : K (gmap qid (list Z)) A) : Prop := forall k, typed_kernel k -> wp m (fun _ => typed_kernel) k.

Create HintDb typedb.

Section Keep.
Context {C : Config}.
Abbreviation KL := (K (gmap qid (list Z))).
Implicit Types k : LK.

Lemma kt_ret {A} (a : A) : keeps_types (ret a).
Proof. intros k HT. by apply wp_ret. Qed.
Lemma kt_fail {A} e : keeps_types (A:=A) (fail e).
Proof. done. Qed.

(** A value with a property. *)
Lemma kt_bind_with {A B} (V : A -> Prop) (m : KL A) (f : A -> KL B) :
  (forall k, typed_kernel k -> wp m (fun a k' => V a /\ typed_kernel k') k) -> (forall a, V a -> keeps_types (f a)) -> keeps_types (bind m f).
Proof.
  intros Hm Hf k HT. apply wp_bind. eapply wp_mono; [by apply Hm|]. intros a k1 [HV HT1]. by apply Hf.
Qed.
Lemma kt_bind {A B} (m : KL A) (f : A -> KL B) : keeps_types m -> (forall a, keeps_types (f a)) -> keeps_types (bind m f).
Proof. intros Hm Hf. apply (kt_bind_with (fun _ => True)); [|by intros a _]. intros k HT. eapply wp_mono; [by apply Hm|]. done. Qed.
Lemma kt_bind_proc {B} a (f : Process -> KL B) : (forall p, typed_process p -> keeps_types (f p)) -> keeps_types (bind (proc a) f).
Proof. apply kt_bind_with. intros k HT. kstep. split; [by eapply tk_procs|done]. Qed.
Lemma kt_bind_msgq {B} a (f : MessageQueue -> KL B) : (forall q, Forall int (buffer q) -> keeps_types (f q)) -> keeps_types (bind (msgq a) f).
Proof. apply kt_bind_with. intros k HT. kstep. split; [by eapply tk_msgqs|done]. Qed.
Lemma kt_bind_current {B} (f : Z -> KL B) : (forall i, int i -> keeps_types (f i)) -> keeps_types (bind (gets current_pid) f).
Proof. apply kt_bind_with. intros k HT. kstep. split; [by apply tk_current|done]. Qed.

Lemma first_free_int n i t : 0 <= i -> i + Z.of_nat n <= 2 ^ 31 -> int (first_free n i t).
Proof.
  revert i. induction n as [|n IH]; intros i Hi Hn; simpl; [unfold int; lia|]. destruct (t !! i); [apply IH; lia|unfold int; lia].
Qed.

Lemma kt_bind_free_pid {B} (f : Z -> KL B) : (forall i, int i -> keeps_types (f i)) -> keeps_types (bind __get_free_pid f).
Proof. apply kt_bind_with. intros k HT. unfold __get_free_pid. kstep. split; [apply first_free_int; unfold NBPROC; lia|done]. Qed.

Lemma kt_gets {A} (f : LK -> A) : keeps_types (gets f).
Proof. intros k HT. by kstep. Qed.
Lemma kt_lift_opt {A} e (o : option A) : keeps_types (lift_opt e o).
Proof. destruct o; [apply kt_ret|apply kt_fail]. Qed.
Lemma kt_proc a : keeps_types (proc a).
Proof. intros k HT. by kstep. Qed.
Lemma kt_process_at a : keeps_types (process_at a).
Proof. intros k HT. by kstep. Qed.
Lemma kt_current : keeps_types current.
Proof. intros k HT. by kstep. Qed.
Lemma kt_semaphore a : keeps_types (semaphore a).
Proof. intros k HT. by kstep. Qed.
Lemma kt_lift_mmu {A} (m : MMU A) : keeps_types (lift_mmu m).
Proof. intros k HT. kstep. by destruct HT. Qed.
Lemma kt_queue_add a h : keeps_types (queue_add a h).
Proof. intros k HT. kstep. by destruct HT. Qed.
Lemma kt_queue_del a : keeps_types (queue_del a).
Proof. intros k HT. kstep. by destruct HT. Qed.
Lemma kt_queue_out h : keeps_types (queue_out h).
Proof. intros k HT. apply wp_queue_out; [done|]. intros l e _ _. by destruct HT. Qed.
Lemma kt_init_list_head h : keeps_types (init_list_head h).
Proof. intros k HT. kstep. by destruct HT. Qed.
Lemma kt_queue_top h : keeps_types (queue_top h).
Proof. intros k HT. by kstep. Qed.
Lemma kt_queue_empty h : keeps_types (queue_empty h).
Proof. intros k HT. by kstep. Qed.
Lemma kt_queue_elems h : keeps_types (queue_elems h).
Proof. intros k HT. by kstep. Qed.
Lemma kt_queue_initialized a : keeps_types (queue_initialized a).
Proof. intros k HT. by kstep. Qed.
Lemma kt_mem_alloc n o : keeps_types (mem_alloc n o).
Proof.
  intros k HT. unfold wp, mem_alloc. destruct (n =? 0); [done|]. destruct (_ <=? n); [done|]. destruct (malloc _ _); by destruct HT.
Qed.
Lemma kt_mem_free a n : keeps_types (mem_free a n).
Proof. intros k HT. unfold wp, mem_free. destruct (n =? 0); [done|]. destruct (bool_decide _); [by destruct HT|done]. Qed.
Lemma kt_find_proc test l : keeps_types (find_proc test l).
Proof. intros k HT. by apply find_proc_spec. Qed.
Lemma kt_for_each {A} (l : list A) f : (forall x, keeps_types (f x)) -> keeps_types (for_each l f).
Proof. intros Hf. induction l; simpl; [apply kt_ret|by apply kt_bind]. Qed.

Lemma kt_modify f : (forall k, typed_kernel k -> typed_kernel (f k)) -> keeps_types (modify f).
Proof. intros Hf k HT. kstep. by apply Hf. Qed.
Lemma kt_put_proc a p : typed_process p -> keeps_types (put_proc a p).
Proof.
  intros Hp k [H1 H2 H3 H4 H5]. kstep. split; try done. intros b q. simpl. rewrite lookup_insert. case_decide; [by intros [= <-]|apply H1].
Qed.
Lemma kt_upd_proc a f : (forall p, typed_process p -> typed_process (f p)) -> keeps_types (upd_proc a f).
Proof. intros Hf. unfold upd_proc. apply kt_bind_proc. intros p Hp. by apply kt_put_proc, Hf. Qed.
Lemma kt_put_msgq a q : Forall int (buffer q) -> keeps_types (put_msgq a q).
Proof.
  intros Hq k [H1 H2 H3 H4 H5]. kstep. split; try done. intros b q'. simpl. rewrite lookup_insert. case_decide; [by intros [= <-]|apply H2].
Qed.
Lemma kt_put_sem a s : short (count s) -> keeps_types (put_sem a s).
Proof.
  intros Hs k [H1 H2 H3 H4 H5]. kstep. split; try done. intros b s'. simpl. rewrite lookup_insert. case_decide; [by intros [= <-]|apply H3].
Qed.
Lemma kt_upd_sem a f : (forall s, short (count s) -> short (count (f s))) -> keeps_types (upd_sem a f).
Proof.
  intros Hf. unfold upd_sem. apply (kt_bind_with (fun s => short (count s))).
  - intros k HT. kstep. split; [by eapply tk_sems|done].
  - intros s Hs. by apply kt_put_sem, Hf.
Qed.
End Keep.

#[export] Hint Resolve kt_ret kt_fail kt_gets kt_lift_opt kt_proc kt_process_at kt_current kt_semaphore kt_lift_mmu kt_queue_add
  kt_queue_del kt_queue_out kt_init_list_head kt_queue_top kt_queue_empty kt_queue_elems kt_queue_initialized kt_mem_alloc kt_mem_free
  kt_find_proc : typedb.

Lemma short_s16 z : short (s16 z).
Proof. pose proof (swrap_range 16 z). unfold short. lia. Qed.

(** The fields of a record that changes, one by one. *)
Ltac typed_fields := solve
  [ intros ? []; split; simpl; auto; unfold int, word32, MAXPRIO, NBPROC in *; try (split; lia); try lia
  | intros ? ?; simpl; first [assumption | apply short_s16] ].

Ltac kt_auto :=
  repeat first
    [ solve [auto with typedb]
    | match goal with
      | |- keeps_types (bind (proc _) _) => apply kt_bind_proc; intros ? ?
      | |- keeps_types (bind (msgq _) _) => apply kt_bind_msgq; intros ? ?
      | |- keeps_types (bind (gets current_pid) _) => apply kt_bind_current; intros ? ?
      | |- keeps_types (bind __get_free_pid _) => apply kt_bind_free_pid; intros ? ?
      | |- keeps_types (bind getpid _) => apply kt_bind_current; intros ? ?
      | |- keeps_types (bind _ _) => apply kt_bind; [|intros ?]
      | |- keeps_types (upd_proc _ _) => apply kt_upd_proc; typed_fields
      | |- keeps_types (upd_sem _ _) => apply kt_upd_sem; typed_fields
      | |- keeps_types (put_msgq _ _) => apply kt_put_msgq
      | |- keeps_types (modify _) => apply kt_modify; solve [intros ? []; split; simpl; auto; apply ty_pid; assumption]
      | |- keeps_types (match ?x with _ => _ end) => destruct x eqn:?
      end ].

Section KeepOps.
Context {C : Config}.

Lemma kt_free_process p : keeps_types (__free_process p).
Proof.
  unfold __free_process. kt_auto. apply kt_modify. intros k [H1 H2 H3 H4 H5]. split; try done. simpl. intros ? ? [_ ?]%lookup_delete_Some. eauto.
Qed.
Hint Resolve kt_free_process : typedb.
Lemma kt_free_all n : keeps_types (free_all_finished n).
Proof. induction n; simpl; kt_auto. Qed.
Hint Resolve kt_free_all : typedb.
Lemma kt_free_finished : keeps_types __free_finished_process.
Proof. unfold __free_finished_process. kt_auto. Qed.
Hint Resolve kt_free_finished : typedb.
Lemma kt_wakeup : keeps_types __wakeup_process.
Proof. apply kt_for_each. intros i. unfold wakeup_one, current_clock. kt_auto. Qed.
Hint Resolve kt_wakeup : typedb.
Lemma kt_ctx_sw a b c : keeps_types (virtual_ctx_sw a b c).
Proof. unfold virtual_ctx_sw. kt_auto. Qed.
Hint Resolve kt_ctx_sw : typedb.
Lemma kt_scheduler c : keeps_types (__scheduler c).
Proof. unfold __scheduler. kt_auto. Qed.
Hint Resolve kt_scheduler : typedb.
Lemma kt_yield c : keeps_types (yield_cpu c).
Proof. unfold yield_cpu. kt_auto. Qed.
Hint Resolve kt_yield : typedb.

Lemma kt_awake_father i : int i -> keeps_types (__awake_father i).
Proof. intros Hi. unfold __awake_father. kt_auto. Qed.
Lemma kt_finish_fatherless i : keeps_types (__finish_fatherless i).
Proof. unfold __finish_fatherless. kt_auto. Qed.
Hint Resolve kt_awake_father kt_finish_fatherless : typedb.
Lemma kt_process_end i c : int i -> keeps_types (__process_end i c).
Proof. intros Hi. unfold __process_end. kt_auto. apply kt_for_each. intros x. unfold orphan_child. kt_auto. Qed.
Hint Resolve kt_process_end : typedb.
Lemma kt_finish_zombie i r : keeps_types (__finish_zombie i r).
Proof.
  unfold __finish_zombie, __remove_from_children. kt_auto. apply kt_upd_proc. intros p [].
  destruct (list_find _ _) as [[j c]|]; split; simpl; auto. by apply Forall_delete.
Qed.
Hint Resolve kt_finish_zombie : typedb.
Lemma kt_find_zombie l : keeps_types (find_zombie l).
Proof. induction l; simpl; kt_auto. Qed.
Hint Resolve kt_find_zombie : typedb.
Lemma kt_waitpid i r : keeps_types (waitpid i r).
Proof. unfold waitpid, wait_for_child. kt_auto. Qed.
Lemma kt_exit v : int v -> keeps_types (exit v).
Proof. intros Hv. unfold exit. kt_auto. Qed.
Lemma kt_wait_clock w : word32 w -> keeps_types (wait_clock w).
Proof. intros Hw. unfold wait_clock. kt_auto. Qed.
Lemma kt_chprio i n : keeps_types (chprio i n).
Proof.
  unfold chprio, __is_valid_pid. apply kt_bind; [apply kt_gets|]. intros v. destruct (_ || _) eqn:Ev; [apply kt_ret|].
  apply orb_false_iff in Ev as [Ev _]. apply orb_false_iff in Ev as [Ev H2%Z.leb_gt]. apply orb_false_iff in Ev as [_ H1%Z.ltb_ge].
  assert (forall a, keeps_types (__get_queue a)) as Hq.
  { intros a. unfold __get_queue. kt_auto; generalize 0; [generalize (Z.to_nat NBQUEUE)|generalize (Z.to_nat NBSEMAPHORE)];
      intros m; induction m as [|m IH]; intros z; cbn [search_queues]; [apply kt_ret| |apply kt_ret|];
      (destruct (_ !! z); [|apply IH]); (apply kt_bind; [unfold has_pid; kt_auto|]); intros []; [apply kt_ret|apply IH|apply kt_ret|apply IH]. }
  kt_auto.
Qed.

Lemma kt_kill i : keeps_types (kill i).
Proof.
  unfold kill. apply (kt_bind_with (fun v => v = true -> int i)).
  - intros k HT. unfold __is_valid_pid. kstep. split; [|done]. intros Hv. apply andb_true_iff in Hv as [Hv _]. unfold int, NBPROC in *. lia.
  - intros v Hv. destruct v; simpl; [|apply kt_ret]. specialize (Hv eq_refl). destruct (i =? 0); [apply kt_ret|].
    kt_auto. apply kt_put_sem, short_s16.
Qed.

Lemma kt_start nm ssize prio arg : int prio -> keeps_types (start nm ssize prio arg).
Proof.
  intros Hp. unfold start, get_symbol_from_name. kt_auto.
  all: match goal with H : (_ || (MAXPRIO <? _)) = false |- _ => apply orb_false_iff in H as [_ H%Z.ltb_ge] end.
  all: try (apply kt_put_proc; split; simpl; auto; unfold int, word32; lia).
  all: unfold add_child, elect_or_queue, preempts; kt_auto.
  all: apply kt_upd_proc; intros q []; split; simpl; auto.
  all: rewrite Refinement.insert_prio_perm; constructor; [split; simpl; [done|unfold int; lia]|done].
Qed.

Lemma kt_wake_all n h f : (forall p, typed_process p -> typed_process (f p)) -> keeps_types (wake_all n h f).
Proof. intros Hf. induction n; simpl; kt_auto. by apply kt_upd_proc. Qed.
Lemma kt_wake_waiting h f : (forall p, typed_process p -> typed_process (f p)) -> keeps_types (wake_waiting h f).
Proof. intros Hf. unfold wake_waiting. kt_auto. by apply kt_wake_all. Qed.
Lemma typed_set_state st p : typed_process p -> typed_process (set_state st p).
Proof. intros []. by split. Qed.
Lemma typed_skip p : typed_process p -> typed_process (skip p).
Proof. intros []. by split. Qed.
Hint Resolve kt_wake_waiting typed_set_state typed_skip : typedb.

Lemma kt_wake_one a : keeps_types (wake_one a).
Proof. unfold wake_one. kt_auto. Qed.
Hint Resolve kt_wake_one : typedb.
Lemma kt_signal i : keeps_types (signal i).
Proof. unfold signal, valid_sem. kt_auto. Qed.
Lemma kt_signaln_loop n a : keeps_types (signaln_loop n a).
Proof. induction n; simpl; kt_auto. Qed.
Hint Resolve kt_signaln_loop : typedb.
Lemma kt_signaln i n : keeps_types (signaln i n).
Proof. unfold signaln, valid_sem. kt_auto. Qed.
Lemma kt_try_wait i : keeps_types (try_wait i).
Proof. unfold try_wait, valid_sem. kt_auto. Qed.
Lemma kt_sreset i n : keeps_types (sreset i n).
Proof. unfold sreset, valid_sem. kt_auto. Qed.
Lemma kt_screate n : short n -> keeps_types (screate n).
Proof. intros Hn. unfold screate, __get_free_sem. kt_auto. by apply kt_put_sem. Qed.
Lemma kt_wait i : keeps_types (wait i).
Proof.
  unfold wait. apply (kt_bind_with (fun o => o <> None -> int i)).
  - intros k HT. unfold valid_sem. kstep. split; [|done]. destruct (_ || _) eqn:E; [done|]. unfold int, NBSEMAPHORE in *. lia.
  - intros [a|] Hv; [|apply kt_ret]. specialize (Hv ltac:(done)). kt_auto.
Qed.
Lemma kt_sdelete i : keeps_types (sdelete i).
Proof.
  unfold sdelete, valid_sem, __nb_waiting_proc2. kt_auto. apply kt_modify. intros k [H1 H2 H3 H4 H5]. split; try done.
  simpl. intros ? ? [_ ?]%lookup_delete_Some. eauto.
Qed.
Lemma kt_wait_resume a : keeps_types (wait_resume a).
Proof.
  unfold wait_resume. kt_auto. apply kt_modify. intros k [H1 H2 H3 H4 H5]. split; try done. simpl. intros ? ? [_ ?]%lookup_delete_Some. eauto.
Qed.

Lemma kt_store_if v x : keeps_types (store_if v x).
Proof. unfold store_if. kt_auto. Qed.
Hint Resolve kt_store_if : typedb.
Lemma buffer_write q m : int m -> Forall int (buffer q) -> Forall int (buffer (write_head q m)).
Proof. intros Hm Hq. simpl. by apply Forall_insert. Qed.
Lemma kt_psend i m : int m -> keeps_types (psend i m).
Proof. intros Hm. unfold psend, valid_fid. kt_auto; by apply (buffer_write q). Qed.
Lemma kt_preceive i m : keeps_types (preceive i m).
Proof. unfold preceive, valid_fid. kt_auto; try done; (apply (buffer_write (advance_tail q)); [by apply ty_message|done]). Qed.
Lemma kt_preset i : keeps_types (preset i).
Proof. unfold preset, valid_fid. kt_auto; done. Qed.
Lemma kt_pdelete i : keeps_types (pdelete i).
Proof.
  unfold pdelete, valid_fid. kt_auto. apply kt_modify. intros k [H1 H2 H3 H4 H5]. split; try done.
  simpl. intros ? ? [_ ?]%lookup_delete_Some. eauto.
Qed.
Lemma kt_pcreate n : keeps_types (pcreate n).
Proof. unfold pcreate, __get_free_fid. kt_auto. apply Forall_replicate. unfold int. lia. Qed.
Lemma kt_pcount i v : keeps_types (pcount i v).
Proof. unfold pcount, valid_fid, __nb_waiting_proc. kt_auto. Qed.
Lemma kt_getprio i : keeps_types (getprio i).
Proof. unfold getprio, __is_valid_pid. kt_auto. Qed.
Lemma kt_scount i : keeps_types (scount i).
Proof. unfold scount, valid_sem. kt_auto. Qed.
Hint Resolve kt_start kt_getprio kt_chprio kt_kill kt_waitpid kt_exit kt_scount kt_screate kt_sdelete kt_signal kt_signaln kt_sreset
  kt_try_wait kt_wait kt_pcount kt_pcreate kt_pdelete kt_preceive kt_preset kt_psend kt_wait_clock kt_wait_resume short_s16 : typedb.

Lemma kt_tic_PIT : keeps_types tic_PIT.
Proof.
  unfold tic_PIT, count_tick, schedule_tick. apply kt_bind; [|intros _; kt_auto]. apply kt_modify. intros k []. split; try done.
  simpl. unfold word32. pose proof (uwrap_range 32 (time_count k + 1)). lia.
Qed.

Lemma kt_dispatch c : typed_call c -> keeps_types (dispatch c).
Proof. intros Hc. destruct c; simpl in *; unfold as_return, getpid, current_clock; kt_auto. Qed.

Lemma kt_resume c : keeps_types (resume c).
Proof.
  destruct c; simpl; unfold new_process_start_function, start_resume, waitpid_resume, psend_resume, preceive_resume, unless_skipped; kt_auto.
  all: try done.
Qed.
Hint Resolve kt_tic_PIT kt_dispatch kt_resume : typedb.

Lemma kt_step e : typed_event e -> keeps_types (step e).
Proof.
  intros He. unfold step. apply kt_bind; [|intros c; kt_auto]. destruct e; simpl in *; [auto with typedb..|].
  apply kt_exit. unfold int. lia.
Qed.
End KeepOps.

(** ** Every state *)

(** What an interrupt of a program asks of the kernel: int 49 with any words in
    the registers, the name of a program being the string at its address. *)
Inductive asked : event -> Prop :=
| asked_call eax ebx ecx edx esi c : word32 ebx -> decode (s32 eax) ebx ecx edx esi = Some (RCall c) -> asked (Syscall c)
| asked_start eax ebx ecx edx esi name nm ssize prio arg :
    decode (s32 eax) ebx ecx edx esi = Some (RStart name ssize prio arg) -> asked (Syscall (START nm ssize prio arg))
| asked_tick : asked Tick
| asked_fault : asked PageFault.

Lemma int_s32 z : int (s32 z).
Proof. pose proof (swrap_range 32 z). unfold int. lia. Qed.

Lemma asked_typed e : asked e -> typed_event e.
Proof.
  destruct 1 as [eax ebx ecx edx esi c Hb E|eax ebx ecx edx esi name nm ssize prio arg E| |]; simpl; [| |done..];
    unfold decode in E; repeat (case_match; try discriminate); simplify_eq; simpl; try done; apply int_s32.
Qed.

(** Any sequence of them. *)
Inductive runs {C : Config} (k0 : LK) : LK -> Prop :=
| runs_start : runs k0 k0
| runs_step k ev r k' : runs k0 k -> asked ev -> step ev k = Ok (r, k') -> runs k0 k'.


Lemma demo_typed : typed_kernel demo_kernel.
Proof.
  split; simpl; [|by intros a ? ?%lookup_empty_Some..|unfold int; lia|unfold word32; lia].
  intros a p Hp. rewrite lookup_insert_Some, lookup_singleton_Some in Hp.
  destruct Hp as [[_ <-]|[_ [_ <-]]]; split; simpl; unfold int, word32, MAXPRIO; try constructor; lia.
Qed.

(** int 49 with eax 26 and ebx all ones: the process sleeps until the last tick. *)
Definition demo_asleep : LK :=
  match step (Syscall (WAIT_CLOCK 0xffffffff)) demo_kernel with Ok (_, k') => k' | Err _ => demo_kernel end.
