(* ===== verification/Runtime.v ===== *)
(** * Heaps and the start of programs (kernel/mem.c, user/lib/sbrk.c, crt0.c, console_putbytes.c)

    The two sbrk, of the kernel and of the programs, which the allocators take
    their memory from, and the code a program is linked with. *)

From S2P Require Import Prelude Queue Memory Cstring Format Mmu Kernel Process MessageQueue Semaphore System Machine.

Local Open Scope st_scope.

(** ** sbrk *)

(** Between [heap] and [heap_end]: mem_heap and mem_heap_end in the kernel, the
    array of HEAP_SIZE bytes in a program.  The state is [curptr] ([current]). *)
Section Sbrk.
Context (heap heap_end : Z).

Definition sbrk (diff : Z) : ST Z Z :=
  fun curptr =>
    let c := u32 (curptr + diff) in
    if (c <? curptr) || (heap_end <? c) then Ok (u32 (-1), curptr) else Ok (curptr, c).

(** What the calls of a list of increments give: the areas, as start and size. *)
Fixpoint areas (diffs : list Z) (curptr : Z) : list (Z * Z) :=
  match diffs with
  | [] => []
  | diff :: diffs' =>
      match sbrk diff curptr with
      | Ok (s, c) => (if s =? u32 (-1) then [] else [(s, diff)]) ++ areas diffs' c
      | Err _ => []
      end
  end.

Hypothesis heap_ok : 0 <= heap <= heap_end.
Hypothesis heap_low : heap_end < 2 ^ 31.

Lemma sbrk_cases diff c : heap <= c <= heap_end -> int diff ->
  (sbrk diff c = Ok (c, c + diff) /\ 0 <= diff /\ c + diff <= heap_end) \/
  (sbrk diff c = Ok (u32 (-1), c) /\ (diff < 0 \/ heap_end < c + diff)).
Proof.
  intros Hc Hd. unfold int in Hd. unfold sbrk.
  assert (u32 (c + diff) = c + diff \/ (c + diff < 0 /\ u32 (c + diff) = c + diff + 2 ^ 32)) as Hu.
  { unfold uwrap. destruct (Z.lt_ge_cases (c + diff) 0); [right; split; [done|]|left; apply Z.mod_small; lia].
    rewrite <- (Z.mod_add (c + diff) 1 (2 ^ 32)) by lia. rewrite Z.mod_small; lia. }
  revert Hu. generalize (u32 (c + diff)). intros x Hu. destruct (Z.ltb_spec x c) as [H|H]; cbn [orb]; [right; split; [done|lia]|].
  destruct (Z.ltb_spec heap_end x) as [H0|H0]; [right; split; [done|lia]|]. left. assert (x = c + diff) as -> by lia. split; [done|lia].
Qed.

(** Areas one after the other, from [a] to the end of the heap. *)
Fixpoint stacked (a : Z) (l : list (Z * Z)) : Prop :=
  match l with
  | [] => a <= heap_end
  | (s, n) :: l' => a <= s /\ 0 <= n /\ stacked (s + n) l'
  end.

Lemma stacked_mono a b l : a <= b -> stacked b l -> stacked a l.
Proof. intros Hab. destruct l as [|[s n] l]; simpl; [lia|]. intros (? & ? & ?). split_and!; [lia|done..]. Qed.

(** Whatever the increments, the areas sbrk gives do not overlap and are in
    the heap; the break never goes down. *)
Theorem sbrk_areas diffs c : heap <= c <= heap_end -> Forall int diffs -> stacked c (areas diffs c).
Proof.
  intros Hc HF. revert c Hc. induction HF as [|d diffs Hd _ IH]; intros c Hc; [simpl; lia|]. simpl.
  destruct (sbrk_cases d c Hc Hd) as [(-> & H1 & H2)|(-> & _)].
  - assert ((c =? u32 (-1)) = false) as -> by (apply Z.eqb_neq; change (u32 (-1)) with 4294967295; lia). simpl. split_and!; [lia|done|].
    apply IH. lia.
  - rewrite Z.eqb_refl. simpl. by apply IH.
Qed.
End Sbrk.

Definition HEAP_SIZE : Z := 0x1000.
Definition user_sbrk (heap increment : Z) : ST Z Z := sbrk (heap + HEAP_SIZE) increment.

(** The kernel heap ends where the frames start. *)
Lemma kernel_sbrk_below heap diffs c : 0 <= heap <= MEMORY_START -> heap <= c <= MEMORY_START -> Forall int diffs ->
  stacked MEMORY_START c (areas MEMORY_START diffs c).
Proof. intros. apply (sbrk_areas heap); try done. Qed.

Lemma sbrk_areas_witness : areas 0x2000 [16; 0x2000; -16; 32] 0x1000 = [(0x1000, 16); (0x1010, 32)] /\
  stacked 0x2000 0x1000 (areas 0x2000 [16; 0x2000; -16; 32] 0x1000).
Proof.
  split; [vm_compute; reflexivity|]. apply (sbrk_areas 0x1000 0x2000).
  - lia.
  - lia.
  - lia.
  - repeat constructor; unfold int; lia.
Defined.

(** ** Programs *)

(** What a program does, as the requests it makes of the kernel; [main] has its
    own and returns a value. *)
Definition _start (main : list request * Z) : list request := main.1 ++ [RCall (EXIT main.2)].

(** user/lib: console_putbytes is cons_write, so that a printf of a program, with
    its buffer at [buf], is a series of requests. *)
Definition user_putbytes (s len : Z) : list request := [RConsWrite s (u32 len)].
Definition user_printf (str : Z -> list Z) (buf : Z) (fmt args : list Z) : result (list request) :=
  match vprintf str fmt args with
  | Ok calls => Ok (concat ((fun bytes => user_putbytes buf (Z.of_nat (length bytes))) <$> calls))
  | Err e => Err e
  end.

(** ** The end of a process and of the kernel *)

(** kernel/process.c: where a function of a kernel process returns to, with its
    value in eax. *)
Definition __stack_exit {S} {ops : QueueOps qid Z S} {C : Config} (eax : Z) : ST (kernel S) control := exit (s32 eax).

(** shared/panic.c: the message, a store at address 0 and a loop. *)
Definition panic_prefix : list Z := [80; 65; 78; 73; 67; 58; 32].
Definition panic {S} (str : Z -> list Z) (fmt args : list Z) : ST (machine S) Empty_set :=
  do! kprintf str panic_prefix [] in
  do! kprintf str fmt args in
  do! in_kernel (lift_mmu (store_user8 0 1)) in
  fail Diverged.

(** The store is what stops the machine: it faults when page 0 is not mapped,
    and panic loops when it is. *)
Lemma panic_faults {S} str fmt args calls (m : machine S) : vprintf str fmt args = Ok calls ->
  panic str fmt args m = Err (match translate (memory (vm (kern m))) (cr3 (vm (kern m))) 0 with Some _ => Diverged | None => Faulted end).
Proof.
  intros E. unfold panic, kprintf, bind, checked, to_screen, modify. change (vprintf str panic_prefix []) with (Ok [panic_prefix]).
  rewrite E. unfold in_kernel, lift_mmu, store_user8. simpl. by destruct (translate _ _ _).
Qed.
