(* ===== verification/Boot.v ===== *)
(** * Starting the kernel (kernel/boot/boot.c, multiboot.c, kernel/start.c)

    The boot code and kernel_start on the whole machine, and that the machine
    they leave satisfies the invariant every later interrupt keeps. *)

From S2P Require Import Prelude Queue Memory Cstring Mmu Kernel Process MessageQueue Semaphore System Screen Info Invariant Preserve Progress KernelProps Hash SharedMemory Processor Interrupts EarlyMm Keymap Kbd Machine MachineProps.

Local Open Scope st_scope.

(** The interrupt handlers of kernel/handler.S, as the linker places them. *)
Class Handlers := {
  IT_13_handler : Z;
  IT_14_handler : Z;
  IT_32_handler : Z;
  IT_33_handler : Z;
  IT_49_handler : Z
}.

(** What the linker and the boot loader fix besides the layout: the task
    segments, the stacks, the entries of the exceptions, the copy of the
    multiboot structure, and the end of the heap; the magic number and the
    structure the loader passed. *)
Record image := mk_image {
  places : layout;
  tss : Z; trap_tss : Z; trap_stack_top : Z; first_stack_top : Z;
  exception_handler_tasks : Z -> Z;
  mb_info : Z;
  mem_heap_end : Z;
  multiboot_magic : Z; multiboot_info : Z
}.
Definition MULTIBOOT_BOOTLOADER_MAGIC : Z := 0x2BADB002.
Definition MULTIBOOT_INFO_MEMORY : Z := 0x00000001.
Definition sizeof_multiboot_info : Z := 88.

Section Machine.
Context {S : Type} {ops : QueueOps qid Z S} {C : Config} {H : Handlers}.
Abbreviation MM := (ST (machine S)).

Definition program_timer (frequency : Z) : MM unit :=
  fun m => match set_clock_frequency frequency (clk m) (sent m) with
           | Ok (c, l) => Ok (tt, mk_machine (kern m) (screen m) (shared m) c (kbd m) l)
           | Err e => Err e end.

(** A function on the memory, before paging or where it is mapped to itself. *)
Definition on_memory (f : mem -> result mem) : MM unit :=
  in_kernel (lift_mmu (fun s => match f (memory s) with Ok m => Ok (tt, set_memory m s) | Err e => Err e end)).
Definition install (num_IT handler : Z) (software_interrupt : bool) : MM unit :=
  on_memory (fun m => Ok (init_IT_handler num_IT handler software_interrupt m)).

Definition autotest_name : list Z := [97; 117; 116; 111; 116; 101; 115; 116].

(** [tss.esp0 = (int)p_idle->kernel_stack + p_idle->kernel_stack_size]: the
    size is added in bytes here.  [start] is called with no current process
    and returns; the code behind it would be lost if it switched. *)
Definition first_processes : MM unit :=
  let! p_idle := in_kernel __init_idle in
  let! c := in_kernel (start autotest_name 4096 128 0) in
  match c with
  | Resume _ => fail Diverged
  | Return _ =>
      do! in_kernel (modify (set_current_pid 0)) in
      let! p := in_kernel (proc p_idle) in
      do! in_kernel (modify (fun k => set_tss (tss_cr3 k) (u32 (kernel_stack p + kernel_stack_size p)) k)) in
      do! to_ports (mask_IRQ 0 false) in
      do! to_ports (mask_IRQ 1 false) in
      in_kernel new_process_start_function
  end.

(** kernel_start, in the order of the code. *)
Definition kernel_start : MM unit :=
  do! in_kernel (lift_mmu init_free_list) in
  do! to_screen clear_screen in
  do! to_screen (fun s => set_cursor (current_lig s) (current_col s) s) in
  do! to_screen write_info_titles in
  do! install 32 IT_32_handler false in
  do! install 49 IT_49_handler true in
  do! install 33 IT_33_handler true in
  do! install 13 IT_13_handler false in
  do! install 14 IT_14_handler false in
  do! program_timer 200 in
  do! to_shared (fun sh => let! sh := initalize_hash_head sh in ret (tt, sh)) in
  first_processes.

(** ** The boot code *)

(** A failed assertion stops the processor for good. *)
Definition multiboot_save (im : image) : MM unit :=
  if negb (multiboot_magic im =? MULTIBOOT_BOOTLOADER_MAGIC) then fail Diverged
  else on_memory (fun m => Ok (memcpy m (mb_info im) (multiboot_info im) sizeof_multiboot_info)).

(** The memory in KB; the fields are the first and the third word. *)
Definition multiboot_upper_mem (im : image) (m : mem) : result Z :=
  if negb (Z.land (load32 m (mb_info im)) MULTIBOOT_INFO_MEMORY =? MULTIBOOT_INFO_MEMORY) then Err Diverged
  else Ok (u32 (load32 m (mb_info im + 8) + 1024)).

Definition init_processor (im : image) : MM unit :=
  fun m =>
    let '(mm, l) := cpu_init (tss im) (trap_tss im) (trap_stack_top im) (first_stack_top im) (pgdir_sym (places im)) (exception_handler_tasks im)
      (memory (vm (kern m)), sent m) in
    Ok (tt, mk_machine (set_vm (set_memory mm (vm (kern m))) (kern m)) (screen m) (shared m) (clk m) (kbd m) l).

(** enable_paging of crt0.S *)
Definition enable_paging (im : image) : MM unit :=
  in_kernel (modify (fun k => set_tss (pgdir_sym (places im)) (tss_esp0 k) (set_vm (set_cr3 (pgdir_sym (places im)) (vm k)) k))).

Definition boot (im : image) : MM unit :=
  do! multiboot_save im in
  do! on_memory (fun m => Ok (memset m (data_end (places im)) 0 (mem_heap_end im - data_end (places im)))) in
  do! init_processor im in
  if negb (early_mm_check (places im)) then fail Diverged else
  do! on_memory (early_mm_map_kernel (places im)) in
  do! enable_paging im in
  kernel_start.
End Machine.

(** ** The invariant at the end of the boot *)

(** The globals of the kernel before kernel_start, but for the heap and the
    physical memory. *)
Record bare (k : LK) : Prop := {
  b_queues : queues k = {[ QAct := []; QFin := []; QWait := [] ]};
  b_procs : procs k = ∅;
  b_table : process_table k = ∅;
  b_current : current_pid k = -1;
  b_msgqs : msgqs k = ∅;
  b_qtable : queue_table k = ∅;
  b_sems : sems k = ∅;
  b_stable : semaphore_table k = ∅;
  b_heap : forall a b, heap k !! a = Some b -> 0 < a < MEMORY_START
}.

Section BootProofs.
Context {C : Config} {L : MallocLaws C} {Hn : Handlers}.
Implicit Types (k : LK) (m : LM).

Lemma wp_program_timer f Q m : (forall c l, Q tt (mk_machine (kern m) (screen m) (shared m) c (kbd m) l)) -> wp (program_timer f) Q m.
Proof. intros HQ. unfold wp, program_timer. by destruct (set_clock_frequency _ _ _) as [[]|]. Qed.

Lemma wp_lift_mmu_post {A} (f : MMU A) (P : A -> mmu -> Prop) Q k : wp f P (vm k) ->
  (forall x v, P x v -> Q x (set_vm v k)) -> wp (lift_mmu f) Q k.
Proof. unfold wp, lift_mmu. destruct (f (vm k)) as [[x v]|]; auto. Qed.

Lemma bare_set_vm k v : bare k -> bare (set_vm v k).
Proof. intros []. by split. Qed.

Lemma bare_alloc n o k : bare k -> wp (mem_alloc n o) (fun z k' => bare k' /\ vm k' = vm k /\ (z <> 0 -> heap k' !! z = Some (n, o))) k.
Proof.
  intros HB. apply wp_mem_alloc; [done|]. intros z _ _ Hr. split_and!; [|done|by intros _; simpl; rewrite lookup_insert_eq].
  destruct HB as [B1 B2 B3 B4 B5 B6 B7 B8 B9]. split; try done.
  intros a b. simpl. rewrite lookup_insert. case_decide; [by intros _; subst|apply B9].
Qed.

(** The head of the free list is set by its initialiser. *)
Lemma write32_head a v s : wp (write32 a v) (fun _ s' => PHYSICAL_MEMORY_HEAD s' = PHYSICAL_MEMORY_HEAD s) s.
Proof. unfold wp, write32. by destruct (a <? 4096). Qed.

Lemma init_free_list_head s : wp init_free_list (fun _ s' => PHYSICAL_MEMORY_HEAD s' = PHYSICAL_MEMORY_HEAD s) s.
Proof.
  assert (forall n a s, wp (init_free_list_loop n a) (fun _ s' => PHYSICAL_MEMORY_HEAD s' = PHYSICAL_MEMORY_HEAD s) s) as HL.
  { induction n as [|n IH]; intros a s1; simpl; [apply wp_fail|]. destruct (_ <? _); [|by apply wp_ret].
    apply wp_bind. eapply wp_mono; [apply write32_head|]. intros [] s2 E. rewrite <- E. apply IH. }
  unfold init_free_list. apply wp_bind. eapply wp_mono; [apply HL|]. intros a s2 <-. apply write32_head.
Qed.

(** An area of at most one page starts at the head of the free list. *)
Lemma virtual_malloc_head size s : 0 < size <= 4096 -> wp (virtual_malloc size) (fun p _ => PHYSICAL_MEMORY_HEAD s <> 0 -> p = PHYSICAL_MEMORY_HEAD s) s.
Proof.
  intros Hs. unfold virtual_malloc. cbn [virtual_malloc_loop]. destruct (Z.ltb_spec (0 * 4096) size); [|lia].
  unfold allocate_physical_memory_address. do 2 apply wp_bind. apply wp_gets, wp_bind. unfold wp at 1, read32. destruct (_ <? 4096); [done|]. apply wp_bind, wp_modify, wp_ret.
  destruct (Z.eqb_spec (PHYSICAL_MEMORY_HEAD s) 0); [by apply wp_ret|].
  apply wp_bind, wp_gets, wp_bind. unfold wp. destruct (get_ptable_entry_from_virtual_address _ _ _ _ _) as [[e s1]|]; [|done].
  unfold bind. destruct (write32 _ _ s1) as [[[] s2]|]; [|done].
  assert (exists j, Z.to_nat (size / 4096 + 1) = S j) as [j ->] by (exists (Z.to_nat (size / 4096)); rewrite Z2Nat.inj_add by (try apply Z.div_pos; lia); lia).
  cbn [virtual_malloc_loop]. destruct (Z.ltb_spec ((0 + 1) * 4096) size); [lia|]. done.
Qed.

(** The idle process alone, being moved. *)
Lemma core_idle {F : Foreign} k a p : bare k -> (forall b x, foreign !! b = Some x -> heap k !! b = Some x /\ foreign_owner x.2 = true) -> MEMORY_START <= a -> pid p = 0 -> registers p = CStart ->
  Core {[a]} (set_procs {[a := p]} (set_process_table {[0 := a]} k)).
Proof.
  intros [B1 B2 B3 B4 B5 B6 B7 B8 B9] Hfo Ha Hp Hr.
  assert (forall h l, queues k !! h = Some l -> l = []) as HQ.
  { intros h l. rewrite B1, !lookup_insert_Some, lookup_singleton_Some. naive_solver. }
  split; simpl; rewrite ?B5, ?B6, ?B7, ?B8.
  - intros i b [<- <-]%lookup_singleton_Some. split; [done|]. exists p. by rewrite lookup_singleton_eq.
  - intros h l b ->%HQ. set_solver.
  - intros b q [<- <-]%lookup_singleton_Some. set_solver.
  - intros h h' b (l & ->%HQ & Hb). set_solver.
  - intros h l ->%HQ. constructor.
  - intros h l ->%HQ. constructor.
  - rewrite B1. split_and!; by eexists.
  - intros b q [<- <-]%lookup_singleton_Some. right. simpl. by rewrite lookup_singleton_eq.
  - exact B9.
  - intros b q [<- <-]%lookup_singleton_Some. rewrite Hp. simpl. by rewrite lookup_singleton_eq.
  - intros b q [<- <-]%lookup_singleton_Some. unfold local_ok. rewrite Hr. done.
  - intros i b. by rewrite lookup_empty.
  - intros i b. by rewrite lookup_empty.
  - intros i b. by rewrite lookup_empty.
  - intros i b. by rewrite lookup_empty.
  - exists a, p. rewrite !lookup_singleton_eq. split_and!; [done|done|]. left. set_solver.
  - exact Hfo.
Qed.

Lemma init_idle_ok {F : Foreign} k : bare k -> (forall b x, foreign !! b = Some x -> heap k !! b = Some x /\ foreign_owner x.2 = true) -> PHYSICAL_MEMORY_HEAD (vm k) = MEMORY_START ->
  wp __init_idle (fun a k' => Core {[a]} k' /\ current_pid k' = -1 /\
    exists p, procs k' = {[a := p]} /\ process_table k' = {[0 := a]} /\ state p = ELECTED) k.
Proof.
  intros HB Hfo Hh. unfold __init_idle. kstep.
  eapply wp_lift_mmu_post; [apply (virtual_malloc_head sizeof_Process); unfold sizeof_Process; lia|]. intros a v Ha.
  rewrite Hh in Ha. specialize (Ha ltac:(done)). do 8 kstep. kstep. apply get_symbol_ok. intros u. do 9 kstep.
  match goal with |- context [<[a := ?q]> _] => set (p := q) end. simpl.
  rewrite (b_table _ HB), (b_procs _ HB). change (<[0:=a]> ∅) with ({[0 := a]} : gmap Z Z).
  match goal with |- Core _ ?k' /\ _ => split; [|split; [exact (b_current _ HB)|]] end.
  - match goal with |- Core _ ?k' => exact (core_idle (set_vm (vm k') k) a p (bare_set_vm k _ HB) Hfo ltac:(lia) eq_refl eq_refl) end.
  - exists p. split_and!; done.
Qed.

(** [start] called by nobody queues the new process and returns. *)
Lemma first_start_ok {F : Foreign} k a p nm ss pr arg : Core {[a]} k -> current_pid k = -1 -> procs k = {[a := p]} -> process_table k = {[0 := a]} -> state p = ELECTED ->
  wp (start nm ss pr arg) (fun c k' => (exists v, c = Return v) /\ Core {[a]} k' /\ process_table k' !! 0 = Some a /\
    procs k' !! a = Some p /\ forall b q, procs k' !! b = Some q -> b <> a -> state q <> ELECTED) k.
Proof.
  intros HC Hc Hpr Ht Hs.
  assert (forall v, (exists w, Return (-1) = Return w) /\ Core {[a]} (set_vm v (set_heap (heap k) k)) /\ process_table k !! 0 = Some a /\
    procs k !! a = Some p /\ forall b q, procs k !! b = Some q -> b <> a -> state q <> ELECTED) as Hfail.
  { intros v. rewrite Ht, Hpr. split_and!; [by eexists|by destruct HC; split|by rewrite lookup_singleton_eq..|].
    intros b q [<- _]%lookup_singleton_Some. done. }
  apply (start_body {[a]}); [done|done| |done|].
  { destruct (Hfail (vm k)) as (? & _ & ?). done. }
  intros v hp z q k1 HC1 Hz Htz Hr Ho Hl. rewrite Hc, Z.eqb_refl. cbn [negb]. do 4 kstep.
  assert (a <> z) as Hza by (intros ->; rewrite Hpr, lookup_singleton_eq in Hz; done).
  pose proof (core_new {[a]} k1 z q HC1 Hz Htz Hr Ho Hl) as HC2.
  match goal with |- wp _ _ ?k' => set (k2 := k') end. change (Core ({[z]} ∪ {[a]}) k2) in HC2.
  assert (forall b q', procs k2 !! b = Some q' -> b = z /\ q' = q \/ b = a /\ q' = p) as Hps.
  { intros b q'. simpl. rewrite Hpr, lookup_insert_Some, lookup_singleton_Some. naive_solver. }
  unfold elect_or_queue. do 2 kstep. destruct (Hps z p0 H) as [[_ ->]|[? _]]; [|done].
  kstep. unfold preempts. kstep. kstep. replace (current_pid k2) with (-1) by (by rewrite <- Hc). cbn [Z.leb Z.compare]. kstep.
  do 7 kstep. rewrite H in H0. injection H0 as <-. simpl in H3. rewrite lookup_insert_eq in H3. injection H3 as <-.
  assert (pid q <> 0) as Hq0 by (intros E; rewrite E, Ht, lookup_singleton_eq in Htz; done).
  assert (G {[a]} None (enqueued k2 z (set_state ACTIVABLE q) QAct l)) as HG.
  { apply (enqueue_ok {[a]} None k2 z q); try done; [|set_solver|].
    - split; [done|]. intros b q' Hb Hx. destruct (Hps b q' Hb) as [[-> _]|[-> _]]; set_solver.
    - split; [done|]. unfold tabled. simpl. by rewrite lookup_insert_eq. }
  split_and!; [by eexists| | | |].
  - eapply (g_core _ None), g_upd; [exact HG|simpl; by rewrite lookup_insert_eq|done|by right].
  - simpl. rewrite lookup_insert_ne by congruence. by rewrite Ht, lookup_singleton_eq.
  - simpl. rewrite !lookup_insert_ne by done. by rewrite Hpr, lookup_singleton_eq.
  - intros b q'. simpl. rewrite !insert_insert_eq, lookup_insert. case_decide as E; [by intros [= <-] _|].
    rewrite Hpr. intros [<- _]%lookup_singleton_Some. done.
Qed.

(** The table of names is in a block of its own, or is not there. *)
Lemma init_hash_bare sh k : bare k -> wp (initalize_hash_head sh) (fun sh' k' => bare k' /\ vm k' = vm k /\ shm_ok sh' k') k.
Proof.
  intros HB. unfold initalize_hash_head. apply wp_bind. eapply wp_mono; [by apply bare_alloc|]. intros h k2 (HB2 & E2 & _).
  unfold Hash.hash_init_string, Hash.hash_init, Hash.hash_initialize. do 3 apply wp_bind. eapply wp_mono; [by apply bare_alloc|]. intros t k3 (HB3 & E3 & Ht).
  rewrite E2 in E3. destruct (Z.eqb_spec t 0) as [->|H0]; apply wp_ret; cbn -[wp ret fail]; apply wp_ret; cbn -[wp ret fail];
    (destruct (h =? 0); [first [apply wp_fail|by apply wp_ret]|apply wp_ret; split_and!; [done|done|]]).
  - by left.
  - right. eexists. by apply Ht.
Qed.

(** The idle process takes the processor at the end. *)
Lemma inv_at_idle {F : Foreign} k a p c e : Core {[a]} k -> process_table k !! 0 = Some a -> procs k !! a = Some p -> state p = ELECTED ->
  (forall b q, procs k !! b = Some q -> b <> a -> state q <> ELECTED) -> Inv (set_tss c e (set_current_pid 0 k)).
Proof.
  intros HC Ht Hp Hs Hne.
  assert (Core {[a]} (set_current_pid 0 k)) as HC1 by (apply core_set_current; [done|]; intros b q Hb Hx; apply (Hne b q Hb); set_solver).
  destruct (c_table _ _ HC 0 a Ht) as (_ & q & Hq & E0). rewrite Hp in Hq. injection Hq as <-.
  split; [|by exists a, p]. apply core_set_tss. replace (∅ : gset Z) with ({[a]} ∖ {[a]} : gset Z) by set_solver.
  eapply core_settle; [exact HC1|exact Hp| |auto]. unfold placed, tabled. rewrite Hs, E0. done.
Qed.

Lemma wp_install n h sw Q m : (forall v, PHYSICAL_MEMORY_HEAD v = PHYSICAL_MEMORY_HEAD (vm (kern m)) -> Q tt (set_kern (set_vm v (kern m)) m)) ->
  wp (install n h sw) Q m.
Proof. intros HQ. apply wp_in_kernel. unfold wp, lift_mmu, modify. by apply HQ. Qed.

(** From the idle process on. *)
Lemma first_processes_ok m : bare (kern m) -> PHYSICAL_MEMORY_HEAD (vm (kern m)) = MEMORY_START -> shm_ok (shared m) (kern m) ->
  wp first_processes (fun _ m' => MInv m' /\ current_pid (kern m') = 0) m.
Proof.
  intros HB Hh HS. set (F := foreign_of (kern m)).
  apply wp_bind, wp_in_kernel. eapply wp_mono; [apply (init_idle_ok (F := F)); [done|by intros b x [? ?]%map_lookup_filter_Some|done]|].
  intros a k3 (HC & Hc & p & Hp & Ht & Hs). cbn [set_kern kern].
  apply wp_bind, wp_in_kernel. cbn [set_kern kern]. eapply wp_mono; [by apply (first_start_ok k3 a p)|].
  intros r k4 ([w ->] & HC4 & Ht4 & Hp4 & Hne). apply wp_bind, wp_in_kernel, wp_modify. cbn [set_kern kern].
  apply wp_bind, wp_in_kernel, wp_proc. intros p' _. cbn [set_kern kern].
  apply wp_bind, wp_in_kernel, wp_modify. cbn [set_kern kern]. do 2 apply wp_bind, wp_modify. apply wp_in_kernel.
  unfold new_process_start_function. apply wp_bind, wp_current. intros x _. apply wp_bind, wp_proc. intros px _. apply wp_ret. cbn [set_kern kern].
  split; [|done]. assert (forall c e, @Inv F (set_tss c e (set_current_pid 0 k4))) as HI by (intros c e; by apply (inv_at_idle k4 a p)).
  split; [exact (@inv_less _ _ (HI _ _))|]. exact (shm_ok_kept (shared m) (kern m) _ (HI _ _) HS).
Qed.

(** The table of the names of the shared areas, then the first processes. *)
Lemma first_table_ok m : bare (kern m) -> PHYSICAL_MEMORY_HEAD (vm (kern m)) = MEMORY_START ->
  wp (do! to_shared (fun sh => let! sh := initalize_hash_head sh in ret (tt, sh)) in first_processes)
    (fun _ m' => MInv m' /\ current_pid (kern m') = 0) m.
Proof.
  intros HB Hh. apply wp_bind, wp_to_shared, wp_bind. eapply wp_mono; [by apply init_hash_bare|]. intros sh k2 (HB2 & E2 & HS). apply wp_ret.
  apply first_processes_ok; cbn [kern shared fst snd]; [done|congruence|done].
Qed.

(** The machine as the boot leaves it. *)
Definition started m : Prop := MInv m /\ current_pid (kern m) = 0.

Lemma kernel_start_ok m : bare (kern m) -> PHYSICAL_MEMORY_HEAD (vm (kern m)) = MEMORY_START -> wp kernel_start (fun _ m' => started m') m.
Proof.
  intros HB Hh. unfold kernel_start. apply wp_bind, wp_in_kernel.
  eapply wp_lift_mmu_post; [apply init_free_list_head|]. intros [] v Hv. rewrite Hh in Hv.
  do 3 apply wp_bind, wp_modify. do 5 (apply wp_bind, wp_install; intros ? ?).
  apply wp_bind, wp_program_timer. intros c l. apply first_table_ok; cbn [kern set_kern].
  - repeat apply bare_set_vm. exact HB.
  - simpl in *. congruence.
Qed.

Lemma wp_on_memory f Q m : (forall mm, Q tt (set_kern (set_vm (set_memory mm (vm (kern m))) (kern m)) m)) -> wp (on_memory f) Q m.
Proof. intros HQ. apply wp_in_kernel. unfold wp, lift_mmu. destruct (f _); [apply HQ|done]. Qed.

Lemma bare_set_tss k c e : bare k -> bare (set_tss c e k).
Proof. intros []. by split. Qed.

Lemma boot_start_ok im m : bare (kern m) -> PHYSICAL_MEMORY_HEAD (vm (kern m)) = MEMORY_START -> wp (boot im) (fun _ m' => started m') m.
Proof.
  intros HB Hh. unfold boot, multiboot_save. apply wp_bind. destruct (negb _); [apply wp_fail|].
  apply wp_on_memory. intros m1. apply wp_bind, wp_on_memory. intros m2. apply wp_bind. unfold wp at 1, init_processor, cpu_init.
  destruct (negb _); [apply wp_fail|]. apply wp_bind, wp_on_memory. intros m3. apply wp_bind, wp_in_kernel, wp_modify.
  apply kernel_start_ok; cbn [kern set_kern]; [|exact Hh]. apply bare_set_tss. repeat apply bare_set_vm. exact HB.
Qed.

End BootProofs.

(** ** A boot *)

Definition boot_config : Config := {|
  symbols_table := [mk_uapps idle_name 0x170000 0x170004; mk_uapps autotest_name 0x171000 0x171010];
  pgdir := pgdir_sym demo_layout;
  start_address := 0x100010;
  malloc := bump
|}.
Lemma boot_laws : MallocLaws boot_config.
Proof. destruct demo_laws as [H1 H2]. split; [exact H1|exact H2]. Qed.
Definition boot_handlers : Handlers := {| IT_13_handler := 0x100100; IT_14_handler := 0x100200; IT_32_handler := 0x100300; IT_33_handler := 0x100400; IT_49_handler := 0x100500 |}.

Definition boot_kernel (m : mem) : LK :=
  mk_kernel {[ QAct := []; QFin := []; QWait := [] ]} ∅ ∅ (-1) ∅ ∅ ∅ ∅ 0 ∅ (mk_mmu m MEMORY_START THREE_GIGABYTES (pgdir_sym demo_layout)) (pgdir_sym demo_layout) 0.
Definition boot_machine : machine (gmap qid (list Z)) :=
  mk_machine (boot_kernel ∅) boot_screen (mk_shm 0 None ∅) (mk_clock 200 0 0 0 0) (mk_keyboard 1 0 Kbd.zeroed) (setup_pic []).
Abbreviation booted := (@kernel_start _ _ boot_config boot_handlers boot_machine).

Lemma boot_bare mm : bare (boot_kernel mm).
Proof. by split. Qed.

Lemma boot_ok : returns booted = true.
Proof. vm_compute. reflexivity. Qed.

