(* ===== verification/Echo.v ===== *)
(** * From the keyboard to the screen

    A text typed on the keyboard, key by key, is what the screen shows: the
    driver, printf and the console put together. *)

From S2P Require Import Prelude Queue Memory Format Mmu Kernel System KernelProps Screen Info SharedMemory Interrupts Keymap Kbd KbdProps Machine.

Local Open Scope st_scope.

Section Echo.
Context {S : Type} {ops : QueueOps qid Z S} {C : Config}.
Implicit Types (m : machine S).

(** printf("%s", str) of one character sends that character. *)
Lemma print_char c : 1 <= c < 128 -> exists calls, vprintf (fun _ => [c]) [37; 115] [1] = Ok calls /\ concat calls = [c].
Proof.
  intros Hc. assert (Forall (fun c => match vprintf (fun _ => [c]) [37; 115] [1] with Ok calls => concat calls = [c] | Err _ => False end) ascii) as H.
  { let l := eval vm_compute in ascii in change ascii with l. repeat (apply Forall_cons; split; [vm_compute; reflexivity|]). by apply Forall_nil. }
  assert (c ∈ ascii) as Hin by (apply elem_of_seqZ; lia). pose proof (proj1 (Forall_forall _ _) H c Hin) as Hv. cbv beta in Hv.
  destruct (vprintf _ _ _) as [calls|]; [by exists calls|done].
Qed.

Lemma putbytes_concat calls s : fold_left (fun s x => console_putbytes x s) calls s = console_putbytes (concat calls) s.
Proof. revert s. induction calls as [|x calls IH]; intros s; [done|]. cbn [fold_left concat]. rewrite IH. unfold console_putbytes. by rewrite fold_left_app. Qed.

Lemma echo_char c m : 1 <= c < 128 -> CONSOLE_ECHO (kbd m) <> 0 ->
  keyboard_data [c] m = Ok (tt, set_screen (console_putbytes [c] (screen m)) m).
Proof.
  intros Hc He. unfold keyboard_data, bind at 1, gets. cbv beta iota. rewrite (proj2 (Z.eqb_neq _ _) He). cbn [negb].
  destruct (print_char c Hc) as (calls & E & Ec). unfold kprintf, bind, checked. rewrite E. unfold to_screen, modify. by rewrite putbytes_concat, Ec.
Qed.

(** The machine with another screen, another state of the driver and
    acknowledgements on the ports. *)
Definition shown (s : console) (d : Kbd.driver) (l : port_log) m : machine S :=
  mk_machine (kern m) s (shared m) (clk m) (mk_keyboard (CONSOLE_ECHO (kbd m)) (readchar (kbd m)) d) l.
Definition shows (out : list (list Z)) (s : console) : console := fold_left (fun s x => console_putbytes x s) out s.

Lemma echo_data out m : Forall (fun x => exists c, x = [c] /\ 1 <= c < 128) out -> CONSOLE_ECHO (kbd m) <> 0 ->
  for_each out keyboard_data m = Ok (tt, set_screen (shows out (screen m)) m).
Proof.
  intros Ho. revert m. induction Ho as [|x out (c & -> & Hc) Ho IH]; intros m He; cbn [for_each]; unfold ret, bind; [by destruct m|].
  rewrite echo_char by done. rewrite IH by done. done.
Qed.

(** Keys, each an interrupt. *)
Lemma echo_scans l : forall m out d, CONSOLE_ECHO (kbd m) <> 0 -> scans (load32 (memory (vm (kern m)))) l (drv (kbd m)) = Ok (out, d) ->
  Forall (fun x => exists c, x = [c] /\ 1 <= c < 128) out ->
  for_each l keyboard_interrupt m = Ok (tt, shown (shows out (screen m)) d (replicate (length l) (0x20, 0x20) ++ sent m) m).
Proof.
  induction l as [|sc l IH]; intros m out d He; cbn [scans for_each].
  { intros [= <- <-] _. unfold ret, shown, shows. cbn [fold_left length replicate app]. by destruct m as [? ? ? ? [] ?]. }
  destruct (Kbd.scan _ _ _) as [[o d1]|] eqn:E1; [|done]. destruct (scans _ l d1) as [[o' d2]|] eqn:E2; [|done].
  intros [= <- <-] [Ho Ho']%Forall_app. unfold bind at 1, keyboard_interrupt at 1, bind at 1. rewrite E1. cbv beta iota. unfold bind at 1.
  rewrite echo_data by done. unfold acknowledge, to_ports, modify.
  rewrite (IH _ o' d2); [|done|exact E2|done]. unfold shown, shows. cbn [kern screen shared clk kbd sent CONSOLE_ECHO readchar set_screen].
  rewrite fold_left_app. unfold out_byte. cbn [length]. change (u8 0x20) with 0x20. by rewrite replicate_S_end, <- app_assoc.
Qed.

(** C34: a text of ASCII characters typed on the keyboard, each character by the
    keys that stand for it, is shown: with the echo on, every interrupt returns,
    the screen is what writing the text to the console gives, the driver is
    ready for more, and the rest of the machine has not changed. *)
Theorem typed_text_shown text m : Forall (fun c => 1 <= c < 128) text -> CONSOLE_ECHO (kbd m) <> 0 -> drv (kbd m) = at_rest \/ drv (kbd m) = Kbd.zeroed ->
  exists m', for_each (concat (map strokes text)) keyboard_interrupt m = Ok (tt, m') /\
    screen m' = console_putbytes text (screen m) /\ kern m' = kern m /\ shared m' = shared m /\ clk m' = clk m /\
    (text <> [] -> drv (kbd m') = at_rest) /\ CONSOLE_ECHO (kbd m') = CONSOLE_ECHO (kbd m).
Proof.
  intros Ht He Hd. assert (concat (map (fun c => [c]) text) = text) as Ec by (clear; induction text; simpl; congruence).
  assert (exists d, scans (load32 (memory (vm (kern m)))) (concat (map strokes text)) (drv (kbd m)) = Ok (map (fun c => [c]) text, d) /\ (text <> [] -> d = at_rest)) as (d & Es & Hr).
  { destruct Hd as [->| ->]; [exists at_rest; split; [by apply type_text|done]|].
    destruct text as [|c text]; [by exists Kbd.zeroed|]. exists at_rest. split; [by apply type_text_first|done]. }
  rewrite (echo_scans _ m _ d He Es).
  - eexists. split; [done|]. cbn. unfold shows. rewrite putbytes_concat, Ec. done.
  - clear - Ht. induction Ht as [|c text Hc Ht IH]; constructor; [by exists c|done].
Qed.
End Echo.

(** "Hi" *)
Definition typist : machine (gmap qid (list Z)) :=
  mk_machine demo_kernel boot_screen (mk_shm 0 None ∅) (mk_clock 200 0 0 0 0) (mk_keyboard 1 0 Kbd.zeroed) [].
Lemma typed_text_shown_witness : concat (map strokes [72; 105]) = [0x2a; 35; 163; 0xaa; 23; 151] /\
  exists m, for_each [0x2a; 35; 163; 0xaa; 23; 151] keyboard_interrupt typist = Ok (tt, m) /\ screen m = console_putbytes [72; 105] boot_screen.
Proof.
  assert (concat (map strokes [72; 105]) = [0x2a; 35; 163; 0xaa; 23; 151]) as E by (vm_compute; reflexivity). split; [exact E|].
  destruct (typed_text_shown [72; 105] typist) as (m & H1 & H2 & _).
  - repeat constructor; lia.
  - discriminate.
  - right. reflexivity.
  - exists m. rewrite E in H1. split; [exact H1|exact H2].
Defined.
