(* ===== verification/Gdb.v ===== *)
(** * The stub of the remote debugger (kernel/gdb_serial.c, gdb_serial_support.c)

    The stub talks to a debugger over a line: it receives the characters of
    [incoming] one after the other and sends [outgoing].  A receive on a line
    that stays silent waits for ever ([Diverged]).  Every loop of the stub that
    is not bounded by its data receives a character each time round, so the
    characters of the line bound them.  The buffer [inbuf] of
    gdb_serial_converse is a list of bytes with whatever the stack held, and
    the frame of the registers is the list of its 64 bytes. *)

From S2P Require Import Prelude Memory Format.

Local Open Scope st_scope.

(** ** State *)

Record stub := mk_stub {
  incoming : list Z;
  outgoing : list Z;
  attached : bool;          (* gdb_serial_recv and gdb_serial_send are set *)
  connected : bool;
  gdb_serial_debug : bool;
  ram : mem;                (* physical memory *)
  client_cr0 : Z;
  client_cr3 : Z
}.

Definition set_incoming x s := mk_stub x (outgoing s) (attached s) (connected s) (gdb_serial_debug s) (ram s) (client_cr0 s) (client_cr3 s).
Definition set_outgoing x s := mk_stub (incoming s) x (attached s) (connected s) (gdb_serial_debug s) (ram s) (client_cr0 s) (client_cr3 s).
Definition set_attached x s := mk_stub (incoming s) (outgoing s) x (connected s) (gdb_serial_debug s) (ram s) (client_cr0 s) (client_cr3 s).
Definition set_connected x s := mk_stub (incoming s) (outgoing s) (attached s) x (gdb_serial_debug s) (ram s) (client_cr0 s) (client_cr3 s).
Definition set_debug x s := mk_stub (incoming s) (outgoing s) (attached s) (connected s) x (ram s) (client_cr0 s) (client_cr3 s).
Definition set_ram x s := mk_stub (incoming s) (outgoing s) (attached s) (connected s) (gdb_serial_debug s) x (client_cr0 s) (client_cr3 s).

Abbreviation GM := (ST stub).

(** [gdb_serial_recv()] and [gdb_serial_send(ch)]; a byte goes over the line. *)
Definition gdb_serial_recv : GM Z :=
  fun s => match incoming s with c :: l => Ok (c, set_incoming l s) | [] => Err Diverged end.
Definition gdb_serial_send (ch : Z) : GM unit := modify (fun s => set_outgoing (outgoing s ++ [u8 ch]) s).

(** The bounds of the loops that receive a character each time round. *)
Definition patience : GM nat := gets (fun s => S (length (incoming s))).

(** ** Hexadecimal digits *)

(** "0123456789abcdef" *)
Definition hexchars (d : Z) : Z := nth (Z.to_nat d) [48; 49; 50; 51; 52; 53; 54; 55; 56; 57; 97; 98; 99; 100; 101; 102] 0.

Definition hex (ch : Z) : Z :=
  if (48 <=? ch) && (ch <=? 57) then ch - 48
  else if (97 <=? ch) && (ch <=? 102) then ch - 97 + 10
  else if (65 <=? ch) && (ch <=? 70) then ch - 65 + 10
  else -1.

(** The bytes written to [out] and whether all of them were: the bytes before a
    wrong digit stay written. *)
Fixpoint hex2bin (inp : list Z) (len : nat) : list Z * bool :=
  match len with
  | O => ([], true)
  | S len' =>
      let ch := Z.lor (Z.shiftl (hex (char_at inp 0)) 4) (hex (char_at inp 1)) in
      if ch <? 0 then ([], false)
      else let '(out, ok) := hex2bin (drop 2 inp) len' in (u8 ch :: out, ok)
  end.

(** ** Receiving a packet *)

Definition BUFMAX : nat := 400.
Definition SIZE_INBUF : nat := 401.

(** The string at a pointer into a buffer. *)
Fixpoint cstr (l : list Z) : list Z := match l with [] => [] | c :: l' => if c =? 0 then [] else c :: cstr l' end.

(** [while ((ch = (gdb_serial_recv() & 0x7f)) != '$');] *)
Fixpoint skip_to_start (fuel : nat) : GM unit :=
  match fuel with
  | O => fail Diverged
  | S fuel' => let! ch := gdb_serial_recv in if Z.land ch 0x7f =? 36 then ret tt else skip_to_start fuel'
  end.

(** [while (count < BUFMAX)]: [room] is BUFMAX - count.  The last character
    read, the count, the checksum and the buffer. *)
Fixpoint read_body (room count : nat) (checksum ch : Z) (buffer : list Z) : GM (Z * nat * Z * list Z) :=
  match room with
  | O => ret (ch, count, checksum, buffer)
  | S room' =>
      let! ch := gdb_serial_recv in
      if (ch =? 35) && ((count =? 0)%nat || negb (char_at buffer (count - 1) =? 0x7d)) then ret (ch, count, checksum, buffer)
      else read_body room' (S count) (u8 (checksum + ch)) ch (<[count := u8 ch]> buffer)
  end.

(** [for (i=3; i <= count; i++) buffer[i-3] = buffer[i];] *)
Definition drop_sequence (buffer : list Z) : list Z :=
  let count := length (cstr buffer) in
  fold_left (fun b i => <[(i - 3)%nat := char_at b i]> b) (seq 3 (count - 2)) buffer.

(** One round of getpacket: the buffer and whether the checksums agree. *)
Definition receive_once (buffer : list Z) : GM (list Z * bool) :=
  let! fuel := patience in
  do! skip_to_start fuel in
  let! '(ch, count, checksum, buffer) := read_body BUFMAX 0 0 0 buffer in
  let buffer := <[count := 0]> buffer in
  if ch =? 35 then
    let! c1 := gdb_serial_recv in
    let! c2 := gdb_serial_recv in
    let xmitcsum := u8 (u8 (Z.shiftl (hex (u8 c1)) 4) + hex (u8 c2)) in
    if negb (checksum =? xmitcsum) then
      do! gdb_serial_send 45 in ret (buffer, false)
    else
      do! gdb_serial_send 43 in
      if char_at buffer 2 =? 58 then
        do! gdb_serial_send (char_at buffer 0) in
        do! gdb_serial_send (char_at buffer 1) in
        ret (drop_sequence buffer, true)
      else ret (buffer, true)
  else ret (buffer, checksum =? 255).

Fixpoint getpacket_loop (fuel : nat) (buffer : list Z) : GM (list Z) :=
  match fuel with
  | O => fail Diverged
  | S fuel' =>
      let! '(buffer, good) := receive_once buffer in
      if good then ret buffer else getpacket_loop fuel' buffer
  end.

Definition getpacket (buffer : list Z) : GM (list Z) :=
  let! fuel := patience in getpacket_loop fuel buffer.

(** ** Sending a packet *)

(** [data] is what is in memory from the pointer on. *)
Record outfrag := mk_frag { data : list Z; len : Z; hexify : bool }.

(** The bytes the loop on [p] goes through: [len] of them, or all up to a zero. *)
Definition frag_bytes (f : outfrag) : list Z := if len f =? 0 then cstr (data f) else take (Z.to_nat (len f)) (data f).

(** Whether a run of more than three output characters starts here. *)
Definition starts_run (hexify : bool) (p : list Z) : bool :=
  match p with
  | c0 :: c1 :: r =>
      (c1 =? c0) &&
      (if hexify then Z.shiftr c0 4 =? Z.land c0 0xf
       else match r with c2 :: c3 :: _ => (c2 =? c0) && (c3 =? c0) | _ => false end)
  | _ => false
  end.

(** How many bytes at the start of [l] are [c]. *)
Fixpoint run_of (c : Z) (l : list Z) : nat :=
  match l with x :: l' => if x =? c then S (run_of c l') else O | [] => O end.

(** [q - p]: up to 98 output characters. *)
Definition run_length (hexify : bool) (p : list Z) : nat :=
  run_of (char_at p 0) (take (if hexify then 49 else 98) p).

Definition SEND (ch checksum : Z) : GM Z := do! gdb_serial_send ch in ret (u8 (checksum + ch)).

Fixpoint send_frag (fuel : nat) (hexify : bool) (p : list Z) (checksum : Z) : GM Z :=
  match fuel, p with
  | _, [] => ret checksum
  | O, _ => fail Diverged
  | S fuel', c :: _ =>
      if starts_run hexify p then
        let n := run_length hexify p in
        let rl := if hexify then 2 * Z.of_nat n else Z.of_nat n in
        let! checksum := SEND (if hexify then hexchars (Z.land c 0xf) else c) checksum in
        let! checksum := SEND 42 checksum in
        let! checksum := SEND (29 + rl - 1) checksum in
        send_frag fuel' hexify (drop n p) checksum
      else if hexify then
        let! checksum := SEND (hexchars (Z.shiftr c 4)) checksum in
        let! checksum := SEND (hexchars (Z.land c 0xf)) checksum in
        send_frag fuel' hexify (drop 1 p) checksum
      else
        let! checksum := SEND c checksum in
        send_frag fuel' hexify (drop 1 p) checksum
  end.

(** [for (f = frags; f < &frags[nfrags]; ++f)] *)
Fixpoint send_frags (frags : list outfrag) (checksum : Z) : GM Z :=
  match frags with
  | [] => ret checksum
  | f :: frags' =>
      let! checksum := send_frag (length (frag_bytes f)) (hexify f) (frag_bytes f) checksum in
      send_frags frags' checksum
  end.

Fixpoint putfrags_loop (fuel : nat) (frags : list outfrag) : GM unit :=
  match fuel with
  | O => fail Diverged
  | S fuel' =>
      do! gdb_serial_send 36 in
      let! checksum := send_frags frags 0 in
      do! gdb_serial_send 35 in
      do! gdb_serial_send (hexchars (Z.shiftr checksum 4)) in
      do! gdb_serial_send (hexchars (checksum mod 16)) in
      let! answer := gdb_serial_recv in
      if Z.land answer 0x7f =? 43 then ret tt else putfrags_loop fuel' frags
  end.

Definition putfrags (frags : list outfrag) : GM unit :=
  let! fuel := patience in putfrags_loop fuel frags.

(** String literals and single bytes as fragments. *)
Definition literal (s : list Z) : outfrag := mk_frag (s ++ [0]) 0 false.
Definition one_byte (b : Z) : outfrag := mk_frag [u8 b] 1 true.

(** ** The memory of the program being debugged (gdb_serial_support.c) *)

Definition INTEL_OFFMASK : Z := 0xfff.
Definition lin2pdenum (a : Z) : Z := Z.land (Z.shiftr a 22) 0x3ff.
Definition lin2ptenum (a : Z) : Z := Z.land (Z.shiftr a 12) 0x3ff.
Definition INTEL_PTE_VALID : Z := 0x00000001.
Definition INTEL_PDE_VALID : Z := 0x00000001.
Definition INTEL_PDE_SUPERPAGE : Z := 0x00000080.
Definition pte_to_pa (p : Z) : Z := Z.land p 0xfffff000.
Definition pde_to_pa (p : Z) : Z := Z.land p 0xfffff000.
Definition SUPERPAGE_SIZE : Z := Z.shiftl 1 22.
Definition SUPERPAGE_MASK : Z := SUPERPAGE_SIZE - 1.
Definition trunc_superpage (x : Z) : Z := Z.land x 0xffc00000.

(** The physical address and the size of the rest of the page; a size of 0 is
    an address that is not mapped. *)
Definition phys_addr_lookup (m : mem) (cr0 cr3 vaddr : Z) : Z * Z :=
  let pde := load32 m (pde_to_pa cr3 + 4 * lin2pdenum vaddr) in
  if Z.land cr0 0x80000000 =? 0 then (vaddr, 0xffffffff) else
  if Z.land pde INTEL_PDE_VALID =? 0 then (0, 0) else
  if Z.land pde INTEL_PDE_SUPERPAGE =? 0 then
    let pte := load32 m (pde_to_pa pde + 4 * lin2ptenum vaddr) in
    let offs := Z.land vaddr INTEL_OFFMASK in
    if Z.land pte INTEL_PTE_VALID =? 0 then (0, 0)
    else (u32 (pte_to_pa pte + offs), INTEL_OFFMASK + 1 - offs)
  else
    let offs := Z.land vaddr SUPERPAGE_MASK in
    (u32 (trunc_superpage pde + offs), SUPERPAGE_SIZE - offs).

Definition copy_client_paging_registers (cr0 cr3 cr4 : Z) : GM unit :=
  modify (fun s => mk_stub (incoming s) (outgoing s) (attached s) (connected s) (gdb_serial_debug s) (ram s) cr0 cr3).

(** [memcpy] between the memory and a buffer. *)
Definition bytes_at (m : mem) (pa : Z) (n : nat) : list Z := (fun i => load8 m (u32 (pa + i))) <$> seqZ 0 (Z.of_nat n).
Fixpoint put_bytes (m : mem) (pa : Z) (l : list Z) : mem :=
  match l with [] => m | b :: l' => put_bytes (store8 m (u32 pa) b) (pa + 1) l' end.

(** The loops of gdb_copyin and gdb_copyout go through the pages of the area;
    paging is off meanwhile, so memory is read at physical addresses.  [read]
    is what was copied so far; the result is it and 0, or -1 at an address that
    is not mapped. *)
Fixpoint copyin_loop (fuel : nat) (src_va size : Z) (room : Z) (read : list Z) : GM (list Z * Z) :=
  match fuel with
  | O => fail Diverged
  | S fuel' =>
      if size =? 0 then ret (read, 0) else
      let! m := gets ram in
      let! cr0 := gets client_cr0 in
      let! cr3 := gets client_cr3 in
      let '(pa, sz) := phys_addr_lookup m cr0 cr3 src_va in
      if sz =? 0 then ret (read, -1) else
      let sz := if size <? sz then size else sz in
      if room <? sz then fail Faulted        (* the copy runs over the end of the buffer *)
      else copyin_loop fuel' (u32 (src_va + sz)) (size - sz) (room - sz) (read ++ bytes_at m pa (Z.to_nat sz))
  end.

(** The number of pages an area of [size] bytes can touch, and one more round. *)
Definition pages (size : Z) : nat := Z.to_nat (size / 4096 + 3).

Definition gdb_copyin (src_va size room : Z) : GM (list Z * Z) := copyin_loop (pages size) src_va size room [].

Fixpoint copyout_loop (fuel : nat) (src : list Z) (dest_va : Z) : GM Z :=
  match fuel with
  | O => fail Diverged
  | S fuel' =>
      let size := Z.of_nat (length src) in
      if size =? 0 then ret 0 else
      let! m := gets ram in
      let! cr0 := gets client_cr0 in
      let! cr3 := gets client_cr3 in
      let '(pa, sz) := phys_addr_lookup m cr0 cr3 dest_va in
      if sz =? 0 then ret (-1) else
      let sz := if size <? sz then size else sz in
      do! modify (set_ram (put_bytes m pa (take (Z.to_nat sz) src))) in
      copyout_loop fuel' (drop (Z.to_nat sz) src) (u32 (dest_va + sz))
  end.

Definition gdb_copyout (src : list Z) (dest_va : Z) : GM Z := copyout_loop (pages (Z.of_nat (length src))) src dest_va.

(** ** The registers of the program *)

Definition sizeof_gdb_state : Z := 64.

(** The frame is 16 words: eax ecx edx ebx esp ebp esi edi eip eflags cs ss ds
    es fs gs. *)
Definition EIP : Z := 8.
Definition EFLAGS : Z := 9.
Definition reg_word (regs : list Z) (i : Z) : Z :=
  let b j := char_at regs (Z.to_nat (4 * i + j)) in b 0 + 2 ^ 8 * (b 1 + 2 ^ 8 * (b 2 + 2 ^ 8 * b 3)).
(** The bytes [l] written at offset [i]. *)
Fixpoint overwrite (buf : list Z) (i : nat) (l : list Z) : list Z :=
  match l with [] => buf | b :: l' => overwrite (<[i := b]> buf) (S i) l' end.
Definition word_bytes (v : Z) : list Z := [u8 v; u8 (v / 2 ^ 8); u8 (v / 2 ^ 16); u8 (v / 2 ^ 24)].
Definition set_reg_word (regs : list Z) (i v : Z) : list Z := overwrite regs (Z.to_nat (4 * i)) (word_bytes v).

Definition EFL_TF : Z := 0x100.
Definition gdb_set_trace_flag (trace_enable : bool) (state : list Z) : list Z :=
  let e := reg_word state EFLAGS in
  set_reg_word state EFLAGS (if trace_enable then Z.lor e EFL_TF else Z.land e (Z.lnot EFL_TF)).

(** ** The conversation *)

Inductive gdb_action := GDB_MORE | GDB_CONT | GDB_RUN | GDB_KILL | GDB_DETACH.

#[export] Instance gdb_action_eq_dec : EqDecision gdb_action.
Proof. solve_decision. Defined.

Record gdb_params := mk_params { thread_id : Z; signo : Z; regs : list Z; regs_changed : bool }.

(** What the caller knows of threads: functions that may be missing. *)
Record gdb_callbacks := mk_callbacks {
  thread_alive : option (gdb_params -> Z -> Z);
  thread_switch : option (gdb_params -> Z -> gdb_params * Z)
}.

Definition NSIG : Z := 32.

Section Converse.
Context (cb : option gdb_callbacks) (inbuf_at : Z).

(** The state of the loop: the parameters, the buffer and [retval]. *)
Abbreviation conv := (gdb_params * list Z * gdb_action)%type.

(** The labels ok, errpacket and unknown. *)
Definition reply_ok (c : conv) : GM conv := do! putfrags [literal [79; 75]] in ret c.
Definition reply_err (errchar : Z) (c : conv) : GM conv := do! putfrags [literal [69]; one_byte errchar] in ret c.
Definition reply_unknown (c : conv) : GM conv := do! putfrags [literal []] in ret c.

(** A number at [&inbuf[i]] in base 16: its value, where it ends and whether
    there is one. *)
Definition number_at (inbuf : list Z) (i : nat) : Z * nat * bool :=
  let start := cstr (drop i inbuf) in
  let '(v, rest) := strtoul start 16 in
  let used := (length start - length rest)%nat in (v, (i + used)%nat, negb (used =? 0)%nat).
Definition signed_at (inbuf : list Z) (i : nat) : Z * nat * bool :=
  let start := cstr (drop i inbuf) in
  let '(v, rest) := strtol start 16 in
  let used := (length start - length rest)%nat in (u32 v, (i + used)%nat, negb (used =? 0)%nat).

(** 'H': the thread of the following operations. *)
Definition set_thread (p : gdb_params) (inbuf : list Z) : GM conv :=
  let c := (p, inbuf, GDB_MORE) in
  let '(th, _, found) := signed_at inbuf 2 in
  if negb found then reply_err 4 c else
  match cb ≫= thread_switch with
  | None => reply_unknown c
  | Some switch =>
      if negb (th =? 0xffffffff) && negb (th =? 0) && negb (th =? thread_id p) then
        let '(p1, e) := switch p th in
        if negb (u8 e =? 0) then reply_err (u8 e) (p1, inbuf, GDB_MORE)
        else reply_ok (mk_params th (signo p1) (regs p1) false, inbuf, GDB_MORE)
      else reply_ok c
  end.

(** 'T' *)
Definition check_thread (p : gdb_params) (inbuf : list Z) : GM conv :=
  let c := (p, inbuf, GDB_MORE) in
  let '(th, _, found) := signed_at inbuf 1 in
  if negb found then reply_err 1 c else
  match cb ≫= thread_alive with
  | None => reply_unknown c
  | Some alive => if negb (u8 (alive p th) =? 0) then reply_err (u8 (alive p th)) c else reply_ok c
  end.

(** 'g' and 'G' *)
Definition get_registers (p : gdb_params) (inbuf : list Z) : GM conv :=
  do! putfrags [mk_frag (regs p) sizeof_gdb_state true] in ret (p, inbuf, GDB_MORE).
Definition set_registers (p : gdb_params) (inbuf : list Z) : GM conv :=
  let '(out, ok) := hex2bin (drop 1 inbuf) 64 in
  let r := overwrite (regs p) 0 out in
  if negb ok then reply_err 4 (mk_params (thread_id p) (signo p) r (regs_changed p), inbuf, GDB_MORE)
  else reply_ok (mk_params (thread_id p) (signo p) r true, inbuf, GDB_MORE).

(** 'P': [(reg + 1) * 4] wraps around, which lets a register number through
    whose place is the word before the frame. *)
Definition set_register (p : gdb_params) (inbuf : list Z) : GM conv :=
  let c := (p, inbuf, GDB_MORE) in
  let '(reg, eqp, found) := number_at inbuf 1 in
  if negb found || negb (char_at inbuf eqp =? 61) then reply_err 4 c else
  if reg =? 0x29 then reply_ok c else
  if sizeof_gdb_state <? u32 (u32 (reg + 1) * 4) then reply_err 4 c else
  if sizeof_gdb_state <=? u32 (4 * reg) then fail Faulted else
  let '(out, ok) := hex2bin (drop (S eqp) inbuf) 4 in
  let r := overwrite (regs p) (Z.to_nat (u32 (4 * reg))) out in
  if negb ok then reply_err 4 (mk_params (thread_id p) (signo p) r (regs_changed p), inbuf, GDB_MORE)
  else reply_ok (mk_params (thread_id p) (signo p) r true, inbuf, GDB_MORE).

(** 'm': the bytes of the memory go through [inbuf]. *)
Definition read_memory (p : gdb_params) (inbuf : list Z) : GM conv :=
  let c := (p, inbuf, GDB_MORE) in
  let '(addr, ptr, found) := number_at inbuf 1 in
  if negb found || negb (char_at inbuf ptr =? 44) then reply_err 2 c else
  let '(n, ptr2, found2) := number_at inbuf (S ptr) in
  if negb found2 || (Z.of_nat BUFMAX <? u32 (n * 2)) then reply_err 2 c else
  let! '(read, r) := gdb_copyin addr n (Z.of_nat SIZE_INBUF) in
  let inbuf := overwrite inbuf 0 read in
  if negb (r =? 0) then reply_err 3 (p, inbuf, GDB_MORE) else
  do! putfrags [mk_frag inbuf n true] in
  ret (p, inbuf, GDB_MORE).

(** The address and the length of 'M' and 'X', and where the data starts. *)
Definition write_header (inbuf : list Z) : option (Z * Z * nat) :=
  let '(addr, ptr, found) := number_at inbuf 1 in
  if negb found || negb (char_at inbuf ptr =? 44) then None else
  let '(n, ptr2, found2) := number_at inbuf (S ptr) in
  if negb found2 || negb (char_at inbuf ptr2 =? 58) then None else Some (addr, n, S ptr2).

(** Whether [ptr2 + n > &inbuf[BUFMAX]]. *)
Definition too_long (ptr2 : nat) (n : Z) : bool :=
  u32 (inbuf_at + Z.of_nat BUFMAX) <? u32 (inbuf_at + Z.of_nat ptr2 + n).

(** 'M': a length so large that [len*2] wraps around asks for a buffer larger
    than the stack. *)
Definition write_memory (p : gdb_params) (inbuf : list Z) : GM conv :=
  let c := (p, inbuf, GDB_MORE) in
  match write_header inbuf with
  | None => reply_err 2 c
  | Some (addr, n, ptr2) =>
      if too_long ptr2 (u32 (n * 2)) then reply_err 2 c else
      if Z.of_nat BUFMAX <? n then fail Faulted else
      let '(outbuf, ok) := hex2bin (drop ptr2 inbuf) (Z.to_nat n) in
      if negb ok then reply_err 2 c else
      let! r := gdb_copyout outbuf addr in
      if negb (r =? 0) then reply_err 3 c else reply_ok c
  end.

(** 'X': [None] when an escape character ends the data. *)
Fixpoint unquote (l : list Z) : option (list Z) :=
  match l with
  | [] => Some []
  | c :: l' =>
      if c =? 0x7d then match l' with [] => None | d :: l'' => (fun o => Z.lxor d 0x20 :: o) <$> unquote l'' end
      else (fun o => c :: o) <$> unquote l'
  end.
(** The bytes written before the data ends or an escape character ends it. *)
Fixpoint unquoted (l : list Z) : list Z :=
  match l with
  | [] => []
  | c :: l' =>
      if c =? 0x7d then match l' with [] => [] | d :: l'' => Z.lxor d 0x20 :: unquoted l'' end
      else c :: unquoted l'
  end.

Definition write_binary (p : gdb_params) (inbuf : list Z) : GM conv :=
  let c := (p, inbuf, GDB_MORE) in
  match write_header inbuf with
  | None => reply_err 2 c
  | Some (addr, n, ptr2) =>
      if too_long ptr2 n then reply_err 2 c else
      let size := u32 (inbuf_at + Z.of_nat ptr2 + n) - (inbuf_at + Z.of_nat ptr2) in
      let bytes := take (Z.to_nat size) (drop ptr2 inbuf) in
      let inbuf := overwrite inbuf 0 (unquoted bytes) in
      match unquote bytes with
      | None => reply_err 2 (p, inbuf, GDB_MORE)
      | Some out =>
          let! r := gdb_copyout out addr in
          if negb (r =? 0) then reply_err 3 (p, inbuf, GDB_MORE) else reply_ok (p, inbuf, GDB_MORE)
      end
  end.

(** The end of 'c', 's', 'C' and 'S': the optional address at [&inbuf[i]]. *)
Definition continue_at (p : gdb_params) (inbuf : list Z) (i : nat) (trace : bool) (sig : Z) : conv :=
  let '(new_eip, _, found) := number_at inbuf i in
  let moves := found && negb (new_eip =? reg_word (regs p) EIP) in
  let r := if moves then set_reg_word (regs p) EIP new_eip else regs p in
  (mk_params (thread_id p) sig (gdb_set_trace_flag trace r) (moves || regs_changed p), inbuf, GDB_CONT).

Definition continue_with_signal (p : gdb_params) (inbuf : list Z) (trace : bool) : GM conv :=
  let nsig := Z.lor (Z.shiftl (hex (char_at inbuf 1)) 4) (hex (char_at inbuf 2)) in
  if (nsig <=? 0) || (NSIG <=? nsig) then reply_err 5 (p, inbuf, GDB_MORE)
  else ret (continue_at p inbuf 3 trace nsig).

(** The digits of the thread, the last first, and the string of the report. *)
Fixpoint thread_digits (fuel : nat) (x : Z) : list Z :=
  match fuel with
  | O => []
  | S fuel' => hexchars (Z.land x 0xf) :: (if Z.shiftr x 4 =? 0 then [] else thread_digits fuel' (Z.shiftr x 4))
  end.

(** '?' and the report the conversation starts with. *)
Definition report (p : gdb_params) (inbuf : list Z) : GM conv :=
  if bool_decide (is_Some (cb ≫= thread_switch)) && negb (thread_id p =? 0) && negb (thread_id p =? 0xffffffff) then
    let text := [116; 104; 114; 101; 97; 100; 58] ++ rev (thread_digits 8 (thread_id p)) ++ [59] in
    let inbuf := overwrite inbuf 0 (text ++ [0]) in
    do! putfrags [literal [84]; one_byte (signo p); mk_frag inbuf 0 false] in
    ret (p, inbuf, GDB_MORE)
  else
    do! putfrags [literal [83]; one_byte (signo p)] in
    ret (p, inbuf, GDB_MORE).

(** The switch on the first character of the packet. *)
Definition command (p : gdb_params) (inbuf : list Z) : GM conv :=
  let ch := char_at inbuf 0 in
  let on x := ch =? x in
  if on 72 then set_thread p inbuf
  else if on 84 then check_thread p inbuf
  else if on 103 then get_registers p inbuf
  else if on 71 then set_registers p inbuf
  else if on 80 then set_register p inbuf
  else if on 109 then read_memory p inbuf
  else if on 77 then write_memory p inbuf
  else if on 88 then write_binary p inbuf
  else if on 99 || on 115 then ret (continue_at p inbuf 1 (on 115) 0)
  else if on 67 || on 83 then continue_with_signal p inbuf (on 83)
  else if on 63 then report p inbuf
  else if on 68 then do! modify (set_connected false) in reply_ok (p, inbuf, GDB_DETACH)
  else if on 82 then do! modify (set_connected false) in ret (p, inbuf, GDB_RUN)
  else if on 107 then do! modify (set_connected false) in ret (p, inbuf, GDB_KILL)
  else if on 100 then
    do! modify (fun s => set_debug (negb (gdb_serial_debug s)) s) in reply_ok (p, inbuf, GDB_MORE)
  else if on 33 then reply_ok (p, inbuf, GDB_MORE)
  else reply_unknown (p, inbuf, GDB_MORE).

(** [do { getpacket ... } while (retval == GDB_MORE)] *)
Fixpoint converse_loop (fuel : nat) (p : gdb_params) (inbuf : list Z) : GM (gdb_params * gdb_action) :=
  match fuel with
  | O => fail Diverged
  | S fuel' =>
      let! inbuf := getpacket inbuf in
      do! modify (set_connected true) in
      let! '(p, inbuf, retval) := command p inbuf in
      if bool_decide (retval = GDB_MORE) then converse_loop fuel' p inbuf else ret (p, retval)
  end.

(** [garbage] is what the stack holds where [inbuf] is. *)
Definition gdb_serial_converse (p : gdb_params) (garbage : list Z) : GM (gdb_params * gdb_action) :=
  let p := mk_params (thread_id p) (signo p) (regs p) false in
  let! '(p, inbuf, retval) := report p garbage in
  let! fuel := patience in
  converse_loop fuel p inbuf.
End Converse.

(** ** Messages outside of a conversation *)

(** gdb_serial_exit and gdb_serial_killed: 'W' and 'X' with a byte. *)
Definition terminated (letter code : Z) : GM unit :=
  let! a := gets attached in
  let! c := gets connected in
  if negb a || negb c then ret tt else
  do! putfrags [literal [letter]; one_byte code] in
  modify (set_connected false).
Definition gdb_serial_exit (exit_code : Z) : GM unit := terminated 87 exit_code.
Definition gdb_serial_killed (sig : Z) : GM unit := terminated 88 sig.

Definition gdb_serial_putchar (ch : Z) : GM unit :=
  let! a := gets attached in
  let! c := gets connected in
  if negb a then ret tt else
  if negb c then gdb_serial_send ch else
  putfrags [literal [79]; one_byte ch].

(** [s] without its final zero. *)
Definition gdb_serial_puts (s : list Z) : GM unit :=
  let! a := gets attached in
  let! c := gets connected in
  if negb a then ret tt else
  if negb c then do! for_each s gdb_serial_send in gdb_serial_send 10 else
  putfrags [literal [79]; mk_frag (s ++ [0]) 0 true; mk_frag [10] 1 true].
