(* ===== verification/GdbProps.v ===== *)
(** * The remote debugger: packets arrive as they were sent

    The other end of the line as the remote protocol documents it:
    [read_frame] takes a packet apart, with its runs and its checksum, and
    [packet] makes one.  What the stub sends is read back as it was meant, the
    stub reads what a debugger sends, and the memory it shows is the memory the
    program sees through its page tables. *)

From S2P Require Import Prelude Memory Format Mmu Gdb.

Local Open Scope st_scope.

(** ** The other end of the line *)

Definition sum (l : list Z) : Z := fold_right Z.add 0 l.

(** The characters after '$': up to '#' and two digits of checksum, where '*'
    and a count repeat the character before them.  [got] is what was read, the
    latest first.  The text and what is left of the line. *)
Fixpoint read_frame (l : list Z) (csum : Z) (got : list Z) : option (list Z * list Z) :=
  match l with
  | [] => None
  | c :: l' =>
      if c =? 35 then
        match l' with
        | h1 :: h2 :: rest => if u8 csum =? 16 * hex h1 + hex h2 then Some (rev got, rest) else None
        | _ => None
        end
      else if c =? 36 then None
      else if c =? 42 then
        match l', got with
        | n :: l'', g :: _ => read_frame l'' (csum + 42 + n) (replicate (Z.to_nat (n - 29)) g ++ got)
        | _, _ => None
        end
      else read_frame l' (csum + c) (c :: got)
  end.

(** A packet without runs. *)
Definition packet (text : list Z) : list Z :=
  36 :: text ++ [35; hexchars (Z.shiftr (u8 (sum text)) 4); hexchars (u8 (sum text) mod 16)].

(** What a fragment stands for: its bytes, or two digits for each of them. *)
Definition digits2 (c : Z) : list Z := [hexchars (Z.shiftr c 4); hexchars (Z.land c 0xf)].
Definition plain (hexify : bool) (p : list Z) : list Z := if hexify then concat (digits2 <$> p) else p.
Definition payload (frags : list outfrag) : list Z := concat ((fun f => plain (hexify f) (frag_bytes f)) <$> frags).

(** Any bytes may be sent as digits; text is sent as it is and has none of the
    characters of the protocol. *)
Definition is_byte (c : Z) : Prop := 0 <= c < 256.
Definition text_char (c : Z) : Prop := is_byte c /\ c <> 35 /\ c <> 36 /\ c <> 42.
Definition frag_ok (f : outfrag) : Prop := Forall (if hexify f then is_byte else text_char) (frag_bytes f).

(** ** Sending *)

Definition sends (l : list Z) (s : stub) : stub := set_outgoing (outgoing s ++ l) s.

Lemma sends_nil s : sends [] s = s.
Proof. unfold sends. rewrite app_nil_r. by destruct s. Qed.
Lemma sends_app l l' s : sends l' (sends l s) = sends (l ++ l') s.
Proof. unfold sends, set_outgoing. simpl. by rewrite app_assoc. Qed.

Lemma sum_app l l' : sum (l ++ l') = sum l + sum l'.
Proof. induction l as [|x l IH]; simpl; [done|rewrite IH; lia]. Qed.

Lemma u8_add_l a b : u8 (u8 a + b) = u8 (a + b).
Proof. unfold uwrap. by rewrite Z.add_mod_idemp_l by lia. Qed.

Lemma SEND_ok ch checksum s : is_byte ch -> SEND ch checksum s = Ok (u8 (checksum + ch), sends [ch] s).
Proof. intros Hc. unfold SEND, gdb_serial_send, bind, modify, ret, sends. by rewrite (uwrap_small 8 ch) by (unfold is_byte in Hc; lia). Qed.

(** The characters [out] are read as [text]. *)
Definition decodes (out text : list Z) : Prop :=
  Forall is_byte out /\
  forall tail csum got, read_frame (out ++ tail) csum got = read_frame tail (csum + sum out) (rev text ++ got).

Lemma decodes_nil : decodes [] [].
Proof. split; [done|]. intros. simpl. f_equal. lia. Qed.

Lemma decodes_app o1 o2 t1 t2 : decodes o1 t1 -> decodes o2 t2 -> decodes (o1 ++ o2) (t1 ++ t2).
Proof.
  intros [B1 H1] [B2 H2]. split; [by apply Forall_app|]. intros. rewrite <- app_assoc, H1, H2, sum_app, rev_app_distr, <- app_assoc.
  f_equal. lia.
Qed.

Lemma decodes_char c : text_char c -> decodes [c] [c].
Proof.
  intros (Hb & H1 & H2 & H3). split; [by constructor|]. intros. simpl.
  destruct (Z.eqb_spec c 35), (Z.eqb_spec c 36), (Z.eqb_spec c 42); try done. f_equal. lia.
Qed.

Lemma decodes_run c n : text_char c -> (1 <= n <= 98)%nat -> decodes [c; 42; 29 + Z.of_nat n - 1] (replicate n c).
Proof.
  intros (Hb & H1 & H2 & H3) Hn. split; [unfold is_byte in *; repeat constructor; lia|]. intros. simpl.
  destruct (Z.eqb_spec c 35), (Z.eqb_spec c 36), (Z.eqb_spec c 42); try done.
  f_equal; [lia|]. replace (Z.to_nat (29 + Z.of_nat n - 1 - 29)) with (n - 1)%nat by lia.
  assert (rev (replicate n c) = replicate n c) as ->.
  { rewrite <- (reverse_replicate n c) at 2. unfold reverse. by rewrite rev_alt. }
  replace n with (S (n - 1)) at 2 by lia. rewrite replicate_S_end, <- app_assoc. done.
Qed.

Lemma digit_char_ok d : 0 <= d < 16 -> text_char (hexchars d) /\ hex (hexchars d) = d.
Proof.
  intros Hd. assert (d ∈ seqZ 0 16) as H by (apply elem_of_seqZ; lia). revert H.
  repeat (rewrite seqZ_cons by lia; rewrite elem_of_cons; intros [->|H]; [by vm_compute|revert H]; simpl Z.succ; simpl Z.pred).
  rewrite seqZ_nil by lia. by intros ?%not_elem_of_nil.
Qed.

Lemma nibbles c : is_byte c -> 0 <= Z.shiftr c 4 < 16 /\ 0 <= Z.land c 0xf < 16 /\ c = 16 * Z.shiftr c 4 + Z.land c 0xf.
Proof.
  unfold is_byte. intros Hc. rewrite Z.shiftr_div_pow2 by lia. change 0xf with (Z.ones 4). rewrite Z.land_ones by lia.
  pose proof (Z.mod_pos_bound c (2 ^ 4)). pose proof (Z.div_mod c (2 ^ 4)). split_and!; lia.
Qed.

(** Runs. *)
Lemma run_of_prefix c l : exists r, l = replicate (run_of c l) c ++ r.
Proof.
  induction l as [|x l [r IH]]; simpl; [by exists []|]. destruct (Z.eqb_spec x c); [|by exists (x :: l)].
  subst x. exists r. simpl. by rewrite <- IH.
Qed.

Lemma run_length_split h p : exists r, p = replicate (run_length h p) (char_at p 0) ++ r /\ r = drop (run_length h p) p /\
  (run_length h p <= if h then 49 else 98)%nat.
Proof.
  unfold run_length. set (c := char_at p 0). set (lim := if h then 49%nat else 98%nat).
  destruct (run_of_prefix c (take lim p)) as [r E]. set (n := run_of c (take lim p)) in *.
  assert (p = replicate n c ++ (r ++ drop lim p)) as Ep by (rewrite app_assoc, <- E; by rewrite take_drop).
  exists (r ++ drop lim p). split_and!; [done| |].
  - assert (drop n (replicate n c ++ (r ++ drop lim p)) = r ++ drop lim p) as H by (apply drop_app_length'; by rewrite length_replicate).
    by rewrite <- Ep in H.
  - assert (length (take lim p) <= lim)%nat as H by (rewrite length_take; lia).
    rewrite E, length_app, length_replicate in H. by unfold lim in *; lia.
Qed.

Lemma run_of_cons c l : run_of c (c :: l) = S (run_of c l).
Proof. simpl. by rewrite Z.eqb_refl. Qed.

Lemma starts_run_length h p : starts_run h p = true -> ((if h then 2 else 4) <= run_length h p)%nat.
Proof.
  unfold starts_run, run_length. destruct p as [|c0 [|c1 r]]; try done. intros [->%Z.eqb_eq H]%andb_true_iff.
  destruct h; [simpl take; rewrite !run_of_cons; lia|]. destruct r as [|c2 [|c3 r]]; try done.
  apply andb_true_iff in H as [->%Z.eqb_eq ->%Z.eqb_eq]. simpl take. change (char_at (c0 :: _) 0) with c0. rewrite !run_of_cons. lia.
Qed.

Lemma plain_app h p q : plain h (p ++ q) = plain h p ++ plain h q.
Proof. destruct h; [|done]. unfold plain. by rewrite fmap_app, concat_app. Qed.

Lemma digits2_run c n : Z.shiftr c 4 = Z.land c 0xf -> plain true (replicate n c) = replicate (2 * n) (hexchars (Z.land c 0xf)).
Proof.
  intros E. unfold plain. induction n as [|n IH]; [done|]. replace (2 * S n)%nat with (S (S (2 * n))) by lia.
  rewrite !replicate_S, fmap_cons. cbn [concat]. rewrite IH. unfold digits2. by rewrite E.
Qed.

(** What is sent for a run is read as the run. *)
Lemma decodes_frag_run (h : bool) p c : starts_run h p = true -> char_at p 0 = c -> Forall (if h then is_byte else text_char) p ->
  decodes [if h then hexchars (Z.land c 0xf) else c; 42; 29 + (if h then 2 * Z.of_nat (run_length h p) else Z.of_nat (run_length h p)) - 1]
    (plain h (replicate (run_length h p) c)).
Proof.
  intros Hs <- HF. pose proof (starts_run_length h p Hs) as Hn. destruct (run_length_split h p) as (r & _ & _ & Hl).
  destruct p as [|c p]; [by destruct h|]. apply Forall_cons in HF as [Hc _]. change (char_at (c :: p) 0) with c.
  destruct h.
  - rewrite digits2_run.
    + rewrite <- Nat2Z.inj_mul with (n := 2%nat). apply decodes_run; [apply digit_char_ok, nibbles, Hc|lia].
    + unfold starts_run in Hs. destruct p; [done|]. apply andb_true_iff in Hs as [_ Hs]. by apply Z.eqb_eq.
  - apply decodes_run; [done|lia].
Qed.

Lemma decodes_digits c : is_byte c -> decodes (digits2 c) (digits2 c).
Proof.
  intros Hc. destruct (nibbles c Hc) as (H1 & H2 & _). change (digits2 c) with ([hexchars (Z.shiftr c 4)] ++ [hexchars (Z.land c 0xf)]).
  apply decodes_app; apply decodes_char, digit_char_ok; done.
Qed.

Lemma send3 a b c checksum s (k : Z -> GM Z) : Forall is_byte [a; b; c] ->
  (let! x := SEND a checksum in let! x := SEND b x in let! x := SEND c x in k x) s =
  k (u8 (checksum + sum [a; b; c])) (sends [a; b; c] s).
Proof.
  intros HF. apply Forall_cons in HF as [Ha HF]. apply Forall_cons in HF as [Hb HF]. apply Forall_cons in HF as [Hc _].
  unfold bind. do 3 (rewrite SEND_ok by done; cbv beta iota). rewrite u8_add_l, <- (Z.add_assoc _ b c), u8_add_l, !sends_app. simpl.
  do 2 f_equal. lia.
Qed.

Lemma send_frag_ok fuel (h : bool) p checksum s : (length p <= fuel)%nat -> Forall (if h then is_byte else text_char) p ->
  u8 checksum = checksum ->
  exists out, send_frag fuel h p checksum s = Ok (u8 (checksum + sum out), sends out s) /\ decodes out (plain h p).
Proof.
  revert p checksum s. induction fuel as [|fuel IH]; intros p checksum s Hl HF Hck.
  { destruct p; [|simpl in Hl; lia]. exists []. simpl. rewrite Z.add_0_r, Hck, sends_nil. split; [done|]. destruct h; apply decodes_nil. }
  destruct p as [|c p]; [exists []; simpl; rewrite Z.add_0_r, Hck, sends_nil; split; [done|]; destruct h; apply decodes_nil|].
  assert (forall out1 q t1 (m : GM Z), decodes out1 t1 -> (length q <= fuel)%nat -> Forall (if h then is_byte else text_char) q ->
    plain h (c :: p) = t1 ++ plain h q -> m s = send_frag fuel h q (u8 (checksum + sum out1)) (sends out1 s) ->
    exists out, m s = Ok (u8 (checksum + sum out), sends out s) /\ decodes out (plain h (c :: p))) as Hgo.
  { intros out1 q t1 m Hd Hq HFq Ep Em. destruct (IH q (u8 (checksum + sum out1)) (sends out1 s) Hq HFq) as (out2 & E & Hd2).
    { apply uwrap_small, uwrap_range. lia. }
    exists (out1 ++ out2). rewrite Em, E, u8_add_l, sends_app, sum_app, Ep. split; [do 3 f_equal; lia|by apply decodes_app]. }
  pose proof HF as HF0. apply Forall_cons in HF as [Hc HF]. simpl in Hl. cbn [send_frag].
  destruct (starts_run h (c :: p)) eqn:Hs.
  - pose proof (decodes_frag_run h (c :: p) c Hs eq_refl HF0) as Hd. pose proof (starts_run_length h _ Hs) as Hn.
    destruct (run_length_split h (c :: p)) as (r & Ep & Er & _). set (n := run_length h (c :: p)) in *.
    eapply (Hgo _ (drop n (c :: p)) _); [exact Hd| | | |].
    + rewrite length_drop. simpl. destruct h; lia.
    + by apply Forall_drop.
    + rewrite <- plain_app. f_equal. rewrite <- Er. exact Ep.
    + apply send3. apply Hd.
  - change (drop 1 (c :: p)) with p. destruct h.
    + apply (Hgo (digits2 c) p (digits2 c)); [by apply decodes_digits|lia|done|done|].
      destruct (nibbles c Hc) as (H1 & H2 & _). unfold bind.
      do 2 (rewrite SEND_ok by (by apply digit_char_ok); cbv beta iota). rewrite u8_add_l, sends_app. unfold digits2. simpl. do 2 f_equal. lia.
    + apply (Hgo [c] p [c]); [by apply decodes_char|lia|done|done|]. unfold bind. rewrite SEND_ok by apply Hc. simpl. do 2 f_equal. lia.
Qed.

Lemma send_frags_ok frags checksum s : Forall frag_ok frags -> u8 checksum = checksum ->
  exists out, send_frags frags checksum s = Ok (u8 (checksum + sum out), sends out s) /\ decodes out (payload frags).
Proof.
  revert checksum s. induction frags as [|f frags IH]; intros checksum s HF Hck.
  - exists []. simpl. rewrite Z.add_0_r, Hck, sends_nil. split; [done|]. apply decodes_nil.
  - apply Forall_cons in HF as [Hf HF]. destruct (send_frag_ok _ (hexify f) (frag_bytes f) checksum s (le_n _) Hf Hck) as (o1 & E1 & D1).
    destruct (IH (u8 (checksum + sum o1)) (sends o1 s) HF) as (o2 & E2 & D2); [apply uwrap_small, uwrap_range; lia|].
    exists (o1 ++ o2). cbn [send_frags]. unfold bind. rewrite E1, E2, u8_add_l, sends_app, sum_app. split; [do 3 f_equal; lia|].
    unfold payload. rewrite fmap_cons. by apply decodes_app.
Qed.

(** The frame of a packet: its characters, '#' and the checksum. *)
Definition frame (out : list Z) : list Z := out ++ [35; hexchars (Z.shiftr (u8 (sum out)) 4); hexchars (u8 (sum out) mod 16)].

Lemma checksum_digits z : 16 * hex (hexchars (Z.shiftr (u8 z) 4)) + hex (hexchars (u8 z mod 16)) = u8 z.
Proof.
  assert (is_byte (u8 z)) as Hb by (apply uwrap_range; lia). destruct (nibbles _ Hb) as (H1 & H2 & H3).
  pose proof (Z.mod_pos_bound (u8 z) 16). rewrite (proj2 (digit_char_ok _ H1)), (proj2 (digit_char_ok (u8 z mod 16) ltac:(lia))).
  rewrite Z.shiftr_div_pow2 by lia. change (2 ^ 4) with 16. pose proof (Z.div_mod (u8 z) 16). lia.
Qed.

Lemma read_frame_ok out text : decodes out text -> read_frame (frame out) 0 [] = Some (text, []).
Proof.
  intros [_ HD]. unfold frame. rewrite HD. simpl. rewrite checksum_digits, Z.eqb_refl, app_nil_r. by rewrite rev_involutive.
Qed.

Lemma send_chars l s : Forall is_byte l -> for_each l gdb_serial_send s = Ok (tt, sends l s).
Proof.
  revert s. induction l as [|c l IH]; intros s HF; [by rewrite sends_nil|]. apply Forall_cons in HF as [Hc HF].
  simpl. unfold bind, gdb_serial_send at 1, modify. rewrite (uwrap_small 8 c) by (unfold is_byte in Hc; lia).
  change (set_outgoing (outgoing s ++ [c]) s) with (sends [c] s). by rewrite IH, sends_app.
Qed.

Lemma put_once fuel frags s : Forall frag_ok frags -> exists out, decodes out (payload frags) /\
  putfrags_loop (S fuel) frags s =
    (let! answer := gdb_serial_recv in if Z.land answer 0x7f =? 43 then ret tt else putfrags_loop fuel frags) (sends (36 :: frame out) s).
Proof.
  intros HF. destruct (send_frags_ok frags 0 (sends [36] s) HF eq_refl) as (out & E & HD). exists out. split; [done|].
  cbn [putfrags_loop]. unfold bind at 1 2 3 4 5. unfold gdb_serial_send at 1, modify. change (set_outgoing (outgoing s ++ [u8 36]) s) with (sends [36] s).
  rewrite E. unfold gdb_serial_send, modify. rewrite Z.add_0_l.
  assert (forall d, 0 <= d < 16 -> u8 (hexchars d) = hexchars d) as Hu.
  { intros d Hd. apply uwrap_small. apply digit_char_ok in Hd as [[Hb _] _]. unfold is_byte in Hb. lia. }
  assert (is_byte (u8 (sum out))) as Hb by (apply uwrap_range; lia).
  rewrite !Hu by (first [apply nibbles, Hb | apply Z.mod_pos_bound; lia]).
  unfold frame, sends, set_outgoing. simpl. rewrite <- !app_assoc. simpl. done.
Qed.

(** The frames of a packet that was sent several times. *)
Definition frames_of (frames : list (list Z)) : list Z := concat (cons 36 <$> frames).

Lemma putfrags_loop_ok frags fuel naks rest s : Forall frag_ok frags -> Forall (fun c => Z.land c 0x7f <> 43) naks ->
  incoming s = naks ++ 43 :: rest -> (length naks < fuel)%nat ->
  exists frames, putfrags_loop fuel frags s = Ok (tt, sends (frames_of frames) (set_incoming rest s)) /\
    length frames = S (length naks) /\ Forall (fun fr => read_frame fr 0 [] = Some (payload frags, [])) frames.
Proof.
  intros HF. revert naks s. induction fuel as [|fuel IH]; intros naks s HN Hin Hl; [lia|].
  destruct (put_once fuel frags s HF) as (out & HD & ->). apply read_frame_ok in HD. unfold bind, gdb_serial_recv.
  destruct naks as [|c naks]; simpl in Hin; cbn [incoming sends set_outgoing]; rewrite Hin.
  - change (Z.land 43 0x7f =? 43) with true. cbv iota beta. exists [frame out]. split_and!; [|done|by repeat constructor].
    unfold frames_of. cbn [concat fmap list_fmap]. by rewrite app_nil_r.
  - apply Forall_cons in HN as [Hc HN]. destruct (Z.eqb_spec (Z.land c 0x7f) 43); [done|].
    destruct (IH naks (set_incoming (naks ++ 43 :: rest) (sends (36 :: frame out) s)) HN eq_refl) as (frames & -> & El & Hfr); [simpl in Hl; lia|].
    exists (frame out :: frames). split_and!; [|simpl; lia|by constructor].
    unfold frames_of. cbn [fmap list_fmap concat]. unfold sends, set_outgoing, set_incoming. simpl. by rewrite <- app_assoc.
Qed.

(** C35: the debugger reads what the stub sends.  Given fragments whose text
    has none of the characters of the protocol (and whatever bytes are to be
    sent as digits), putfrags sends the packet again until it is acknowledged
    with a '+', and each time the characters it sends, runs replaced by counts
    and checksum included, are read as the text and the digits of the
    fragments. *)
Theorem reply_read_back frags naks rest s : Forall frag_ok frags -> Forall (fun c => Z.land c 0x7f <> 43) naks ->
  incoming s = naks ++ 43 :: rest ->
  exists frames, putfrags frags s = Ok (tt, sends (frames_of frames) (set_incoming rest s)) /\
    length frames = S (length naks) /\ Forall (fun fr => read_frame fr 0 [] = Some (payload frags, [])) frames.
Proof.
  intros HF HN Hin. unfold putfrags, patience, gets, bind. apply (putfrags_loop_ok frags _ naks); [done..|].
  rewrite Hin, length_app. simpl. lia.
Qed.

(** ** Receiving *)

(** What the packet leaves in the buffer. *)
Definition filled (text buffer : list Z) : list Z := overwrite buffer 0 (text ++ [0]).

Lemma overwrite_app buf i l l' : overwrite buf i (l ++ l') = overwrite (overwrite buf i l) (i + length l) l'.
Proof.
  revert buf i. induction l as [|b l IH]; intros buf i; simpl; [by rewrite Nat.add_0_r|]. rewrite IH. f_equal. lia.
Qed.

Lemma overwrite_length buf i l : length (overwrite buf i l) = length buf.
Proof. revert buf i. induction l as [|b l IH]; intros; simpl; [done|]. by rewrite IH, length_insert. Qed.

Lemma overwrite_lookup buf i l j : (i + length l <= length buf)%nat ->
  overwrite buf i l !! j = if decide (i <= j < i + length l)%nat then l !! (j - i)%nat else buf !! j.
Proof.
  revert buf i. induction l as [|b l IH]; intros buf i Hl; simpl in *; [case_decide; [lia|done]|].
  rewrite IH by (rewrite length_insert; lia). destruct (decide (S i <= j < S i + length l)%nat).
  - rewrite decide_True by lia. replace (j - i)%nat with (S (j - S i)) by lia. done.
  - destruct (decide (i = j)) as [<-|].
    + rewrite decide_True by lia. rewrite Nat.sub_diag. apply list_lookup_insert_eq. lia.
    + rewrite decide_False by lia. by apply list_lookup_insert_ne.
Qed.

(** A text a packet can carry to the stub: bytes other than '#', with room in
    the buffer. *)
Definition packet_text (text : list Z) : Prop :=
  Forall (fun c => is_byte c /\ c <> 35) text /\ (length text < BUFMAX)%nat.

Lemma read_body_ok text room count csum ch buffer rest s : Forall (fun c => is_byte c /\ c <> 35) text ->
  (length text < room)%nat -> u8 csum = csum -> incoming s = text ++ 35 :: rest ->
  (forall b, char_at (overwrite buffer count text) (count + length text - 1) = b -> (count + length text <> 0)%nat -> b <> 0x7d) ->
  read_body room count csum ch buffer s =
    Ok (35, (count + length text)%nat, u8 (csum + sum text), overwrite buffer count text, set_incoming rest s).
Proof.
  revert room count csum ch buffer s. induction text as [|c text IH]; intros room count csum ch buffer s HF Hr Hc Hin Hlast.
  - destruct room as [|room]; [simpl in Hr; lia|]. cbn [read_body]. unfold bind, gdb_serial_recv. rewrite Hin. simpl in Hlast.
    rewrite Nat.add_0_r in *. simpl sum. rewrite Z.add_0_r, Hc. change (35 =? 35) with true. simpl andb.
    destruct (Nat.eqb_spec count 0); simpl; [done|]. rewrite (proj2 (Z.eqb_neq _ _) (Hlast _ eq_refl n)). done.
  - apply Forall_cons in HF as [[Hb Hc35] HF]. destruct room as [|room]; [simpl in Hr; lia|]. cbn [read_body].
    unfold bind, gdb_serial_recv. rewrite Hin. cbn [app]. rewrite (proj2 (Z.eqb_neq c 35) Hc35). simpl andb. cbv iota.
    rewrite (uwrap_small 8 c) by (unfold is_byte in Hb; lia). rewrite andb_false_l. cbv iota. rewrite (IH room (S count)); simpl in *.
    + rewrite u8_add_l. replace (S (count + length text)) with (count + S (length text))%nat by lia. do 5 f_equal. lia.
    + done.
    + lia.
    + apply uwrap_small, uwrap_range. lia.
    + done.
    + intros b Hb' _. apply Hlast; [|lia]. rewrite <- Hb'. f_equal. lia.
Qed.

Lemma skip_ok fuel junk rest s : Forall (fun c => Z.land c 0x7f <> 36) junk -> incoming s = junk ++ 36 :: rest -> (length junk < fuel)%nat ->
  skip_to_start fuel s = Ok (tt, set_incoming rest s).
Proof.
  revert junk s. induction fuel as [|fuel IH]; intros junk s HJ Hin Hl; [lia|]. cbn [skip_to_start]. unfold bind, gdb_serial_recv. rewrite Hin.
  destruct junk as [|c junk]; cbn [app]; [done|]. apply Forall_cons in HJ as [Hc HJ].
  rewrite (proj2 (Z.eqb_neq _ _) Hc). rewrite (IH junk); [done|done|done|simpl in Hl; lia].
Qed.

(** Something that comes over the line: characters before a packet, its text
    and the two characters of its checksum. *)
Record transmission := mk_trans { junk : list Z; text : list Z; csum1 : Z; csum2 : Z }.
Definition wire (t : transmission) : list Z := junk t ++ 36 :: text t ++ [35; csum1 t; csum2 t].
Definition trans_ok (t : transmission) : Prop :=
  Forall (fun c => Z.land c 0x7f <> 36) (junk t) /\ packet_text (text t) /\ last (text t) <> Some 0x7d /\ is_byte (csum1 t) /\ is_byte (csum2 t).

(** Whether the checksum that came is that of the text. *)
Definition checksum_agrees (t : transmission) : bool :=
  u8 (sum (text t)) =? u8 (u8 (Z.shiftl (hex (csum1 t)) 4) + hex (csum2 t)).

Lemma filled_insert text buffer : <[length text := 0]> (overwrite buffer 0 text) = filled text buffer.
Proof. unfold filled. by rewrite overwrite_app. Qed.

Lemma filled_length text buffer : length (filled text buffer) = length buffer.
Proof. apply overwrite_length. Qed.

Lemma char_at_lookup l i c : l !! i = Some c -> char_at l i = c.
Proof. intros H. unfold char_at. by apply nth_lookup_Some. Qed.

Lemma receive_once_ok t buffer rest s : trans_ok t -> length buffer = SIZE_INBUF -> incoming s = wire t ++ rest ->
  char_at (filled (text t) buffer) 2 <> 58 \/ checksum_agrees t = false ->
  receive_once buffer s = Ok (filled (text t) buffer, checksum_agrees t,
    sends [if checksum_agrees t then 43 else 45] (set_incoming rest s)).
Proof.
  intros (HJ & [HT Hl] & Hlast & Hb1 & Hb2) Hlen Hin Hseq. unfold wire in Hin. rewrite <- app_assoc in Hin. cbn [app] in Hin.
  rewrite <- app_assoc in Hin. cbn [app] in Hin. unfold receive_once, patience, gets, bind at 1 2 3.
  rewrite (skip_ok _ (junk t) _ s HJ Hin) by (rewrite Hin, length_app; simpl; lia).
  rewrite (read_body_ok (text t) BUFMAX 0 0 0 buffer (csum1 t :: csum2 t :: rest)
    (set_incoming (text t ++ 35 :: csum1 t :: csum2 t :: rest) s) HT Hl eq_refl eq_refl).
  - cbv beta iota. rewrite Nat.add_0_l, filled_insert. change (35 =? 35) with true. cbv iota.
    unfold bind, gdb_serial_recv. cbn [incoming set_incoming]. rewrite !(uwrap_small 8 (csum1 t)), !(uwrap_small 8 (csum2 t)) by done.
    rewrite Z.add_0_l. fold (checksum_agrees t). destruct (checksum_agrees t) eqn:Eag; simpl negb; cbv iota; [|done].
    destruct Hseq as [Hseq|]; [|done]. unfold gdb_serial_send, modify. rewrite (proj2 (Z.eqb_neq _ _) Hseq). done.
  - intros b Hb Hn. subst b. rewrite Nat.add_0_l in *. destruct (last (text t)) as [c|] eqn:El; [|apply last_None in El; rewrite El in Hn; done].
    assert (overwrite buffer 0 (text t) !! (length (text t) - 1)%nat = Some c) as Hc.
    { rewrite overwrite_lookup by (unfold BUFMAX, SIZE_INBUF in *; lia). rewrite decide_True by lia. rewrite Nat.sub_0_r.
      by rewrite last_lookup, <- Nat.sub_1_r in El. }
    rewrite (char_at_lookup _ _ _ Hc). congruence.
Qed.

(** The buffer after a series of packets. *)
Definition buffer_after (ts : list transmission) (buffer : list Z) : list Z := fold_left (fun b t => filled (text t) b) ts buffer.

Lemma getpacket_loop_ok fuel damaged t buffer rest s : Forall (fun d => trans_ok d /\ checksum_agrees d = false) damaged ->
  trans_ok t -> checksum_agrees t = true -> length buffer = SIZE_INBUF ->
  char_at (filled (text t) (buffer_after damaged buffer)) 2 <> 58 ->
  incoming s = concat (wire <$> damaged) ++ wire t ++ rest -> (length damaged < fuel)%nat ->
  getpacket_loop fuel buffer s = Ok (filled (text t) (buffer_after damaged buffer),
    sends (replicate (length damaged) 45 ++ [43]) (set_incoming rest s)).
Proof.
  intros HD Ht Hag. revert damaged buffer s HD. induction fuel as [|fuel IH]; intros damaged buffer s HD Hlen Hseq Hin Hf; [lia|].
  cbn [getpacket_loop]. unfold bind. destruct damaged as [|d damaged].
  - rewrite (receive_once_ok t buffer rest); [|done|done|done|by left]. by rewrite Hag.
  - apply Forall_cons in HD as [[Hd Hdag] HD]. rewrite fmap_cons in Hin. cbn [concat] in Hin. rewrite <- app_assoc in Hin.
    rewrite (receive_once_ok d buffer (concat (wire <$> damaged) ++ wire t ++ rest)); [|done|done|done|by right]. rewrite Hdag. cbv iota.
    rewrite (IH damaged (filled (text d) buffer)); [|done|by rewrite filled_length|done|done|simpl in Hf; lia].
    unfold buffer_after. cbn [fold_left length replicate]. unfold sends, set_outgoing, set_incoming. simpl. by rewrite <- app_assoc.
Qed.


(** ** The memory of the program *)

(** The byte the program reads at an address, through its page tables. *)
Definition program_byte (m : mem) (pd va : Z) : option Z := load8 m <$> translate m pd va.
Definition program_bytes (m : mem) (pd va n : Z) : option (list Z) := mapM (fun i => program_byte m pd (va + i)) (seqZ 0 n).

(** Paging is on, in pages of 4 KB. *)
Definition paged (m : mem) (cr0 cr3 : Z) : Prop :=
  0 <= cr3 < 2 ^ 32 /\ Z.testbit cr0 31 = true /\
  forall i, 0 <= i < 1024 -> Z.testbit (load32 m (page_base cr3 + 4 * i)) 0 = true -> Z.testbit (load32 m (page_base cr3 + 4 * i)) 7 = false.

(** The stub finds an address where the processor does. *)
Lemma lookup_translates m cr0 cr3 va : paged m cr0 cr3 -> 0 <= va < 2 ^ 32 ->
  phys_addr_lookup m cr0 cr3 va =
    match translate m (page_base cr3) va with Some pa => (pa, 4096 - va mod 4096) | None => (0, 0) end.
Proof.
  intros (Hcr3 & Hon & Hsmall) Hva. unfold phys_addr_lookup, translate. pose proof (pd_index_range va Hva) as Hi.
  change (pde_to_pa cr3) with (page_base cr3). change (lin2ptenum va) with (pt_index va).
  assert (lin2pdenum va = pd_index va) as ->.
  { unfold lin2pdenum, pd_index. change 0x3ff with (Z.ones 10). rewrite Z.land_ones by lia. apply Z.mod_small. exact Hi. }
  change 0x80000000 with (2 ^ 31). unfold INTEL_PDE_VALID, INTEL_PTE_VALID, INTEL_PDE_SUPERPAGE. change 0x80 with (2 ^ 7). change 1 with (2 ^ 0).
  rewrite !land_bit by lia. rewrite Hon. cbn [negb]. cbv iota. specialize (Hsmall _ Hi). change (2 ^ 0) with 1.
  set (pde := load32 m (page_base cr3 + 4 * pd_index va)) in *. destruct (Z.testbit pde 0); [|reflexivity]. rewrite (Hsmall eq_refl). cbn [negb]. cbv iota.
  change (pde_to_pa pde) with (page_base pde). set (pte := load32 m (page_base pde + 4 * pt_index va)).
  destruct (Z.testbit pte 0); cbn [negb]; cbv iota; [|reflexivity]. change (pte_to_pa pte) with (page_base pte).
  unfold INTEL_OFFMASK. rewrite !land_fff. pose proof (Z.mod_pos_bound va 4096). f_equal.
  apply uwrap_small. pose proof (load32_range m (page_base pde + 4 * pt_index va)) as Hr. fold pte in Hr. rewrite page_base_eq by done. clear - Hr. Z.to_euclidean_division_equations. lia.
Qed.

Lemma translate_range m pd va pa : translate m pd va = Some pa -> exists f, 0 <= f <= 2 ^ 32 - 4096 /\ pa = f + va mod 4096.
Proof.
  unfold translate. destruct (Z.testbit _ 0); [|done]. destruct (Z.testbit (load32 m (page_base _ + _)) 0); [|done]. intros [= <-].
  rewrite land_fff. eexists. split; [|done]. match goal with |- context [page_base (load32 m ?a)] => pose proof (load32_range m a) as Hr; rewrite page_base_eq by done end. clear - Hr. Z.to_euclidean_division_equations. lia.
Qed.

(** The bytes of one page. *)
Lemma page_bytes m pd va pa n : 0 <= va < 2 ^ 32 -> 0 <= n <= 4096 - va mod 4096 -> translate m pd va = Some pa ->
  program_bytes m pd va n = Some (bytes_at m pa (Z.to_nat n)).
Proof.
  intros Hva Hn Ht. unfold program_bytes, bytes_at. rewrite Z2Nat.id by lia. apply mapM_Some. apply Forall2_fmap_r.
  apply Forall2_same_length_lookup_2; [done|]. intros j i i' Hi Hi'. rewrite Hi in Hi'. injection Hi' as <-.
  apply lookup_seqZ in Hi as [-> Hj]. unfold program_byte. rewrite (translate_page m pd va).
  - rewrite Ht. simpl. f_equal. destruct (translate_range m pd va pa Ht) as (f & Hf & ->).
    pose proof (Z.mod_pos_bound va 4096). f_equal. rewrite uwrap_small by lia.
    assert ((va + (0 + Z.of_nat j)) mod 4096 = va mod 4096 + Z.of_nat j) as ->; [|lia].
    Z.to_euclidean_division_equations. lia.
  - done.
  - Z.to_euclidean_division_equations. lia.
Qed.

Lemma mapM_app_option {A B} (f : A -> option B) l1 l2 :
  mapM f (l1 ++ l2) = (b1 ← mapM f l1; b2 ← mapM f l2; Some (b1 ++ b2)).
Proof.
  induction l1 as [|x l1 IH]; simpl; [by destruct (mapM f l2)|]. rewrite IH. destruct (f x); [|done]. simpl.
  destruct (mapM f l1); [|done]. simpl. by destruct (mapM f l2).
Qed.

Lemma mapM_fmap_option {A B C} (f : B -> option C) (g : A -> B) l : mapM f (g <$> l) = mapM (fun x => f (g x)) l.
Proof. induction l as [|x l IH]; [done|]. rewrite fmap_cons. simpl. by rewrite IH. Qed.

Lemma program_bytes_split m pd va n1 n2 : 0 <= n1 -> 0 <= n2 ->
  program_bytes m pd va (n1 + n2) = (b1 ← program_bytes m pd va n1; b2 ← program_bytes m pd (va + n1) n2; Some (b1 ++ b2)).
Proof.
  intros H1 H2. unfold program_bytes. rewrite seqZ_app by lia. rewrite mapM_app_option.
  assert (mapM (fun i => program_byte m pd (va + i)) (seqZ (0 + n1) n2) = mapM (fun i => program_byte m pd (va + n1 + i)) (seqZ 0 n2)) as ->; [|done].
  rewrite <- (Z.add_0_r (0 + n1)), <- fmap_add_seqZ, Z.add_0_l, mapM_fmap_option. apply mapM_ext. intros i. f_equal. lia.
Qed.

(** How many rounds gdb_copyin needs: one for each page and one to end. *)
Definition rounds (va size : Z) : Z := (va mod 4096 + size + 4095) / 4096 + 1.

Lemma copyin_loop_ok fuel va size room read s :
  paged (ram s) (client_cr0 s) (client_cr3 s) -> 0 <= va -> va + size <= 2 ^ 32 -> 0 <= size <= room -> rounds va size <= Z.of_nat fuel ->
  match program_bytes (ram s) (page_base (client_cr3 s)) va size with
  | Some bytes => copyin_loop fuel va size room read s = Ok (read ++ bytes, 0, s)
  | None => exists prefix, copyin_loop fuel va size room read s = Ok (read ++ prefix, -1, s)
  end.
Proof.
  intros HP. revert va size room read. induction fuel as [|fuel IH]; intros va size room read Hva Hend Hsz Hf.
  { unfold rounds in Hf. pose proof (Z.mod_pos_bound va 4096). pose proof (Z.div_pos (va mod 4096 + size + 4095) 4096). lia. }
  cbn [copyin_loop]. destruct (Z.eqb_spec size 0) as [->|Hs0]; [unfold program_bytes; simpl; by rewrite app_nil_r|].
  unfold bind, gets. rewrite lookup_translates by (done || lia). set (pd := page_base (client_cr3 s)) in *. set (m := ram s) in *.
  pose proof (Z.mod_pos_bound va 4096) as Ho. set (sz := if size <? 4096 - va mod 4096 then size else 4096 - va mod 4096).
  assert (0 < sz <= size /\ sz <= 4096 - va mod 4096) as Hsz1 by (unfold sz; destruct (Z.ltb_spec size (4096 - va mod 4096)); lia).
  destruct (translate m pd va) as [pa|] eqn:Et.
  - destruct (Z.eqb_spec (4096 - va mod 4096) 0); [lia|]. fold sz. destruct (Z.ltb_spec room sz); [lia|].
    pose proof (page_bytes m pd va pa sz ltac:(lia) ltac:(lia) Et) as Hpb.
    assert (size = sz \/ sz = 4096 - va mod 4096) as Hcase by (unfold sz; destruct (Z.ltb_spec size (4096 - va mod 4096)); lia).
    clearbody sz. pose proof (program_bytes_split m pd va sz (size - sz) ltac:(lia) ltac:(lia)) as Hsp.
    replace (sz + (size - sz)) with size in Hsp by lia. rewrite Hsp, Hpb. cbn [mbind option_bind].
    destruct (decide (size = sz)) as [E|E].
    + rewrite E, Z.sub_diag. unfold program_bytes. simpl. rewrite app_nil_r. destruct fuel as [|fuel'].
      { exfalso. revert Hf. unfold rounds. clear - Hsz1 Ho E. Z.to_euclidean_division_equations. lia. }
      done.
    + destruct Hcase as [?|Esz]; [done|].
      rewrite (uwrap_small 32 (va + sz)) by lia.
      specialize (IH (va + sz) (size - sz) (room - sz) (read ++ bytes_at m pa (Z.to_nat sz)) ltac:(lia) ltac:(lia) ltac:(lia)).
      destruct (program_bytes m pd (va + sz) (size - sz)) as [b2|].
      * simpl. rewrite IH; [by rewrite <- app_assoc|]. revert Hf. unfold rounds. rewrite Esz. clear. intros Hf. Z.to_euclidean_division_equations. lia.
      * simpl. destruct IH as [pre Hpre]; [revert Hf; unfold rounds; rewrite Esz; clear; intros Hf; Z.to_euclidean_division_equations; lia|].
        eexists. rewrite Hpre, <- app_assoc. done.
  - assert (program_bytes m pd va size = None) as ->; [|exists []; by rewrite app_nil_r].
    assert (program_byte m pd (va + 0) = None) as E by (unfold program_byte; by rewrite Z.add_0_r, Et).
    unfold program_bytes. rewrite seqZ_cons by lia. simpl. by rewrite E.
Qed.

Lemma gdb_copyin_ok va size room s :
  paged (ram s) (client_cr0 s) (client_cr3 s) -> 0 <= va -> va + size <= 2 ^ 32 -> 0 <= size <= room ->
  match program_bytes (ram s) (page_base (client_cr3 s)) va size with
  | Some bytes => gdb_copyin va size room s = Ok (bytes, 0, s)
  | None => exists prefix, gdb_copyin va size room s = Ok (prefix, -1, s)
  end.
Proof.
  intros. apply (copyin_loop_ok (pages size) va size room [] s); try done. unfold rounds, pages. Z.to_euclidean_division_equations. lia.
Qed.

(** ** The request to read memory *)

Section Requests.
Implicit Types (text buffer : list Z).

Lemma cstr_nonzero l r : Forall (fun c => c <> 0) l -> cstr (l ++ 0 :: r) = l.
Proof. induction 1 as [|c l Hc _ IH]; simpl; [done|]. destruct (Z.eqb_spec c 0); [done|]. by rewrite IH. Qed.

Lemma overwrite_start buf l : (length l <= length buf)%nat -> overwrite buf 0 l = l ++ drop (length l) buf.
Proof.
  intros Hl. apply list_eq. intros j. rewrite overwrite_lookup by lia. destruct (decide (0 <= j < 0 + length l)%nat).
  - rewrite lookup_app_l by lia. f_equal. lia.
  - rewrite lookup_app_r, lookup_drop by lia. f_equal. lia.
Qed.

Lemma filled_split text buffer : (length text < length buffer)%nat -> filled text buffer = text ++ 0 :: drop (S (length text)) buffer.
Proof.
  intros Hl. unfold filled. rewrite overwrite_start by (rewrite length_app; simpl; lia).
  rewrite <- app_assoc, length_app. simpl. by rewrite Nat.add_1_r.
Qed.

Lemma cstr_filled text buffer i : Forall (fun c => c <> 0) text -> (length text < length buffer)%nat -> (i <= length text)%nat ->
  cstr (drop i (filled text buffer)) = drop i text.
Proof.
  intros HF Hl Hi. rewrite filled_split by done. rewrite drop_app_le by done. apply cstr_nonzero. by apply Forall_drop.
Qed.

Lemma char_at_filled text buffer i : (length text < length buffer)%nat -> (i < length text)%nat -> char_at (filled text buffer) i = char_at text i.
Proof. intros Hl Hi. rewrite filled_split by done. unfold char_at. by rewrite app_nth1. Qed.

(** What ends a number. *)
Definition ends_number (rest : list Z) : Prop :=
  forall c, head rest = Some c -> digit_in 16 c = None /\ c <> 120 /\ c <> 88.

Lemma strtoul_number ds rest : Forall (fun d => 0 <= d < 16) ds -> ds <> [] -> ends_number rest -> value 16 0 ds < 2 ^ 32 -> 0 <= value 16 0 ds ->
  strtoul (map digit_char ds ++ rest) 16 = (value 16 0 ds, rest).
Proof.
  intros HF Hne Hr Hv Hv0. destruct ds as [|d ds]; [done|]. pose proof HF as HF0. apply Forall_cons in HF as [Hd HF].
  destruct (digit_not_space d Hd) as (Hs & _ & _ & _ & _). unfold strtoul. cbn [map app skip_spaces]. rewrite Hs.
  assert (parse_base 16 (digit_char d :: map digit_char ds ++ rest) = (16, map digit_char (d :: ds) ++ rest)) as ->.
  { unfold parse_base. assert ((char_at (digit_char d :: map digit_char ds ++ rest) 1 =? 120) || (char_at (digit_char d :: map digit_char ds ++ rest) 1 =? 88) = false) as ->.
    { destruct ds as [|d' ds]; cbn [map app].
      - unfold char_at. simpl. destruct rest as [|c rest]; [done|]. destruct (Hr c eq_refl) as (_ & H1 & H2). simpl. by apply Z.eqb_neq in H1 as ->; apply Z.eqb_neq in H2 as ->.
      - apply Forall_cons in HF as [Hd' _]. destruct (digit_not_space d' Hd') as (_ & _ & H1 & H2 & _). unfold char_at. simpl.
        by apply Z.eqb_neq in H1 as ->; apply Z.eqb_neq in H2 as ->. }
    rewrite !andb_false_r. done. }
  rewrite (digits_loop_ok u32 16 0 (d :: ds) rest u32_modular ltac:(lia) HF0); [by rewrite uwrap_small|intros c Hc; by apply Hr|done].
Qed.

Lemma number_at_filled text buffer i ds rest : Forall (fun c => c <> 0) text -> (length text < length buffer)%nat -> (i <= length text)%nat ->
  drop i text = map digit_char ds ++ rest -> Forall (fun d => 0 <= d < 16) ds -> ds <> [] -> ends_number rest ->
  0 <= value 16 0 ds < 2 ^ 32 ->
  number_at (filled text buffer) i = (value 16 0 ds, (i + length ds)%nat, true).
Proof.
  intros HF Hl Hi Hd HD Hne Hr Hv. unfold number_at. rewrite cstr_filled, Hd by done. rewrite strtoul_number by (done || lia).
  rewrite length_app, length_map. replace (length ds + length rest - length rest)%nat with (length ds) by lia.
  destruct ds; [done|]. done.
Qed.

(** The text "m<address>,<length>", in any digits that have these values. *)
Definition read_request (ads nds : list Z) : list Z := 109 :: map digit_char ads ++ 44 :: map digit_char nds.

Lemma digits_nonzero ds : Forall (fun d => 0 <= d < 16) ds -> Forall (fun c => c <> 0) (map digit_char ds).
Proof. induction 1 as [|d ds Hd _ IH]; simpl; constructor; [apply digit_not_space, Hd|done]. Qed.

Record request_ok (ads nds : list Z) (addr n : Z) : Prop := {
  rq_addr : Forall (fun d => 0 <= d < 16) ads /\ ads <> [] /\ value 16 0 ads = addr;
  rq_len : Forall (fun d => 0 <= d < 16) nds /\ nds <> [] /\ value 16 0 nds = n;
  rq_range : 0 <= addr /\ addr + n <= 2 ^ 32 /\ 0 < n <= 200;
  rq_text : (length (read_request ads nds) < BUFMAX)%nat
}.

Lemma request_parsed ads nds addr n buffer : request_ok ads nds addr n -> length buffer = SIZE_INBUF ->
  let b := filled (read_request ads nds) buffer in
  char_at b 0 = 109 /\ number_at b 1 = (addr, S (length ads), true) /\ char_at b (S (length ads)) = 44 /\
  exists e, number_at b (S (S (length ads))) = (n, e, true).
Proof.
  intros [(HA & Ane & EA) (HN & Nne & EN) Hr Hl] Hb. set (text := read_request ads nds) in *. intros b.
  assert (length text < length buffer)%nat as Hlt by (unfold BUFMAX, SIZE_INBUF in *; lia).
  assert (Forall (fun c => c <> 0) text) as Hnz.
  { unfold text, read_request. constructor; [done|]. apply Forall_app. split; [by apply digits_nonzero|]. constructor; [done|by apply digits_nonzero]. }
  assert (length text = S (length ads + S (length nds)))%nat as Elen by (unfold text, read_request; simpl; rewrite length_app; simpl; by rewrite !length_map).
  split_and!.
  - unfold b. rewrite char_at_filled by lia. done.
  - unfold b. rewrite (number_at_filled text buffer 1 ads (44 :: map digit_char nds)); try done; try lia; [by rewrite EA|].
    intros c [= <-]. done.
  - unfold b. rewrite char_at_filled by lia. unfold char_at, text, read_request. simpl.
    rewrite app_nth2 by (rewrite length_map; lia). by rewrite length_map, Nat.sub_diag.
  - eexists. unfold b. rewrite (number_at_filled text buffer _ nds []); try done; try lia; [by rewrite EN|].
    unfold text, read_request. simpl. rewrite drop_app_ge by (rewrite length_map; lia). rewrite length_map.
    replace (S (length ads) - length ads)%nat with 1%nat by lia. simpl. rewrite drop_0. by rewrite app_nil_r.
Qed.
End Requests.

(** An answer that was acknowledged at once. *)
Lemma reply_once frags rest s : Forall frag_ok frags -> incoming s = 43 :: rest ->
  exists fr, putfrags frags s = Ok (tt, sends (36 :: fr) (set_incoming rest s)) /\ read_frame fr 0 [] = Some (payload frags, []).
Proof.
  intros HF Hin. destruct (putfrags_loop_ok frags (S (length (incoming s))) [] rest s HF) as (frames & E & El & Hfr); [done|done|simpl; lia|].
  destruct frames as [|fr [|]]; try done. apply Forall_cons in Hfr as [Hfr _]. exists fr. split; [|done].
  unfold putfrags, patience, gets, bind. rewrite E. unfold frames_of. cbn [fmap list_fmap concat]. by rewrite app_nil_r.
Qed.

Lemma program_bytes_ok m pd va n bytes : 0 <= n -> program_bytes m pd va n = Some bytes ->
  length bytes = Z.to_nat n /\ Forall is_byte bytes.
Proof.
  intros Hn E. apply mapM_Some in E. split.
  - apply Forall2_length in E. by rewrite length_seqZ in E.
  - clear Hn. induction E as [|i b l bs Hb _ IH]; constructor; [|done]. unfold program_byte in Hb.
    destruct (translate m pd (va + i)) as [pa|]; [|done]. injection Hb as <-. apply load8_range.
Qed.

(** The program's memory as the debugger gets it: two digits for each byte, or
    the error 3. *)
Definition memory_answer (bytes : option (list Z)) : list Z :=
  match bytes with Some l => plain true l | None => [69; 48; 51] end.


(** ** Concrete conversations *)

(** A memory in which the page at 0 is mapped to 0x3000 and the page at 0x1000
    to 0x5000, and nothing else is mapped. *)
Definition demo_ram : mem :=
  put_bytes (put_bytes (store32 (store32 (store32 ∅ 0x1000 0x2001) 0x2000 0x3001) 0x2004 0x5001) 0x3ffe [1; 2]) 0x5000 [58; 0; 0; 0; 0; 7].
Definition demo_stub (l : list Z) : stub := mk_stub l [] true false false demo_ram 0x80000001 0x1000.
Definition demo_inbuf : list Z := replicate SIZE_INBUF 170.
Definition demo_params : gdb_params := mk_params 0xffffffff 5 (replicate 64 1) false.

Lemma demo_paged : paged demo_ram 0x80000001 0x1000.
Proof.
  split; [lia|]. split; [reflexivity|]. intros i Hi.
  assert (forallb (fun i => negb (Z.testbit (load32 demo_ram (page_base 0x1000 + 4 * i)) 7)) (seqZ 0 1024) = true) as H by (vm_compute; reflexivity).
  rewrite forallb_forall in H. intros _. apply negb_true_iff, H, list_elem_of_In, elem_of_seqZ. lia.
Qed.

Lemma reply_read_back_witness :
  payload [literal [83]; mk_frag [0; 0; 0; 0; 7] 5 true] = [83; 48; 48; 48; 48; 48; 48; 48; 48; 48; 55] /\
  exists frames, putfrags [literal [83]; mk_frag [0; 0; 0; 0; 7] 5 true] (demo_stub [45; 43; 9]) =
      Ok (tt, sends (frames_of frames) (set_incoming [9] (demo_stub [45; 43; 9]))) /\ length frames = 2%nat.
Proof.
  split; [vm_compute; reflexivity|].
  destruct (reply_read_back [literal [83]; mk_frag [0; 0; 0; 0; 7] 5 true] [45] [9] (demo_stub [45; 43; 9])) as (frames & E & El & _).
  - repeat constructor; vm_compute; try discriminate; reflexivity.
  - repeat constructor. vm_compute. discriminate.
  - reflexivity.
  - exists frames. split; [exact E|exact El].
Defined.



(** ** Behaviours that are not meant *)

(** A request for no bytes is answered with the digits of the request itself:
    a length of 0 means a string that ends with a zero. *)
Example read_nothing_answers_request :
  exists fr inbuf s, command None 0x7000 demo_params (filled (read_request [4] [0]) demo_inbuf) (demo_stub [43]) = Ok (demo_params, inbuf, GDB_MORE, s) /\
    outgoing s = 36 :: fr /\ read_frame fr 0 [] = Some (plain true (read_request [4] [0]), []).
Proof. eexists _, _, _. split; [vm_compute; reflexivity|]. split; [reflexivity|]. vm_compute. reflexivity. Qed.

(** After a read of memory whose third byte is ':', a command of one character
    is taken for one with a sequence number: two characters more than '+' are
    sent. *)
Example stale_sequence_number :
  exists b s, getpacket (overwrite (filled (read_request [1; 0; 0; 0] [3]) demo_inbuf) 0 [1; 2; 58]) (demo_stub [36; 63; 35; 51; 102]) = Ok (b, s) /\
    outgoing s = [43; 63; 0].
Proof. eexists _, _. split; vm_compute; reflexivity. Qed.

(** The check of the register number wraps around: 3fffffff passes and names
    the word before the frame. *)
Example register_number_wraps :
  command None 0x7000 demo_params
    (filled ([80; 51] ++ replicate 7 102 ++ [61] ++ replicate 8 48) demo_inbuf) (demo_stub [43]) = Err Faulted.
Proof. vm_compute. reflexivity. Qed.
