(* ===== verification/Debugger.v ===== *)
(** * Exceptions, the debugger and the serial line (kernel/debugger.c, serial.c)

    An exception runs the task of its vector, which calls [trap_handler] with
    the task segment of the interrupted code at hand: its registers are shown
    on the screen, and the user may look at the screen, ignore the exception,
    restart the machine or call the debugger of [Gdb] over the serial line.
    The keyboard controller answers the reads of port 0x60 with [scancodes]. *)

From S2P Require Import Prelude Memory Format Mmu Gdb GdbProps.

Local Open Scope st_scope.

(** ** The serial line (serial.c) *)

Module Com1.
(** [answers]: what the ports of the controller answer, one read after the
    other; [written]: the bytes sent to its ports, the latest first. *)
Record uart := mk_uart { answers : list Z; written : list (Z * Z); ready : bool }.

Definition inb (port : Z) : ST uart Z :=
  fun u => match answers u with c :: l => Ok (u8 c, mk_uart l (written u) (ready u)) | [] => Err Diverged end.
Definition outb (v port : Z) : ST uart unit := modify (fun u => mk_uart (answers u) ((u8 v, port) :: written u) (ready u)).

Definition init_serial : ST uart unit :=
  let! d := gets ready in
  if d then ret tt else
  do! outb 0x0f (0x3f8 + 4) in
  do! outb 0 (0x3f8 + 1) in
  do! outb 0x83 (0x3f8 + 3) in
  do! outb 1 0x3f8 in
  do! outb 0 (0x3f8 + 1) in
  do! outb 0x03 (0x3f8 + 3) in
  modify (fun u => mk_uart (answers u) (written u) true).

(** [while ((inb(0x3f8 + 5) & 0x20) == 0);] *)
Fixpoint wait_sent (fuel : nat) : ST uart unit :=
  match fuel with
  | O => fail Diverged
  | S fuel' => let! c := inb (0x3f8 + 5) in if Z.land c 0x20 =? 0 then wait_sent fuel' else ret tt
  end.

Definition write_com1 (c : Z) : ST uart unit :=
  do! init_serial in
  let! fuel := gets (fun u => S (length (answers u))) in
  do! wait_sent fuel in
  outb c 0x3f8.

(** [do { c = inb(0x3f8 + 5); } while ((c & 0x1e) || ((c & 1) == 0));] *)
Fixpoint wait_received (fuel : nat) : ST uart unit :=
  match fuel with
  | O => fail Diverged
  | S fuel' =>
      let! c := inb (0x3f8 + 5) in
      if negb (Z.land c 0x1e =? 0) || (Z.land c 1 =? 0) then wait_received fuel' else ret tt
  end.

Definition read_com1 : ST uart Z :=
  do! init_serial in
  let! fuel := gets (fun u => S (length (answers u))) in
  do! wait_received fuel in
  inb 0x3f8.

(** A status that says that a byte is there, without error. *)
Definition receivable (c : Z) : bool := (Z.land (u8 c) 0x1e =? 0) && negb (Z.land (u8 c) 1 =? 0).

Lemma wait_received_ok fuel busy st rest u : Forall (fun c => receivable c = false) busy -> receivable st = true ->
  answers u = busy ++ st :: rest -> (length busy < fuel)%nat ->
  wait_received fuel u = Ok (tt, mk_uart rest (written u) (ready u)).
Proof.
  intros HB Hst. revert busy u HB. induction fuel as [|fuel IH]; intros busy u HB Ha Hf; [lia|].
  cbn [wait_received]. unfold bind, inb at 1. rewrite Ha. unfold receivable in *. destruct busy as [|c busy]; cbn [app].
  - destruct (Z.land (u8 st) 0x1e =? 0); [|done]. by destruct (Z.land (u8 st) 1 =? 0).
  - apply Forall_cons in HB as [Hc HB]. destruct (Z.land (u8 c) 0x1e =? 0); [destruct (Z.land (u8 c) 1 =? 0); [|done]|];
      cbn [negb orb]; (rewrite (IH busy); [done|done|done|simpl in Hf; lia]).
Qed.

(** On a line that was set up, read_com1 waits through every status that says
    that nothing came or that an error occurred and returns the byte that
    follows the first good one. *)
Lemma read_com1_ok busy st b rest u : ready u = true -> Forall (fun c => receivable c = false) busy -> receivable st = true ->
  answers u = busy ++ st :: b :: rest -> read_com1 u = Ok (u8 b, mk_uart rest (written u) true).
Proof.
  intros Hr HB Hst Ha. unfold read_com1, init_serial, bind, gets. rewrite Hr. cbn [ret].
  rewrite (wait_received_ok _ busy st (b :: rest) u HB Hst Ha) by (rewrite Ha, length_app; simpl; lia). unfold inb. simpl. by rewrite Hr.
Qed.
End Com1.

(** ** The handler of exceptions (debugger.c) *)

Record dbg := mk_dbg { line : stub; do_debug : bool; scancodes : list Z }.
Abbreviation DM := (ST dbg).

Definition on_line {A} (m : GM A) : DM A :=
  fun d => match m (line d) with Ok (a, s) => Ok (a, mk_dbg s (do_debug d) (scancodes d)) | Err e => Err e end.
Definition get_ram : DM mem := gets (fun d => ram (line d)).
Definition put_ram (m : mem) : DM unit := on_line (modify (set_ram m)).

(** [inb(0x60)] *)
Definition read_key : DM Z :=
  fun d => match scancodes d with c :: l => Ok (c, mk_dbg (line d) (do_debug d) l) | [] => Err Diverged end.

Definition SIGILL : Z := 4.
Definition SIGTRAP : Z := 5.
Definition SIGFPE : Z := 8.
Definition SIGSEGV : Z := 11.

(** The signal an exception stands for. *)
Definition signal_of (trapno : Z) : Z :=
  if bool_decide (trapno ∈ [0; 4; 5; 7; 8; 9; 15]) then SIGFPE
  else if bool_decide (trapno ∈ [1; 3]) then SIGTRAP
  else if bool_decide (trapno ∈ [10; 11; 12; 13; 14]) then SIGSEGV
  else SIGILL.

(** The places in a task segment of eax, ecx, edx, ebx, esp, ebp, esi, edi, eip,
    eflags, cs, ss, ds, es, fs and gs. *)
Definition saved_registers : list Z := [40; 44; 48; 52; 56; 60; 64; 68; 32; 36; 76; 80; 84; 72; 88; 92].

Definition load_registers (m : mem) (t : Z) : list Z := concat ((fun o => word_bytes (load32 m (t + o))) <$> saved_registers).
Definition store_registers (m : mem) (t : Z) (regs : list Z) : mem :=
  fold_left (fun m p => store32 m (t + p.2) (reg_word regs p.1)) (zip (seqZ 0 16) saved_registers) m.

(** How an exception ends: the interrupted code goes on, or the machine
    restarts. *)
Inductive trap_end := Resumed | Rebooted.

Section Traps.
(** The register cr0, where the stack keeps [inbuf] and what it holds, the
    descriptor table, the task register and the picture of the screen. *)
Context (cr0 cr4 inbuf_at : Z) (garbage : list Z) (gdt tr : Z) (task_dump_screen : Z -> Z).

Definition debugger (trapno error_code t : Z) : DM trap_end :=
  let! m := get_ram in
  let p := mk_params 0xffffffff (signal_of trapno) (load_registers m t) false in
  do! on_line (copy_client_paging_registers cr0 (load32 m (t + 28)) cr4) in
  let! '(p, action) := on_line (gdb_serial_converse None inbuf_at p garbage) in
  do! (if bool_decide (action = GDB_DETACH) then modify (fun d => mk_dbg (line d) false (scancodes d)) else ret tt) in
  if bool_decide (action = GDB_KILL) then ret Rebooted else
  let! m := get_ram in
  do! put_ram (store_registers m t (regs p)) in
  ret Resumed.

Definition screen_base : Z := 0xb8000.

(** The digits "0123456789ABCDEF" *)
Definition disp (d : Z) : Z := if d <? 10 then 48 + d else 65 + (d - 10).

(** [while (length-- > 0)], from the last digit to the first. *)
Fixpoint write_hex_loop (length : nat) (m : mem) (p value : Z) : mem :=
  match length with
  | O => m
  | S length' => write_hex_loop length' (store8 m (p - 2) (disp (Z.land value 15))) (p - 2) (Z.shiftr value 4)
  end.
Definition write_hex (ln col : Z) (length : nat) (value : Z) (m : mem) : mem :=
  write_hex_loop length m (screen_base + ((ln - 1) * 160 + (col + Z.of_nat length - 1) * 2)) value.

(** The picture: a line of it has 80 characters and a line feed. *)
Definition draw_picture (m : mem) : mem :=
  fold_left (fun m i => fold_left (fun m j => store8 m (screen_base + (i * 160 + j * 2)) (task_dump_screen (81 * i + j))) (seqZ 0 80) m) (seqZ 0 25) m.
Definition draw_colors (m : mem) : mem :=
  let m := fold_left (fun m i => store8 m (screen_base + (2 * i + 1)) 0x30) (seqZ 0 2000) m in
  fold_left (fun m i => store8 m (screen_base + (2 * i + 1)) 0x34) (seqZ 161 78) m.

(** What is written where: line, column, number of digits and value. *)
Definition dump_fields (trapno error_code t : Z) : list (Z * Z * nat * (mem -> Z)) :=
  let f o m := load32 m (t + o) in
  [(7, 21, 2%nat, fun _ => trapno); (7, 60, 8%nat, fun _ => error_code); (9, 21, 8%nat, fun _ => t); (9, 69, 4%nat, f 0);
   (11, 11, 8%nat, f 56); (11, 32, 4%nat, f 80); (11, 52, 8%nat, f 4); (11, 74, 4%nat, f 8);
   (13, 11, 8%nat, f 12); (13, 32, 4%nat, f 16); (13, 52, 8%nat, f 20); (13, 74, 4%nat, f 24);
   (15, 15, 8%nat, f 32); (15, 41, 4%nat, f 76); (15, 66, 8%nat, f 36);
   (17, 10, 8%nat, f 40); (17, 30, 8%nat, f 52); (17, 50, 8%nat, f 44); (17, 70, 8%nat, f 48);
   (19, 10, 8%nat, f 64); (19, 30, 8%nat, f 68); (19, 50, 8%nat, f 60); (19, 72, 4%nat, f 96);
   (21, 12, 4%nat, f 84); (21, 32, 4%nat, f 72); (21, 52, 4%nat, f 88); (21, 72, 4%nat, f 92);
   (23, 30, 8%nat, f 28); (23, 70, 1%nat, fun m => Z.land (load16 m (t + 100)) 1)].

Definition dump_registers (trapno error_code t : Z) (m : mem) : mem :=
  fold_left (fun m x => let '(ln, col, n, v) := x in write_hex ln col n (v m) m) (dump_fields trapno error_code t) (draw_colors (draw_picture m)).

Definition enable_debugger : DM unit := modify (fun d => mk_dbg (set_attached true (line d)) true (scancodes d)).

Definition tss_sel_2_tss (m : mem) (sel : Z) : Z :=
  let pdesc := gdt + 8 * Z.shiftr (u16 sel) 3 in
  u32 (Z.land (load32 m (pdesc + 2)) 0xffffff + Z.shiftl (load8 m (pdesc + 7)) 24).

(** [while (inb(0x60) == key);] *)
Fixpoint wait_release (fuel : nat) (key : Z) : DM unit :=
  match fuel with
  | O => fail Diverged
  | S fuel' => let! c := read_key in if c =? key then wait_release fuel' key else ret tt
  end.
Definition released (key : Z) : DM unit := let! n := gets (fun d => S (length (scancodes d))) in wait_release n key.

Definition VIDEO_SIZE : Z := 4000.
Definition show (saved : list Z) : DM unit := let! m := get_ram in put_ram (put_bytes m screen_base saved).

(** The loop that reads the keyboard: space, escape, I and D. *)
Fixpoint trap_loop (fuel : nat) (d : bool) (saved : list Z) (trapno error_code t : Z) : DM trap_end :=
  match fuel with
  | O => fail Diverged
  | S fuel' =>
      let! c := read_key in
      if c =? 0x39 then
        do! (if negb d then let! m := get_ram in put_ram (dump_registers trapno error_code t m) else show saved) in
        do! released 0x39 in
        trap_loop fuel' (negb d) saved trapno error_code t
      else if c =? 1 then ret Rebooted
      else if c =? 0x17 then do! show saved in do! released 0x17 in ret Resumed
      else if c =? 0x20 then
        do! show saved in
        do! released 0x20 in
        do! enable_debugger in
        debugger trapno error_code t
      else trap_loop fuel' d saved trapno error_code t
  end.

Definition trap_handler (trapno error_code : Z) : DM trap_end :=
  let! m := get_ram in
  let t := tss_sel_2_tss m (load32 m (tss_sel_2_tss m tr)) in
  let! dd := gets do_debug in
  if dd then debugger trapno error_code t else
  let saved := bytes_at m screen_base (Z.to_nat VIDEO_SIZE) in
  do! put_ram (dump_registers trapno error_code t m) in
  let! fuel := gets (fun d => S (length (scancodes d))) in
  trap_loop fuel true saved trapno error_code t.
End Traps.

(** ** An exception that is ignored *)

(** Memory outside of the screen is the same. *)
Definition outside_screen (m m' : mem) : Prop :=
  forall b, b < screen_base \/ screen_base + VIDEO_SIZE <= b -> load8 m' b = load8 m b.

#[export] Instance outside_screen_preorder : PreOrder outside_screen.
Proof. split; [by intros m b Hb|]. intros m1 m2 m3 H1 H2 b Hb. by rewrite H2, H1. Qed.

Lemma outside_store8 m a v : screen_base <= a < screen_base + VIDEO_SIZE -> outside_screen m (store8 m a v).
Proof. intros Ha b Hb. apply load8_store8_ne. lia. Qed.

Lemma outside_fold {A} (f : mem -> A -> mem) l m : (forall m x, x ∈ l -> outside_screen m (f m x)) -> outside_screen m (fold_left f l m).
Proof.
  revert m. induction l as [|x l IH]; intros m Hf; [done|]. simpl. transitivity (f m x); [apply Hf; by left|].
  apply IH. intros m' y Hy. apply Hf. by right.
Qed.

Lemma outside_write_hex_loop n m p v : screen_base + 2 * Z.of_nat n <= p <= screen_base + VIDEO_SIZE ->
  outside_screen m (write_hex_loop n m p v).
Proof.
  revert m p v. induction n as [|n IH]; intros m p v Hp; [done|]. cbn [write_hex_loop].
  transitivity (store8 m (p - 2) (disp (Z.land v 15))); [apply outside_store8; lia|apply IH; lia].
Qed.

Section Ignored.
Context (cr0 cr4 inbuf_at : Z) (garbage : list Z) (gdt tr : Z) (task_dump_screen : Z -> Z).

Lemma picture_outside m : outside_screen m (draw_picture task_dump_screen m).
Proof.
  unfold draw_picture. apply outside_fold. intros m' i Hi. apply outside_fold. intros m2 j Hj. apply elem_of_seqZ in Hi, Hj.
  apply outside_store8. unfold VIDEO_SIZE. lia.
Qed.

Lemma colors_outside m : outside_screen m (draw_colors m).
Proof.
  unfold draw_colors. set (m1 := fold_left _ (seqZ 0 2000) m). transitivity m1; unfold m1; apply outside_fold; intros m' i Hi%elem_of_seqZ;
    apply outside_store8; unfold VIDEO_SIZE; lia.
Qed.

Lemma dump_outside trapno error_code t m : outside_screen m (dump_registers task_dump_screen trapno error_code t m).
Proof.
  unfold dump_registers. transitivity (draw_picture task_dump_screen m); [apply picture_outside|].
  transitivity (draw_colors (draw_picture task_dump_screen m)); [apply colors_outside|].
  apply outside_fold. intros m' [[[ln col] n] v] Hx.
  assert (forallb (fun x : Z * Z * nat * (mem -> Z) => let '(ln, col, n, _) := x in
      (1 <=? ln) && (ln <=? 25) && (1 <=? col) && (col + Z.of_nat n <=? 80)) (dump_fields trapno error_code t) = true) as H by reflexivity.
  rewrite forallb_forall in H. apply list_elem_of_In, H in Hx. cbv beta iota in Hx. repeat rewrite andb_true_iff in Hx.
  destruct Hx as [[[H1%Z.leb_le H2%Z.leb_le] H3%Z.leb_le] H4%Z.leb_le]. apply outside_write_hex_loop. unfold VIDEO_SIZE. lia.
Qed.

Lemma load8_put_bytes m pa l b : 0 <= pa -> pa + Z.of_nat (length l) <= 2 ^ 32 ->
  load8 (put_bytes m pa l) b = if decide (pa <= b < pa + Z.of_nat (length l)) then u8 (nth (Z.to_nat (b - pa)) l 0) else load8 m b.
Proof.
  revert m pa. induction l as [|c l IH]; intros m pa H0 Hl; simpl length in *; [simpl; by rewrite decide_False by lia|].
  cbn [put_bytes]. rewrite IH, (uwrap_small 32 pa), load8_store8 by lia.
  destruct (decide (pa = b)) as [<-|Hne].
  - rewrite decide_False by lia. rewrite decide_True by lia. by rewrite Z.sub_diag.
  - destruct (decide (pa + 1 <= b < pa + 1 + Z.of_nat (length l))).
    + rewrite decide_True by lia. replace (Z.to_nat (b - pa)) with (S (Z.to_nat (b - (pa + 1)))) by lia. done.
    + rewrite decide_False by lia. done.
Qed.

(** The screen comes back. *)
Lemma put_saved m0 m : outside_screen m0 m -> put_bytes m screen_base (bytes_at m0 screen_base (Z.to_nat VIDEO_SIZE)) ≡ₘ m0.
Proof.
  intros HO b. assert (length (bytes_at m0 screen_base (Z.to_nat VIDEO_SIZE)) = Z.to_nat VIDEO_SIZE) as Hl.
  { unfold bytes_at. rewrite length_fmap, length_seqZ. lia. }
  rewrite load8_put_bytes; rewrite ?Hl, ?Z2Nat.id by done; [|unfold screen_base; lia|unfold screen_base, VIDEO_SIZE; lia].
  destruct (decide (screen_base <= b < screen_base + VIDEO_SIZE)) as [Hb|Hb]; [|apply HO; lia].
  rewrite nth_lookup. unfold bytes_at. rewrite list_lookup_fmap, lookup_seqZ_lt by lia. simpl.
  rewrite (uwrap_small 32 (screen_base + _)) by (unfold screen_base, VIDEO_SIZE in *; lia).
  rewrite (uwrap_small 8) by apply load8_range. f_equal. lia.
Qed.

(** The user pressed the space bar [n] times, then I. *)
Definition presses (n : nat) (rest : list Z) : list Z := concat (replicate n [0x39; 0xb9]) ++ 0x17 :: 0x97 :: rest.

Definition set_line_ram (m : mem) (d : dbg) (keys : list Z) : dbg := mk_dbg (set_ram m (line d)) (do_debug d) keys.

Lemma trap_loop_ok n fuel v trapno error_code t rest m0 d : scancodes d = presses n rest -> (n < fuel)%nat ->
  outside_screen m0 (ram (line d)) ->
  exists m, trap_loop cr0 cr4 inbuf_at garbage task_dump_screen fuel v (bytes_at m0 screen_base (Z.to_nat VIDEO_SIZE)) trapno error_code t d =
    Ok (Resumed, set_line_ram m d rest) /\ m ≡ₘ m0.
Proof.
  revert fuel v d. induction n as [|n IH]; intros fuel v d Hk Hf HO; (destruct fuel as [|fuel]; [lia|]); cbn [trap_loop].
  - unfold bind, read_key. rewrite Hk. unfold presses. cbn [concat replicate app]. eexists. split; [reflexivity|]. by apply put_saved.
  - assert (presses (S n) rest = 0x39 :: 0xb9 :: presses n rest) as Ep by reflexivity. rewrite Ep in Hk.
    unfold bind, read_key. rewrite Hk. change (0x39 =? 0x39) with true. cbv iota.
    set (saved := bytes_at m0 screen_base (Z.to_nat VIDEO_SIZE)) in *.
    assert (exists m1, (if negb v then let! m := get_ram in put_ram (dump_registers task_dump_screen trapno error_code t m) else show saved)
      (mk_dbg (line d) (do_debug d) (0xb9 :: presses n rest)) = Ok (tt, set_line_ram m1 d (0xb9 :: presses n rest)) /\ outside_screen m0 m1) as (m1 & E1 & HO1).
    { destruct (negb v).
      - eexists. split; [reflexivity|]. etransitivity; [exact HO|]. apply dump_outside.
      - eexists. split; [reflexivity|]. intros b Hb. apply put_saved, HO. }
    unfold bind in E1. rewrite E1. unfold released, bind, gets. cbn [scancodes set_line_ram length wait_release]. unfold bind, read_key.
    cbn [scancodes set_line_ram]. change (0xb9 =? 0x39) with false. cbv iota.
    destruct (IH fuel (negb v) (mk_dbg (line (set_line_ram m1 d [])) (do_debug d) (presses n rest)) eq_refl ltac:(lia) HO1) as (m & E & Hm).
    exists m. split; [exact E|done].
Qed.

End Ignored.

