(* ===== verification/Malloc.v ===== *)
(** * The allocator (shared/malloc.c)

    dlmalloc 2.7.2 as the kernel and the programs compile it: no mmap, no
    locks, no debugging, contiguous memory from sbrk.  Memory is a map of
    32-bit words; a chunk is an address, with the words prev_size, size, fd and
    bk from there on, and the headers of the bins are chunks inside
    malloc_state of which only fd and bk exist.  The other fields of
    malloc_state are the record [arena], with the break of sbrk.  Loops over the
    chunks of a list have as fuel the number of chunks that fit in the heap. *)

From S2P Require Import Prelude Queue Memory Cstring Format Mmu Kernel Process MessageQueue Semaphore System Machine Runtime.

Local Open Scope st_scope.

(** ** State *)

Record tunables := mk_tunables { trim_threshold : Z; top_pad : Z; mmap_threshold : Z; n_mmaps_max : Z }.
Record statistics := mk_statistics { n_mmaps : Z; mmapped_mem : Z; sbrked_mem : Z; max_sbrked_mem : Z; max_total_mem : Z }.

(** struct malloc_state, with the memory and the break. *)
Record arena := mk_arena {
  words : gmap Z Z;
  curbrk : Z;
  max_fast : Z;
  fastbins : list Z;
  top : Z;
  last_remainder : Z;
  binmap : list Z;
  tuned : tunables;
  pagesize : Z;
  morecore_properties : Z;
  stats : statistics
}.

Definition set_words x s := mk_arena x (curbrk s) (max_fast s) (fastbins s) (top s) (last_remainder s) (binmap s) (tuned s) (pagesize s) (morecore_properties s) (stats s).
Definition set_curbrk x s := mk_arena (words s) x (max_fast s) (fastbins s) (top s) (last_remainder s) (binmap s) (tuned s) (pagesize s) (morecore_properties s) (stats s).
Definition put_max_fast x s := mk_arena (words s) (curbrk s) x (fastbins s) (top s) (last_remainder s) (binmap s) (tuned s) (pagesize s) (morecore_properties s) (stats s).
Definition set_fastbins x s := mk_arena (words s) (curbrk s) (max_fast s) x (top s) (last_remainder s) (binmap s) (tuned s) (pagesize s) (morecore_properties s) (stats s).
Definition set_top x s := mk_arena (words s) (curbrk s) (max_fast s) (fastbins s) x (last_remainder s) (binmap s) (tuned s) (pagesize s) (morecore_properties s) (stats s).
Definition set_last_remainder x s := mk_arena (words s) (curbrk s) (max_fast s) (fastbins s) (top s) x (binmap s) (tuned s) (pagesize s) (morecore_properties s) (stats s).
Definition set_binmap x s := mk_arena (words s) (curbrk s) (max_fast s) (fastbins s) (top s) (last_remainder s) x (tuned s) (pagesize s) (morecore_properties s) (stats s).
Definition set_tuned x s := mk_arena (words s) (curbrk s) (max_fast s) (fastbins s) (top s) (last_remainder s) (binmap s) x (pagesize s) (morecore_properties s) (stats s).
Definition set_pagesize x s := mk_arena (words s) (curbrk s) (max_fast s) (fastbins s) (top s) (last_remainder s) (binmap s) (tuned s) x (morecore_properties s) (stats s).
Definition set_morecore_properties x s := mk_arena (words s) (curbrk s) (max_fast s) (fastbins s) (top s) (last_remainder s) (binmap s) (tuned s) (pagesize s) x (stats s).
Definition set_stats x s := mk_arena (words s) (curbrk s) (max_fast s) (fastbins s) (top s) (last_remainder s) (binmap s) (tuned s) (pagesize s) (morecore_properties s) x.

Definition set_trim_threshold x t := mk_tunables x (top_pad t) (mmap_threshold t) (n_mmaps_max t).
Definition set_top_pad x t := mk_tunables (trim_threshold t) x (mmap_threshold t) (n_mmaps_max t).
Definition set_mmap_threshold x t := mk_tunables (trim_threshold t) (top_pad t) x (n_mmaps_max t).
Definition set_n_mmaps_max x t := mk_tunables (trim_threshold t) (top_pad t) (mmap_threshold t) x.
Definition add_sbrked_mem d t := mk_statistics (n_mmaps t) (mmapped_mem t) (u32 (sbrked_mem t + d)) (max_sbrked_mem t) (max_total_mem t).

Abbreviation AM := (ST arena).

Definition rd (m : gmap Z Z) (a : Z) : Z := default 0 (m !! a).
Definition load (a : Z) : AM Z := gets (fun s => rd (words s) a).
Definition store (a v : Z) : AM unit := modify (fun s => set_words (<[a := v]> (words s)) s).

(** ** Sizes *)

Definition SIZE_SZ : Z := 4.
Definition MALLOC_ALIGNMENT : Z := 2 * SIZE_SZ.
Definition MALLOC_ALIGN_MASK : Z := MALLOC_ALIGNMENT - 1.
Definition chunk2mem (p : Z) : Z := u32 (p + 2 * SIZE_SZ).
Definition mem2chunk (m : Z) : Z := u32 (m - 2 * SIZE_SZ).
Definition MIN_CHUNK_SIZE : Z := 16.
(** [x & ~MALLOC_ALIGN_MASK] *)
Definition align_down (x : Z) : Z := Z.land x 0xfffffff8.
Definition MINSIZE : Z := align_down (MIN_CHUNK_SIZE + MALLOC_ALIGN_MASK).

Definition REQUEST_OUT_OF_RANGE (req : Z) : bool := u32 (-2 * MINSIZE) <=? req.
Definition request2size (req : Z) : Z :=
  if u32 (req + SIZE_SZ + MALLOC_ALIGN_MASK) <? MINSIZE then MINSIZE else align_down (u32 (req + SIZE_SZ + MALLOC_ALIGN_MASK)).

(** ** Chunks *)

Definition PREV_INUSE : Z := 0x1.
Definition IS_MMAPPED : Z := 0x2.
Definition SIZE_BITS : Z := Z.lor PREV_INUSE IS_MMAPPED.

(** The fields of a chunk, as addresses. *)
Definition prev_size (p : Z) : Z := p.
Definition size (p : Z) : Z := p + 4.
Definition fd (p : Z) : Z := p + 8.
Definition bk (p : Z) : Z := p + 12.

Definition prev_inuse (p : Z) : AM bool := let! s := load (size p) in ret (negb (Z.land s PREV_INUSE =? 0)).
Definition chunk_is_mmapped (p : Z) : AM bool := let! s := load (size p) in ret (negb (Z.land s IS_MMAPPED =? 0)).
Definition chunksize (p : Z) : AM Z := let! s := load (size p) in ret (Z.land s 0xfffffffc).
Definition chunk_at_offset (p s : Z) : Z := u32 (p + s).
(** [p->size & ~PREV_INUSE] *)
Definition size_with_mmapped (p : Z) : AM Z := let! s := load (size p) in ret (Z.land s 0xfffffffe).
Definition inuse_bit_at_offset (p s : Z) : AM bool := prev_inuse (chunk_at_offset p s).
Definition inuse (p : Z) : AM bool := let! s := size_with_mmapped p in inuse_bit_at_offset p s.
Definition set_inuse_bit_at_offset (p s : Z) : AM unit :=
  let! v := load (size (chunk_at_offset p s)) in store (size (chunk_at_offset p s)) (Z.lor v PREV_INUSE).
Definition set_head_size (p s : Z) : AM unit := let! v := load (size p) in store (size p) (Z.lor (Z.land v PREV_INUSE) s).
Definition set_head (p s : Z) : AM unit := store (size p) s.
Definition set_foot (p s : Z) : AM unit := store (prev_size (chunk_at_offset p s)) s.

Definition unlink (P : Z) : AM unit :=
  let! FD := load (fd P) in
  let! BK := load (bk P) in
  do! store (bk FD) BK in
  store (fd BK) FD.

(** ** Bins *)

Definition NBINS : Z := 96.
Definition NSMALLBINS : Z := 32.
Definition SMALLBIN_WIDTH : Z := 8.
Definition MIN_LARGE_SIZE : Z := 256.
Definition in_smallbin_range (sz : Z) : bool := sz <? MIN_LARGE_SIZE.
Definition smallbin_index (sz : Z) : Z := Z.shiftr sz 3.

(** The branch-free search of the highest bit: the macro i386 of the other
    version is not defined in the standard mode the files are compiled in. *)
Definition highest_bit (x : Z) : Z :=
  let n := Z.land (Z.shiftr (u32 (x - 0x100)) 16) 8 in
  let x := u32 (Z.shiftl x n) in
  let m := Z.land (Z.shiftr (u32 (x - 0x1000)) 16) 4 in
  let n := n + m in
  let x := u32 (Z.shiftl x m) in
  let m := Z.land (Z.shiftr (u32 (x - 0x4000)) 16) 2 in
  let n := n + m in
  let x := Z.shiftr (u32 (Z.shiftl x m)) 14 in
  u32 (13 - n + Z.land x (Z.lnot (Z.shiftr x 1))).

Definition largebin_index (sz : Z) : Z :=
  let x := Z.shiftr sz SMALLBIN_WIDTH in
  if 0x10000 <=? x then NBINS - 1 else
  let m := highest_bit x in
  NSMALLBINS + Z.shiftl m 2 + Z.land (Z.shiftr sz (m + 6)) 3.
Definition bin_index (sz : Z) : Z := if in_smallbin_range sz then smallbin_index sz else largebin_index sz.
Definition FIRST_SORTED_BIN_SIZE : Z := MIN_LARGE_SIZE.

Definition BINMAPSHIFT : Z := 5.
Definition BINMAPSIZE : Z := 3.
Definition idx2block (i : Z) : Z := Z.shiftr i BINMAPSHIFT.
Definition idx2bit (i : Z) : Z := u32 (Z.shiftl 1 (Z.land i (Z.shiftl 1 BINMAPSHIFT - 1))).
Definition map_word (block : Z) (s : arena) : Z := nth (Z.to_nat block) (binmap s) 0.
Definition set_map_word (block v : Z) (s : arena) : arena := set_binmap (<[Z.to_nat block := v]> (binmap s)) s.
Definition mark_bin (i : Z) : AM unit := modify (fun s => set_map_word (idx2block i) (Z.lor (map_word (idx2block i) s) (idx2bit i)) s).

Definition MAX_FAST_SIZE : Z := 80.
Definition fastbin_index (sz : Z) : Z := Z.shiftr sz 3 - 2.
Definition NFASTBINS : Z := fastbin_index (request2size MAX_FAST_SIZE) + 1.
Definition DEFAULT_TRIM_THRESHOLD : Z := 256 * 1024.
Definition FASTBIN_CONSOLIDATION_THRESHOLD : Z := Z.shiftr DEFAULT_TRIM_THRESHOLD 1.
Definition DEFAULT_MXFAST : Z := 64.
Definition DEFAULT_TOP_PAD : Z := 0.
Definition DEFAULT_MMAP_THRESHOLD : Z := 256 * 1024.
Definition DEFAULT_MMAP_MAX : Z := 0.
Definition malloc_getpagesize : Z := 4096.

Definition fastbin (i : Z) (s : arena) : Z := nth (Z.to_nat i) (fastbins s) 0.
Definition set_fastbin (i v : Z) (s : arena) : arena := set_fastbins (<[Z.to_nat i := v]> (fastbins s)) s.

Definition ANYCHUNKS_BIT : Z := 1.
Definition FASTCHUNKS_BIT : Z := 2.
Definition have_anychunks (s : arena) : bool := negb (Z.land (max_fast s) ANYCHUNKS_BIT =? 0).
Definition have_fastchunks (s : arena) : bool := negb (Z.land (max_fast s) FASTCHUNKS_BIT =? 0).
Definition set_anychunks : AM unit := modify (fun s => put_max_fast (Z.lor (max_fast s) ANYCHUNKS_BIT) s).
Definition set_fastchunks : AM unit := modify (fun s => put_max_fast (Z.lor (max_fast s) (Z.lor FASTCHUNKS_BIT ANYCHUNKS_BIT)) s).
Definition clear_fastchunks : AM unit := modify (fun s => put_max_fast (Z.land (max_fast s) (Z.lnot FASTCHUNKS_BIT)) s).
Definition set_max_fast (x : Z) : AM unit :=
  modify (fun s => put_max_fast (Z.lor (if x =? 0 then SMALLBIN_WIDTH else request2size x) (Z.land (max_fast s) (Z.lor FASTCHUNKS_BIT ANYCHUNKS_BIT))) s).

Definition MORECORE_CONTIGUOUS_BIT : Z := 1.
Definition contiguous (s : arena) : bool := negb (Z.land (morecore_properties s) MORECORE_CONTIGUOUS_BIT =? 0).
Definition set_contiguous : AM unit := modify (fun s => set_morecore_properties (Z.lor (morecore_properties s) MORECORE_CONTIGUOUS_BIT) s).
Definition set_noncontiguous : AM unit := modify (fun s => set_morecore_properties (Z.land (morecore_properties s) (Z.lnot MORECORE_CONTIGUOUS_BIT)) s).

(** ** The allocator *)

Section Malloc.
(** Where the linker puts av_, and the heap sbrk hands out. *)
Context (av_ heap heap_end : Z).

(** The address of bins[2i], at offset 52 in malloc_state, less two words. *)
Definition bin_at (i : Z) : Z := av_ + 52 + 4 * (2 * i) - 8.
Definition next_bin (b : Z) : Z := u32 (b + 8).
Definition unsorted_chunks : Z := bin_at 1.
Definition initial_top : Z := unsorted_chunks.

Definition MORECORE_FAILURE : Z := u32 (-1).
Definition MORECORE (diff : Z) : AM Z :=
  fun s => match sbrk heap_end diff (curbrk s) with Ok (r, c) => Ok (r, set_curbrk c s) | Err e => Err e end.

(** More chunks than there can be. *)
Definition chunk_limit : AM nat := gets (fun s => S (Z.to_nat ((curbrk s - heap) / MINSIZE))).

Definition malloc_init_state : AM unit :=
  do! for_each (seqZ 1 (NBINS - 1)) (fun i => do! store (bk (bin_at i)) (bin_at i) in store (fd (bin_at i)) (bin_at i)) in
  do! modify (fun s => set_tuned (mk_tunables DEFAULT_TRIM_THRESHOLD DEFAULT_TOP_PAD DEFAULT_MMAP_THRESHOLD DEFAULT_MMAP_MAX) s) in
  do! set_contiguous in
  do! set_max_fast DEFAULT_MXFAST in
  do! modify (set_top initial_top) in
  modify (set_pagesize malloc_getpagesize).

(** *** malloc_consolidate *)

(** A chunk that is freed and the free chunk before it: the address and size. *)
Definition merge_back (p size0 : Z) : AM (Z * Z) :=
  let! pin := prev_inuse p in
  if negb pin then
    let! prevsize := load (prev_size p) in
    let q := chunk_at_offset p (- prevsize) in
    do! unlink q in
    ret (q, u32 (size0 + prevsize))
  else ret (p, size0).

(** The chunk after it, told that it is free or merged with it. *)
Definition merge_next (nextchunk nextsize size0 : Z) : AM Z :=
  let! nextinuse := inuse_bit_at_offset nextchunk nextsize in
  do! set_head nextchunk nextsize in
  if negb nextinuse then do! unlink nextchunk in ret (u32 (size0 + nextsize)) else ret size0.

(** The body of the inner loop, for the chunk [p]. *)
Definition consolidate_chunk (p : Z) : AM unit :=
  let! size0 := size_with_mmapped p in
  let nextchunk := chunk_at_offset p size0 in
  let! nextsize := chunksize nextchunk in
  let! '(p, size0) := merge_back p size0 in
  let! t := gets top in
  if negb (nextchunk =? t) then
    let! size0 := merge_next nextchunk nextsize size0 in
    let! first_unsorted := load (fd unsorted_chunks) in
    do! store (fd unsorted_chunks) p in
    do! store (bk first_unsorted) p in
    do! set_head p (Z.lor size0 PREV_INUSE) in
    do! store (bk p) unsorted_chunks in
    do! store (fd p) first_unsorted in
    set_foot p size0
  else
    let size0 := u32 (size0 + nextsize) in
    do! set_head p (Z.lor size0 PREV_INUSE) in
    modify (set_top p).

(** [do ... while ((p = nextp) != 0)] *)
Fixpoint consolidate_list (fuel : nat) (p : Z) : AM unit :=
  match fuel with
  | O => fail Diverged
  | S fuel' =>
      let! nextp := load (fd p) in
      do! consolidate_chunk p in
      if negb (nextp =? 0) then consolidate_list fuel' nextp else ret tt
  end.

(** [do ... while (fb++ != maxfb)] *)
Definition consolidate_fastbin (i : Z) : AM unit :=
  let! p := gets (fastbin i) in
  if negb (p =? 0) then
    do! modify (set_fastbin i 0) in
    let! n := chunk_limit in
    consolidate_list n p
  else ret tt.

Definition malloc_consolidate : AM unit :=
  let! mf := gets max_fast in
  if negb (mf =? 0) then
    do! clear_fastchunks in
    let! mf := gets max_fast in
    for_each (seqZ 0 (fastbin_index mf + 1)) consolidate_fastbin
  else malloc_init_state.

(** *** sYSTRIm *)

Definition sYSTRIm (pad : Z) : AM Z :=
  let! pagesz := gets pagesize in
  let! t := gets top in
  let! top_size := chunksize t in
  let extra := s32 (u32 (u32 (top_size - pad - MINSIZE + (pagesz - 1)) / pagesz - 1) * pagesz) in
  if 0 <? extra then
    let! current_brk := MORECORE 0 in
    if current_brk =? u32 (t + top_size) then
      let! _ := MORECORE (- extra) in
      let! new_brk := MORECORE 0 in
      if negb (new_brk =? MORECORE_FAILURE) then
        let released := s32 (current_brk - new_brk) in
        if negb (released =? 0) then
          do! modify (fun s => set_stats (add_sbrked_mem (- released) (stats s)) s) in
          do! set_head t (Z.lor (u32 (top_size - released)) PREV_INUSE) in
          ret 1
        else ret 0
      else ret 0
    else ret 0
  else ret 0.

(** *** fREe *)

Definition fREe (mem0 : Z) : AM unit :=
  if mem0 =? 0 then ret tt else
  let p := mem2chunk mem0 in
  let! size0 := chunksize p in
  let! mf := gets max_fast in
  if size0 <=? mf then
    do! set_fastchunks in
    let! f := gets (fastbin (fastbin_index size0)) in
    do! store (fd p) f in
    modify (set_fastbin (fastbin_index size0) p)
  else
  let! mm := chunk_is_mmapped p in
  if negb mm then
    do! set_anychunks in
    let nextchunk := chunk_at_offset p size0 in
    let! nextsize := chunksize nextchunk in
    let! '(p, size0) := merge_back p size0 in
    let! t := gets top in
    let! size0 :=
      (if negb (nextchunk =? t) then
         let! size0 := merge_next nextchunk nextsize size0 in
         let bck := unsorted_chunks in
         let! fwd := load (fd bck) in
         do! store (bk p) bck in
         do! store (fd p) fwd in
         do! store (fd bck) p in
         do! store (bk fwd) p in
         do! set_head p (Z.lor size0 PREV_INUSE) in
         do! set_foot p size0 in
         ret size0
       else
         let size0 := u32 (size0 + nextsize) in
         do! set_head p (Z.lor size0 PREV_INUSE) in
         do! modify (set_top p) in
         ret size0) in
    if FASTBIN_CONSOLIDATION_THRESHOLD <=? size0 then
      let! fc := gets have_fastchunks in
      do! (if fc then malloc_consolidate else ret tt) in
      let! t := gets top in
      let! top_size := chunksize t in
      let! tt_ := gets (fun s => trim_threshold (tuned s)) in
      if tt_ <=? top_size then
        let! pad := gets (fun s => top_pad (tuned s)) in
        let! _ := sYSTRIm pad in ret tt
      else ret tt
    else ret tt
  else ret tt.

(** *** sYSMALLOc *)

(** Splitting [nb] bytes off the top. *)
Definition take_top (p size0 nb : Z) : AM Z :=
  let remainder_size := u32 (size0 - nb) in
  let remainder := chunk_at_offset p nb in
  do! modify (set_top remainder) in
  do! set_head p (Z.lor nb PREV_INUSE) in
  do! set_head remainder (Z.lor remainder_size PREV_INUSE) in
  ret (chunk2mem p).

(** The adjustments when the new memory does not extend the old top: the
    second call of MORECORE, the correction and the aligned start. *)
Definition second_brk (brk size0 old_size old_end : Z) : AM (Z * Z * Z) :=
  let! pagemask := gets (fun s => pagesize s - 1) in
  let! c := gets contiguous in
  do! (if c && negb (old_size =? 0) && (brk <? old_end) then set_noncontiguous else ret tt) in
  let! c := gets contiguous in
  if c then
    do! (if negb (old_size =? 0) then modify (fun s => set_stats (add_sbrked_mem (brk - old_end) (stats s)) s) else ret tt) in
    let front_misalign := Z.land (chunk2mem brk) MALLOC_ALIGN_MASK in
    let correction := if 0 <? front_misalign then MALLOC_ALIGNMENT - front_misalign else 0 in
    let aligned_brk := u32 (brk + correction) in
    let correction := s32 (correction + old_size) in
    let end_misalign := u32 (brk + size0 + correction) in
    let correction := s32 (correction + (Z.land (u32 (end_misalign + pagemask)) (u32 (Z.lnot pagemask)) - end_misalign)) in
    let! snd := MORECORE correction in
    if snd =? MORECORE_FAILURE then
      let! snd := MORECORE 0 in ret (snd, 0, aligned_brk)
    else if snd <? brk then
      do! set_noncontiguous in ret (u32 (brk + size0), 0, aligned_brk)
    else ret (snd, correction, aligned_brk)
  else
    let! snd := MORECORE 0 in
    do! modify (fun s => set_stats (add_sbrked_mem (snd - brk - size0) (stats s)) s) in
    ret (snd, 0, brk).

(** The fenceposts at the end of an old top that cannot be extended. *)
Definition fenceposts (old_top old_size : Z) : AM unit :=
  let old_size := align_down (u32 (old_size - 3 * SIZE_SZ)) in
  do! set_head old_top (Z.lor old_size PREV_INUSE) in
  do! set_head (chunk_at_offset old_top old_size) (Z.lor SIZE_SZ PREV_INUSE) in
  do! set_head (chunk_at_offset old_top (u32 (old_size + SIZE_SZ))) (Z.lor SIZE_SZ PREV_INUSE) in
  if MINSIZE <=? old_size then
    let! th := gets (fun s => trim_threshold (tuned s)) in
    do! modify (fun s => set_tuned (set_trim_threshold (u32 (-1)) (tuned s)) s) in
    do! fREe (chunk2mem old_top) in
    modify (fun s => set_tuned (set_trim_threshold th (tuned s)) s)
  else ret tt.

Definition update_maxima : AM unit :=
  modify (fun s =>
    let t := stats s in
    let max_sbrked := if max_sbrked_mem t <? sbrked_mem t then sbrked_mem t else max_sbrked_mem t in
    let sum := u32 (sbrked_mem t + mmapped_mem t) in
    let max_total := if max_total_mem t <? sum then sum else max_total_mem t in
    set_stats (mk_statistics (n_mmaps t) (mmapped_mem t) (sbrked_mem t) max_sbrked max_total) s).

(** sYSMALLOc once no chunk is in a fastbin. *)
Definition sysmalloc_more (nb : Z) : AM Z :=
  let! old_top := gets top in
  let! old_size := chunksize old_top in
  let old_end := chunk_at_offset old_top old_size in
  let! pagemask := gets (fun s => pagesize s - 1) in
  let! pad := gets (fun s => top_pad (tuned s)) in
  let! c := gets contiguous in
  let size0 := u32 (nb + pad + MINSIZE) in
  let size0 := if c then u32 (size0 - old_size) else size0 in
  let size0 := s32 (Z.land (u32 (size0 + pagemask)) (u32 (Z.lnot pagemask))) in
  let! brk := (if 0 <? size0 then MORECORE size0 else ret MORECORE_FAILURE) in
  if negb (brk =? MORECORE_FAILURE) then
    do! modify (fun s => set_stats (add_sbrked_mem size0 (stats s)) s) in
    do! (if brk =? old_end then set_head old_top (Z.lor (u32 (size0 + old_size)) PREV_INUSE)
         else
           let! '(snd_brk, correction, aligned_brk) := second_brk brk size0 old_size old_end in
           if negb (snd_brk =? MORECORE_FAILURE) then
             do! modify (set_top aligned_brk) in
             do! set_head aligned_brk (Z.lor (u32 (snd_brk - aligned_brk + correction)) PREV_INUSE) in
             do! modify (fun s => set_stats (add_sbrked_mem correction (stats s)) s) in
             if negb (old_size =? 0) then fenceposts old_top old_size else ret tt
           else ret tt) in
    do! update_maxima in
    let! p := gets top in
    let! size1 := chunksize p in
    if u32 (nb + MINSIZE) <=? size1 then take_top p size1 nb else ret 0
  else ret 0.

(** [again] is the call of mALLOc. *)
Definition sYSMALLOc (again : Z -> AM Z) (nb : Z) : AM Z :=
  let! fc := gets have_fastchunks in
  if fc then do! malloc_consolidate in again (u32 (nb - MALLOC_ALIGN_MASK))
  else sysmalloc_more nb.

(** *** mALLOc *)

(** The remainder of a split becomes the only unsorted chunk. *)
Definition split_off (victim size0 nb : Z) (last : bool) : AM Z :=
  let remainder_size := u32 (size0 - nb) in
  let remainder := chunk_at_offset victim nb in
  do! store (fd unsorted_chunks) remainder in
  do! store (bk unsorted_chunks) remainder in
  do! (if last then modify (set_last_remainder remainder) else ret tt) in
  do! store (fd remainder) unsorted_chunks in
  do! store (bk remainder) unsorted_chunks in
  do! set_head victim (Z.lor nb PREV_INUSE) in
  do! set_head remainder (Z.lor remainder_size PREV_INUSE) in
  do! set_foot remainder remainder_size in
  ret (chunk2mem victim).

Definition exhaust (victim size0 : Z) : AM Z :=
  do! set_inuse_bit_at_offset victim size0 in ret (chunk2mem victim).

(** [while (size < fwd->size) fwd = fwd->fd;] *)
Fixpoint seek_fwd (fuel : nat) (size0 fwd : Z) : AM Z :=
  match fuel with
  | O => fail Diverged
  | S fuel' =>
      let! s := load (size fwd) in
      if size0 <? s then let! f := load (fd fwd) in seek_fwd fuel' size0 f else ret fwd
  end.

(** Place a chunk in its bin. *)
Definition place_in_bin (victim size0 : Z) : AM unit :=
  let victim_index := bin_index size0 in
  let bck := bin_at victim_index in
  let! fwd := load (fd bck) in
  let! '(bck, fwd) :=
    (if negb (in_smallbin_range size0) && negb (fwd =? bck) then
       let! smallest := load (bk bck) in
       let! s := load (size smallest) in
       if size0 <? s then ret (smallest, bck)
       else if FIRST_SORTED_BIN_SIZE <=? size0 then
         let! n := chunk_limit in
         let! fwd := seek_fwd n (Z.lor size0 PREV_INUSE) fwd in
         let! bck := load (bk fwd) in
         ret (bck, fwd)
       else ret (bck, fwd)
     else ret (bck, fwd)) in
  do! mark_bin victim_index in
  do! store (bk victim) bck in
  do! store (fd victim) fwd in
  do! store (bk fwd) victim in
  store (fd bck) victim.

(** The loop on the unsorted chunks: [Some] is the end of mALLOc. *)
Fixpoint process_unsorted (fuel : nat) (nb : Z) : AM (option Z) :=
  match fuel with
  | O => fail Diverged
  | S fuel' =>
      let! victim := load (bk unsorted_chunks) in
      if victim =? unsorted_chunks then ret None else
      let! bck := load (bk victim) in
      let! size0 := chunksize victim in
      let! lr := gets last_remainder in
      if in_smallbin_range nb && (bck =? unsorted_chunks) && (victim =? lr) && (u32 (nb + MINSIZE) <? size0) then
        let! r := split_off victim size0 nb true in ret (Some r)
      else
      do! store (bk unsorted_chunks) bck in
      do! store (fd bck) unsorted_chunks in
      if size0 =? nb then let! r := exhaust victim size0 in ret (Some r) else
      do! place_in_bin victim size0 in
      process_unsorted fuel' nb
  end.

(** The loop on the chunks of the bin of a large request, from the smallest. *)
Fixpoint scan_large (fuel : nat) (bin victim nb : Z) : AM (option Z) :=
  match fuel with
  | O => fail Diverged
  | S fuel' =>
      if victim =? bin then ret None else
      let! size0 := chunksize victim in
      if nb <=? size0 then
        do! unlink victim in
        let! r := (if u32 (size0 - nb) <? MINSIZE then exhaust victim size0 else split_off victim size0 nb false) in
        ret (Some r)
      else let! b := load (bk victim) in scan_large fuel' bin b nb
  end.

(** [do { if (++block >= BINMAPSIZE) goto use_top; } while ((map = av->binmap[block]) == 0);] *)
Fixpoint next_block (fuel : nat) (block : Z) : AM (option (Z * Z)) :=
  match fuel with
  | O => fail Diverged
  | S fuel' =>
      let block := block + 1 in
      if BINMAPSIZE <=? block then ret None else
      let! map := gets (map_word block) in
      if map =? 0 then next_block fuel' block else ret (Some (block, map))
  end.

(** [while ((bit & map) == 0) { bin = next_bin(bin); bit <<= 1; }] *)
Fixpoint advance_bit (fuel : nat) (map bin bit : Z) : AM (Z * Z) :=
  match fuel with
  | O => fail Diverged
  | S fuel' => if Z.land bit map =? 0 then advance_bit fuel' map (next_bin bin) (u32 (Z.shiftl bit 1)) else ret (bin, bit)
  end.

(** [for (;;)]: the bins larger than the request; [None] is use_top. *)
Fixpoint scan_bins (fuel : nat) (bin block map bit nb : Z) : AM (option Z) :=
  match fuel with
  | O => fail Diverged
  | S fuel' =>
      let! o := (if (map <? bit) || (bit =? 0) then
                   let! o := next_block 4 block in
                   ret (match o with Some (b, m) => Some (bin_at (Z.shiftl b BINMAPSHIFT), b, m, 1) | None => None end)
                 else ret (Some (bin, block, map, bit))) in
      match o with
      | None => ret None
      | Some (bin, block, map, bit) =>
          let! '(bin, bit) := advance_bit 33 map bin bit in
          let! victim := load (bk bin) in
          if victim =? bin then
            let map := Z.land map (Z.lnot bit) in
            do! modify (set_map_word block map) in
            scan_bins fuel' (next_bin bin) block map (u32 (Z.shiftl bit 1)) nb
          else
            let! size0 := chunksize victim in
            let! bck := load (bk victim) in
            do! store (bk bin) bck in
            do! store (fd bck) bin in
            let! r := (if u32 (size0 - nb) <? MINSIZE then exhaust victim size0 else split_off victim size0 nb (in_smallbin_range nb)) in
            ret (Some r)
      end
  end.

Section Again.
(** What sYSMALLOc calls again. *)
Context (again : Z -> AM Z).

Definition use_top (nb : Z) : AM Z :=
  let! victim := gets top in
  let! size0 := chunksize victim in
  if u32 (nb + MINSIZE) <=? size0 then take_top victim size0 nb else sYSMALLOc again nb.

(** From the unsorted chunks on; [idx] is the index of the bin of the request. *)
Definition search_bins (nb idx : Z) : AM Z :=
  let! n := chunk_limit in
  let! o := process_unsorted n nb in
  match o with
  | Some r => ret r
  | None =>
      let! o := (if negb (in_smallbin_range nb) then
                   let! victim := load (bk (bin_at idx)) in
                   let! n := chunk_limit in
                   scan_large n (bin_at idx) victim nb
                 else ret None) in
      match o with
      | Some r => ret r
      | None =>
          let idx := idx + 1 in
          let! map := gets (map_word (idx2block idx)) in
          let! o := scan_bins 100 (bin_at idx) (idx2block idx) map (idx2bit idx) nb in
          match o with Some r => ret r | None => use_top nb end
      end
  end.

(** The bin of a small request, then all of them. *)
Definition search (nb : Z) : AM Z :=
  if in_smallbin_range nb then
    let bin := bin_at (smallbin_index nb) in
    let! victim := load (bk bin) in
    if negb (victim =? bin) then
      let! bck := load (bk victim) in
      do! set_inuse_bit_at_offset victim nb in
      do! store (bk bin) bck in
      do! store (fd bck) bin in
      ret (chunk2mem victim)
    else search_bins nb (smallbin_index nb)
  else
    let! fc := gets have_fastchunks in
    do! (if fc then malloc_consolidate else ret tt) in
    search_bins nb (largebin_index nb).

Definition malloc_once (bytes : Z) : AM Z :=
  if REQUEST_OUT_OF_RANGE bytes then ret 0 else
  let nb := request2size bytes in
  let! any := gets have_anychunks in
  if negb any then
    let! mf := gets max_fast in
    do! (if mf =? 0 then malloc_consolidate else ret tt) in
    use_top nb
  else
  let! mf := gets max_fast in
  if nb <=? mf then
    let! victim := gets (fastbin (fastbin_index nb)) in
    if negb (victim =? 0) then
      let! f := load (fd victim) in
      do! modify (set_fastbin (fastbin_index nb) f) in
      ret (chunk2mem victim)
    else search nb
  else search nb.
End Again.

(** sYSMALLOc calls mALLOc again after it has emptied the fastbins, so that
    one more round is enough. *)
Fixpoint malloc_rounds (n : nat) (bytes : Z) : AM Z :=
  match n with
  | O => fail Diverged
  | S n' => malloc_once (malloc_rounds n') bytes
  end.
Definition mALLOc : Z -> AM Z := malloc_rounds 2.

(** *** Copies and zeroes *)

(** memset to 0 of [n] bytes from a word on: the last word may be cut. *)
Definition zero_bytes (p n : Z) : AM unit :=
  do! for_each (seqZ 0 (n / 4)) (fun i => store (u32 (p + 4 * i)) 0) in
  let r := n mod 4 in
  if r =? 0 then ret tt else
  let q := u32 (p + 4 * (n / 4)) in
  let! v := load q in
  store q (Z.shiftl (Z.shiftr v (8 * r)) (8 * r)).
Definition copy_words (d s n : Z) : AM unit :=
  for_each (seqZ 0 n) (fun i => let! v := load (u32 (s + 4 * i)) in store (u32 (d + 4 * i)) v).
(** How many words the unrolled copies and clears of [n] words treat. *)
Definition unrolled (n : Z) : Z :=
  if 9 <? n then n else if 8 <? n then 9 else if 6 <? n then 7 else if 4 <? n then 5 else 3.

(** *** rEALLOc *)

(** The end of rEALLOc: what is not needed of a chunk of [newsize] is freed. *)
Definition trim_chunk (newp newsize nb : Z) : AM Z :=
  let remainder_size := u32 (newsize - nb) in
  do! (if remainder_size <? MINSIZE then
         do! set_head_size newp newsize in
         set_inuse_bit_at_offset newp newsize
       else
         let remainder := chunk_at_offset newp nb in
         do! set_head_size newp nb in
         do! set_head remainder (Z.lor remainder_size PREV_INUSE) in
         do! set_inuse_bit_at_offset remainder remainder_size in
         fREe (chunk2mem remainder)) in
  ret (chunk2mem newp).

(** The middle of rEALLOc: allocate, copy, free. *)
Definition move_chunk (oldp oldsize nb : Z) : AM Z :=
  let oldmem := chunk2mem oldp in
  let next := chunk_at_offset oldp oldsize in
  let! newmem := mALLOc (u32 (nb - MALLOC_ALIGN_MASK)) in
  if newmem =? 0 then ret 0 else
  do! zero_bytes newmem (nb - MALLOC_ALIGN_MASK) in
  let newp := mem2chunk newmem in
  let! newsize := chunksize newp in
  if newp =? next then trim_chunk oldp (u32 (newsize + oldsize)) nb else
  do! copy_words newmem oldmem (unrolled ((oldsize - SIZE_SZ) / 4)) in
  do! fREe oldmem in
  ret (chunk2mem newp).

Definition rEALLOc (oldmem bytes : Z) : AM Z :=
  if oldmem =? 0 then mALLOc bytes else
  if REQUEST_OUT_OF_RANGE bytes then ret 0 else
  let nb := request2size bytes in
  let oldp := mem2chunk oldmem in
  let! oldsize := chunksize oldp in
  let! mm := chunk_is_mmapped oldp in
  if mm then ret 0 else
  if nb <=? oldsize then trim_chunk oldp oldsize nb else
  let next := chunk_at_offset oldp oldsize in
  let! t := gets top in
  let! nextsize := chunksize next in
  let newsize := u32 (oldsize + nextsize) in
  if (next =? t) && (u32 (nb + MINSIZE) <=? newsize) then
    do! set_head_size oldp nb in
    do! modify (set_top (chunk_at_offset oldp nb)) in
    do! set_head (chunk_at_offset oldp nb) (Z.lor (u32 (newsize - nb)) PREV_INUSE) in
    ret (chunk2mem oldp)
  else
  let! nu := inuse next in
  if negb (next =? t) && negb nu && (nb <=? newsize) then
    do! unlink next in trim_chunk oldp newsize nb
  else
  move_chunk oldp oldsize nb.

(** *** mEMALIGn *)

(** [while (a < alignment) a <<= 1;] *)
Fixpoint power_above (fuel : nat) (a alignment : Z) : AM Z :=
  match fuel with
  | O => fail Diverged
  | S fuel' => if a <? alignment then power_above fuel' (u32 (Z.shiftl a 1)) alignment else ret a
  end.

(** The space before the aligned spot is given back; the chunk there, or the
    address to return at once. *)
Definition lead_off (p m alignment : Z) : AM (Z + Z) :=
  let brk := mem2chunk (Z.land (u32 (m + alignment - 1)) (u32 (- alignment))) in
  let brk := if u32 (brk - p) <? MINSIZE then u32 (brk + alignment) else brk in
  let leadsize := u32 (brk - p) in
  let! s := chunksize p in
  let newsize := u32 (s - leadsize) in
  let! mm := chunk_is_mmapped p in
  if mm then
    let! f := load (prev_size p) in
    do! store (prev_size brk) (u32 (f + leadsize)) in
    do! set_head brk (Z.lor newsize IS_MMAPPED) in
    ret (inr (chunk2mem brk))
  else
    do! set_head brk (Z.lor newsize PREV_INUSE) in
    do! set_inuse_bit_at_offset brk newsize in
    do! set_head_size p leadsize in
    do! fREe (chunk2mem p) in
    ret (inl brk).

(** The spare room at the end is given back. *)
Definition tail_off (p nb : Z) : AM unit :=
  let! mm := chunk_is_mmapped p in
  if negb mm then
    let! s := chunksize p in
    if u32 (nb + MINSIZE) <? s then
      let remainder := chunk_at_offset p nb in
      do! set_head remainder (Z.lor (u32 (s - nb)) PREV_INUSE) in
      do! set_head_size p nb in
      fREe (chunk2mem remainder)
    else ret tt
  else ret tt.

Definition mEMALIGn (alignment bytes : Z) : AM Z :=
  if alignment <=? MALLOC_ALIGNMENT then mALLOc bytes else
  let alignment := if alignment <? MINSIZE then MINSIZE else alignment in
  let! alignment := (if negb (Z.land alignment (alignment - 1) =? 0) then power_above 33 (MALLOC_ALIGNMENT * 2) alignment
                     else ret alignment) in
  if REQUEST_OUT_OF_RANGE bytes then ret 0 else
  let nb := request2size bytes in
  let! m := mALLOc (u32 (nb + alignment + MINSIZE)) in
  if m =? 0 then ret 0 else
  do! zero_bytes m (u32 (nb + alignment + MINSIZE)) in
  let p := mem2chunk m in
  let! o := (if negb (m mod alignment =? 0) then lead_off p m alignment else ret (inl p)) in
  match o with
  | inr r => ret r
  | inl p => do! tail_off p nb in ret (chunk2mem p)
  end.

(** *** cALLOc and the other public functions *)

Definition cALLOc (n_elements elem_size : Z) : AM Z :=
  let! m := mALLOc (u32 (n_elements * elem_size)) in
  if m =? 0 then ret m else
  do! zero_bytes m (u32 (n_elements * elem_size)) in
  let p := mem2chunk m in
  let! mm := chunk_is_mmapped p in
  let! s := chunksize p in
  do! (if negb mm then
         for_each (seqZ 0 (unrolled ((s - SIZE_SZ) / 4))) (fun i => store (u32 (m + 4 * i)) 0)
       else zero_bytes m (u32 (s - 2 * SIZE_SZ))) in
  ret m.

Definition cFREe : Z -> AM unit := fREe.

(** The loop that splits out the elements, from number [i] on. *)
Fixpoint split_elements (left_ : nat) (i marray p element_size remainder_size : Z) (sizes : Z -> Z) : AM unit :=
  do! store (u32 (marray + 4 * i)) (chunk2mem p) in
  match left_ with
  | O => set_head p (Z.lor remainder_size PREV_INUSE)
  | S left' =>
      let size0 := if negb (element_size =? 0) then element_size else request2size (sizes i) in
      do! set_head p (Z.lor size0 PREV_INUSE) in
      split_elements left' (i + 1) marray (chunk_at_offset p size0) element_size (u32 (remainder_size - size0)) sizes
  end.

(** [sizes] is the array of sizes, [chunks] the address of the array of
    pointers or 0. *)
Definition iALLOc (n_elements : Z) (sizes : Z -> Z) (opts chunks : Z) : AM Z :=
  let! mf := gets max_fast in
  do! (if mf =? 0 then malloc_consolidate else ret tt) in
  if negb (chunks =? 0) && (n_elements =? 0) then ret chunks else
  if n_elements =? 0 then mALLOc 0 else
  let array_size := if negb (chunks =? 0) then 0 else request2size (u32 (n_elements * 4)) in
  let element_size := if negb (Z.land opts 0x1 =? 0) then request2size (sizes 0) else 0 in
  let contents_size :=
    if negb (Z.land opts 0x1 =? 0) then u32 (n_elements * element_size)
    else fold_left (fun c i => u32 (c + request2size (sizes i))) (seqZ 0 n_elements) 0 in
  let size0 := u32 (contents_size + array_size - MALLOC_ALIGN_MASK) in
  let! mmx := gets (fun s => n_mmaps_max (tuned s)) in
  do! modify (fun s => set_tuned (set_n_mmaps_max 0 (tuned s)) s) in
  let! m := mALLOc size0 in
  do! modify (fun s => set_tuned (set_n_mmaps_max mmx (tuned s)) s) in
  if m =? 0 then ret 0 else
  let p := mem2chunk m in
  let! remainder_size := chunksize p in
  do! (if negb (Z.land opts 0x2 =? 0) then zero_bytes m (u32 (remainder_size - SIZE_SZ - array_size)) else ret tt) in
  let! '(marray, remainder_size) :=
    (if chunks =? 0 then
       let array_chunk := chunk_at_offset p contents_size in
       do! set_head array_chunk (Z.lor (u32 (remainder_size - contents_size)) PREV_INUSE) in
       ret (chunk2mem array_chunk, contents_size)
     else ret (chunks, remainder_size)) in
  do! split_elements (Z.to_nat (n_elements - 1)) 0 marray p element_size remainder_size sizes in
  ret marray.
Definition iCALLOc (n_elements elem_size chunks : Z) : AM Z := iALLOc n_elements (fun _ => elem_size) 3 chunks.
Definition iCOMALLOc (n_elements : Z) (sizes : Z -> Z) (chunks : Z) : AM Z := iALLOc n_elements sizes 0 chunks.

Definition vALLOc (bytes : Z) : AM Z :=
  let! mf := gets max_fast in
  do! (if mf =? 0 then malloc_consolidate else ret tt) in
  let! pagesz := gets pagesize in
  mEMALIGn pagesz bytes.
Definition pVALLOc (bytes : Z) : AM Z :=
  let! mf := gets max_fast in
  do! (if mf =? 0 then malloc_consolidate else ret tt) in
  let! pagesz := gets pagesize in
  mEMALIGn pagesz (Z.land (u32 (bytes + pagesz - 1)) (u32 (Z.lnot (pagesz - 1)))).

Definition mTRIm (pad : Z) : AM Z := do! malloc_consolidate in sYSTRIm pad.

Definition mUSABLe (m : Z) : AM Z :=
  if m =? 0 then ret 0 else
  let p := mem2chunk m in
  let! mm := chunk_is_mmapped p in
  let! s := chunksize p in
  let! u := inuse p in
  if mm then ret (u32 (s - 2 * SIZE_SZ)) else if u then ret (u32 (s - SIZE_SZ)) else ret 0.

(** The number of chunks of a list and their sizes together: along fd to a
    null pointer, along bk to the header. *)
Fixpoint sum_chunks (fuel : nat) (link : Z -> Z) (p last n total : Z) : AM (Z * Z) :=
  match fuel with
  | O => fail Diverged
  | S fuel' =>
      if p =? last then ret (n, total) else
      let! s := chunksize p in
      let! q := load (link p) in
      sum_chunks fuel' link q last (n + 1) (u32 (total + s))
  end.
Fixpoint sum_lists {A} (l : list A) (one : A -> Z -> Z -> AM (Z * Z)) (n total : Z) : AM (Z * Z) :=
  match l with
  | [] => ret (n, total)
  | x :: l' => let! '(n, total) := one x n total in sum_lists l' one n total
  end.

Record mallinfo := mk_mallinfo {
  arena_ : Z; ordblks : Z; smblks : Z; hblks : Z; hblkhd : Z; usmblks : Z; fsmblks : Z; uordblks : Z; fordblks : Z; keepcost : Z
}.

Definition mALLINFo : AM mallinfo :=
  let! t := gets top in
  do! (if t =? 0 then malloc_consolidate else ret tt) in
  let! t := gets top in
  let! avail := chunksize t in
  let! limit := chunk_limit in
  let! '(nfastblocks, fastavail) :=
    sum_lists (seqZ 0 NFASTBINS) (fun i n total => let! p := gets (fastbin i) in sum_chunks limit fd p 0 n total) 0 0 in
  let! '(nblocks, avail) :=
    sum_lists (seqZ 1 (NBINS - 1)) (fun i n total => let! p := load (bk (bin_at i)) in sum_chunks limit bk p (bin_at i) n total)
      1 (u32 (avail + fastavail)) in
  let! st := gets stats in
  let! keep := chunksize t in
  ret (mk_mallinfo (s32 (sbrked_mem st)) nblocks nfastblocks (n_mmaps st) (s32 (mmapped_mem st)) (s32 (max_total_mem st)) (s32 fastavail)
         (s32 (sbrked_mem st - avail)) (s32 avail) (s32 keep)).

(** The numbers mSTATs prints, one in each line. *)
Definition mSTATs : AM (list Z) :=
  let! mi := mALLINFo in
  ret [u32 (usmblks mi); u32 (arena_ mi + hblkhd mi); u32 (uordblks mi + hblkhd mi)].

Definition M_MXFAST : Z := 1.
Definition M_TRIM_THRESHOLD : Z := -1.
Definition M_TOP_PAD : Z := -2.
Definition M_MMAP_THRESHOLD : Z := -3.
Definition M_MMAP_MAX : Z := -4.

Definition mALLOPt (param_number value : Z) : AM Z :=
  do! malloc_consolidate in
  let tune f := do! modify (fun s => set_tuned (f (tuned s)) s) in ret 1 in
  if param_number =? M_MXFAST then
    if (0 <=? value) && (value <=? MAX_FAST_SIZE) then do! set_max_fast value in ret 1 else ret 0
  else if param_number =? M_TRIM_THRESHOLD then tune (set_trim_threshold (u32 value))
  else if param_number =? M_TOP_PAD then tune (set_top_pad (u32 value))
  else if param_number =? M_MMAP_THRESHOLD then tune (set_mmap_threshold (u32 value))
  else if param_number =? M_MMAP_MAX then if negb (value =? 0) then ret 0 else tune (set_n_mmaps_max value)
  else ret 0.

(** *** The defensive wrapper *)

(** The message and a store at address 0. *)
Definition mem_bug {A} : AM A := fail Faulted.

Definition guard_before : Z := 0xa51234ab.
Definition guard_after : Z := 0xdeadfedc.
(** The words of a block: the length rounded up and four more. *)
Definition block_words (length : Z) : Z := u32 (u32 (length + 3) / 4 + 4).

Definition mem_alloc (length : Z) : AM Z :=
  let l := block_words length in
  let l2 := u32 (l * 4) in
  if length =? 0 then ret 0 else
  if l2 <=? length then ret 0 else
  let! p := mALLOc l2 in
  if p =? 0 then ret 0 else
  do! store p length in
  do! store (u32 (p + 4)) guard_before in
  do! store (u32 (p + 4 * (l - 2))) guard_after in
  do! store (u32 (p + 4 * (l - 1))) p in
  do! zero_bytes (u32 (p + 8)) (u32 (l2 - 16)) in
  ret (u32 (p + 8)).

Definition mem_free (zone length : Z) : AM unit :=
  let l := block_words length in
  if length =? 0 then ret tt else
  let p := u32 (zone - 8) in
  let! g1 := load (u32 (p + 4)) in
  if negb (g1 =? guard_before) then mem_bug else
  let! g0 := load p in
  if negb (g0 =? length) then mem_bug else
  let! g2 := load (u32 (p + 4 * (l - 2))) in
  if negb (g2 =? guard_after) then mem_bug else
  let! g3 := load (u32 (p + 4 * (l - 1))) in
  if negb (g3 =? p) then mem_bug else
  do! zero_bytes p (u32 (l * 4)) in
  fREe p.

Definition mem_free_nolength (zone : Z) : AM unit :=
  let! length := load (u32 (zone - 8)) in mem_free zone length.
End Malloc.
