(* ===== verification/MallocLayout.v ===== *)
(** * The heap of the allocator as a sequence of chunks

    Between the first chunk and the top the heap is a list of sizes with a
    status each.  [tags] says that the words of the memory describe the list:
    the size of each chunk with the bit that says whether the chunk before it is
    in use, and a free chunk's size once more at its end.  [ring] is a
    circular list of chunks along fd and bk, [fast_list] one along fd. *)

From S2P Require Import Prelude Malloc.

(** A chunk in a fastbin counts as in use for its neighbours. *)
Inductive status := Used | Fast | Free.
#[export] Instance status_eq_dec : EqDecision status.
Proof. solve_decision. Defined.

Abbreviation chunks := (list (Z * status)).
Abbreviation placed := (Z * Z * status)%type.

Definition counts_used (st : status) : bool := match st with Free => false | _ => true end.
Definition chunk_ok (c : Z * status) : Prop := 16 <= c.1 /\ (8 | c.1).

Fixpoint span (L : chunks) : Z := match L with [] => 0 | (s, _) :: L' => s + span L' end.

(** The chunks with their addresses. *)
Fixpoint layout (a : Z) (L : chunks) : list placed :=
  match L with [] => [] | (s, st) :: L' => (a, s, st) :: layout (a + s) L' end.

(** The blocks that are allocated: address of the chunk and size. *)
Definition block_of (c : placed) : option (Z * Z) := let '(a, s, st) := c in match st with Used => Some (a, s) | _ => None end.
Definition blocks (C : list placed) : list (Z * Z) := omap block_of C.

Fixpoint tags (m : gmap Z Z) (a : Z) (pb : bool) (L : chunks) (pb' : bool) : Prop :=
  match L with
  | [] => pb = pb'
  | (s, st) :: L' =>
      rd m (a + 4) = s + Z.b2z pb /\
      match st with Free => pb = true /\ rd m (a + s) = s | _ => True end /\
      tags m (a + s) (counts_used st) L' pb'
  end.

(** ** Memory *)

Lemma rd_insert m a v b : rd (<[a := v]> m) b = if decide (a = b) then v else rd m b.
Proof. unfold rd. rewrite lookup_insert. by case_decide. Qed.
Lemma rd_insert_eq m a v : rd (<[a := v]> m) a = v.
Proof. by rewrite rd_insert, decide_True. Qed.
Lemma rd_insert_ne m a v b : a <> b -> rd (<[a := v]> m) b = rd m b.
Proof. intros. by rewrite rd_insert, decide_False. Qed.

(** ** Sequences of chunks *)

Lemma span_app L1 L2 : span (L1 ++ L2) = span L1 + span L2.
Proof. induction L1 as [|[s st] L1 IH]; simpl; lia. Qed.

Lemma layout_app a L1 L2 : layout a (L1 ++ L2) = layout a L1 ++ layout (a + span L1) L2.
Proof. revert a. induction L1 as [|[s st] L1 IH]; intros a; simpl; [f_equal; lia|]. rewrite IH. do 3 f_equal. lia. Qed.

Lemma blocks_app C1 C2 : blocks (C1 ++ C2) = blocks C1 ++ blocks C2.
Proof. apply omap_app. Qed.

Lemma span_nonneg L : Forall chunk_ok L -> 0 <= span L.
Proof. induction 1 as [|[s st] L [H _] _ IH]; simpl in *; lia. Qed.

Lemma span_divide L : Forall chunk_ok L -> (8 | span L).
Proof. induction 1 as [|[s st] L [_ H] _ IH]; simpl in *; [by apply Z.divide_0_r|by apply Z.divide_add_r]. Qed.

Lemma span_length L : Forall chunk_ok L -> 16 * Z.of_nat (length L) <= span L.
Proof. induction 1 as [|[s st] L [H _] _ IH]; [done|]. change (span ((s, st) :: L)) with (s + span L). change (length ((s, st) :: L)) with (S (length L)). simpl in H. lia. Qed.

Lemma layout_length a L : length (layout a L) = length L.
Proof. revert a. induction L as [|[s st] L IH]; intros a; simpl; [done|by rewrite IH]. Qed.

Lemma layout_split a L x s st : (x, s, st) ∈ layout a L -> exists L1 L2, L = L1 ++ (s, st) :: L2 /\ x = a + span L1.
Proof.
  revert a. induction L as [|[s0 st0] L IH]; intros a; simpl; [by intros ?%not_elem_of_nil|].
  rewrite elem_of_cons. intros [[= -> -> ->]|(L1 & L2 & -> & ->)%IH].
  - exists [], L. split; [done|simpl; lia].
  - exists ((s0, st0) :: L1), L2. split; [done|simpl; lia].
Qed.

Lemma layout_elem a L1 s st L2 : (a + span L1, s, st) ∈ layout a (L1 ++ (s, st) :: L2).
Proof. rewrite layout_app. apply elem_of_app. right. simpl. by left. Qed.

Lemma layout_bounds a L x s st : Forall chunk_ok L -> (8 | a) -> (x, s, st) ∈ layout a L ->
  a <= x /\ x + s <= a + span L /\ 16 <= s /\ (8 | s) /\ (8 | x).
Proof.
  intros HF Ha (L1 & L2 & -> & ->)%layout_split. rewrite span_app. simpl.
  apply Forall_app in HF as [H1 [[Hs Hd] H2]%Forall_cons]. simpl in *.
  pose proof (span_nonneg L1 H1). pose proof (span_nonneg L2 H2). pose proof (span_divide L1 H1).
  split_and!; [lia|lia|done|done|by apply Z.divide_add_r].
Qed.

(** Two chunks are the same or apart. *)
Definition apart (c d : placed) : Prop := c = d \/ c.1.1 + c.1.2 <= d.1.1 \/ d.1.1 + d.1.2 <= c.1.1.

Lemma layout_apart a L c d : Forall chunk_ok L -> (8 | a) -> c ∈ layout a L -> d ∈ layout a L -> apart c d.
Proof.
  intros HF Ha. revert a Ha c d. induction HF as [|[s st] L [Hs Hd] HF IH]; intros a Ha c d; [by intros ?%not_elem_of_nil|].
  simpl in *. assert (8 | a + s) as Ha' by by apply Z.divide_add_r.
  assert (forall e, e ∈ layout (a + s) L -> a + s <= e.1.1) as Hge.
  { intros [[x t] st'] (Hb & _)%(layout_bounds _ _ _ _ _ HF Ha'). done. }
  rewrite !elem_of_cons. unfold apart. intros [-> |Hc] [-> |Hd']; [by left|right; left; by apply Hge|right; right; by apply Hge|].
  by apply (IH (a + s)).
Qed.

(** ** Tags *)

Lemma tags_app m a pb L1 L2 pb' :
  tags m a pb (L1 ++ L2) pb' <-> exists mid, tags m a pb L1 mid /\ tags m (a + span L1) mid L2 pb'.
Proof.
  revert a pb. induction L1 as [|[s st] L1 IH]; intros a pb; simpl.
  - rewrite Z.add_0_r. split; [by exists pb|]. by intros (mid & -> & H).
  - rewrite IH. replace (a + (s + span L1)) with (a + s + span L1) by lia. naive_solver.
Qed.

Lemma tags_frame m m' a pb L pb' :
  (forall x s st, (x, s, st) ∈ layout a L -> rd m' (x + 4) = rd m (x + 4) /\ (st = Free -> rd m' (x + s) = rd m (x + s))) ->
  tags m a pb L pb' -> tags m' a pb L pb'.
Proof.
  revert a pb. induction L as [|[s st] L IH]; intros a pb HF; [done|]. simpl. intros (H1 & H2 & H3).
  destruct (HF a s st) as [E1 E2]; [simpl; by left|]. split; [by rewrite E1|]. split.
  - destruct st; [done..|]. destruct H2. split; [done|]. by rewrite E2.
  - apply IH; [|done]. intros x t st' Hx. apply HF. simpl. by right.
Qed.

Lemma tags_last_free m a pb L : tags m a pb L false -> pb = true -> exists L0 s, L = L0 ++ [(s, Free)] /\ tags m a pb L0 true /\ rd m (a + span L) = s.
Proof.
  destruct L as [|[s st] L _] using rev_ind; [simpl; congruence|].
  rewrite tags_app. intros (mid & H1 & H2 & H3 & H4) ->. destruct st; [done..|]. destruct H3 as [-> H3].
  exists L, s. split; [done|]. split; [done|]. rewrite span_app. simpl. rewrite Z.add_0_r, Z.add_assoc. done.
Qed.

(** ** Lists of chunks *)

(** The chunks [l] between [x] and [y]. *)
Fixpoint lseg (m : gmap Z Z) (x : Z) (l : list Z) (y : Z) : Prop :=
  match l with
  | [] => rd m (x + 8) = y /\ rd m (y + 12) = x
  | z :: l' => rd m (x + 8) = z /\ rd m (z + 12) = x /\ lseg m z l' y
  end.
Definition ring (m : gmap Z Z) (h : Z) (l : list Z) : Prop := lseg m h l h.

Fixpoint fast_list (m : gmap Z Z) (x : Z) (l : list Z) : Prop :=
  match l with [] => x = 0 | y :: l' => x = y /\ y <> 0 /\ fast_list m (rd m (y + 8)) l' end.

Lemma lseg_app m x l1 z l2 y : lseg m x (l1 ++ z :: l2) y <-> lseg m x l1 z /\ lseg m z l2 y.
Proof. revert x. induction l1 as [|a l1 IH]; intros x; simpl; [naive_solver|]. rewrite IH. naive_solver. Qed.

Lemma lseg_frame m m' x l y :
  (forall n, n ∈ x :: l -> rd m' (n + 8) = rd m (n + 8)) -> (forall n, n ∈ l ++ [y] -> rd m' (n + 12) = rd m (n + 12)) ->
  lseg m x l y -> lseg m' x l y.
Proof.
  revert x. induction l as [|a l IH]; intros x H8 H12; simpl.
  - intros [H1 H2]. rewrite H8, H12 by (simpl; set_solver). done.
  - intros (H1 & H2 & H3). rewrite H8, H12 by (simpl; set_solver). split_and!; [done..|].
    apply IH; [|intros n Hn; apply H12; simpl; set_solver|done]. intros n Hn. apply H8. set_solver.
Qed.

Lemma ring_frame m m' h l : (forall n, n ∈ h :: l -> rd m' (n + 8) = rd m (n + 8) /\ rd m' (n + 12) = rd m (n + 12)) -> ring m h l -> ring m' h l.
Proof. intros HF. apply lseg_frame; intros n Hn; apply HF; set_solver. Qed.

(** A ring can be started anywhere. *)
Lemma ring_rotate m h l1 x l2 : ring m h (l1 ++ x :: l2) <-> ring m x (l2 ++ h :: l1).
Proof. unfold ring. rewrite !lseg_app. naive_solver. Qed.

Lemma fast_list_frame m m' x l : (forall n, n ∈ l -> rd m' (n + 8) = rd m (n + 8)) -> fast_list m x l -> fast_list m' x l.
Proof.
  revert x. induction l as [|a l IH]; intros x HF; [done|]. simpl. intros (-> & ? & H). split_and!; [done..|].
  rewrite HF by set_solver. apply IH; [|done]. intros n Hn. apply HF. set_solver.
Qed.

(** The links of the nodes [N] after [p] was taken out between [b] and [f], and
    after it was put there. *)
Definition links_out (m m' : gmap Z Z) (N : list Z) (b f : Z) : Prop :=
  forall n, n ∈ N -> rd m' (n + 8) = (if decide (n = b) then f else rd m (n + 8)) /\
                     rd m' (n + 12) = (if decide (n = f) then b else rd m (n + 12)).
Definition links_in (m m' : gmap Z Z) (N : list Z) (p b f : Z) : Prop :=
  forall n, n ∈ N -> rd m' (n + 8) = (if decide (n = p) then f else if decide (n = b) then p else rd m (n + 8)) /\
                     rd m' (n + 12) = (if decide (n = p) then b else if decide (n = f) then p else rd m (n + 12)).

Lemma links_out_sub m m' N N' b f : (forall n, n ∈ N' -> n ∈ N) -> links_out m m' N b f -> links_out m m' N' b f.
Proof. unfold links_out. auto. Qed.
Lemma links_in_sub m m' N N' p b f : (forall n, n ∈ N' -> n ∈ N) -> links_in m m' N p b f -> links_in m m' N' p b f.
Proof. unfold links_in. auto. Qed.

(** Taking the first node of a ring out of it. *)
Lemma ring_remove_head m m' p c : NoDup (p :: c) -> c <> [] -> ring m p c -> links_out m m' c (rd m (p + 12)) (rd m (p + 8)) ->
  (rd m (p + 8) ∈ c /\ rd m (p + 12) ∈ c) /\ exists f r, c = f :: r /\ ring m' f r.
Proof.
  intros HN Hc HR HL. destruct c as [|f c]; [done|]. destruct HR as (E1 & E2 & HR). rewrite E1 in *.
  apply NoDup_cons in HN as [_ HN]. apply NoDup_cons in HN as [Hf HN].
  destruct c as [|b c _] using rev_ind.
  - destruct HR as [E3 E4]. rewrite E4 in *. split; [set_solver|]. exists f, []. split; [done|].
    destruct (HL f) as [H1 H2]; [set_solver|]. rewrite decide_True in H1, H2 by done. done.
  - apply lseg_app in HR as [HR [E3 E4]]. rewrite E4 in *. split; [set_solver|]. exists f, (c ++ [b]). split; [done|].
    assert (b ∉ f :: c) as Hb.
    { apply NoDup_app in HN as (_ & HN & _). intros [-> |Hb]%elem_of_cons; [set_solver|]. destruct (HN b); set_solver. }
    apply lseg_app. split.
    + apply (lseg_frame m); [..|done]; intros n Hn.
      * destruct (HL n) as [-> _]; [set_solver|]. by rewrite decide_False by congruence.
      * destruct (HL n) as [_ ->]; [set_solver|]. by rewrite decide_False by congruence.
    + destruct (HL b) as [H1 _]; [set_solver|]. destruct (HL f) as [_ H2]; [set_solver|]. simpl. rewrite H1, H2. by rewrite !decide_True.
Qed.

(** unlink: a chunk anywhere in a ring. *)
Lemma ring_remove m m' h l1 p l2 : NoDup (h :: l1 ++ p :: l2) -> ring m h (l1 ++ p :: l2) ->
  links_out m m' (h :: l1 ++ l2) (rd m (p + 12)) (rd m (p + 8)) ->
  (rd m (p + 8) ∈ h :: l1 ++ l2 /\ rd m (p + 12) ∈ h :: l1 ++ l2) /\ ring m' h (l1 ++ l2).
Proof.
  intros HN HR HL. apply ring_rotate in HR.
  assert (p :: l2 ++ h :: l1 ≡ₚ h :: l1 ++ p :: l2) as HP by (rewrite <- !Permutation_middle, (Permutation_app_comm l1 l2); constructor).
  assert (forall n, n ∈ l2 ++ h :: l1 <-> n ∈ h :: l1 ++ l2) as HE by set_solver.
  destruct (ring_remove_head m m' p (l2 ++ h :: l1) (proj2 (NoDup_Permutation_proper _ _ HP) HN) ltac:(by destruct l2) HR
    (links_out_sub _ _ _ _ _ _ (fun n => proj1 (HE n)) HL)) as [[H1 H2] (f & r & Ec & HR')].
  rewrite <- !HE. split; [done|]. destruct l2 as [|f' l2]; simplify_list_eq; [done|]. by apply ring_rotate.
Qed.

(** The neighbours of a chunk of a ring. *)
Lemma ring_neighbours m h l1 p l2 : NoDup (h :: l1 ++ p :: l2) -> ring m h (l1 ++ p :: l2) ->
  rd m (p + 8) ∈ h :: l1 ++ l2 /\ rd m (p + 12) ∈ h :: l1 ++ l2.
Proof.
  intros HN HR. apply ring_rotate in HR. assert (forall n, n ∈ l2 ++ h :: l1 -> n ∈ h :: l1 ++ l2) as HE by set_solver. split.
  - apply HE. destruct l2 as [|f l2]; destruct HR as [-> _]; set_solver.
  - apply HE. destruct (l2 ++ h :: l1) as [|b c _] eqn:E using rev_ind; [by destruct l2|]. unfold ring in HR.
    apply lseg_app in HR as [_ [_ ->]]. set_solver.
Qed.

(** Putting a chunk after a node, here the first. *)
Lemma ring_insert_head m m' p b c : NoDup (p :: b :: c) -> ring m b c -> links_in m m' (p :: b :: c) p b (rd m (b + 8)) -> ring m' b (p :: c).
Proof.
  intros HN HR HL. apply NoDup_cons in HN as [Hp HN]. apply NoDup_cons in HN as [Hb HN].
  assert (p <> b) by set_solver. destruct (HL p) as [P1 P2]; [set_solver|]. destruct (HL b) as [B1 B2]; [set_solver|].
  rewrite !decide_True in P1, P2 by done. rewrite decide_False in B1, B2 by done. rewrite decide_True in B1 by done.
  split; [done|]. split; [done|]. destruct c as [|f c].
  - destruct HR as [E1 E2]. rewrite E1 in *. rewrite decide_True in B2 by done. done.
  - destruct HR as (E1 & E2 & HR). rewrite E1 in *. apply NoDup_cons in HN as [Hf HN]. split; [done|]. split.
    + destruct (HL f) as [_ ->]; [set_solver|]. rewrite decide_False by set_solver. by rewrite decide_True.
    + apply (lseg_frame m); [..|done]; intros n Hn.
      * destruct (HL n) as [-> _]; [set_solver|]. by rewrite !decide_False by set_solver.
      * destruct (HL n) as [_ ->]; [set_solver|]. by rewrite !decide_False by set_solver.
Qed.

(** After a node of the ring: the header, or the last of [l1]. *)
Lemma ring_insert m m' p h l1 l2 : NoDup (p :: h :: l1 ++ l2) -> ring m h (l1 ++ l2) ->
  links_in m m' (p :: h :: l1 ++ l2) p (List.last l1 h) (rd m (List.last l1 h + 8)) -> ring m' h (l1 ++ p :: l2).
Proof.
  intros HN HR HL. destruct l1 as [|b l1 _] using rev_ind; [by apply (ring_insert_head m)|].
  rewrite last_last in HL. rewrite <- app_assoc in *. simpl in *. apply ring_rotate in HR.
  assert (p :: b :: l2 ++ h :: l1 ≡ₚ p :: h :: l1 ++ b :: l2) as HP
    by (rewrite <- !Permutation_middle, (Permutation_app_comm l1 l2); do 2 constructor).
  apply (ring_rotate m' h l1 b (p :: l2)), (ring_insert_head m); [by rewrite HP|done|].
  eapply links_in_sub; [|done]. intros n Hn. by rewrite HP in Hn.
Qed.

(** The ends of a ring and the neighbours in it. *)
Lemma ring_back m h l : ring m h l -> (l = [] /\ rd m (h + 12) = h) \/ exists l1 x, l = l1 ++ [x] /\ rd m (h + 12) = x /\ rd m (x + 8) = h.
Proof.
  destruct l as [|x l1 _] using rev_ind; intros HR; [left; split; [done|apply HR]|]. right. exists l1, x. apply lseg_app in HR as [_ [? ?]]. done.
Qed.
Lemma ring_mid m h l1 x l2 : ring m h (l1 ++ x :: l2) -> rd m (x + 12) = List.last l1 h /\ rd m (List.last l1 h + 8) = x.
Proof.
  intros [HR _]%lseg_app. destruct l1 as [|y l1 _] using rev_ind; [by destruct HR|]. rewrite last_last. apply lseg_app in HR as [_ [? ?]]. done.
Qed.
Lemma ring_front m h l : ring m h l -> (l = [] /\ rd m (h + 8) = h) \/ exists x l2, l = x :: l2 /\ rd m (h + 8) = x.
Proof. destruct l as [|x l]; intros HR; [left; split; [done|apply HR]|]. right. exists x, l. split; [done|apply HR]. Qed.
Lemma ring_next m h l1 x y l2 : ring m h (l1 ++ x :: y :: l2) -> rd m (x + 8) = y.
Proof. intros [_ HR]%lseg_app. apply HR. Qed.
