(* ===== verification/MallocInv.v ===== *)
(** * The lists of free chunks

    Where the state and the heap are placed ([HeapPlace]), and what the lists of
    the allocator hold: every free chunk is in the ring of the one bin its size
    says, or in that of the unsorted chunks ([Bins]); every chunk set aside by
    fREe is in the fastbin of its size ([Fasts]).  MallocHole adds the sequence
    of chunks of the heap. *)

From S2P Require Import Prelude Malloc MallocLayout.

(** Where the linker puts the allocator's state and the heap: the state
    lies below the heap, which is aligned or ends on a page (as that of the
    kernel, kernel.lds). *)
Class HeapPlace (av_ heap heap_end : Z) := {
  hp_av : 0 <= av_;
  hp_heap : av_ + 888 <= heap;
  hp_end : heap <= heap_end < 2 ^ 31;
  hp_align : (8 | heap) \/ (4096 | heap_end)
}.

Section Bins.
Context (av_ heap heap_end : Z) {HP : HeapPlace av_ heap heap_end}.
Abbreviation bin_at := (bin_at av_).

(** The first chunk. *)
Definition base : Z := (heap + 7) / 8 * 8.

Lemma base_range : heap <= base < heap + 8.
Proof. unfold base. pose proof (Z.div_mod (heap + 7) 8). pose proof (Z.mod_pos_bound (heap + 7) 8). lia. Qed.
Lemma base_divide : (8 | base).
Proof. apply Z.divide_factor_r. Qed.

Definition is_bin (i : Z) : Prop := 1 <= i < 96.
Lemma bin_range i : is_bin i -> 0 < bin_at i /\ bin_at i + 16 <= heap.
Proof. destruct HP. unfold is_bin, Malloc.bin_at. lia. Qed.

(** ** Chunks outside of a hole *)

Definition placed_ok (C : list placed) : Prop :=
  (forall x s st, (x, s, st) ∈ C -> base <= x /\ 16 <= s /\ (8 | x) /\ (8 | s)) /\ (forall c d, c ∈ C -> d ∈ C -> apart c d).

(** What has links: the headers and the free chunks. *)
Definition node (C : list placed) (n : Z) : Prop := (exists i, is_bin i /\ n = bin_at i) \/ exists s, (n, s, Free) ∈ C.

Lemma node_mono C C' n : (forall c, c ∈ C -> c ∈ C') -> node C n -> node C' n.
Proof. intros HC [Hb|(s & Hs)]; [by left|right; exists s; auto]. Qed.

(** Links of different nodes are different words. *)
Lemma node_spread C x y : placed_ok C -> node C x -> node C y -> x = y \/ x + 8 <= y \/ y + 8 <= x.
Proof.
  intros [H1 H2] Hx Hy. pose proof base_range.
  destruct Hx as [(i & Hi & ->)|(s & Hs)], Hy as [(j & Hj & ->)|(t & Ht)].
  - unfold Malloc.bin_at. destruct (Z.lt_total i j) as [|[-> |]]; lia.
  - pose proof (bin_range i Hi). pose proof (H1 _ _ _ Ht). lia.
  - pose proof (bin_range j Hj). pose proof (H1 _ _ _ Hs). lia.
  - pose proof (H1 _ _ _ Hs). pose proof (H1 _ _ _ Ht). destruct (H2 _ _ Hs Ht) as [E|[|]]; simpl in *; [left; congruence|lia..].
Qed.

(** A limit between chunks is not a link, nor is the word after it. *)
Definition limit (C : list placed) (x : Z) : Prop := base <= x /\ (8 | x) /\ forall y s st, (y, s, st) ∈ C -> y + s <= x \/ x <= y.

Lemma limit_not_link C x n : placed_ok C -> limit C x -> node C n -> x <> n + 8 /\ x <> n + 12 /\ x + 4 <> n + 8 /\ x + 4 <> n + 12.
Proof.
  intros [H1 _] (Hx & Hd & HL) Hn. pose proof base_range. destruct Hn as [(i & Hi & ->)|(s & Hs)].
  - pose proof (bin_range i Hi). lia.
  - destruct (H1 _ _ _ Hs) as (_ & ? & Hn & _). destruct (HL _ _ _ Hs); destruct Hd as [k ->], Hn as [j ->]; lia.
Qed.

(** ** Bins *)

Definition upd {A} (i : Z) (l : A) (f : Z -> A) (j : Z) : A := if decide (j = i) then l else f j.
Lemma upd_eq {A} i (l : A) f : upd i l f i = l.
Proof. unfold upd. by rewrite decide_True. Qed.
Lemma upd_ne {A} i j (l : A) f : j <> i -> upd i l f j = f j.
Proof. intros. unfold upd. by rewrite decide_False. Qed.

Record Bins (m : gmap Z Z) (bl : Z -> list Z) (C : list placed) : Prop := {
  b_ring : forall i, is_bin i -> ring m (bin_at i) (bl i);
  b_nodup : forall i, is_bin i -> NoDup (bl i);
  b_disj : forall i j x, is_bin i -> is_bin j -> x ∈ bl i -> x ∈ bl j -> i = j;
  b_free : forall i x, is_bin i -> x ∈ bl i -> exists s, (x, s, Free) ∈ C /\ (i <> 1 -> bin_index s = i);
  b_all : forall x s, (x, s, Free) ∈ C -> exists i, is_bin i /\ x ∈ bl i
}.

Lemma bins_node m bl C i n : Bins m bl C -> is_bin i -> n ∈ bin_at i :: bl i -> node C n.
Proof. intros HB Hi [-> |Hn]%elem_of_cons; [left; by exists i|]. destruct (b_free _ _ _ HB i n Hi Hn) as (s & Hs & _). right. by exists s. Qed.

Lemma bin_not_chunk m bl C i j : placed_ok C -> Bins m bl C -> is_bin i -> is_bin j -> bin_at i ∉ bl j.
Proof.
  intros [HG _] HB Hi Hj Hin. destruct (b_free _ _ _ HB j _ Hj Hin) as (s & Hs & _). pose proof (HG _ _ _ Hs). pose proof (bin_range i Hi).
  pose proof base_range. lia.
Qed.

Lemma bins_ext m bl C C' : (forall x s, (x, s, Free) ∈ C <-> (x, s, Free) ∈ C') -> Bins m bl C -> Bins m bl C'.
Proof.
  intros HC []. split; [done..| |].
  - intros i x Hi Hx. destruct (b_free0 i x Hi Hx) as (s & Hs & E). exists s. by rewrite <- HC.
  - intros x s Hs. rewrite <- HC in Hs. eauto.
Qed.

Lemma bins_frame m m' bl C : (forall n, node C n -> rd m' (n + 8) = rd m (n + 8) /\ rd m' (n + 12) = rd m (n + 12)) -> Bins m bl C -> Bins m' bl C.
Proof.
  intros HF HB. pose proof HB as []. split; try done. intros i Hi. apply (ring_frame m); [|by apply b_ring0].
  intros n Hn. by apply HF, (bins_node m bl C i).
Qed.

(** unlink of a chunk. *)
Lemma bins_remove m bl C C' i l1 x l2 : placed_ok C -> Bins m bl C -> is_bin i -> bl i = l1 ++ x :: l2 ->
  (forall c, c ∈ C' <-> c ∈ C /\ c.1.1 <> x) ->
  let FD := rd m (x + 8) in let BK := rd m (x + 12) in
  node C' FD /\ node C' BK /\
  forall m', (forall n, node C' n -> rd m' (n + 8) = (if decide (n = BK) then FD else rd m (n + 8)) /\
                             rd m' (n + 12) = (if decide (n = FD) then BK else rd m (n + 12))) ->
    Bins m' (upd i (l1 ++ l2) bl) C'.
Proof.
  intros HG HB Hi El HC FD BK. pose proof HB as [Hr Hn Hd Hf Ha].
  pose proof (Hr i Hi) as HR. pose proof (Hn i Hi) as HN. rewrite El in HR, HN.
  assert (NoDup (bin_at i :: l1 ++ x :: l2)) as HN'.
  { constructor; [|done]. rewrite <- El. by eapply bin_not_chunk. }
  assert (x ∉ l1 ++ l2) as Hx by (rewrite <- Permutation_middle in HN; by apply NoDup_cons in HN as [? _]).
  assert (forall j n, is_bin j -> n ∈ bin_at j :: upd i (l1 ++ l2) bl j -> node C' n) as Hnode.
  { intros j n Hj [-> |Hin]%elem_of_cons; [left; by exists j|]. assert (n ∈ bl j /\ n <> x) as [Hin' Hne].
    { unfold upd in Hin. case_decide; [subst j; rewrite El; split; [set_solver|congruence]|]. split; [done|]. intros ->.
      assert (x ∈ bl i) by (rewrite El; set_solver). by destruct (Hd j i x). }
    destruct (Hf j n Hj Hin') as (s & Hs & _). right. exists s. by apply HC. }
  destruct (ring_neighbours m (bin_at i) l1 x l2 HN' HR) as [HFD HBK].
  split; [apply (Hnode i); [done|by rewrite upd_eq]|]. split; [apply (Hnode i); [done|by rewrite upd_eq]|].
  intros m' HL. split.
  - intros j Hj. destruct (decide (j = i)) as [-> |Hne]; [rewrite upd_eq|rewrite upd_ne by done].
    + apply (ring_remove m m' (bin_at i) l1 x l2); [done..|]. intros n Hin. apply HL, (Hnode i); [done|by rewrite upd_eq].
    + apply (ring_frame m); [|by apply Hr]. intros n Hin.
      assert (node C' n) as HNn by (apply (Hnode j); [done|by rewrite upd_ne]). destruct (HL n HNn) as [-> ->].
      assert (n ∉ bin_at i :: l1 ++ l2) as Hni.
      { apply elem_of_cons in Hin as [-> |Hin].
        - apply not_elem_of_cons. split; [unfold Malloc.bin_at; lia|]. intros Hin. apply (bin_not_chunk m bl C j i HG HB Hj Hi). rewrite El. set_solver.
        - apply not_elem_of_cons. split; [intros ->; by apply (bin_not_chunk m bl C i j HG HB Hi Hj)|]. intros Hin'. apply Hne, (Hd j i n); [done..|].
          rewrite El. set_solver. }
      rewrite !decide_False by (intros E; apply Hni; rewrite E; done). done.
  - intros j Hj. unfold upd. case_decide; [|by apply Hn]. rewrite <- Permutation_middle in HN. by apply NoDup_cons in HN as [_ ?].
  - intros j k y Hj Hk H1 H2. apply (Hd j k y); [done..| |].
    + unfold upd in H1. case_decide; [subst; rewrite El; set_solver|done].
    + unfold upd in H2. case_decide; [subst; rewrite El; set_solver|done].
  - intros j y Hj Hy. assert (y ∈ bl j /\ y <> x) as [Hin' Hne].
    { unfold upd in Hy. case_decide; [subst j; rewrite El; split; [set_solver|congruence]|]. split; [done|]. intros ->.
      assert (x ∈ bl i) by (rewrite El; set_solver). by destruct (Hd j i x). }
    destruct (Hf j y Hj Hin') as (s & Hs & E). exists s. split; [by apply HC|done].
  - intros y s [Hy Hne]%HC. simpl in Hne. destruct (Ha y s Hy) as (j & Hj & Hin). exists j. split; [done|]. unfold upd. case_decide; [|done].
    subst j. rewrite El in Hin. set_solver.
Qed.

(** Linking a chunk. *)
Lemma bins_insert m bl C C' i l1 l2 p s : placed_ok C' -> Bins m bl C -> is_bin i -> bl i = l1 ++ l2 ->
  (forall c, c ∈ C' <-> c ∈ C \/ c = (p, s, Free)) -> (forall t, (p, t, Free) ∉ C) -> (i <> 1 -> bin_index s = i) ->
  let b := List.last l1 (bin_at i) in let f := rd m (b + 8) in
  node C b /\ node C f /\
  forall m', (forall n, node C' n -> rd m' (n + 8) = (if decide (n = p) then f else if decide (n = b) then p else rd m (n + 8)) /\
                               rd m' (n + 12) = (if decide (n = p) then b else if decide (n = f) then p else rd m (n + 12))) ->
    Bins m' (upd i (l1 ++ p :: l2) bl) C'.
Proof.
  intros HG HB Hi El HC Hp Hs b f. pose proof HB as [Hr Hn Hd Hf Ha].
  assert (placed_ok C) as HGC. { destruct HG as [G1 G2]. split; [intros; eapply G1; apply HC; by left|intros; apply G2; apply HC; by left]. }
  assert (forall j, is_bin j -> p ∉ bin_at j :: bl j) as Hpn.
  { intros j Hj [-> |Hin]%elem_of_cons.
    - destruct HG as [G1 _]. destruct (G1 (bin_at j) s Free) as [? _]; [apply HC; by right|]. pose proof (bin_range j Hj). pose proof base_range. lia.
    - destruct (Hf j p Hj Hin) as (t & Ht & _). by destruct (Hp t). }
  pose proof (Hr i Hi) as HR. pose proof (Hn i Hi) as HN. rewrite El in HR, HN.
  assert (NoDup (p :: bin_at i :: l1 ++ l2)) as HN'.
  { constructor; [rewrite <- El; by apply Hpn|]. constructor; [|done]. rewrite <- El. by eapply bin_not_chunk. }
  assert (b ∈ bin_at i :: l1 ++ l2) as Hb.
  { unfold b. destruct l1 as [|y l1 _] using rev_ind; [set_solver|]. rewrite last_last. set_solver. }
  assert (f ∈ bin_at i :: l1 ++ l2) as Hfi.
  { unfold f. apply elem_of_cons in Hb as [-> |Hb].
    - unfold ring in HR. destruct (l1 ++ l2) as [|z l]; destruct HR as [-> _]; set_solver.
    - apply list_elem_of_split in Hb as (k1 & k2 & E). rewrite E in HR, HN'. apply NoDup_cons in HN' as [_ HN'].
      destruct (ring_neighbours m (bin_at i) k1 b k2 HN' HR) as [H1 _]. rewrite E. set_solver. }
  assert (forall n, n ∈ bin_at i :: l1 ++ l2 -> node C n) as Hnode by (intros n; rewrite <- El; by apply (bins_node m)).
  split; [by apply Hnode|]. split; [by apply Hnode|].
  intros m' HL. assert (forall c, c ∈ C -> c ∈ C') as Hsub by (intros; apply HC; by left). split.
  - intros j Hj. destruct (decide (j = i)) as [-> |Hne]; [rewrite upd_eq|rewrite upd_ne by done].
    + apply (ring_insert m); [done..|]. intros n Hin. apply HL. apply elem_of_cons in Hin as [-> |Hin]; [right; exists s; apply HC; by right|].
      by eapply node_mono, Hnode.
    + apply (ring_frame m); [|by apply Hr]. intros n Hin.
      destruct (HL n) as [-> ->]; [eapply node_mono; [done|by apply (bins_node m bl C j)]|].
      assert (n <> p) by (intros ->; by apply (Hpn j)).
      assert (n ∉ bin_at i :: l1 ++ l2) as Hni.
      { rewrite <- El. apply elem_of_cons in Hin as [-> |Hin].
        - apply not_elem_of_cons. split; [unfold Malloc.bin_at; lia|]. by apply (bin_not_chunk m bl C).
        - apply not_elem_of_cons. split; [intros ->; by apply (bin_not_chunk m bl C i j HGC HB Hi Hj)|]. intros Hin'. by apply Hne, (Hd j i n). }
      rewrite !decide_False by first [done | intros E; apply Hni; rewrite E; done]. done.
  - intros j Hj. unfold upd. case_decide; [|by apply Hn]. apply NoDup_cons in HN' as [Hpi HN']. apply NoDup_cons in HN' as [_ HN'].
    rewrite <- Permutation_middle. constructor; [set_solver|done].
  - intros j k y Hj Hk H1 H2. unfold upd in H1, H2. destruct (decide (j = i)) as [-> |], (decide (k = i)) as [-> |]; [done|..].
    + assert (y <> p) by (intros ->; apply (Hpn k Hk); set_solver). apply (Hd i k y); [done..| |done]. rewrite El. set_solver.
    + assert (y <> p) by (intros ->; apply (Hpn j Hj); set_solver). apply (Hd j i y); [done..|]. rewrite El. set_solver.
    + by apply (Hd j k y).
  - intros j y Hj Hy. destruct (decide (y = p)) as [-> |Hne].
    + exists s. split; [apply HC; by right|]. unfold upd in Hy. case_decide; [by subst|]. destruct (Hpn j Hj). set_solver.
    + destruct (Hf j y Hj) as (t & Ht & E); [|exists t; split; [by apply Hsub|done]]. unfold upd in Hy. case_decide; [|done]. subst. rewrite El. set_solver.
  - intros y t [Hy|Hy]%HC.
    + destruct (Ha y t Hy) as (j & Hj & Hin). exists j. split; [done|]. unfold upd. case_decide; [|done]. subst. rewrite El in Hin. set_solver.
    + injection Hy as -> ->. exists i. split; [done|]. rewrite upd_eq. set_solver.
Qed.
End Bins.

(** ** Fastbins *)

Definition is_fastbin (i : Z) : Prop := 0 <= i < 8.

Record Fasts (m : gmap Z Z) (fb : list Z) (fl : Z -> list Z) (C : list placed) : Prop := {
  fs_length : length fb = 10%nat;
  fs_list : forall i, is_fastbin i -> fast_list m (nth (Z.to_nat i) fb 0) (fl i);
  fs_nodup : forall i, is_fastbin i -> NoDup (fl i);
  fs_disj : forall i j x, is_fastbin i -> is_fastbin j -> x ∈ fl i -> x ∈ fl j -> i = j;
  fs_fast : forall i x, is_fastbin i -> x ∈ fl i -> exists s, (x, s, Fast) ∈ C /\ fastbin_index s = i;
  fs_all : forall x s, (x, s, Fast) ∈ C -> exists i, is_fastbin i /\ x ∈ fl i
}.

Lemma fasts_frame m m' fb fl C C' : (forall x s, (x, s, Fast) ∈ C -> rd m' (x + 8) = rd m (x + 8)) ->
  (forall x s, (x, s, Fast) ∈ C <-> (x, s, Fast) ∈ C') -> Fasts m fb fl C -> Fasts m' fb fl C'.
Proof.
  intros HF HC []. split; try done.
  - intros i Hi. apply (fast_list_frame m); [|by apply fs_list0]. intros n Hn. destruct (fs_fast0 i n Hi Hn) as (s & Hs & _). by apply (HF n s).
  - intros i x Hi Hx. destruct (fs_fast0 i x Hi Hx) as (s & Hs & E). exists s. by rewrite <- HC.
  - intros x s Hs. rewrite <- HC in Hs. eauto.
Qed.

(** Taking the first chunk of a fastbin. *)
Lemma fasts_pop m fb fl C C' i x : is_fastbin i -> Fasts m fb fl C -> nth (Z.to_nat i) fb 0 = x -> x <> 0 ->
  (forall c, c ∈ C' <-> c ∈ C /\ c.1.1 <> x) ->
  exists s l, (x, s, Fast) ∈ C /\ fastbin_index s = i /\ fl i = x :: l /\ Fasts m (<[Z.to_nat i := rd m (x + 8)]> fb) (upd i l fl) C'.
Proof.
  intros Hi HFs Hx H0 HC. pose proof HFs as [Hlen Hl Hn Hd Hf Ha]. pose proof (Hl i Hi) as HL. destruct (fl i) as [|y l] eqn:E; simpl in HL; [by rewrite Hx in HL|].
  destruct HL as (Hy & _ & HL). assert (y = x) as -> by congruence.
  destruct (Hf i x Hi) as (s & Hs & Hidx); [rewrite E; set_solver|]. exists s, l. split_and!; [done..|].
  pose proof (Hn i Hi) as HN. rewrite E in HN. apply NoDup_cons in HN as [Hxl HN].
  assert (forall j y, is_fastbin j -> y ∈ upd i l fl j <-> y ∈ fl j /\ y <> x) as Hin.
  { intros j y Hj. unfold upd. case_decide; [subst j; rewrite E; set_solver|]. split; [|by intros [? _]]. intros Hy'. split; [done|]. intros ->.
    assert (x ∈ fl i) by (rewrite E; set_solver). by destruct (Hd j i x). }
  split.
  - by rewrite length_insert.
  - intros j Hj. unfold upd. case_decide.
    + subst j. unfold is_fastbin in *. rewrite nth_lookup, list_lookup_insert_eq by lia. done.
    + unfold is_fastbin in *. rewrite nth_lookup, list_lookup_insert_ne by lia. rewrite <- nth_lookup. by apply Hl.
  - intros j Hj. unfold upd. case_decide; [done|by apply Hn].
  - intros j k y Hj Hk H1 H2. apply Hin in H1 as [H1 _]; [|done]. apply Hin in H2 as [H2 _]; [|done]. by apply (Hd j k y).
  - intros j y Hj [Hy' Hne]%Hin; [|done]. destruct (Hf j y Hj Hy') as (t & Ht & ?). exists t. split; [|done]. by apply HC.
  - intros y t [Hy' Hne]%HC. destruct (Ha y t Hy') as (j & Hj & Hj'). exists j. split; [done|]. by apply Hin.
Qed.

(** Putting a chunk on a fastbin. *)
Lemma fasts_push m fb fl C C' i x s : is_fastbin i -> Fasts m fb fl C -> (forall y t, (y, t, Fast) ∈ C -> y + 8 <> x + 8) -> x <> 0 ->
  fastbin_index s = i -> (forall c, c ∈ C' <-> c ∈ C \/ c = (x, s, Fast)) ->
  Fasts (<[x + 8 := nth (Z.to_nat i) fb 0]> m) (<[Z.to_nat i := x]> fb) (upd i (x :: fl i) fl) C'.
Proof.
  intros Hi HFs Hx H0 Hs HC. pose proof HFs as [Hlen Hl Hn Hd Hf Ha].
  assert (forall j, is_fastbin j -> x ∉ fl j) as Hnx. { intros j Hj Hin. destruct (Hf j x Hj Hin) as (t & Ht & _). by apply (Hx x t). }
  assert (forall j, is_fastbin j -> fast_list (<[x + 8 := nth (Z.to_nat i) fb 0]> m) (nth (Z.to_nat j) fb 0) (fl j)) as Hl'.
  { intros j Hj. apply (fast_list_frame m); [|by apply Hl]. intros n Hin. rewrite rd_insert_ne; [done|]. intros E. apply (Hnx j Hj). by assert (n = x) as <- by lia. }
  split.
  - by rewrite length_insert.
  - intros j Hj. unfold upd. case_decide.
    + subst j. unfold is_fastbin in *. rewrite (nth_lookup (<[_:=_]> _)), list_lookup_insert_eq by lia. simpl. split_and!; [done..|]. rewrite rd_insert_eq. by apply Hl'.
    + unfold is_fastbin in *. rewrite (nth_lookup (<[_:=_]> _)), list_lookup_insert_ne by lia. rewrite <- nth_lookup. by apply Hl'.
  - intros j Hj. unfold upd. case_decide; [|by apply Hn]. subst. constructor; [by apply Hnx|by apply Hn].
  - intros j k y Hj Hk H1 H2. unfold upd in H1, H2. destruct (decide (j = i)) as [-> |], (decide (k = i)) as [-> |]; [done|..].
    + apply elem_of_cons in H1 as [-> |H1]; [by destruct (Hnx k Hk)|by apply (Hd i k y)].
    + apply elem_of_cons in H2 as [-> |H2]; [by destruct (Hnx j Hj)|by apply (Hd j i y)].
    + by apply (Hd j k y).
  - intros j y Hj Hy. unfold upd in Hy. destruct (decide (j = i)) as [-> |].
    + apply elem_of_cons in Hy as [-> |Hy]; [exists s; split; [apply HC; by right|done]|]. destruct (Hf i y Hi Hy) as (t & ? & ?). exists t. split; [apply HC; by left|done].
    + destruct (Hf j y Hj Hy) as (t & ? & ?). exists t. split; [apply HC; by left|done].
  - intros y t [Hy|[= -> ->]]%HC; [|exists i; split; [done|]; rewrite upd_eq; by left].
    destruct (Ha y t Hy) as (j & Hj & Hin). exists j. split; [done|]. unfold upd. case_decide; [|done]. subst. by right.
Qed.
