(* ===== verification/MallocHole.v ===== *)
(** * Opening, moving and closing holes

    [Lay]: outside of a region of the heap the memory is a sequence of chunks.
    The functions of the allocator open a hole around a chunk, change its limits
    and close it; an empty hole is a consistent heap.  Each lemma takes the
    words before and after a step and relates the sequences of chunks, the
    bins, the fastbins and the contents of the blocks that are allocated. *)

From S2P Require Import Prelude Malloc MallocLayout MallocInv.

Section Holes.
Context {av_ heap heap_end : Z} {HP : HeapPlace av_ heap heap_end}.
Abbreviation bin_at := (bin_at av_).
Abbreviation Bins := (Bins av_).
Abbreviation node := (node av_).
Abbreviation base := (base heap).
Abbreviation placed_ok := (placed_ok heap).
Abbreviation limit := (limit heap).

(** Blocks that keep their contents, and the memory they had them in. *)
Context {B0 : list (Z * Z)} {m0 : gmap Z Z}.

(** The words the owner of a block may use: up to the size of the next chunk. *)
Definition inside (b : Z * Z) (w : Z) : Prop := b.1 + 8 <= w < b.1 + b.2 + 4.

Definition outside (L1 : chunks) (q : Z) (L2 : chunks) : list placed := layout base L1 ++ layout q L2.

(** The sequence of chunks around the hole from [p] on of size [sz]; [pb1] and
    [pb2]: whether what precedes and what follows the hole is told that its
    neighbour is in use.  [K]: the allocated blocks. *)
Record Lay (m : gmap Z Z) (tp brk : Z) (L1 : chunks) (p sz : Z) (L2 : chunks) (pb1 pb2 : bool) (fl : Z -> list Z) (fb : list Z) (K : list (Z * Z)) : Prop := {
  h_ok1 : Forall chunk_ok L1;
  h_ok2 : Forall chunk_ok L2;
  h_start : p = base + span L1;
  h_size : 0 <= sz /\ (8 | sz);
  h_top : tp = p + sz + span L2;
  h_tags1 : tags m base true L1 pb1;
  h_tags2 : tags m (p + sz) pb2 L2 true;
  h_head : rd m (tp + 4) = brk - tp + 1;
  h_room : 16 <= brk - tp /\ (8 | brk - tp) /\ brk <= heap_end;
  h_fasts : Fasts m fb fl (outside L1 (p + sz) L2);
  h_blocks : blocks (outside L1 (p + sz) L2) ≡ₚ K;
  h_data : forall b, b ∈ B0 -> b ∈ K /\ forall w, inside b w -> rd m w = rd m0 w
}.

(** A consistent heap. *)
Definition Heap m tp brk L bl fl fb K : Prop := Lay m tp brk L tp 0 [] true true fl fb K /\ Bins m bl (layout base L).

(** ** Geometry *)

Lemma outside_ok L1 p sz L2 : Forall chunk_ok L1 -> Forall chunk_ok L2 -> p = base + span L1 -> 0 <= sz -> (8 | sz) ->
  placed_ok (outside L1 (p + sz) L2) /\ forall x, p <= x <= p + sz -> (8 | x) -> limit (outside L1 (p + sz) L2) x.
Proof.
  intros H1 H2 -> Hsz Hd. pose proof (base_divide heap) as Hb. pose proof (span_divide L1 H1) as Hs1. pose proof (span_nonneg L1 H1).
  assert (8 | base + span L1 + sz) as Hq by (apply Z.divide_add_r; [by apply Z.divide_add_r|done]).
  assert (forall x s st, (x, s, st) ∈ layout base L1 -> base <= x /\ x + s <= base + span L1 /\ 16 <= s /\ (8 | s) /\ (8 | x)) as B1
    by (intros; by eapply layout_bounds).
  assert (forall x s st, (x, s, st) ∈ layout (base + span L1 + sz) L2 -> base + span L1 + sz <= x /\ 16 <= s /\ (8 | s) /\ (8 | x)) as B2
    by (intros x s st Hx; destruct (layout_bounds _ _ _ _ _ H2 Hq Hx) as (? & ? & ? & ? & ?); done).
  split; [split|].
  - intros x s st [Hx|Hx]%elem_of_app; [destruct (B1 _ _ _ Hx) as (? & ? & ? & ? & ?)|destruct (B2 _ _ _ Hx) as (? & ? & ? & ?)]; split_and!; try done; lia.
  - intros [[x s] st] [[y t] st'] [Hc|Hc]%elem_of_app [Hd'|Hd']%elem_of_app.
    + by apply (layout_apart base L1).
    + right; left; simpl. pose proof (B1 _ _ _ Hc). pose proof (B2 _ _ _ Hd'). lia.
    + right; right; simpl. pose proof (B2 _ _ _ Hc). pose proof (B1 _ _ _ Hd'). lia.
    + by apply (layout_apart (base + span L1 + sz) L2).
  - intros x Hx Hdx. split; [lia|]. split; [done|]. intros y s st [Hy|Hy]%elem_of_app; [pose proof (B1 _ _ _ Hy)|pose proof (B2 _ _ _ Hy)]; lia.
Qed.

Lemma outside_nil L q : outside L q [] = layout base L.
Proof. apply app_nil_r. Qed.

Section Facts.
Context {m : gmap Z Z} {tp brk : Z} {L1 : chunks} {p sz : Z} {L2 : chunks} {pb1 pb2 : bool} {fl : Z -> list Z} {fb : list Z} {K : list (Z * Z)}.
Context (HL : Lay m tp brk L1 p sz L2 pb1 pb2 fl fb K).

Lemma lay_ok : placed_ok (outside L1 (p + sz) L2).
Proof. destruct HL. destruct h_size0. by apply outside_ok. Qed.

Lemma lay_limit x : p <= x <= p + sz -> (8 | x) -> limit (outside L1 (p + sz) L2) x.
Proof. destruct HL. destruct h_size0. intros. by apply outside_ok. Qed.

Lemma lay_divide : (8 | p) /\ (8 | p + sz) /\ (8 | tp).
Proof.
  destruct HL. destruct h_size0 as [_ Hd]. pose proof (base_divide heap). pose proof (span_divide L1 h_ok3). pose proof (span_divide L2 h_ok4).
  assert (8 | p) by (subst p; by apply Z.divide_add_r). assert (8 | p + sz) by by apply Z.divide_add_r. split_and!; [done..|]. subst tp. by apply Z.divide_add_r.
Qed.

Lemma lay_range : base <= p /\ 0 <= sz /\ p + sz <= tp /\ tp + 16 <= brk /\ brk <= heap_end.
Proof. destruct HL. pose proof (span_nonneg L1 h_ok3). pose proof (span_nonneg L2 h_ok4). lia. Qed.

Lemma outside_range x s st : (x, s, st) ∈ outside L1 (p + sz) L2 ->
  base <= x /\ 16 <= s /\ (8 | x) /\ (8 | s) /\ x + s <= tp /\ (x + s <= p \/ p + sz <= x).
Proof.
  intros Hx. destruct lay_divide as (_ & Hq & _). destruct lay_ok as [G1 _].
  destruct (G1 _ _ _ Hx) as (? & ? & ? & ?). destruct HL. destruct h_size0. pose proof (span_nonneg L2 h_ok4).
  apply elem_of_app in Hx as [Hx|Hx].
  - destruct (layout_bounds _ _ _ _ _ h_ok3 (base_divide heap) Hx) as (? & ? & _). split_and!; try done; lia.
  - destruct (layout_bounds _ _ _ _ _ h_ok4 Hq Hx) as (? & ? & _). split_and!; try done; lia.
Qed.

Lemma block_elem C b : b ∈ blocks C <-> (b.1, b.2, Used) ∈ C.
Proof.
  unfold blocks. rewrite list_elem_of_omap. destruct b as [x s]. simpl. split.
  - intros ([[y t] st] & Hin & E). destruct st; [|done..]. by injection E as -> ->.
  - intros Hin. by exists (x, s, Used).
Qed.

Lemma lay_block b : b ∈ K -> (b.1, b.2, Used) ∈ outside L1 (p + sz) L2.
Proof. intros Hb. apply block_elem. destruct HL. by rewrite h_blocks0. Qed.

Lemma block_range b : b ∈ K -> base <= b.1 /\ 16 <= b.2 /\ (8 | b.1) /\ (8 | b.2) /\ b.1 + b.2 <= tp /\ (b.1 + b.2 <= p \/ p + sz <= b.1).
Proof. intros Hb. by apply (outside_range _ _ Used), lay_block. Qed.

Lemma lay_perm K' : K ≡ₚ K' -> Lay m tp brk L1 p sz L2 pb1 pb2 fl fb K'.
Proof. intros HK. destruct HL. split; try done; [by rewrite h_blocks0|]. intros b Hb. rewrite <- HK. by apply h_data0. Qed.

(** ** Frames *)

(** Words the sequence of chunks reads: changing others keeps it. *)
Lemma lay_change m' :
  (forall x s st, (x, s, st) ∈ outside L1 (p + sz) L2 ->
     rd m' (x + 4) = rd m (x + 4) /\ (st = Free -> rd m' (x + s) = rd m (x + s)) /\ (st = Fast -> rd m' (x + 8) = rd m (x + 8)) /\
     (st = Used -> (x, s) ∈ B0 -> forall w, inside (x, s) w -> rd m' w = rd m w)) ->
  rd m' (tp + 4) = rd m (tp + 4) -> Lay m' tp brk L1 p sz L2 pb1 pb2 fl fb K.
Proof.
  intros HF Ht. pose proof lay_block as HB. destruct HL. split; try done.
  - apply (tags_frame m); [|done]. intros x s st Hx. destruct (HF x s st) as (? & ? & _); [apply elem_of_app; by left|done].
  - apply (tags_frame m); [|done]. intros x s st Hx. destruct (HF x s st) as (? & ? & _); [apply elem_of_app; by right|done].
  - by rewrite Ht.
  - apply (fasts_frame m _ _ _ (outside L1 (p + sz) L2)); [|done..]. intros x s Hx. destruct (HF x s Fast Hx) as (_ & _ & H & _). by apply H.
  - intros b Hb. destruct (h_data0 b Hb) as [HK HD]. split; [done|]. intros w Hw. rewrite <- HD by done.
    destruct (HF _ _ _ (HB b HK)) as (_ & _ & _ & H). destruct b as [x s]. by apply H.
Qed.

(** Words that are no links. *)
Definition no_link (C : list placed) (w : Z) : Prop := forall n, node C n -> w <> n + 8 /\ w <> n + 12.

Lemma limit_no_link x : limit (outside L1 (p + sz) L2) x -> no_link (outside L1 (p + sz) L2) x /\ no_link (outside L1 (p + sz) L2) (x + 4).
Proof. intros Hx. pose proof lay_ok as HG. split; intros n Hn; destruct (limit_not_link av_ heap heap_end _ x n HG Hx Hn) as (? & ? & ? & ?); done. Qed.

Lemma chunk_limits x s st : (x, s, st) ∈ outside L1 (p + sz) L2 -> limit (outside L1 (p + sz) L2) x /\ limit (outside L1 (p + sz) L2) (x + s).
Proof.
  intros Hx. destruct (outside_range _ _ _ Hx) as (Hb & Hs & Hd & Hds & Ht & _).
  split; (split; [lia|]; split; [try done; by apply Z.divide_add_r|]); intros y t st' Hy; destruct lay_ok as [G1 G2];
    pose proof (G1 _ _ _ Hy); destruct (G2 _ _ Hx Hy) as [E|[E|E]]; simpl in *; try (injection E as -> -> ->); lia.
Qed.

(** The links lie outside of the hole and of the chunks in use. *)
Lemma node_place n : node (outside L1 (p + sz) L2) n ->
  0 < n /\ n + 16 <= tp /\ (n + 16 <= p \/ p + sz <= n) /\
  forall x s st, (x, s, st) ∈ outside L1 (p + sz) L2 -> st <> Free -> n + 16 <= x \/ x + s <= n.
Proof.
  pose proof (base_range heap). pose proof lay_range. intros [(i & Hi & ->)|(t & Hn)].
  - pose proof (bin_range av_ heap heap_end i Hi). split; [lia|]. split; [lia|]. split; [lia|]. intros x s st Hx _. pose proof (outside_range _ _ _ Hx). lia.
  - pose proof (bin_range av_ heap heap_end 1 ltac:(unfold is_bin; lia)).
    pose proof (outside_range _ _ _ Hn). split; [lia|]. split; [lia|]. split; [lia|]. intros x s st Hx Hst. pose proof (outside_range _ _ _ Hx).
    destruct (proj2 lay_ok _ _ Hx Hn) as [E|E]; [congruence|]. simpl in E. lia.
Qed.

Lemma lay_links m' : (forall w, no_link (outside L1 (p + sz) L2) w -> rd m' w = rd m w) -> Lay m' tp brk L1 p sz L2 pb1 pb2 fl fb K.
Proof.
  intros HF. apply lay_change.
  - intros x s st Hx. destruct (chunk_limits _ _ _ Hx) as [H1 H2]. destruct (outside_range _ _ _ Hx) as (_ & Hs & _).
    split_and!; [by apply HF, limit_no_link|intros _; by apply HF, limit_no_link| |].
    + intros ->. apply HF. intros n Hn. destruct (node_place n Hn) as (_ & _ & _ & Hp). destruct (Hp _ _ _ Hx); [done|lia..].
    + intros -> _ w Hw. unfold inside in Hw. simpl in Hw. apply HF. intros n Hn. destruct (node_place n Hn) as (_ & _ & _ & Hp). destruct (Hp _ _ _ Hx); [done|lia..].
  - apply HF, limit_no_link. pose proof lay_range. split; [lia|]. split; [apply lay_divide|]. intros y s st Hy. pose proof (outside_range _ _ _ Hy). lia.
Qed.

(** Words inside the hole, and the one after it. *)
Lemma lay_inside m' : (forall w, w < p + 4 \/ p + sz < w -> rd m' w = rd m w) -> Lay m' tp brk L1 p sz L2 pb1 pb2 fl fb K.
Proof.
  intros HF. apply lay_change.
  - intros x s st Hx. destruct (outside_range _ _ _ Hx) as (_ & Hs & _ & _ & _ & Hp). split_and!; intros; apply HF; unfold inside in *; simpl in *; lia.
  - apply HF. pose proof lay_range. lia.
Qed.

Lemma bins_inside m' bl : Bins m bl (outside L1 (p + sz) L2) ->
  (forall w, w < p + 4 \/ p + sz + 4 < w -> rd m' w = rd m w) -> Bins m' bl (outside L1 (p + sz) L2).
Proof. intros HB HF. apply (bins_frame av_ m); [|done]. intros n Hn. destruct (node_place n Hn) as (_ & _ & ? & _). split; apply HF; lia. Qed.
End Facts.

(** ** Moving the limits of a hole *)

Definition used_block (st : status) (b : Z * Z) : list (Z * Z) := match st with Used => [b] | _ => [] end.

Lemma blocks_mid L1 s st L2 :
  blocks (layout base (L1 ++ (s, st) :: L2)) ≡ₚ used_block st (base + span L1, s) ++ blocks (outside L1 (base + span L1 + s) L2).
Proof.
  unfold outside. rewrite layout_app, !blocks_app. simpl. destruct st; simpl; [|done..]. by rewrite <- Permutation_middle.
Qed.

Lemma outside_mid L1 s st L2 c :
  c ∈ layout base (L1 ++ (s, st) :: L2) <-> c ∈ outside L1 (base + span L1 + s) L2 \/ c = (base + span L1, s, st).
Proof. unfold outside. rewrite layout_app, !elem_of_app. simpl. rewrite elem_of_cons. naive_solver. Qed.

Lemma outside_start L1 s st L2 c : Forall chunk_ok (L1 ++ (s, st) :: L2) ->
  c ∈ outside L1 (base + span L1 + s) L2 <-> c ∈ layout base (L1 ++ (s, st) :: L2) /\ c.1.1 <> base + span L1.
Proof.
  intros [H1 [[Hs Hd] H2]%Forall_cons]%Forall_app. simpl in Hs, Hd. pose proof (base_divide heap) as Hb. pose proof (span_divide L1 H1).
  assert (8 | base + span L1 + s) as Hq by (apply Z.divide_add_r; [by apply Z.divide_add_r|done]). destruct c as [[x t] st']. rewrite outside_mid. simpl. split.
  - intros Hx. split; [by left|]. apply elem_of_app in Hx as [Hx|Hx].
    + destruct (layout_bounds _ _ _ _ _ H1 Hb Hx) as (? & ? & ? & _). lia.
    + destruct (layout_bounds _ _ _ _ _ H2 Hq Hx) as (? & ? & ? & _). lia.
  - intros [[?|[= -> -> ->]] ?]; done.
Qed.

Lemma fasts_mid m fb fl L1 s st L2 : st <> Fast ->
  Fasts m fb fl (layout base (L1 ++ (s, st) :: L2)) <-> Fasts m fb fl (outside L1 (base + span L1 + s) L2).
Proof.
  intros Hst. assert (forall x t, (x, t, Fast) ∈ layout base (L1 ++ (s, st) :: L2) <-> (x, t, Fast) ∈ outside L1 (base + span L1 + s) L2) as HE.
  { intros x t. rewrite outside_mid. split; [|by left]. intros [?|?]; [done|congruence]. }
  split; apply fasts_frame; try done; intros; by rewrite HE.
Qed.

(** Opening a chunk. *)
Lemma lay_open m tp brk L1 s st L2 fl fb fl' fb' K K' : Lay m tp brk (L1 ++ (s, st) :: L2) tp 0 [] true true fl fb K ->
  Fasts m fb' fl' (outside L1 (base + span L1 + s) L2) -> K ≡ₚ used_block st (base + span L1, s) ++ K' -> (forall b, b ∈ B0 -> b ∈ K') ->
  exists pb, Lay m tp brk L1 (base + span L1) s L2 pb (counts_used st) fl' fb' K' /\ rd m (base + span L1 + 4) = s + Z.b2z pb /\ 16 <= s /\
    (st = Free -> pb = true /\ rd m (base + span L1 + s) = s).
Proof.
  intros [Hok _ Ht _ _ Htags _ Hh Hr _ Hb Hd'] Hf HK HB. apply Forall_app in Hok as [H1 [[Hs Hd] H2]%Forall_cons]. simpl in Hs, Hd.
  apply tags_app in Htags as (pb & T1 & E & T2 & T3). exists pb. split_and!; [|done|done|by intros ->].
  rewrite outside_nil, blocks_mid, HK in Hb. apply Permutation_app_inv_l in Hb. split; try done.
  - split; [lia|done].
  - rewrite Ht, span_app. simpl. lia.
  - intros b Hin. split; [by apply HB|by apply Hd'].
Qed.

(** Closing a hole. *)
Lemma lay_close m tp brk L1 p sz st L2 pb fl fb fl' fb' K : Lay m tp brk L1 p sz L2 pb (counts_used st) fl fb K -> 16 <= sz ->
  rd m (p + 4) = sz + Z.b2z pb -> (st = Free -> pb = true /\ rd m (p + sz) = sz) -> Fasts m fb' fl' (layout base (L1 ++ (sz, st) :: L2)) ->
  Lay m tp brk (L1 ++ (sz, st) :: L2) tp 0 [] true true fl' fb' (used_block st (p, sz) ++ K).
Proof.
  intros [H1 H2 Hp [_ Hd] Ht T1 T2 Hh Hr _ Hb HD] Hs E HF Hf. assert (tp = base + span (L1 ++ (sz, st) :: L2)) as Ht' by (rewrite span_app; simpl; lia).
  split; try done.
  - apply Forall_app. split; [done|]. by constructor.
  - split; [lia|apply Z.divide_0_r].
  - simpl. lia.
  - apply tags_app. exists pb. split; [done|]. simpl. rewrite <- Hp. split_and!; [done| |done]. destruct st; [done..|]. by apply HF.
  - by rewrite outside_nil.
  - rewrite outside_nil, blocks_mid, <- Hp. by rewrite Hb.
  - intros b Hin. destruct (HD b Hin). split; [|done]. apply elem_of_app. by right.
Qed.

Lemma lay_absorb_prev m tp brk L0 s0 p sz L2 pb1 pb2 fl fb K : Lay m tp brk (L0 ++ [(s0, Free)]) p sz L2 pb1 pb2 fl fb K ->
  pb1 = false /\ rd m p = s0 /\ 16 <= s0 /\ Lay m tp brk L0 (p - s0) (s0 + sz) L2 true pb2 fl fb K.
Proof.
  intros [H1 H2 Hp [Hs Hd] Ht T1 T2 Hh Hr Hf Hb HD]. apply Forall_app in H1 as [H1 [[Hs0 Hd0] _]%Forall_cons]. simpl in Hs0, Hd0.
  rewrite span_app in Hp. simpl in Hp. apply tags_app in T1 as (pb & T1 & _ & [-> E] & E'). simpl in E'.
  split_and!; [done|by rewrite <- E, Hp; f_equal; lia|done|].
  assert (p - s0 + (s0 + sz) = p + sz) as Eq by lia. split; rewrite ?Eq; try done.
  - lia.
  - split; [lia|by apply Z.divide_add_r].
  - apply (fasts_frame m m fb fl (outside (L0 ++ [(s0, Free)]) (p + sz) L2)); [done| |done].
    intros x t. unfold outside. rewrite layout_app, !elem_of_app. simpl. rewrite list_elem_of_singleton. naive_solver.
  - rewrite <- Hb. unfold outside. rewrite layout_app, !blocks_app. simpl. by rewrite app_nil_r.
Qed.

Lemma lay_absorb_next m tp brk L1 p sz s2 L3 pb1 pb2 fl fb K : Lay m tp brk L1 p sz ((s2, Free) :: L3) pb1 pb2 fl fb K ->
  pb2 = true /\ rd m (p + sz + 4) = s2 + 1 /\ 16 <= s2 /\ Lay m tp brk L1 p (sz + s2) L3 pb1 false fl fb K.
Proof.
  intros [H1 H2 Hp [Hs Hd] Ht T1 T2 Hh Hr Hf Hb HD]. apply Forall_cons in H2 as [[Hs2 Hd2] H2]. simpl in Hs2, Hd2.
  destruct T2 as (E & [-> E2] & T2). simpl in E, T2. split_and!; [done..|].
  assert (p + (sz + s2) = p + sz + s2) as Eq by lia. split; rewrite ?Eq; try done.
  - split; [lia|by apply Z.divide_add_r].
  - rewrite Ht. simpl. lia.
  - apply (fasts_frame m m fb fl (outside L1 (p + sz) ((s2, Free) :: L3))); [done| |done].
    intros x t. unfold outside. simpl. rewrite !elem_of_app, elem_of_cons. naive_solver.
  - rewrite <- Hb. unfold outside. by rewrite !blocks_app.
Qed.

(** The start of a hole becomes an allocated chunk. *)
Lemma lay_split m tp brk L1 p sz nb L2 pb1 pb2 fl fb K : Lay m tp brk L1 p sz L2 pb1 pb2 fl fb K -> 16 <= nb <= sz -> (8 | nb) ->
  rd m (p + 4) = nb + Z.b2z pb1 -> Lay m tp brk (L1 ++ [(nb, Used)]) (p + nb) (sz - nb) L2 true pb2 fl fb ((p, nb) :: K).
Proof.
  intros [H1 H2 Hp [Hs Hd] Ht T1 T2 Hh Hr Hf Hb HD] Hnb Hdn E. assert (p + nb + (sz - nb) = p + sz) as Eq by lia. split; rewrite ?Eq; try done.
  - apply Forall_app. split; [done|]. constructor; [|done]. split; [simpl; lia|done].
  - rewrite span_app. simpl. lia.
  - split; [lia|]. by apply Z.divide_sub_r.
  - apply tags_app. exists pb1. rewrite <- Hp. done.
  - apply (fasts_frame m m fb fl (outside L1 (p + sz) L2)); [done| |done].
    intros x t. unfold outside. rewrite layout_app, !elem_of_app. simpl. rewrite list_elem_of_singleton. naive_solver.
  - rewrite <- Hb. unfold outside. rewrite layout_app, !blocks_app. simpl. rewrite <- Hp, <- app_assoc. symmetry. apply Permutation_middle.
  - intros b Hin. destruct (HD b Hin). split; [by right|done].
Qed.

(** What the chunk after the hole is told. *)
Lemma lay_tell m m' tp brk L1 p sz s2 st2 L3 pb1 pb2 pb fl fb K : Lay m tp brk L1 p sz ((s2, st2) :: L3) pb1 pb2 fl fb K ->
  (st2 = Free -> pb = true) -> rd m' (p + sz + 4) = s2 + Z.b2z pb -> (forall w, w <> p + sz + 4 -> rd m' w = rd m w) ->
  Lay m' tp brk L1 p sz ((s2, st2) :: L3) pb1 pb fl fb K.
Proof.
  intros HL Hst E HF. pose proof (lay_divide HL) as (_ & Hq & _). pose proof HL as [H1 H2 Hp [Hs Hd] Ht T1 T2 Hh Hr Hf Hb HD].
  assert (forall x s st, (x, s, st) ∈ outside L1 (p + sz) ((s2, st2) :: L3) -> x <> p + sz -> rd m' (x + 4) = rd m (x + 4) /\ rd m' (x + s) = rd m (x + s)) as HW.
  { intros x s st Hx Hne. destruct (outside_range HL _ _ _ Hx) as (_ & ? & Hdx & Hds & _ & ?).
    split; apply HF; [lia|]. destruct Hq as [k Hk], Hdx as [j Hj], Hds as [i Hi]. lia. }
  pose proof (Forall_inv H2) as [Hs2 Hd2]. simpl in Hs2, Hd2. pose proof (span_nonneg L3 (Forall_inv_tail H2)). simpl in Ht.
  assert (8 | p + sz + s2) as Hq2 by by apply Z.divide_add_r.
  split; try done.
  - apply (tags_frame m); [|done]. intros x s st Hx. destruct (HW x s st) as [-> ->]; [apply elem_of_app; by left| |done].
    destruct (layout_bounds _ _ _ _ _ H1 (base_divide heap) Hx) as (? & ? & ? & _). lia.
  - destruct T2 as (E1 & E2 & T2). split_and!; [done| |].
    + destruct st2; [done..|]. destruct E2 as [-> E2]. split; [by apply Hst|]. rewrite HF by lia. done.
    + apply (tags_frame m); [|done]. intros x s st Hx.
      destruct (layout_bounds _ _ _ _ _ (Forall_inv_tail H2) Hq2 Hx) as (? & _).
      destruct (HW x s st) as [-> ->]; [apply elem_of_app; right; simpl; by right|lia|done].
  - rewrite HF by lia. done.
  - apply (fasts_frame m _ _ _ (outside L1 (p + sz) ((s2, st2) :: L3))); [|done..]. intros x s Hx.
    destruct (outside_range HL _ _ _ Hx) as (_ & ? & Hdx & Hds & _ & ?). apply HF. destruct Hq as [k Hk], Hdx as [j Hj]. lia.
  - intros b Hin. destruct (HD b Hin) as [HK HW']. split; [done|]. intros w Hw. rewrite <- HW' by done. apply HF.
    pose proof (block_range HL b HK) as (_ & ? & Hdx & Hds & _ & ?). unfold inside in Hw. destruct Hq as [k Hk], Hdx as [j Hj], Hds as [i Hi]. lia.
Qed.

(** From the last hole on the words may change, with the top and the break. *)
Lemma lay_move_top m m' tp brk tp' brk' L1 p sz pb1 pb2 fl fb K : Lay m tp brk L1 p sz [] pb1 pb2 fl fb K ->
  (forall w, w < p + 4 -> rd m' w = rd m w) -> p <= tp' -> (8 | tp') -> rd m' (tp' + 4) = brk' - tp' + 1 ->
  16 <= brk' - tp' -> (8 | brk' - tp') -> brk' <= heap_end -> Lay m' tp' brk' L1 p (tp' - p) [] pb1 true fl fb K.
Proof.
  intros HL HF Hp8 Ht8 Hh' Hr1 Hr2 Hr3. pose proof (lay_divide HL) as (Hdp & _ & _). pose proof HL as [H1 H2 Hp [Hs Hd] Ht T1 T2 Hh Hr Hf Hbl HD].
  assert (forall x s st, (x, s, st) ∈ layout base L1 -> x + s <= p /\ 16 <= s) as Hb.
  { intros x s st Hx. destruct (layout_bounds _ _ _ _ _ H1 (base_divide heap) Hx) as (? & ? & ? & _). lia. }
  split; try done.
  - split; [lia|by apply Z.divide_sub_r].
  - simpl. lia.
  - apply (tags_frame m); [|done]. intros x s st Hx. destruct (Hb _ _ _ Hx). split; [|intros _]; apply HF; lia.
  - rewrite outside_nil in *. apply (fasts_frame m _ _ _ (layout base L1)); [|done..]. intros x s Hx. destruct (Hb _ _ _ Hx). apply HF. lia.
  - intros b Hin. destruct (HD b Hin) as [HK HW']. split; [done|]. intros w Hw. rewrite <- HW' by done. apply HF.
    pose proof (lay_block HL b HK) as Hx. rewrite outside_nil in Hx. destruct (Hb _ _ _ Hx). unfold inside in Hw. lia.
Qed.
End Holes.
