(* ===== verification/MallocLinks.v ===== *)
(** * Headers and links

    What the macros of the allocator read and write in a consistent heap: the
    bits of a size, taking a free chunk out of its bin (unlink), putting one
    into a bin, giving a chunk to the caller. *)

From S2P Require Import Prelude Malloc MallocLayout MallocInv MallocHole.

(** ** The bits of a size *)

Lemma size_bits s pb : (8 | s) -> 0 <= s < 2 ^ 32 ->
  Z.land (s + Z.b2z pb) 0xfffffffc = s /\ Z.land (s + Z.b2z pb) 0xfffffffe = s /\
  Z.land (s + Z.b2z pb) 1 = Z.b2z pb /\ Z.land (s + Z.b2z pb) 2 = 0 /\ Z.lor (s + Z.b2z pb) 1 = s + 1.
Proof.
  intros [k ->] Hs. assert (forall b, k * 8 + Z.b2z b = Z.lor (k * 8) (Z.b2z b)) as E.
  { intros b. symmetry. apply (lor_low_add 3); [done|destruct b; simpl; lia|apply Z.mod_mul; done]. }
  assert (0 <= k * 8 + Z.b2z pb < 2 ^ 32) by (destruct pb; simpl; [|lia]; assert (k < 2 ^ 29) by lia; lia).
  split_and!.
  - change 0xfffffffc with (Z.shiftl (Z.ones (32 - 2)) 2). rewrite land_high_mask by (done || lia). change (2 ^ 2) with 4.
    replace (k * 8) with (k * 2 * 4) by lia. rewrite Z.div_add_l, (Z.div_small (Z.b2z pb)) by (destruct pb; simpl; lia). lia.
  - change 0xfffffffe with (Z.shiftl (Z.ones (32 - 1)) 1). rewrite land_high_mask by (done || lia). change (2 ^ 1) with 2.
    replace (k * 8) with (k * 4 * 2) by lia. rewrite Z.div_add_l, (Z.div_small (Z.b2z pb)) by (destruct pb; simpl; lia). lia.
  - change 1 with (Z.ones 1) at 1. rewrite Z.land_ones by done. change (2 ^ 1) with 2.
    replace (k * 8) with (k * 4 * 2) by lia. rewrite Z.add_comm, Z.mod_add by done. by destruct pb.
  - rewrite E, Z.land_lor_distr_l. replace (Z.land (k * 8) 2) with 0; [destruct pb; done|].
    apply Z.bits_inj'. intros i Hi. rewrite Z.land_spec, Z.bits_0. change 2 with (2 ^ 1). rewrite Z.pow2_bits_eqb by done.
    destruct (Z.eqb_spec 1 i) as [<- |]; [|by rewrite andb_false_r]. rewrite andb_true_r. change 8 with (2 ^ 3). by rewrite Z.mul_pow2_bits_low.
  - rewrite E, <- Z.lor_assoc. change 1 with (Z.b2z true) at 2. rewrite E. f_equal. by destruct pb.
Qed.

Lemma lor_size s : (8 | s) -> 0 <= s < 2 ^ 32 -> Z.lor s 1 = s + 1.
Proof. intros H1 H2. pose proof (size_bits s false H1 H2) as (_ & _ & _ & _ & E). simpl in E. by rewrite Z.add_0_r in E. Qed.

Lemma lor_head_size s pb : (8 | s) -> 0 <= s < 2 ^ 32 -> Z.lor (Z.b2z pb) s = s + Z.b2z pb.
Proof. intros [k ->] H2. rewrite Z.lor_comm. apply (lor_low_add 3); [done|destruct pb; simpl; lia|by apply Z.mod_mul]. Qed.

Lemma at_offset p s : 0 <= p + s < 2 ^ 32 -> chunk_at_offset p s = p + s.
Proof. intros. unfold chunk_at_offset. by apply uwrap_small. Qed.

(** Reading a word after some stores. *)
Ltac rd_solve := repeat first [rewrite rd_insert_eq | rewrite rd_insert_ne by lia]; try done; try lia.

Section Links.
Context {av_ heap heap_end : Z} {HP : HeapPlace av_ heap heap_end} {B0 : list (Z * Z)} {m0 : gmap Z Z}.
Abbreviation bin_at := (bin_at av_).
Abbreviation Bins := (Bins av_).
Abbreviation node := (node av_).
Abbreviation base := (base heap).
Abbreviation placed_ok := (placed_ok heap).
Abbreviation outside := (@outside heap).
Abbreviation Lay := (@Lay heap heap_end B0 m0).
Abbreviation Heap := (@Heap av_ heap heap_end B0 m0).

Lemma bins_find m bl C x s : Bins m bl C -> (x, s, Free) ∈ C -> exists i l1 l2, is_bin i /\ bl i = l1 ++ x :: l2.
Proof. intros HB Hx. destruct (b_all _ _ _ _ HB x s Hx) as (i & Hi & Hin). apply list_elem_of_split in Hin as (l1 & l2 & E). by exists i, l1, l2. Qed.

(** The words after the macro unlink. *)
Definition unlinked (m : gmap Z Z) (x : Z) : gmap Z Z := <[rd m (x + 12) + 8 := rd m (x + 8)]> (<[rd m (x + 8) + 12 := rd m (x + 12)]> m).

(** The hole contains the chunk [x], which is still in its bin. *)
Lemma lay_unlink m tp brk L1 p sz L2 pb1 pb2 fl fb K bl C x s i l1 l2 :
  Lay m tp brk L1 p sz L2 pb1 pb2 fl fb K -> placed_ok C -> Bins m bl C -> p <= x < p + sz ->
  (forall c, c ∈ C <-> c ∈ outside L1 (p + sz) L2 \/ c = (x, s, Free)) -> is_bin i -> bl i = l1 ++ x :: l2 ->
  Lay (unlinked m x) tp brk L1 p sz L2 pb1 pb2 fl fb K /\ Bins (unlinked m x) (upd i (l1 ++ l2) bl) (outside L1 (p + sz) L2) /\
  forall w, p <= w <= p + sz + 4 -> rd (unlinked m x) w = rd m w.
Proof.
  intros HL HC HB Hx HE Hi El.
  assert (forall c, c ∈ outside L1 (p + sz) L2 <-> c ∈ C /\ c.1.1 <> x) as HE'.
  { intros [[y t] st]. rewrite HE. simpl. split.
    - intros Hy. split; [by left|]. pose proof (outside_range HL _ _ _ Hy). lia.
    - intros [[?|[= -> -> ->]] ?]; done. }
  destruct (bins_remove av_ heap heap_end m bl C (outside L1 (p + sz) L2) i l1 x l2 HC HB Hi El HE') as (NF & NB & HR).
  pose proof (lay_ok HL) as HG.
  assert (forall w, no_link (av_ := av_) (outside L1 (p + sz) L2) w -> rd (unlinked m x) w = rd m w) as HW.
  { intros w Hw. unfold unlinked. pose proof (Hw _ NF). pose proof (Hw _ NB). rewrite !rd_insert_ne by lia. done. }
  split_and!; [by apply (lay_links HL)| |].
  - apply HR. intros n Hn. unfold unlinked.
    destruct (node_spread av_ heap heap_end _ _ _ HG Hn NF), (node_spread av_ heap heap_end _ _ _ HG Hn NB), (node_spread av_ heap heap_end _ _ _ HG NF NB);
      split; rewrite !rd_insert; repeat case_decide; try done; lia.
  - intros w Hw. unfold unlinked. pose proof (node_place HL _ NF). pose proof (node_place HL _ NB). rd_solve.
Qed.

(** The hole becomes a free chunk after the chunks [l1] of bin [i]. *)
Lemma heap_link m tp brk L1 p sz L2 fl fb K bl i l1 l2 : Lay m tp brk L1 p sz L2 true false fl fb K -> Bins m bl (outside L1 (p + sz) L2) -> 16 <= sz ->
  is_bin i -> bl i = l1 ++ l2 -> (i <> 1 -> bin_index sz = i) ->
  let b := List.last l1 (bin_at i) in let f := rd m (b + 8) in
  node (outside L1 (p + sz) L2) b /\ node (outside L1 (p + sz) L2) f /\
  forall m', rd m' (p + 4) = sz + 1 -> rd m' (p + sz) = sz -> rd m' (p + 8) = f -> rd m' (p + 12) = b -> rd m' (b + 8) = p -> rd m' (f + 12) = p ->
    (forall w, w < p + 4 \/ p + sz < w -> w <> b + 8 -> w <> f + 12 -> rd m' w = rd m w) ->
    Heap m' tp brk (L1 ++ (sz, Free) :: L2) (upd i (l1 ++ p :: l2) bl) fl fb K.
Proof.
  intros HL HB Hsz Hi El Hidx b f. pose proof HL as [H1 H2 Hp [_ Hd] Ht _ _ _ _ Hf _ _]. pose proof (lay_ok HL) as HG.
  assert (forall c, c ∈ layout base (L1 ++ (sz, Free) :: L2) <-> c ∈ outside L1 (p + sz) L2 \/ c = (p, sz, Free)) as HE.
  { intros c. rewrite outside_mid. by rewrite <- Hp. }
  assert (placed_ok (layout base (L1 ++ (sz, Free) :: L2))) as HC.
  { rewrite <- (outside_nil _ (tp + 0)). apply (outside_ok (heap := heap) _ tp 0 []); [|done|rewrite span_app; simpl; lia|done|apply Z.divide_0_r].
    apply Forall_app. split; [done|]. by constructor. }
  assert (forall t, (p, t, Free) ∉ outside L1 (p + sz) L2) as Hnp.
  { intros t Hin. pose proof (outside_range HL _ _ _ Hin). lia. }
  destruct (bins_insert av_ heap heap_end m bl _ _ i l1 l2 p sz HC HB Hi El HE Hnp Hidx) as (NB & NF & HI). fold b in NB, NF, HI. fold f in NF, HI.
  split; [done|]. split; [done|]. intros m' E1 E2 E3 E4 E5 E6 HW.
  pose proof (node_place HL _ NB) as PB. pose proof (node_place HL _ NF) as PF.
  pose proof (node_spread av_ heap heap_end _ _ _ HG NB NF) as BF.
  split.
  - set (m1 := <[b + 8 := p]> (<[f + 12 := p]> m)).
    assert (Lay m1 tp brk L1 p sz L2 true false fl fb K) as HL1.
    { apply (lay_links HL). intros w Hw. pose proof (Hw _ NB). pose proof (Hw _ NF). unfold m1. rd_solve. }
    assert (Lay m' tp brk L1 p sz L2 true false fl fb K) as HL2.
    { apply (lay_inside HL1). intros w Hw. unfold m1. rewrite !rd_insert. repeat case_decide; subst; [done..|]. apply HW; [lia|congruence..]. }
    apply (lay_close _ _ _ _ _ _ Free _ _ _ _ _ _ _ HL2); [done|done|done|]. apply fasts_mid; [done|]. rewrite <- Hp. apply HL2.
  - apply HI. intros n [Hn|(t & Hn)].
    + assert (node (outside L1 (p + sz) L2) n) as Hn' by by left. pose proof (node_place HL _ Hn') as PN.
      pose proof (node_spread av_ heap heap_end _ _ _ HG Hn' NB). pose proof (node_spread av_ heap heap_end _ _ _ HG Hn' NF).
      split; repeat case_decide; subst; try done; try lia; apply HW; lia.
    + apply HE in Hn as [Hn|[= -> ->]]; [|by rewrite !decide_True].
      assert (node (outside L1 (p + sz) L2) n) as Hn' by (right; by exists t). pose proof (node_place HL _ Hn') as PN.
      pose proof (node_spread av_ heap heap_end _ _ _ HG Hn' NB). pose proof (node_spread av_ heap heap_end _ _ _ HG Hn' NF).
      pose proof (outside_range HL _ _ _ Hn).
      split; repeat case_decide; subst; try done; try lia; apply HW; lia.
Qed.

(** The hole becomes a block. *)
Lemma heap_use m m' tp brk L1 p sz L2 fl fb K bl : Lay m tp brk L1 p sz L2 true false fl fb K -> Bins m bl (outside L1 (p + sz) L2) -> 16 <= sz ->
  rd m (p + 4) = sz + 1 -> rd m' (p + sz + 4) = rd m (p + sz + 4) + 1 -> (forall w, w <> p + sz + 4 -> rd m' w = rd m w) ->
  Heap m' tp brk (L1 ++ (sz, Used) :: L2) bl fl fb ((p, sz) :: K).
Proof.
  intros HL HB Hsz E1 E2 HW. pose proof HL as [_ _ Hp _ _ _ T2 _ _ _ _ _].
  destruct L2 as [|[s2 st2] L3]; [done|]. destruct T2 as (T1 & T2 & _). simpl in T1.
  assert (Lay m' tp brk L1 p sz ((s2, st2) :: L3) true true fl fb K) as HL1.
  { apply (lay_tell m _ _ _ _ _ _ _ _ _ _ _ _ _ _ _ HL); [done| |done]. simpl. lia. }
  split.
  - apply (lay_close _ _ _ _ _ _ Used _ _ _ _ _ _ _ HL1); [done| |done|]. { rewrite HW by lia. done. }
    apply fasts_mid; [done|]. rewrite <- Hp. apply HL1.
  - apply (bins_ext av_ _ _ (outside L1 (p + sz) ((s2, st2) :: L3))).
    + intros x s. rewrite outside_mid, <- Hp. split; [by left|]. by intros [?|?].
    + apply (bins_inside HL); [done|]. intros w Hw. apply HW. lia.
Qed.
End Links.
