(* ===== verification/MallocFree.v ===== *)
(** * Freeing chunks

    The specifications of the macros, of the coalescing of a freed chunk with
    its neighbours, of malloc_consolidate and of fREe, in a consistent heap. *)

From S2P Require Import Prelude Malloc MallocLayout MallocInv MallocHole MallocLinks.

(** ** Steps *)

Lemma twp_load a Q s : Q (rd (words s) a) s -> twp (load a) Q s.
Proof. intros HQ. by exists (rd (words s) a), s. Qed.
Lemma twp_store a v (Q : unit -> arena -> Prop) s : Q tt (set_words (<[a := v]> (words s)) s) -> twp (store a v) Q s.
Proof. intros HQ. by exists tt, (set_words (<[a := v]> (words s)) s). Qed.
Lemma twp_unlink x (Q : unit -> arena -> Prop) s : Q tt (set_words (unlinked (words s) x) s) -> twp (unlink x) Q s.
Proof. intros HQ. by exists tt, (set_words (unlinked (words s) x) s). Qed.

Lemma set_words_twice m m' s : set_words m (set_words m' s) = set_words m s.
Proof. done. Qed.
Lemma set_words_same s : set_words (words s) s = s.
Proof. by destruct s. Qed.

Lemma twp_chunksize p z pb Q s : rd (words s) (p + 4) = z + Z.b2z pb -> (8 | z) -> 0 <= z < 2 ^ 32 -> Q z s -> twp (chunksize p) Q s.
Proof. intros E Hd Hz HQ. exists z, s. split; [|done]. unfold chunksize, bind, load, gets, ret, size. rewrite E. by destruct (size_bits z pb Hd Hz) as (-> & _). Qed.
Lemma twp_size_with_mmapped p z pb Q s : rd (words s) (p + 4) = z + Z.b2z pb -> (8 | z) -> 0 <= z < 2 ^ 32 -> Q z s -> twp (size_with_mmapped p) Q s.
Proof. intros E Hd Hz HQ. exists z, s. split; [|done]. unfold size_with_mmapped, bind, load, gets, ret, size. rewrite E. by destruct (size_bits z pb Hd Hz) as (_ & -> & _). Qed.
Lemma twp_prev_inuse p z pb Q s : rd (words s) (p + 4) = z + Z.b2z pb -> (8 | z) -> 0 <= z < 2 ^ 32 -> Q pb s -> twp (prev_inuse p) Q s.
Proof.
  intros E Hd Hz HQ. exists pb, s. split; [|done]. unfold prev_inuse, bind, load, gets, ret, size. rewrite E.
  destruct (size_bits z pb Hd Hz) as (_ & _ & E1 & _). unfold PREV_INUSE. rewrite E1. by destruct pb.
Qed.
Lemma twp_not_mmapped p z pb Q s : rd (words s) (p + 4) = z + Z.b2z pb -> (8 | z) -> 0 <= z < 2 ^ 32 -> Q false s -> twp (chunk_is_mmapped p) Q s.
Proof.
  intros E Hd Hz HQ. exists false, s. split; [|done]. unfold chunk_is_mmapped, IS_MMAPPED, bind, load, gets, ret, size. rewrite E.
  by destruct (size_bits z pb Hd Hz) as (_ & _ & _ & -> & _).
Qed.

Lemma twp_for_each {A} (l : list A) body (I : list A -> arena -> Prop) (Q : unit -> arena -> Prop) s :
  I l s -> (forall x l' s', I (x :: l') s' -> twp (body x) (fun _ => I l') s') -> (forall s', I [] s' -> Q tt s') -> twp (for_each l body) Q s.
Proof.
  intros HI Hstep Hend. revert s HI. induction l as [|x l IH]; intros s HI; simpl; [apply twp_ret; auto|].
  apply twp_bind. eapply twp_mono; [by apply Hstep|]. intros ? s' HI'. by apply IH.
Qed.

Ltac step :=
  match goal with
  | |- twp (bind _ _) _ _ => apply twp_bind
  | |- twp (ret _) _ _ => apply twp_ret
  | |- twp (load _) _ _ => apply twp_load
  | |- twp (store _ _) _ _ => apply twp_store
  | |- twp (set_head _ _) _ _ => apply twp_store
  | |- twp (set_foot _ _) _ _ => apply twp_store
  | |- twp (unlink _) _ _ => apply twp_unlink
  | |- twp (gets _) _ _ => apply twp_gets
  | |- twp (modify _) _ _ => apply twp_modify
  | |- twp clear_fastchunks _ _ => apply twp_modify
  | |- twp set_fastchunks _ _ => apply twp_modify
  | |- twp set_anychunks _ _ => apply twp_modify
  | |- twp (mark_bin _) _ _ => apply twp_modify
  end; cbn beta; rewrite ?set_words_twice.
Ltac steps := repeat step.

Section Free.
Context {av_ heap heap_end : Z} {HP : HeapPlace av_ heap heap_end} {B0 : list (Z * Z)} {m0 : gmap Z Z}.
Abbreviation bin_at := (bin_at av_).
Abbreviation Bins := (Bins av_).
Abbreviation node := (node av_).
Abbreviation base := (base heap).
Abbreviation placed_ok := (placed_ok heap).
Abbreviation outside := (@outside heap).
Abbreviation Lay := (@Lay heap heap_end B0 m0).
Abbreviation Heap := (@Heap av_ heap heap_end B0 m0).

Lemma base_small : 888 <= base /\ heap_end < 2 ^ 31.
Proof. destruct HP. pose proof (base_range heap). lia. Qed.

(** ** Coalescing *)

Lemma twp_merge_back s L1 p sz L2 pb1 pb2 fl fb K bl Q :
  Lay (words s) (top s) (curbrk s) L1 p sz L2 pb1 pb2 fl fb K -> Bins (words s) bl (outside L1 (p + sz) L2) ->
  rd (words s) (p + 4) = sz + Z.b2z pb1 -> 0 < sz ->
  (forall m' L1' p' sz' bl', Lay m' (top s) (curbrk s) L1' p' sz' L2 true pb2 fl fb K -> Bins m' bl' (outside L1' (p' + sz') L2) ->
     p' + sz' = p + sz -> sz <= sz' -> Q (p', sz') (set_words m' s)) ->
  twp (merge_back p sz) Q s.
Proof.
  intros HL HB E Hsz HQ. pose proof base_small. pose proof (lay_range HL). pose proof HL as [_ _ Hp [_ Hd] _ T1 _ _ _ _ _ _].
  unfold merge_back. steps. apply (twp_prev_inuse _ sz pb1); [done|done|lia|]. destruct pb1; cbn [negb]; steps.
  - rewrite <- (set_words_same s). by eapply HQ.
  - destruct (tags_last_free _ _ _ _ T1) as (L0 & s0 & -> & _ & _); [done|].
    destruct (lay_absorb_prev _ _ _ _ _ _ _ _ _ _ _ _ _ HL) as (_ & E0 & Hs0 & HL'). pose proof (lay_range HL').
    change (prev_size p) with p. rewrite E0. rewrite at_offset by lia. replace (p + - s0) with (p - s0) by lia.
    destruct (bins_find _ _ _ (p - s0) s0 HB) as (i & l1 & l2 & Hi & El).
    { apply elem_of_app. left. rewrite layout_app. apply elem_of_app. right. simpl. rewrite span_app in Hp. simpl in Hp.
      replace (base + span L0) with (p - s0) by lia. by left. }
    destruct (lay_unlink _ _ _ _ _ _ _ _ _ _ _ _ _ _ (p - s0) s0 i l1 l2 HL' (lay_ok HL) HB) as (HL2 & HB2 & _); [lia| |done|done|].
    { intros c. unfold MallocHole.outside. rewrite layout_app, !elem_of_app. simpl. rewrite list_elem_of_singleton. rewrite span_app in Hp. simpl in Hp.
      replace (base + span L0) with (p - s0) by lia. replace (p - s0 + (s0 + sz)) with (p + sz) by lia. naive_solver. }
    rewrite uwrap_small by lia. rewrite (Z.add_comm sz). eapply HQ; [done|done|lia|lia].
Qed.

(** The size word after a hole. *)
Lemma next_head m tp brk L1 p sz L2 pb1 pb2 fl fb K : Lay m tp brk L1 p sz L2 pb1 pb2 fl fb K ->
  exists z, rd m (p + sz + 4) = z + Z.b2z pb2 /\ (8 | z) /\ 16 <= z < 2 ^ 31 /\ p + sz + z <= brk /\
    match L2 with [] => pb2 = true /\ p + sz = tp /\ z = brk - tp | (s2, _) :: _ => z = s2 /\ p + sz + s2 <= tp end.
Proof.
  intros HL. pose proof base_small. pose proof (lay_range HL). pose proof HL as [_ H2 _ _ Ht _ T2 Hh Hr _ _ _]. destruct L2 as [|[s2 st2] L3].
  - exists (brk - tp). simpl in Ht, T2. rewrite T2. replace (p + sz) with tp by lia. split; [done|]. split; [apply Hr|]. lia.
  - exists s2. destruct T2 as [T2 _]. simpl in Ht. pose proof (Forall_inv H2) as [Hs Hd]. pose proof (span_nonneg _ (Forall_inv_tail H2)). simpl in *.
    split; [done|]. split; [done|]. lia.
Qed.

(** What the chunk after the next one is told. *)
Lemma next_next m tp brk L1 p sz s2 st2 L3 pb1 pb2 fl fb K : Lay m tp brk L1 p sz ((s2, st2) :: L3) pb1 pb2 fl fb K ->
  exists z, rd m (p + sz + s2 + 4) = z + Z.b2z (counts_used st2) /\ (8 | z) /\ 0 <= z < 2 ^ 32.
Proof.
  intros HL. pose proof base_small. pose proof (lay_range HL). pose proof HL as [_ H2 _ _ Ht _ T2 Hh Hr _ _ _]. destruct T2 as (_ & _ & T2). destruct L3 as [|[s3 st3] L3].
  - simpl in T2, Ht. exists (brk - tp). rewrite T2. replace (p + sz + s2) with tp by lia. split; [done|]. split; [apply Hr|lia].
  - destruct T2 as [T2 _]. exists s3. pose proof (Forall_inv H2) as [? _]. pose proof (Forall_inv (Forall_inv_tail H2)) as [? ?].
    pose proof (span_nonneg _ (Forall_inv_tail (Forall_inv_tail H2))). simpl in *. split; [done|]. split; [done|lia].
Qed.

(** The hole takes in the free chunk after it, whose size may have changed. *)
Lemma lay_take_next m m1 tp brk L1 p sz s2 L3 pb1 pb2 fl fb K bl : Lay m tp brk L1 p sz ((s2, Free) :: L3) pb1 pb2 fl fb K ->
  Bins m bl (outside L1 (p + sz) ((s2, Free) :: L3)) -> 0 < sz -> (forall w, w <> p + sz + 4 -> rd m1 w = rd m w) ->
  exists bl', Lay (unlinked m1 (p + sz)) tp brk L1 p (sz + s2) L3 pb1 false fl fb K /\ Bins (unlinked m1 (p + sz)) bl' (outside L1 (p + (sz + s2)) L3) /\
    forall w, p <= w <= p + (sz + s2) + 4 -> rd (unlinked m1 (p + sz)) w = rd m1 w.
Proof.
  intros HL HB Hsz HW. destruct (lay_absorb_next _ _ _ _ _ _ _ _ _ _ _ _ _ HL) as (_ & _ & Hs2 & HL').
  assert (Lay m1 tp brk L1 p (sz + s2) L3 pb1 false fl fb K) as HL1 by (apply (lay_inside HL'); intros w Hw; apply HW; lia).
  assert (Bins m1 bl (outside L1 (p + sz) ((s2, Free) :: L3))) as HB1 by (apply (bins_inside HL); [done|]; intros w Hw; apply HW; lia).
  destruct (bins_find _ _ _ (p + sz) s2 HB1) as (i & l1 & l2 & Hi & El); [apply elem_of_app; right; simpl; by left|].
  exists (upd i (l1 ++ l2) bl). apply (lay_unlink _ _ _ _ _ _ _ _ _ _ _ _ _ _ (p + sz) s2 i l1 l2 HL1 (lay_ok HL) HB1); [lia| |done|done].
  intros c. unfold MallocHole.outside. simpl. rewrite !elem_of_app, elem_of_cons. rewrite Z.add_assoc. naive_solver.
Qed.

Lemma twp_merge_next s L1 p sz s2 st2 L3 fl fb K bl Q :
  Lay (words s) (top s) (curbrk s) L1 p sz ((s2, st2) :: L3) true true fl fb K -> Bins (words s) bl (outside L1 (p + sz) ((s2, st2) :: L3)) -> 0 < sz ->
  (forall m' sz' L2' bl', Lay m' (top s) (curbrk s) L1 p sz' L2' true false fl fb K -> Bins m' bl' (outside L1 (p + sz') L2') ->
     sz <= sz' -> Q sz' (set_words m' s)) ->
  twp (merge_next (p + sz) s2 sz) Q s.
Proof.
  intros HL HB Hsz HQ. pose proof base_small. pose proof (lay_range HL). destruct (next_head _ _ _ _ _ _ _ _ _ _ _ _ HL) as (z & E & Hd & Hz & _ & -> & Hle).
  destruct (next_next _ _ _ _ _ _ _ _ _ _ _ _ _ _ HL) as (z' & E' & Hd' & Hz'). unfold merge_next. steps. unfold inuse_bit_at_offset. rewrite at_offset by lia.
  apply (twp_prev_inuse _ z' (counts_used st2)); [done..|]. steps. unfold size.
  set (m1 := <[p + sz + 4 := s2]> (words s)). assert (forall w, w <> p + sz + 4 -> rd m1 w = rd (words s) w) as HW by (intros; unfold m1; by rewrite rd_insert_ne).
  destruct st2; cbn [counts_used negb].
  1,2: steps; (eapply HQ; [| |lia]); [apply (lay_tell _ m1 _ _ _ _ _ _ _ _ _ _ _ _ _ _ HL); [done|unfold m1; rewrite rd_insert_eq; simpl; lia|done]|
    apply (bins_inside HL); [done|]; intros w Hw; apply HW; lia].
  destruct (lay_take_next _ m1 _ _ _ _ _ _ _ _ _ _ _ _ _ HL HB Hsz HW) as (bl' & HL2 & HB2 & _). steps. rewrite uwrap_small by lia. eapply HQ; [done|done|lia].
Qed.

(** A hole before the top joins it. *)
Lemma heap_top m m' tp brk L1 p sz pb fl fb K bl : Lay m tp brk L1 p sz [] true pb fl fb K -> Bins m bl (outside L1 (p + sz) []) ->
  rd m' (p + 4) = brk - p + 1 -> (forall w, w < p + 4 -> rd m' w = rd m w) -> Heap m' p brk L1 bl fl fb K.
Proof.
  intros HL HB E HW. pose proof (lay_range HL). pose proof (lay_divide HL) as (Hd & _ & Ht). pose proof HL as [_ _ _ _ _ _ _ _ (_ & Hr & _) _ _ _].
  split.
  - replace 0 with (p - p) by lia. apply (lay_move_top m m' tp brk p brk L1 p sz true pb fl fb K HL); try done; try lia.
    replace (brk - p) with (brk - tp + (tp - p)) by lia. apply Z.divide_add_r; [done|by apply Z.divide_sub_r].
  - rewrite outside_nil in HB. apply (bins_frame av_ m); [|done]. intros n Hn.
    destruct (node_place HL n) as (_ & _ & ? & _); [by rewrite outside_nil|]. assert (p + sz = tp) as Etp by (destruct HL; simpl in *; lia).
    destruct (node_place HL n) as (_ & ? & _ & _); [by rewrite outside_nil|]. split; apply HW; lia.
Qed.

(** A hole becomes the first unsorted chunk. *)
Lemma heap_unsorted m tp brk L1 p sz L2 fl fb K bl : Lay m tp brk L1 p sz L2 true false fl fb K -> Bins m bl (outside L1 (p + sz) L2) -> 16 <= sz ->
  let b := bin_at 1 in let f := rd m (b + 8) in
  (b + 16 <= p /\ (f + 16 <= p \/ p + sz <= f) /\ (b = f \/ b + 8 <= f \/ f + 8 <= b)) /\
  forall m', rd m' (p + 4) = sz + 1 -> rd m' (p + sz) = sz -> rd m' (p + 8) = f -> rd m' (p + 12) = b -> rd m' (b + 8) = p -> rd m' (f + 12) = p ->
    (forall w, w < p + 4 \/ p + sz < w -> w <> b + 8 -> w <> f + 12 -> rd m' w = rd m w) ->
    Heap m' tp brk (L1 ++ (sz, Free) :: L2) (upd 1 (p :: bl 1) bl) fl fb K.
Proof.
  intros HL HB Hsz b f. destruct (heap_link m tp brk L1 p sz L2 fl fb K bl 1 [] (bl 1) HL HB Hsz) as (NB & NF & HH); [unfold is_bin; lia|done|done|].
  pose proof (lay_ok HL) as HG. pose proof (node_spread av_ heap heap_end _ _ _ HG NB NF) as HS.
  pose proof (node_place HL _ NF) as PF. pose proof (bin_range av_ heap heap_end 1 ltac:(unfold is_bin; lia)). pose proof (base_range heap). pose proof (lay_range HL).
  split; [|exact HH]. change (List.last [] (bin_at 1)) with b in HS, PF. fold f in HS, PF. clear HH. subst b. lia.
Qed.

(** ** malloc_consolidate *)

Lemma twp_consolidate_chunk s L1 p sz L2 pb1 fl fb K bl Q :
  Lay (words s) (top s) (curbrk s) L1 p sz L2 pb1 true fl fb K -> Bins (words s) bl (outside L1 (p + sz) L2) ->
  rd (words s) (p + 4) = sz + Z.b2z pb1 -> 16 <= sz ->
  (forall m' t' L' bl', Heap m' t' (curbrk s) L' bl' fl fb K -> Q tt (set_top t' (set_words m' s))) ->
  twp (consolidate_chunk av_ p) Q s.
Proof.
  intros HL HB E Hsz HQ. pose proof base_small. pose proof (lay_range HL). pose proof HL as [_ _ _ [_ Hd] _ _ _ _ _ _ _ _].
  destruct (next_head _ _ _ _ _ _ _ _ _ _ _ _ HL) as (z & Ez & Hdz & Hz & Hzb & Hnext).
  unfold consolidate_chunk. steps. apply (twp_size_with_mmapped _ sz pb1); [done|done|lia|]. steps. rewrite at_offset by lia.
  apply (twp_chunksize _ z true); [done|done|lia|]. steps.
  apply (twp_merge_back s L1 p sz L2 pb1 true fl fb K bl); [done|done|done|lia|].
  intros m1 L1' p' sz' bl1 HL1 HB1 Ep Hsz'. cbn beta iota. steps. cbn [top set_words]. pose proof (lay_range HL1).
  replace (p + sz) with (p' + sz') by lia.
  destruct L2 as [|[s2 st2] L3].
  - destruct Hnext as (_ & Et & ->). rewrite (proj2 (Z.eqb_eq _ _)) by lia. cbn [negb]. steps. cbn [words set_words].
    rewrite uwrap_small by lia. pose proof HL1 as [_ _ _ [_ Hd1] _ _ _ _ (_ & Hr & _) _ _ _].
    unfold PREV_INUSE. rewrite lor_size by (try lia; by apply Z.divide_add_r). eapply HQ, (heap_top m1); [done|done| |].
    + unfold size. rewrite rd_insert_eq. lia.
    + intros w Hw. unfold size. rd_solve.
  - destruct Hnext as (-> & Hle). rewrite (proj2 (Z.eqb_neq _ _)) by lia. cbn [negb]. steps.
    apply (twp_merge_next (set_words m1 s) L1' p' sz' s2 st2 L3 fl fb K bl1); [done|done|lia|].
    intros m2 sz2 L2' bl2 HL2 HB2 Hsz2. rewrite set_words_twice. steps. cbn [words set_words]. pose proof (lay_range HL2). pose proof HL2 as [_ _ _ [_ Hd2] _ _ _ _ _ _ _ _].
    cbn [curbrk top set_words] in *. destruct (heap_unsorted _ _ _ _ _ _ _ _ _ _ _ HL2 HB2) as [(P1 & P2 & P3) HH]; [lia|].
    rewrite at_offset by lia. unfold PREV_INUSE, size, fd, bk, prev_size, unsorted_chunks.
    set (b := bin_at 1) in *. set (f := rd m2 (b + 8)) in *.
    rewrite lor_size by (done || lia). match goal with |- Q _ (set_words ?M _) => eapply (HQ M (top s)), HH end; intros; rd_solve.
Qed.

(** The first chunk of a fastbin, opened. *)
Lemma fast_open m tp brk L bl fl fb K i x : Heap m tp brk L bl fl fb K -> is_fastbin i -> nth (Z.to_nat i) fb 0 = x -> x <> 0 ->
  exists z l L1 L2 pb, fl i = x :: l /\ Lay m tp brk L1 x z L2 pb true (upd i l fl) (<[Z.to_nat i := rd m (x + 8)]> fb) K /\
    Bins m bl (outside L1 (x + z) L2) /\ rd m (x + 4) = z + Z.b2z pb /\ 16 <= z /\ fastbin_index z = i /\ L = L1 ++ (z, Fast) :: L2 /\ x = base + span L1.
Proof.
  intros [HL HB] Hi Hx H0. pose proof HL as [Hok _ _ _ _ _ _ _ _ Hf _ HD]. rewrite outside_nil in Hf.
  assert (x ∈ fl i) as Hin.
  { pose proof (fs_list _ _ _ _ Hf i Hi) as HF. rewrite Hx in HF. destruct (fl i) as [|y l]; simpl in HF; [congruence|]. destruct HF as (-> & _). by left. }
  destruct (fs_fast _ _ _ _ Hf i x Hi Hin) as (z & Hz & Hidx). destruct (layout_split _ _ _ _ _ Hz) as (L1 & L2 & -> & Ex).
  destruct (fasts_pop m fb fl _ (outside L1 (x + z) L2) i x Hi Hf Hx H0) as (_ & l & _ & _ & El & Hf').
  { intros c. rewrite Ex. by apply outside_start. }
  rewrite Ex in Hf'. destruct (lay_open _ _ _ _ _ _ _ _ _ _ _ K K HL Hf') as (pb & HL' & E & Hz16 & _); [done|intros b Hb; by apply HD|].
  exists z, l, L1, L2, pb. rewrite <- Ex in HL', E. split_and!; try done. apply (bins_ext av_ _ _ (layout base (L1 ++ (z, Fast) :: L2))); [|done].
  intros y t. rewrite outside_mid, <- Ex. split; [by intros [?|?]|by left].
Qed.

Lemma twp_consolidate_list fuel i s p L bl fl fb K Q : is_fastbin i -> Heap (words s) (top s) (curbrk s) L bl fl fb K ->
  nth (Z.to_nat i) fb 0 = p -> p <> 0 -> (length (fl i) <= fuel)%nat ->
  (forall m' t' L' bl' fl', Heap m' t' (curbrk s) L' bl' fl' (<[Z.to_nat i := 0]> fb) K -> fl' i = [] -> (forall j, j <> i -> fl' j = fl j) ->
     Q tt (set_top t' (set_words m' s))) ->
  twp (consolidate_list av_ fuel p) Q s.
Proof.
  intros Hi. revert s p L bl fl fb. induction fuel as [|fuel IH]; intros s p L bl fl fb HH Hp H0 Hlen HQ.
  all: destruct (fast_open _ _ _ _ _ _ _ _ i p HH Hi Hp H0) as (z & l & L1 & L2 & pb & El & HL & HB & E & Hz & _); rewrite El in Hlen; simpl in Hlen.
  { lia. }
  simpl consolidate_list. steps. set (nextp := rd (words s) (fd p)).
  apply (twp_consolidate_chunk s L1 p z L2 pb (upd i l fl) (<[Z.to_nat i := nextp]> fb) K bl); [done..|].
  intros m' t' L' bl' HH'. destruct (Z.eqb_spec nextp 0) as [E0|E0]; cbn [negb].
  - steps. assert (l = []) as ->.
    { pose proof (fs_list _ _ _ _ (h_fasts _ _ _ _ _ _ _ _ _ _ _ _ (proj1 HH)) i Hi) as HF. rewrite El in HF. destruct HF as (_ & _ & HF).
      change (rd (words s) (p + 8)) with nextp in HF. rewrite E0 in HF. destruct l as [|y l]; [done|]. simpl in HF. by destruct HF as (<- & ? & _). }
    rewrite E0 in HH'. eapply HQ; [done|apply upd_eq|]. intros j Hj. by apply upd_ne.
  - set (s1 := set_top t' (set_words m' s)). assert (Z.to_nat i < length fb)%nat as Hlt.
    { pose proof (fs_length _ _ _ _ (h_fasts _ _ _ _ _ _ _ _ _ _ _ _ (proj1 HH))). unfold is_fastbin in Hi. lia. }
    apply (IH s1 nextp L' bl' (upd i l fl) (<[Z.to_nat i := nextp]> fb)); [done|by rewrite nth_lookup, list_lookup_insert_eq|done|rewrite upd_eq; lia|].
    intros m2 t2 L2' bl2 fl2 HH2 E1 E2. rewrite list_insert_insert_eq in HH2. apply (HQ m2 t2 L2' bl2 fl2); [done..|].
    intros j Hj. rewrite E2, upd_ne by done. done.
Qed.

(** Lists of different chunks are not longer than the heap has chunks, nor than
    the fuel of the loops. *)
Lemma list_count l L : NoDup l -> (forall x, x ∈ l -> exists z st, (x, z, st) ∈ layout base L) -> (length l <= length L)%nat.
Proof.
  intros HN Hin. rewrite <- (layout_length base L), <- (length_fmap (fun c : placed => c.1.1)). apply submseteq_length, NoDup_submseteq; [done|].
  intros x Hx. destruct (Hin x Hx) as (z & st & Hz). apply list_elem_of_fmap. by exists (x, z, st).
Qed.

Lemma fuel_enough m tp brk L bl fl fb K (l : list Z) : Heap m tp brk L bl fl fb K -> (length l <= length L)%nat -> (length l + 2 <= S (Z.to_nat ((brk - heap) / MINSIZE)))%nat.
Proof.
  intros [HL _] Hlen. pose proof (lay_range HL). pose proof HL as [Hok _ Hp _ _ _ _ _ _ _ _ _]. pose proof (span_length L Hok). pose proof (base_range heap).
  change MINSIZE with 16. assert (Z.of_nat (length l) + 1 <= (brk - heap) / 16) by (apply Z.div_le_lower_bound; lia). lia.
Qed.

(** ** The parameters *)

Definition map_ok (s : arena) : Prop := length (binmap s) = 4%nat /\ map_word 3 s = 0 /\ forall i, 0 <= i < 3 -> 0 <= map_word i s < 2 ^ 32.

Record Par (s : arena) : Prop := {
  p_fast : 72 <= max_fast s < 76;
  p_page : pagesize s = 4096;
  p_pad : top_pad (tuned s) = 0;
  p_contiguous : contiguous s = true;
  p_map : map_ok s
}.

(** The allocator once it has memory. *)
Definition Run (s : arena) (K : list (Z * Z)) : Prop := exists L bl fl, Heap (words s) (top s) (curbrk s) L bl fl (fastbins s) K /\ Par s.

Lemma max_fast_flags s : 72 <= max_fast s < 76 ->
  72 <= Z.lor (max_fast s) ANYCHUNKS_BIT < 76 /\ 72 <= Z.lor (max_fast s) (Z.lor FASTCHUNKS_BIT ANYCHUNKS_BIT) < 76 /\
  72 <= Z.land (max_fast s) (Z.lnot FASTCHUNKS_BIT) < 76 /\ Z.land (Z.land (max_fast s) (Z.lnot FASTCHUNKS_BIT)) FASTCHUNKS_BIT = 0 /\
  fastbin_index (max_fast s) = 7.
Proof.
  intros H. assert (max_fast s = 72 \/ max_fast s = 73 \/ max_fast s = 74 \/ max_fast s = 75) as HE by lia. by destruct HE as [-> |[-> |[-> | ->]]].
Qed.

Lemma twp_consolidate_fastbin i s L bl fl K Q : is_fastbin i -> Heap (words s) (top s) (curbrk s) L bl fl (fastbins s) K ->
  (forall m' t' fb' L' bl' fl', Heap m' t' (curbrk s) L' bl' fl' fb' K -> fl' i = [] -> (forall j, j <> i -> fl' j = fl j) ->
     Q tt (set_top t' (set_words m' (set_fastbins fb' s)))) ->
  twp (consolidate_fastbin av_ heap i) Q s.
Proof.
  intros Hi HH HQ. unfold consolidate_fastbin. steps. unfold fastbin at 1. pose proof (fs_list _ _ _ _ (h_fasts _ _ _ _ _ _ _ _ _ _ _ _ (proj1 HH)) i Hi) as HF.
  destruct (Z.eqb_spec (nth (Z.to_nat i) (fastbins s) 0) 0) as [E|E]; cbn [negb]; steps.
  - assert (s = set_top (top s) (set_words (words s) (set_fastbins (fastbins s) s))) as Es by by destruct s. rewrite Es. eapply HQ; [done| |done].
    rewrite E in HF. destruct (fl i) as [|y l]; [done|]. by destruct HF as (<- & ? & _).
  - unfold chunk_limit. steps. unfold fastbin. apply (twp_consolidate_list _ i (set_fastbin i 0 s) _ L bl fl (fastbins s) K); [done..| |].
    + cbn [curbrk set_fastbin set_fastbins]. pose proof (h_fasts _ _ _ _ _ _ _ _ _ _ _ _ (proj1 HH)) as Hf.
      rewrite outside_nil in Hf. cut (length (fl i) <= length L)%nat; [intros Hl; pose proof (fuel_enough _ _ _ _ _ _ _ _ (fl i) HH Hl); lia|].
      apply list_count; [by apply (fs_nodup _ _ _ _ Hf)|]. intros x Hx. destruct (fs_fast _ _ _ _ Hf i x Hi Hx) as (z & Hz & _). by exists z, Fast.
    + intros m' t' L' bl' fl' HH' E1 E2. by eapply (HQ m' t' (<[Z.to_nat i := 0]> (fastbins s))).
Qed.

Lemma twp_malloc_consolidate s K : Run s K ->
  twp (malloc_consolidate av_ heap) (fun _ s' => Run s' K /\ have_fastchunks s' = false /\ curbrk s' = curbrk s /\ forall i, is_fastbin i -> fastbin i s' = 0) s.
Proof.
  intros (L & bl & fl & HH & HPar). pose proof HPar as [Hmf Hpg Hpad Hc Hmap]. pose proof (max_fast_flags s Hmf) as (_ & _ & Hcl & Hno & _).
  unfold malloc_consolidate. steps. rewrite (proj2 (Z.eqb_neq _ _)) by lia. cbn [negb]. steps.
  set (s1 := put_max_fast (Z.land (max_fast s) (Z.lnot FASTCHUNKS_BIT)) s).
  pose proof (max_fast_flags s1 Hcl) as (_ & _ & _ & _ & Ei). rewrite Ei. change (7 + 1) with 8.
  apply (twp_for_each _ _ (fun l s' => exists k L bl fl, l = seqZ k (8 - k) /\ 0 <= k <= 8 /\ Heap (words s') (top s') (curbrk s') L bl fl (fastbins s') K /\
    Par s' /\ have_fastchunks s' = false /\ curbrk s' = curbrk s /\ forall i, 0 <= i < k -> fl i = [])).
  - exists 0, L, bl, fl. split_and!; try done; [change (negb (Z.land (Z.land (max_fast s) (Z.lnot FASTCHUNKS_BIT)) FASTCHUNKS_BIT =? 0) = false); by rewrite Hno|lia].
  - intros i l s' (k & L' & bl' & fl' & El & Hk & HH' & HPar' & Hno' & Hbrk & Hempty).
    destruct (decide (k = 8)) as [-> |Hne]; [done|]. rewrite seqZ_cons in El by lia. injection El as -> ->.
    apply (twp_consolidate_fastbin k s' L' bl' fl' K); [unfold is_fastbin; lia|done|]. intros m' t' fb' L2 bl2 fl2 HH2 E1 E2.
    exists (Z.succ k), L2, bl2, fl2. split_and!; try done; [f_equal; lia|lia..| |].
    + by destruct HPar'.
    + intros i Hi. destruct (decide (i = k)) as [-> |]; [done|]. rewrite E2 by done. apply Hempty. lia.
  - intros s' (k & L' & bl' & fl' & El & Hk & HH' & HPar' & Hno' & Hbrk & Hempty).
    assert (k = 8) as -> by (destruct (decide (k = 8)); [done|]; rewrite seqZ_cons in El by lia; done).
    split_and!; [by exists L', bl', fl'|done|done|]. intros i Hi. pose proof (fs_list _ _ _ _ (h_fasts _ _ _ _ _ _ _ _ _ _ _ _ (proj1 HH')) i Hi) as HF.
    rewrite Hempty in HF by done. done.
Qed.

(** ** sYSTRIm *)

Lemma top_head m tp brk L bl fl fb K : Heap m tp brk L bl fl fb K ->
  rd m (tp + 4) = brk - tp + Z.b2z true /\ (8 | brk - tp) /\ 16 <= brk - tp /\ base <= tp /\ brk <= heap_end /\ heap_end < 2 ^ 31 /\ 0 < tp.
Proof. intros [HL _]. pose proof (lay_range HL). pose proof base_small. destruct HL as [_ _ _ _ _ _ _ Hh (? & ? & ?) _ _ _]. split_and!; try done; lia. Qed.

Lemma twp_brk0 Q s : 0 <= curbrk s <= heap_end -> heap_end < 2 ^ 31 -> Q (curbrk s) s -> twp (MORECORE heap_end 0) Q s.
Proof.
  intros Hb He HQ. exists (curbrk s), s. split; [|done]. unfold MORECORE, Runtime.sbrk. rewrite Z.add_0_r, uwrap_small by lia.
  rewrite (proj2 (Z.ltb_ge _ _)), (proj2 (Z.ltb_ge _ _)) by lia. simpl. by destruct s.
Qed.

Lemma twp_brk_minus d (Q : Z -> arena -> Prop) s : 0 <= curbrk s <= heap_end -> heap_end < 2 ^ 31 -> 0 < d < 2 ^ 31 -> Q (u32 (-1)) s -> twp (MORECORE heap_end (- d)) Q s.
Proof.
  intros Hb He Hd HQ. exists (u32 (-1)), s. split; [|done]. unfold MORECORE, Runtime.sbrk.
  replace ((u32 (curbrk s + - d) <? curbrk s) || (heap_end <? u32 (curbrk s + - d))) with true; [by destruct s|]. symmetry. apply orb_true_iff.
  destruct (Z.le_gt_cases d (curbrk s)).
  - left. apply Z.ltb_lt. rewrite uwrap_small by lia. lia.
  - right. apply Z.ltb_lt. replace (u32 (curbrk s + - d)) with (2 ^ 32 + (curbrk s - d)); [lia|]. symmetry. unfold uwrap.
    rewrite <- (Z.mod_add _ 1) by done. rewrite Z.mod_small by lia. lia.
Qed.

(** sbrk refuses to move back: nothing is ever given back. *)
Lemma twp_sYSTRIm pad s K : Run s K -> twp (sYSTRIm heap_end pad) (fun r s' => r = 0 /\ s' = s) s.
Proof.
  intros (L & bl & fl & HH & HPar). destruct (top_head _ _ _ _ _ _ _ _ HH) as (Eh & Hd & Hr & Ht & Hb & He & H0). pose proof base_small.
  unfold sYSTRIm. steps. apply (twp_chunksize _ (curbrk s - top s) true); [done|done|lia|].
  set (extra := s32 _). destruct (Z.ltb_spec 0 extra) as [Hx|Hx]; steps; [|done].
  assert (extra < 2 ^ 31) as Hx' by (pose proof (swrap_range 32 (u32 (u32 (curbrk s - top s - pad - MINSIZE + (pagesize s - 1)) / pagesize s - 1) * pagesize s)); unfold extra; lia).
  apply twp_brk0; [lia|done|]. case_match; steps; [|done]. apply twp_brk_minus; [lia|done|lia|]. steps.
  apply twp_brk0; [lia|done|]. rewrite Z.sub_diag. change (negb (s32 0 =? 0)) with false. case_match; steps; done.
Qed.

(** ** fREe *)

(** The chunk of a block, opened. *)
Lemma block_open m tp brk L bl fl fb p n K : Heap m tp brk L bl fl fb ((p, n) :: K) -> (forall b, b ∈ B0 -> b ∈ K) ->
  exists L1 L2 pb, Lay m tp brk L1 p n L2 pb true fl fb K /\ Bins m bl (outside L1 (p + n) L2) /\ rd m (p + 4) = n + Z.b2z pb /\ 16 <= n /\
    L = L1 ++ (n, Used) :: L2 /\ p = base + span L1.
Proof.
  intros [HL HB] HB0. pose proof (lay_block HL (p, n)) as Hin. rewrite outside_nil in Hin. destruct (layout_split _ _ _ _ _ (Hin ltac:(by left))) as (L1 & L2 & -> & Ep).
  simpl in Ep. pose proof HL as [_ _ _ _ _ _ _ _ _ Hf _ _]. rewrite outside_nil in Hf. apply (fasts_mid m fb fl L1 n Used L2) in Hf; [|done].
  destruct (lay_open _ _ _ _ _ _ _ _ _ _ _ _ K HL Hf) as (pb & HL' & E & Hn & _); [by rewrite Ep|done|]. rewrite <- Ep in HL', E.
  exists L1, L2, pb. split_and!; try done. apply (bins_ext av_ _ _ (layout base (L1 ++ (n, Used) :: L2))); [|done].
  intros y t. rewrite outside_mid, <- Ep. split; [by intros [?|?]|by left].
Qed.

(** A hole becomes a chunk of a fastbin. *)
Lemma heap_push m tp brk L1 p sz L2 pb fl fb K bl : Lay m tp brk L1 p sz L2 pb true fl fb K -> Bins m bl (outside L1 (p + sz) L2) -> 16 <= sz <= 72 ->
  rd m (p + 4) = sz + Z.b2z pb -> let i := fastbin_index sz in
  Heap (<[p + 8 := nth (Z.to_nat i) fb 0]> m) tp brk (L1 ++ (sz, Fast) :: L2) bl (upd i (p :: fl i) fl) (<[Z.to_nat i := p]> fb) K.
Proof.
  intros HL HB Hsz E i. pose proof (lay_range HL). pose proof base_small. pose proof HL as [_ _ Hp [_ Hd] _ _ _ _ _ Hf _ _].
  assert (is_fastbin i) as Hi.
  { unfold is_fastbin, i, fastbin_index. rewrite Z.shiftr_div_pow2 by done. change (2 ^ 3) with 8. destruct Hd as [k ->]. rewrite Z.div_mul by done. lia. }
  set (m' := <[p + 8 := nth (Z.to_nat i) fb 0]> m). assert (forall w, w < p + 4 \/ p + sz < w -> rd m' w = rd m w) as HW by (intros; unfold m'; rd_solve).
  split.
  - apply (lay_close m' tp brk L1 p sz Fast L2 pb fl fb); [by apply (lay_inside HL)|lia| |done|].
    + unfold m'. rd_solve.
    + apply (fasts_push m fb fl (outside L1 (p + sz) L2) _ i p sz); [done|done| |lia|done|].
      * intros y t Hy. pose proof (outside_range HL _ _ _ Hy). lia.
      * intros c. rewrite outside_mid. by rewrite <- Hp.
  - apply (bins_ext av_ _ _ (outside L1 (p + sz) L2)); [|apply (bins_inside HL); [done|]; intros w Hw; apply HW; lia].
    intros y t. rewrite outside_mid, <- Hp. split; [by left|by intros [?|?]].
Qed.

Lemma run_words s m L bl fl K : Heap m (top s) (curbrk s) L bl fl (fastbins s) K -> Par s -> Run (set_words m s) K.
Proof. intros HH []. by exists L, bl, fl. Qed.
Lemma run_top s m t L bl fl K : Heap m t (curbrk s) L bl fl (fastbins s) K -> Par s -> Run (set_top t (set_words m s)) K.
Proof. intros HH []. by exists L, bl, fl. Qed.
Lemma par_flags s x : 72 <= x < 76 -> Par s -> Par (put_max_fast x s).
Proof. by intros ? []. Qed.

Lemma twp_fREe s p n K : Run s ((p, n) :: K) -> (forall b, b ∈ B0 -> b ∈ K) -> twp (fREe av_ heap heap_end (p + 8)) (fun _ s' => Run s' K) s.
Proof.
  intros (L & bl & fl & HH & HPar) HB0. destruct (block_open _ _ _ _ _ _ _ _ _ _ HH HB0) as (L1 & L2 & pb & HL & HB & E & Hn & _ & _).
  pose proof (lay_range HL). pose proof base_small. pose proof HL as [_ _ _ [_ Hd] _ _ _ _ _ _ _ _]. pose proof (p_fast s HPar) as Hmf. pose proof (max_fast_flags s Hmf) as (F1 & F2 & _).
  unfold fREe. rewrite (proj2 (Z.eqb_neq _ _)) by lia. unfold mem2chunk, SIZE_SZ. replace (p + 8 - 2 * 4) with p by lia. rewrite uwrap_small by lia.
  steps. apply (twp_chunksize _ n pb); [done|done|lia|]. steps. destruct (Z.leb_spec n (max_fast s)) as [Hle|Hgt].
  - steps. exists (L1 ++ (n, Fast) :: L2), bl, (upd (fastbin_index n) (p :: fl (fastbin_index n)) fl). split.
    + apply (heap_push _ _ _ _ _ _ _ pb); try done. destruct Hd as [k ->]. lia.
    + by destruct HPar.
  - steps. apply (twp_not_mmapped _ n pb); [done|done|lia|]. cbn [negb]. steps. set (s1 := put_max_fast (Z.lor (max_fast s) ANYCHUNKS_BIT) s).
    assert (Par s1) as HPar1 by by apply par_flags.
    destruct (next_head _ _ _ _ _ _ _ _ _ _ _ _ HL) as (z & Ez & Hdz & Hz & Hzb & Hnext). rewrite at_offset by lia.
    apply (twp_chunksize _ z true); [done|done|lia|]. steps.
    apply (twp_merge_back s1 L1 p n L2 pb true fl (fastbins s) K bl); [done|done|done|lia|].
    intros m1 L1' p' sz' bl1 HL1 HB1 Ep Hsz'. cbn beta iota. steps. pose proof (lay_range HL1). cbn [top set_words]. change (top s1) with (top s) in *. change (curbrk s1) with (curbrk s) in *.
    apply (twp_mono _ (fun _ s' => Run s' K)).
    + replace (p + n) with (p' + sz') by lia. destruct L2 as [|[s2 st2] L3].
      * destruct Hnext as (_ & Et & ->). rewrite (proj2 (Z.eqb_eq _ _)) by lia. cbn [negb]. steps. cbn [words set_words].
        rewrite uwrap_small by lia. pose proof HL1 as [_ _ _ [_ Hd1] _ _ _ _ (_ & Hr & _) _ _ _].
        unfold PREV_INUSE. rewrite lor_size by (try lia; by apply Z.divide_add_r). apply (run_top s1 _ _ L1' bl1 fl); [|done].
        apply (heap_top m1 _ (top s) _ _ _ sz' true); [done|done| |].
        -- unfold size. rewrite rd_insert_eq. change (curbrk s1) with (curbrk s). lia.
        -- intros w Hw. unfold size. rd_solve.
      * destruct Hnext as (-> & Hle). rewrite (proj2 (Z.eqb_neq _ _)) by lia. cbn [negb]. steps.
        apply (twp_merge_next (set_words m1 s1) L1' p' sz' s2 st2 L3 fl (fastbins s) K bl1); [done|done|lia|].
        intros m2 sz2 L2' bl2 HL2 HB2 Hsz2. rewrite set_words_twice. steps. cbn [words set_words]. pose proof (lay_range HL2). pose proof HL2 as [_ _ _ [_ Hd2] _ _ _ _ _ _ _ _].
        cbn [curbrk top set_words] in *. change (top s1) with (top s) in *. change (curbrk s1) with (curbrk s) in *.
        destruct (heap_unsorted _ _ _ _ _ _ _ _ _ _ _ HL2 HB2) as [(P1 & P2 & P3) HF]; [lia|].
        rewrite at_offset by lia. unfold PREV_INUSE, size, fd, bk, prev_size, unsorted_chunks.
        set (b := bin_at 1) in *. set (f := rd m2 (b + 8)) in *. rewrite lor_size by (done || lia).
        eapply (run_words s1); [|done]. apply HF; intros; rd_solve.
    + intros size0 s2 HR. destruct (FASTBIN_CONSOLIDATION_THRESHOLD <=? size0); [|by steps]. steps. apply (twp_mono _ (fun _ s' => Run s' K)).
      { destruct (have_fastchunks s2); [|steps; done]. eapply twp_mono; [by apply twp_malloc_consolidate|]. by intros ? s3 (? & _). }
      intros _ s3 HR3. pose proof HR3 as (L3 & bl3 & fl3 & HH3 & HPar3). steps. destruct (top_head _ _ _ _ _ _ _ _ HH3) as (Eh & Hdh & Hrh & Ht & Hbh & He & H00).
      apply (twp_chunksize _ (curbrk s3 - top s3) true); [done|done|lia|]. steps. destruct (_ <=? _); [|by steps]. steps.
      eapply twp_mono; [by apply (twp_sYSTRIm _ _ K)|]. intros ? s4 [_ ->]. by steps.
Qed.
End Free.
