(* ===== verification/MallocIndex.v ===== *)
(** * The index of a bin

    The branch-free search of the highest bit in largebin_index is the binary
    logarithm, and the index of the bin grows with the size. *)

From S2P Require Import Prelude Malloc MallocLayout.

Section Index.
(** One halving of the search: a shift by [b] brings [x] over [2 ^ k]. *)
Lemma halving x k b : 0 <= x < 2 ^ 16 -> 0 <= k < 16 -> b = 8 \/ b = 4 \/ b = 2 ->
  Z.land (Z.shiftr (u32 (x - 2 ^ k)) 16) b = if x <? 2 ^ k then b else 0.
Proof.
  intros Hx Hk Hb. assert (2 ^ k < 2 ^ 16) by (apply Z.pow_lt_mono_r; lia). assert (0 < 2 ^ k) by (apply Z.pow_pos_nonneg; lia).
  rewrite Z.shiftr_div_pow2 by done. destruct (Z.ltb_spec x (2 ^ k)).
  - replace (u32 (x - 2 ^ k)) with ((2 ^ 16 - 1) * 2 ^ 16 + (2 ^ 16 + x - 2 ^ k)).
    + rewrite Z.div_add_l, (Z.div_small (2 ^ 16 + x - 2 ^ k)) by lia. rewrite Z.add_0_r. by destruct Hb as [-> |[-> | ->]].
    + unfold uwrap. rewrite <- (Z.mod_add _ 1) by done. rewrite Z.mod_small by lia. lia.
  - rewrite uwrap_small by lia. rewrite Z.div_small by lia. done.
Qed.

Lemma shifted x n : 0 <= n -> 0 < x -> x * 2 ^ n < 2 ^ 32 -> u32 (Z.shiftl x n) = x * 2 ^ n.
Proof. intros. rewrite Z.shiftl_mul_pow2 by done. assert (0 < 2 ^ n) by (apply Z.pow_pos_nonneg; lia). apply uwrap_small. lia. Qed.

Lemma highest_bit_log2 x : 0 < x < 2 ^ 16 -> highest_bit x = Z.log2 x.
Proof.
  intros Hx. unfold highest_bit.
  change 0x100 with (2 ^ 8). rewrite (halving x 8 8) by lia. set (n1 := if x <? 2 ^ 8 then 8 else 0).
  assert (0 <= n1 <= 8 /\ 2 ^ 8 <= x * 2 ^ n1 < 2 ^ 16) as [Hn1 H1] by (subst n1; destruct (Z.ltb_spec x (2 ^ 8)); lia).
  rewrite (shifted x n1) by lia. set (x1 := x * 2 ^ n1) in *.
  change 0x1000 with (2 ^ 12). rewrite (halving x1 12 4) by lia. set (n2 := if x1 <? 2 ^ 12 then 4 else 0).
  assert (0 <= n2 <= 4 /\ 2 ^ 12 <= x1 * 2 ^ n2 < 2 ^ 16) as [Hn2 H2] by (subst n2; destruct (Z.ltb_spec x1 (2 ^ 12)); lia).
  rewrite (shifted x1 n2) by lia. set (x2 := x1 * 2 ^ n2) in *.
  change 0x4000 with (2 ^ 14). rewrite (halving x2 14 2) by lia. set (n3 := if x2 <? 2 ^ 14 then 2 else 0).
  assert (0 <= n3 <= 2 /\ 2 ^ 14 <= x2 * 2 ^ n3 < 2 ^ 16) as [Hn3 H3] by (subst n3; destruct (Z.ltb_spec x2 (2 ^ 14)); lia).
  rewrite (shifted x2 n3) by lia. set (x3 := x2 * 2 ^ n3) in *.
  assert (Z.log2 x3 = Z.log2 x + (n1 + n2 + n3)) as Hlog by (unfold x3, x2, x1; rewrite !Z.log2_mul_pow2 by (unfold x2, x1 in *; lia); lia).
  rewrite Z.shiftr_div_pow2 by done. clearbody x3 n1 n2 n3. assert (1 <= x3 / 2 ^ 14 <= 3) as Hq.
  { split; [apply Z.div_le_lower_bound; lia|]. apply Z.lt_succ_r, Z.div_lt_upper_bound; lia. }
  pose proof (Z.div_mod x3 (2 ^ 14) ltac:(done)). pose proof (Z.mod_pos_bound x3 (2 ^ 14) ltac:(done)).
  assert (x3 / 2 ^ 14 = 1 \/ x3 / 2 ^ 14 = 2 \/ x3 / 2 ^ 14 = 3) as [E|E] by lia.
  - assert (Z.log2 x3 = 14) by (apply Z.log2_unique; lia). rewrite E. change (Z.land 1 (Z.lnot (Z.shiftr 1 1))) with 1. pose proof (Z.log2_nonneg x).
    rewrite uwrap_small; lia.
  - assert (Z.log2 x3 = 15) by (apply Z.log2_unique; lia). replace (Z.land (x3 / 2 ^ 14) (Z.lnot (Z.shiftr (x3 / 2 ^ 14) 1))) with 2 by by destruct E as [-> | ->].
    pose proof (Z.log2_nonneg x). rewrite uwrap_small; lia.
Qed.

(** The index by the logarithm: four bins for each power of two. *)
Definition log_index (sz : Z) : Z := let m := Z.log2 (sz / 256) in 28 + 4 * m + sz / 2 ^ (m + 6).

Lemma log_quarter sz : 256 <= sz -> let m := Z.log2 (sz / 256) in 0 <= m /\ 4 <= sz / 2 ^ (m + 6) < 8.
Proof.
  intros Hsz m. assert (0 < sz / 256) by (apply Z.div_str_pos; lia). pose proof (Z.log2_nonneg (sz / 256)) as Hm. fold m in Hm.
  destruct (Z.log2_spec (sz / 256)) as [H1 H2]; [done|]. fold m in H1, H2. pose proof (Z.div_mod sz 256 ltac:(done)). pose proof (Z.mod_pos_bound sz 256 ltac:(done)).
  rewrite Z.pow_add_r by lia. rewrite Z.pow_succ_r in H2 by done. split; [done|]. assert (0 < 2 ^ m) by (apply Z.pow_pos_nonneg; lia). change (2 ^ 6) with 64. split.
  - apply Z.div_le_lower_bound; lia.
  - apply Z.div_lt_upper_bound; lia.
Qed.

Lemma largebin_log sz : 256 <= sz < 2 ^ 24 -> largebin_index sz = log_index sz.
Proof.
  intros Hsz. destruct (log_quarter sz) as [Hm Hq]; [lia|]. unfold largebin_index, log_index, SMALLBIN_WIDTH. rewrite Z.shiftr_div_pow2 by done. change (2 ^ 8) with 256.
  assert (0 < sz / 256) by (apply Z.div_str_pos; lia). assert (sz / 256 < 2 ^ 16) by (apply Z.div_lt_upper_bound; lia).
  rewrite (proj2 (Z.leb_gt _ _)) by lia. rewrite highest_bit_log2 by lia. set (m := Z.log2 (sz / 256)) in *. cbv zeta.
  rewrite Z.shiftl_mul_pow2, Z.shiftr_div_pow2 by lia. set (q := sz / 2 ^ (m + 6)) in *. unfold NSMALLBINS.
  replace (Z.land q 3) with (q - 4); [lia|]. assert (q = 4 \/ q = 5 \/ q = 6 \/ q = 7) as HE by lia. by destruct HE as [-> |[-> |[-> | ->]]].
Qed.

Lemma log_index_mono s1 s2 : 256 <= s1 <= s2 -> log_index s1 <= log_index s2.
Proof.
  intros Hs. destruct (log_quarter s1) as [Hm1 Hq1]; [lia|]. destruct (log_quarter s2) as [Hm2 Hq2]; [lia|]. unfold log_index.
  assert (Z.log2 (s1 / 256) <= Z.log2 (s2 / 256)) as Hm by (apply Z.log2_le_mono, Z.div_le_mono; lia).
  set (a := Z.log2 (s1 / 256)) in *. set (b := Z.log2 (s2 / 256)) in *. destruct (Z.eq_dec a b) as [-> |]; [|lia].
  assert (s1 / 2 ^ (b + 6) <= s2 / 2 ^ (b + 6)) by (apply Z.div_le_mono; [apply Z.pow_pos_nonneg|]; lia). lia.
Qed.

Lemma log_index_range sz : 256 <= sz < 2 ^ 24 -> 32 <= log_index sz <= 95.
Proof.
  intros Hsz. destruct (log_quarter sz) as [Hm Hq]; [lia|]. unfold log_index.
  assert (Z.log2 (sz / 256) < 16); [|lia]. assert (0 < sz / 256) by (apply Z.div_str_pos; lia). apply Z.log2_lt_pow2; [done|]. apply Z.div_lt_upper_bound; lia.
Qed.

(** The three ranges of sizes. *)
Lemma bin_index_small sz : sz < 256 -> bin_index sz = sz / 8.
Proof. intros. unfold bin_index, in_smallbin_range, MIN_LARGE_SIZE, smallbin_index. rewrite (proj2 (Z.ltb_lt _ _)) by lia. by rewrite Z.shiftr_div_pow2. Qed.
Lemma bin_index_large sz : 256 <= sz < 2 ^ 24 -> bin_index sz = log_index sz.
Proof. intros. unfold bin_index, in_smallbin_range, MIN_LARGE_SIZE. rewrite (proj2 (Z.ltb_ge _ _)) by lia. by apply largebin_log. Qed.
Lemma bin_index_huge sz : 2 ^ 24 <= sz -> bin_index sz = 95.
Proof.
  intros. unfold bin_index, in_smallbin_range, MIN_LARGE_SIZE, largebin_index, SMALLBIN_WIDTH. rewrite (proj2 (Z.ltb_ge _ _)) by lia. rewrite Z.shiftr_div_pow2 by done.
  assert (2 ^ 16 <= sz / 2 ^ 8) by (apply Z.div_le_lower_bound; lia). by rewrite (proj2 (Z.leb_le _ _)) by lia.
Qed.

Lemma bin_index_low sz : 16 <= sz < 256 -> 2 <= bin_index sz < 32.
Proof. intros. rewrite bin_index_small by lia. split; [apply Z.div_le_lower_bound|apply Z.div_lt_upper_bound]; lia. Qed.
Lemma bin_index_high sz : 256 <= sz -> 32 <= bin_index sz <= 95.
Proof.
  intros. destruct (Z.lt_ge_cases sz (2 ^ 24)); [rewrite bin_index_large by lia; apply log_index_range; lia|]. rewrite bin_index_huge; lia.
Qed.

Lemma bin_index_range sz : 16 <= sz -> 2 <= bin_index sz <= 95.
Proof. intros. destruct (Z.lt_ge_cases sz 256); [pose proof (bin_index_low sz)|pose proof (bin_index_high sz)]; lia. Qed.

(** The bins are in the order of the sizes. *)
Lemma bin_index_mono s1 s2 : 16 <= s1 <= s2 -> bin_index s1 <= bin_index s2.
Proof.
  intros Hs. destruct (Z.lt_ge_cases s2 256); [rewrite !bin_index_small by lia; apply Z.div_le_mono; lia|].
  destruct (Z.lt_ge_cases s1 256); [pose proof (bin_index_low s1); pose proof (bin_index_high s2); lia|].
  destruct (Z.lt_ge_cases s2 (2 ^ 24)); [rewrite !bin_index_large by lia; apply log_index_mono; lia|].
  rewrite (bin_index_huge s2) by lia. by apply bin_index_high.
Qed.
End Index.

(** C25: bin_index, with its branch-free search of the highest bit, gives each
    size its bin: one for every multiple of eight below 256 (the comment above
    the code says 512), four for each power of two from there on, split by the two bits after
    the highest, and the last one for all that are 16 MB or more; larger sizes
    are never in a smaller bin. *)
Theorem bin_of_size sz : 16 <= sz < 2 ^ 32 ->
  bin_index sz = (if sz <? 256 then sz / 8 else if sz <? 2 ^ 24 then 28 + 4 * Z.log2 (sz / 256) + sz / 2 ^ (Z.log2 (sz / 256) + 6) else 95) /\
  2 <= bin_index sz <= 95 /\ forall sz', sz <= sz' -> bin_index sz <= bin_index sz'.
Proof.
  intros Hs. split; [|split; [apply bin_index_range; lia|intros; apply bin_index_mono; lia]].
  destruct (Z.ltb_spec sz 256); [by apply bin_index_small|]. destruct (Z.ltb_spec sz (2 ^ 24)); [apply (bin_index_large sz); lia|by apply bin_index_huge].
Qed.

Lemma bin_of_size_witness : bin_index 5000 = 28 + 4 * Z.log2 (5000 / 256) + 5000 / 2 ^ (Z.log2 (5000 / 256) + 6) /\ 2 <= bin_index 5000 <= 95 /\
  forall sz', 5000 <= sz' -> bin_index 5000 <= bin_index sz'.
Proof. exact (bin_of_size 5000 ltac:(lia)). Defined.
