(* ===== verification/MallocAlloc.v ===== *)
(** * Allocating chunks

    The specifications of the parts of mALLOc in a consistent heap: the top,
    the unsorted chunks, the bins. *)

From S2P Require Import Prelude Malloc MallocLayout MallocInv MallocHole MallocLinks MallocFree MallocIndex.

Section Alloc.
Context {av_ heap heap_end : Z} {HP : HeapPlace av_ heap heap_end} {B0 : list (Z * Z)} {m0 : gmap Z Z}.
Abbreviation bin_at := (bin_at av_).
Abbreviation Bins := (Bins av_).
Abbreviation node := (node av_).
Abbreviation base := (base heap).
Abbreviation outside := (@outside heap).
Abbreviation Lay := (@Lay heap heap_end B0 m0).
Abbreviation Heap := (@Heap av_ heap heap_end B0 m0).
Abbreviation Run := (@Run av_ heap heap_end B0 m0).

(** A block of at least [nb] bytes, at the address that is returned. *)
Definition Got (K : list (Z * Z)) (nb r : Z) (s : arena) : Prop := exists p n, r = p + 8 /\ nb <= n /\ Run s ((p, n) :: K).

Lemma chunk2mem_small p : 0 <= p < 2 ^ 31 -> chunk2mem p = p + 8.
Proof. intros. unfold chunk2mem, SIZE_SZ. apply uwrap_small. lia. Qed.

(** ** The top *)

(** A hole before the top becomes a larger block. *)
Lemma heap_enlarge m tp brk L1 p sz pb fl fb K bl nb : Lay m tp brk L1 p sz [] pb true fl fb K -> Bins m bl (outside L1 (p + sz) []) ->
  16 <= nb -> sz <= nb -> (8 | nb) -> nb + 16 <= brk - p ->
  Heap (<[p + nb + 4 := brk - p - nb + 1]> (<[p + 4 := nb + Z.b2z pb]> m)) (p + nb) brk (L1 ++ [(nb, Used)]) bl fl fb ((p, nb) :: K).
Proof.
  intros HL HB Hnb Hsz Hd Hroom. pose proof (lay_divide HL) as (Hdp & _ & Hdt). pose proof (lay_range HL). pose proof HL as [_ _ Hp _ Ht _ _ _ (_ & Hr & _) _ _ _]. simpl in Ht.
  set (m' := <[p + nb + 4 := _]> _). pose proof (lay_move_top m m' tp brk (p + nb) brk L1 p sz pb true fl fb K HL) as HL'. replace (p + nb - p) with nb in HL' by lia.
  assert (Lay m' (p + nb) brk L1 p nb [] pb true fl fb K) as HL1.
  { apply HL'; [intros w Hw; unfold m'; rd_solve|lia|by apply Z.divide_add_r|unfold m'; rewrite rd_insert_eq; lia|lia| |lia].
    replace (brk - (p + nb)) with (brk - tp + (tp - p) - nb) by lia. apply Z.divide_sub_r; [apply Z.divide_add_r; [done|by apply Z.divide_sub_r]|done]. }
  split.
  - replace 0 with (nb - nb) by lia. apply (lay_split m' (p + nb) brk L1 p nb nb [] pb true fl fb K HL1); [lia|done|]. unfold m'. rd_solve.
  - apply (bins_ext av_ _ _ (layout base L1)).
    + intros y t. rewrite layout_app, elem_of_app. simpl. rewrite list_elem_of_singleton. split; [by left|by intros [?|?]].
    + rewrite outside_nil in HB. apply (bins_frame av_ m); [|done]. intros n Hn. destruct (node_place HL n) as (_ & ? & [?|?] & _); [by rewrite outside_nil|split; unfold m'; rd_solve|lia].
Qed.

Lemma heap_take m tp brk L bl fl fb K nb : Heap m tp brk L bl fl fb K -> 16 <= nb -> (8 | nb) -> nb + 16 <= brk - tp ->
  Heap (<[tp + nb + 4 := brk - tp - nb + 1]> (<[tp + 4 := nb + 1]> m)) (tp + nb) brk (L ++ [(nb, Used)]) bl fl fb ((tp, nb) :: K).
Proof. intros [HL HB] Hnb Hd Hroom. rewrite <- (outside_nil _ (tp + 0)) in HB. apply (heap_enlarge m tp brk L tp 0 true fl fb K bl nb HL HB); [done|lia|done|done]. Qed.

Lemma twp_take_top s L bl fl K nb : Heap (words s) (top s) (curbrk s) L bl fl (fastbins s) K -> Par s -> 16 <= nb -> (8 | nb) -> nb + 16 <= curbrk s - top s ->
  twp (take_top (top s) (curbrk s - top s) nb) (fun r s' => Got K nb r s') s.
Proof.
  intros HH HPar Hnb Hd Hroom. destruct (top_head _ _ _ _ _ _ _ _ HH) as (_ & Hdr & _ & Ht & Hb & He & H0). unfold take_top. steps.
  rewrite uwrap_small, at_offset, chunk2mem_small by lia. unfold PREV_INUSE. rewrite !lor_size by (try lia; try done; by apply Z.divide_sub_r).
  exists (top s), nb. split_and!; [done|done|]. exists (L ++ [(nb, Used)]), bl, fl. split; [by apply heap_take|by destruct HPar].
Qed.

(** ** A free chunk *)

Lemma free_open m tp brk L bl fl fb K i l1 x l2 : Heap m tp brk L bl fl fb K -> is_bin i -> bl i = l1 ++ x :: l2 ->
  exists z L1 L2, let m' := unlinked m x in
    L = L1 ++ (z, Free) :: L2 /\ x = base + span L1 /\ Lay m' tp brk L1 x z L2 true false fl fb K /\ Bins m' (upd i (l1 ++ l2) bl) (outside L1 (x + z) L2) /\
    16 <= z /\ (8 | z) /\ (i <> 1 -> bin_index z = i) /\ rd m (x + 4) = z + 1 /\ rd m' (x + 4) = z + 1 /\ rd m' (x + z) = z /\ x + z <= tp /\
    (forall w, x <= w <= x + z + 4 -> rd m' w = rd m w).
Proof.
  intros [HL HB] Hi El. assert (x ∈ bl i) as Hx by (rewrite El; apply elem_of_app; right; by left).
  destruct (b_free _ _ _ _ HB i x Hi Hx) as (z & Hz & Hidx). destruct (layout_split _ _ _ _ _ Hz) as (L1 & L2 & -> & Ex).
  pose proof HL as [_ _ _ _ _ _ _ _ _ Hf _ HD]. rewrite outside_nil in Hf. apply (fasts_mid m fb fl L1 z Free L2) in Hf; [|done].
  destruct (lay_open _ _ _ _ _ _ _ _ _ _ _ _ K HL Hf) as (pb & HL' & E1 & Hz16 & HF); [done|intros b Hb; by apply HD|]. destruct (HF eq_refl) as [-> E2].
  rewrite <- Ex in *. destruct (lay_unlink m tp brk L1 x z L2 true false fl fb K bl (layout base (L1 ++ (z, Free) :: L2)) x z i l1 l2 HL') as (HL2 & HB2 & HW); try done.
  { pose proof (lay_ok HL) as HG. by rewrite outside_nil in HG. }
  { lia. }
  { intros c. rewrite outside_mid. by rewrite <- Ex. }
  pose proof (lay_range HL'). exists z, L1, L2. split_and!; try done; [apply HL'|rewrite HW by lia; done|rewrite HW by lia; done|lia].
Qed.

Lemma twp_exhaust s L1 x z L2 bl fl K : Lay (words s) (top s) (curbrk s) L1 x z L2 true false fl (fastbins s) K -> Bins (words s) bl (outside L1 (x + z) L2) ->
  Par s -> 16 <= z -> rd (words s) (x + 4) = z + 1 -> twp (exhaust x z) (fun r s' => r = x + 8 /\ Run s' ((x, z) :: K)) s.
Proof.
  intros HL HB HPar Hz E. pose proof base_small. pose proof (lay_range HL). unfold exhaust, set_inuse_bit_at_offset. steps. rewrite at_offset, chunk2mem_small by lia. unfold size.
  destruct (next_head _ _ _ _ _ _ _ _ _ _ _ _ HL) as (z' & Ez & Hd & Hz' & _). pose proof (size_bits z' false Hd ltac:(lia)) as (_ & _ & _ & _ & El).
  rewrite Ez. unfold PREV_INUSE. rewrite El. split; [done|]. eapply run_words; [|done].
  eapply (heap_use (words s)); try done.
  - rewrite rd_insert_eq, Ez. simpl. lia.
  - intros w Hw. by rewrite rd_insert_ne.
Qed.

(** The start of a hole becomes a block, the rest the only unsorted chunk. *)
Lemma heap_divide m M tp brk L1 x z L2 bl fl fb K nb : Lay m tp brk L1 x z L2 true false fl fb K -> Bins m bl (outside L1 (x + z) L2) -> bl 1 = [] ->
  16 <= nb -> (8 | nb) -> nb + 16 <= z ->
  rd M (x + 4) = nb + 1 -> rd M (x + nb + 4) = z - nb + 1 -> rd M (x + z) = z - nb -> rd M (x + nb + 8) = bin_at 1 -> rd M (x + nb + 12) = bin_at 1 ->
  rd M (bin_at 1 + 8) = x + nb -> rd M (bin_at 1 + 12) = x + nb ->
  (forall w, w < x + nb + 4 \/ x + z < w -> w <> x + 4 -> w <> bin_at 1 + 8 -> w <> bin_at 1 + 12 -> rd M w = rd m w) ->
  Heap M tp brk (L1 ++ [(nb, Used)] ++ (z - nb, Free) :: L2) (upd 1 [x + nb] bl) fl fb ((x, nb) :: K).
Proof.
  intros HL HB H1 Hnb Hd Hz E1 E2 E3 E4 E5 E6 E7 HW. pose proof (lay_range HL). set (m1 := <[x + 4 := nb + 1]> m).
  assert (forall w, w < x + 4 \/ x + z < w -> rd m1 w = rd m w) as HW1 by (intros; unfold m1; rd_solve).
  pose proof (lay_split m1 tp brk L1 x z nb L2 true false fl fb K (lay_inside HL m1 HW1) ltac:(lia) Hd (rd_insert_eq _ _ _)) as HL2.
  assert (Bins m1 bl (outside (L1 ++ [(nb, Used)]) (x + nb + (z - nb)) L2)) as HB2.
  { replace (x + nb + (z - nb)) with (x + z) by lia. apply (bins_ext av_ _ _ (outside L1 (x + z) L2)).
    - intros y t. unfold MallocHole.outside. rewrite layout_app, !elem_of_app. simpl. rewrite list_elem_of_singleton. naive_solver.
    - apply (bins_inside HL); [done|]. intros w Hw. apply HW1. lia. }
  pose proof (b_ring _ _ _ _ HB2 1 ltac:(unfold is_bin; lia)) as HR. rewrite H1 in HR. destruct HR as [R1 R2].
  destruct (heap_unsorted _ _ _ _ _ _ _ _ _ _ _ HL2 HB2) as [(P1 & _) HH]; [lia|]. rewrite R1, H1, <- app_assoc in HH.
  replace (x + nb + (z - nb)) with (x + z) in HH by lia. apply HH; try done.
  intros w Hw Hw1 Hw2. unfold m1. rewrite rd_insert. case_decide; [by subst|]. apply HW; [lia|congruence|done..].
Qed.

Lemma twp_split_off s m L1 x z L2 bl fl K nb last : Lay m (top s) (curbrk s) L1 x z L2 true false fl (fastbins s) K -> Bins m bl (outside L1 (x + z) L2) -> bl 1 = [] ->
  Par s -> (forall w, w <> bin_at 1 + 8 -> w <> bin_at 1 + 12 -> rd (words s) w = rd m w) -> 16 <= nb -> (8 | nb) -> nb + 16 <= z ->
  twp (split_off av_ x z nb last) (fun r s' => r = x + 8 /\ Run s' ((x, nb) :: K)) s.
Proof.
  intros HL HB H1 HPar HW Hnb Hd Hz. pose proof base_small. pose proof (lay_range HL). pose proof HL as [_ _ _ [_ Hdz] _ _ _ _ _ _ _ _].
  pose proof (bin_range av_ heap heap_end 1 ltac:(unfold is_bin; lia)). pose proof (base_range heap).
  unfold split_off. steps. destruct last; steps; rewrite !uwrap_small, (at_offset x), (at_offset (x + nb)), chunk2mem_small by lia;
    unfold PREV_INUSE; rewrite !lor_size by (try lia; try done; by apply Z.divide_sub_r); replace (x + nb + (z - nb)) with (x + z) by lia;
    unfold size, fd, bk, prev_size, unsorted_chunks; set (b := bin_at 1) in *; (split; [done|]);
    (exists (L1 ++ [(nb, Used)] ++ (z - nb, Free) :: L2), (upd 1 [x + nb] bl), fl; split; [cbn [words set_words set_last_remainder top curbrk fastbins]|by destruct HPar]);
    apply (heap_divide m); try done; intros; fold b; rd_solve; by apply HW.
Qed.

(** ** Placing a chunk in its bin *)

Lemma map_set s b v : 0 <= b < 3 -> 0 <= v < 2 ^ 32 -> map_ok s -> map_ok (set_map_word b v s).
Proof.
  intros Hb Hv (Hl & H3 & Hm). assert (forall i, 0 <= i -> map_word i (set_map_word b v s) = if decide (i = b) then v else map_word i s) as HE.
  { intros i Hi. unfold map_word, set_map_word. simpl. rewrite !nth_lookup. case_decide; [subst; by rewrite list_lookup_insert_eq by lia|].
    by rewrite list_lookup_insert_ne by lia. }
  split; [simpl; by rewrite length_insert|]. split; [rewrite HE, decide_False by lia; done|]. intros i Hi. rewrite HE by lia. case_decide; auto.
Qed.

Lemma lor_u32 a b : 0 <= a < 2 ^ 32 -> 0 <= b < 2 ^ 32 -> 0 <= Z.lor a b < 2 ^ 32.
Proof.
  intros Ha Hb. split; [apply Z.lor_nonneg; lia|]. destruct (Z.eq_dec (Z.lor a b) 0) as [-> |]; [done|].
  assert (0 <= Z.lor a b) by (apply Z.lor_nonneg; lia). apply Z.log2_lt_pow2; [lia|]. rewrite Z.log2_lor by lia.
  apply Z.max_lub_lt; (destruct (Z.eq_dec a 0), (Z.eq_dec b 0); subst; try done; apply Z.log2_lt_pow2; lia).
Qed.

Lemma block_small i : 0 <= i < 96 -> 0 <= idx2block i < 3.
Proof. intros. unfold idx2block, BINMAPSHIFT. rewrite Z.shiftr_div_pow2 by done. split; [apply Z.div_le_lower_bound|apply Z.div_lt_upper_bound]; lia. Qed.

Lemma mark_ok s i : 0 <= i < 96 -> map_ok s -> map_ok (set_map_word (idx2block i) (Z.lor (map_word (idx2block i) s) (idx2bit i)) s).
Proof.
  intros Hi HM. pose proof (block_small i Hi). apply map_set; [done| |done]. apply lor_u32; [by apply HM|]. by apply uwrap_range.
Qed.

Lemma twp_seek_fwd s fuel size0 h l1 f l2 Q : ring (words s) h (l1 ++ f :: l2) -> rd (words s) (List.last l2 f + 4) <= size0 -> (length l2 < fuel)%nat ->
  (forall l1' f' l2', l1 ++ f :: l2 = l1' ++ f' :: l2' -> Q f' s) -> twp (seek_fwd fuel size0 f) Q s.
Proof.
  revert l1 f l2. induction fuel as [|fuel IH]; intros l1 f l2 HR Hlast Hlen HQ; [lia|]. simpl seek_fwd. steps. unfold size, fd.
  destruct (Z.ltb_spec size0 (rd (words s) (f + 4))); steps; [|by apply (HQ l1 f l2)]. destruct l2 as [|y l2]; [simpl in Hlast; lia|].
  rewrite (ring_next _ _ _ _ _ _ HR). apply (IH (l1 ++ [f]) y l2).
  - by rewrite <- app_assoc.
  - revert Hlast. destruct l2 as [|y' l2 _] using rev_ind; [done|]. rewrite app_comm_cons, !last_last. done.
  - simpl in Hlen. lia.
  - intros l1' f' l2' E. apply (HQ l1' f' l2'). by rewrite <- E, <- app_assoc.
Qed.

(** The hole [x] becomes a chunk of the bin of its size, after the chunks [l1]. *)
Lemma heap_place m tp brk L1 x z L2 fl fb K bl l1 l2 : Lay m tp brk L1 x z L2 true false fl fb K -> Bins m bl (outside L1 (x + z) L2) -> 16 <= z ->
  rd m (x + 4) = z + 1 -> rd m (x + z) = z -> bl (bin_index z) = l1 ++ l2 ->
  let b := List.last l1 (bin_at (bin_index z)) in let f := rd m (b + 8) in
  Heap (<[b + 8 := x]> (<[f + 12 := x]> (<[x + 8 := f]> (<[x + 12 := b]> m)))) tp brk (L1 ++ (z, Free) :: L2) (upd (bin_index z) (l1 ++ x :: l2) bl) fl fb K.
Proof.
  intros HL HB Hz E1 E2 El b f. pose proof (bin_index_range z Hz). assert (is_bin (bin_index z)) as Hi by (unfold is_bin; lia).
  destruct (heap_link m tp brk L1 x z L2 fl fb K bl (bin_index z) l1 l2 HL HB Hz Hi El) as (NB & NF & HH); [done|]. fold b in NB, NF, HH. fold f in NF, HH.
  pose proof (lay_range HL). pose proof (node_place HL _ NB). pose proof (node_place HL _ NF). pose proof (node_spread av_ heap heap_end _ _ _ (lay_ok HL) NB NF).
  apply HH; intros; rd_solve.
Qed.

(** The loops on the chunks of a bin have fuel enough. *)
Definition limit_of (s : arena) : nat := S (Z.to_nat ((curbrk s - heap) / MINSIZE)).

Lemma twp_place_in_bin s L1 x z L2 fl K bl Q : Lay (words s) (top s) (curbrk s) L1 x z L2 true false fl (fastbins s) K -> Bins (words s) bl (outside L1 (x + z) L2) ->
  Par s -> 16 <= z -> rd (words s) (x + 4) = z + 1 -> rd (words s) (x + z) = z -> (length (bl (bin_index z)) < limit_of s)%nat ->
  (forall s' bl', Heap (words s') (top s') (curbrk s') (L1 ++ (z, Free) :: L2) bl' fl (fastbins s') K -> Par s' -> bl' 1 = bl 1 -> curbrk s' = curbrk s ->
     max_fast s' = max_fast s -> Q tt s') ->
  twp (place_in_bin av_ heap x z) Q s.
Proof.
  intros HL HB HPar Hz E1 E2 Hfuel HQ. pose proof base_small. pose proof (lay_range HL). pose proof (bin_index_range z Hz) as Hidx.
  assert (is_bin (bin_index z)) as Hi by (unfold is_bin; lia). pose proof (b_ring _ _ _ _ HB _ Hi) as HR. pose proof HL as [_ _ _ [_ Hd] _ _ _ _ _ _ _ _].
  unfold place_in_bin. set (bin := bin_at (bin_index z)) in *. steps.
  apply (twp_mono _ (fun bf s' => s' = s /\ exists l1 l2, bl (bin_index z) = l1 ++ l2 /\ bf.1 = List.last l1 bin /\ bf.2 = rd (words s) (bf.1 + 8))).
  - assert (exists l1 l2, bl (bin_index z) = l1 ++ l2 /\ bin = List.last l1 bin /\ rd (words s) (fd bin) = rd (words s) (bin + 8)) as Hfirst by by exists [], (bl (bin_index z)).
    destruct (negb (in_smallbin_range z) && negb (rd (words s) (fd bin) =? bin)) eqn:Ec; steps; [|done].
    apply andb_true_iff in Ec as [_ Ec%negb_true_iff%Z.eqb_neq]. unfold fd in Ec |- *. unfold bk, size.
    destruct (ring_back _ _ _ HR) as [[Enil _]|(l1 & y & El & Ey1 & Ey2)].
    { rewrite Enil in HR. destruct HR as [HR _]. congruence. }
    rewrite Ey1. destruct (Z.ltb_spec z (rd (words s) (y + 4))) as [Hlt|Hge]; steps.
    + split; [done|]. exists (l1 ++ [y]), []. rewrite app_nil_r, last_last. cbn [fst snd]. by rewrite Ey2.
    + destruct (FIRST_SORTED_BIN_SIZE <=? z); steps; [|done]. unfold chunk_limit. steps.
      destruct (ring_front _ _ _ HR) as [[Enil _]|(f & l2 & El2 & Ef)]; [rewrite Enil in El; destruct l1; discriminate El|]. rewrite Ef. rewrite El2 in HR, Hfuel.
      unfold PREV_INUSE. rewrite lor_size by (done || lia). apply (twp_seek_fwd s _ (z + 1) bin [] f l2); [done| |simpl in Hfuel; unfold limit_of in Hfuel; lia|].
      * replace (List.last l2 f) with y; [lia|]. rewrite El2 in El. clear -El. destruct l2 as [|w l2 _] using rev_ind.
        -- destruct l1 as [|? [|]]; simplify_list_eq; done.
        -- rewrite app_comm_cons in El. apply app_inj_tail in El as [_ ->]. by rewrite last_last.
      * intros l1' f' l2' E. steps. split; [done|]. exists l1', (f' :: l2'). rewrite El2. cbn [fst snd]. simpl in E. rewrite E in HR |- *.
        destruct (ring_mid _ _ _ _ _ HR) as [-> ->]. done.
  - intros [b f] s' (-> & l1 & l2 & El & Eb & Ef). cbn [fst snd] in Eb, Ef. cbn beta iota. steps. unfold fd, bk.
    pose proof (heap_place _ _ _ _ _ _ _ _ _ _ _ l1 l2 HL HB Hz E1 E2 El) as HH. cbv zeta in HH. fold bin in HH. rewrite <- Eb, <- Ef in HH.
    eapply (HQ _ (upd (bin_index z) (l1 ++ x :: l2) bl)); [exact HH| |by rewrite upd_ne by lia|done|done].
    destruct HPar. split; try done. apply (mark_ok s); [lia|done].
Qed.

(** ** The unsorted chunks *)

Lemma bins_fuel s L bl fl K i : Heap (words s) (top s) (curbrk s) L bl fl (fastbins s) K -> is_bin i -> (length (bl i) + 2 <= limit_of s)%nat.
Proof.
  intros HH Hi. apply (fuel_enough _ _ _ _ _ _ _ _ (bl i) HH). destruct HH as [_ HB]. apply (list_count (heap := heap)); [by apply (b_nodup _ _ _ _ HB)|].
  intros x Hx. destruct (b_free _ _ _ _ HB i x Hi Hx) as (z & Hz & _). by exists z, Free.
Qed.

Lemma bin_not_in m tp brk L bl fl fb K i j : Heap m tp brk L bl fl fb K -> is_bin i -> is_bin j -> bin_at i ∉ bl j.
Proof. intros [HL HB] Hi Hj. pose proof (lay_ok HL) as HG. rewrite outside_nil in HG. by apply (bin_not_chunk av_ heap heap_end m bl _ i j HG HB). Qed.

(** The last chunk of a bin. *)
Lemma last_chunk m tp brk L bl fl fb K i : Heap m tp brk L bl fl fb K -> is_bin i ->
  (bl i = [] /\ rd m (bin_at i + 12) = bin_at i) \/
  exists l1 x, bl i = l1 ++ [x] /\ rd m (bin_at i + 12) = x /\ x <> bin_at i /\ rd m (x + 8) = bin_at i /\ rd m (x + 12) = List.last l1 (bin_at i) /\
    unlinked m x = <[rd m (x + 12) + 8 := bin_at i]> (<[bin_at i + 12 := rd m (x + 12)]> m).
Proof.
  intros HH Hi. pose proof (b_ring _ _ _ _ (proj2 HH) i Hi) as HR. destruct (ring_back _ _ _ HR) as [[E1 E2]|(l1 & x & El & E1 & E2)]; [by left|right].
  exists l1, x. split_and!; try done; [|rewrite El in HR; by apply (ring_mid _ _ _ _ [])|unfold unlinked; by rewrite E2].
  intros ->. apply (bin_not_in _ _ _ _ _ _ _ _ i i HH Hi Hi). rewrite El. apply elem_of_app. right. by left.
Qed.

Section Request.
Context (nb : Z) (Hnb : 16 <= nb <= 2 ^ 32 - 24) (Hd : (8 | nb)).

Lemma nb_plus : u32 (nb + MINSIZE) = nb + 16.
Proof. change MINSIZE with 16. apply uwrap_small. lia. Qed.

(** What a search leaves that did not find a chunk. *)
Definition Left (s : arena) (L : chunks) (fl : Z -> list Z) (K : list (Z * Z)) (s' : arena) : Prop :=
  exists bl', Heap (words s') (top s') (curbrk s') L bl' fl (fastbins s') K /\ Par s' /\ bl' 1 = [] /\ curbrk s' = curbrk s /\ max_fast s' = max_fast s.

Lemma twp_process_unsorted fuel s L bl fl K : Heap (words s) (top s) (curbrk s) L bl fl (fastbins s) K -> Par s -> (length (bl 1%Z) < fuel)%nat ->
  twp (process_unsorted av_ heap fuel nb) (fun o s' => match o with Some r => Got K nb r s' | None => Left s L fl K s' end) s.
Proof.
  revert s bl. induction fuel as [|fuel IH]; intros s bl HH HPar Hfuel; [lia|]. assert (is_bin 1) as Hi1 by (unfold is_bin; lia). pose proof base_small.
  simpl process_unsorted. steps. unfold unsorted_chunks, bk.
  destruct (last_chunk _ _ _ _ _ _ _ _ 1 HH Hi1) as [[Enil ->]|(l1 & x & El & -> & Hne & Ex8 & Ex12 & Eun)].
  { rewrite Z.eqb_refl. steps. exists bl. done. }
  rewrite (proj2 (Z.eqb_neq _ _)) by done. steps.
  destruct (free_open _ _ _ _ _ _ _ _ 1 l1 x [] HH Hi1 El) as (z & L1 & L2 & EL & Exb & HL & HB & Hz & Hdz & _ & E0 & E1 & E2 & Hzt & _).
  pose proof (lay_range HL). apply (twp_chunksize _ z true); [done|done|lia|]. steps. rewrite nb_plus, app_nil_r in *.
  destruct (in_smallbin_range nb && _ && _ && _) eqn:Ec.
  - apply andb_true_iff in Ec as [Ec Hlt%Z.ltb_lt]. apply andb_true_iff in Ec as [Ec _]. apply andb_true_iff in Ec as [_ Eb%Z.eqb_eq].
    assert (l1 = []) as ->.
    { destruct l1 as [|y l1 _] using rev_ind; [done|]. rewrite last_last in Ex12. rewrite Ex12 in Eb. exfalso. apply (bin_not_in _ _ _ _ _ _ _ _ 1 1 HH Hi1 Hi1).
      rewrite El, <- Eb. apply elem_of_app. left. apply elem_of_app. right. by left. }
    steps. eapply twp_mono; [apply (twp_split_off s (unlinked (words s) x) L1 x z L2 (upd 1 [] bl) fl K nb true); try done; try lia|].
    { intros w Hw1 Hw2. rewrite Eun, Eb. rewrite !rd_insert_ne by lia. done. }
    intros r s' [-> HR]. steps. by exists x, nb.
  - steps. cbn [words set_words]. unfold unsorted_chunks, bk, fd. rewrite <- Eun. set (s1 := set_words (unlinked (words s) x) s). assert (Par s1) as HPar1 by by destruct HPar.
    destruct (Z.eqb_spec z nb) as [-> |Hne'].
    + steps. eapply twp_mono; [by apply (twp_exhaust s1 L1 x nb L2 (upd 1 l1 bl) fl K)|]. intros r s' [-> HR]. steps. by exists x, nb.
    + steps. assert (is_bin (bin_index z)) as Hiz by (pose proof (bin_index_range z Hz); unfold is_bin; lia).
      apply (twp_place_in_bin s1 L1 x z L2 fl K (upd 1 l1 bl)); try done.
      { pose proof (bins_fuel s L bl fl K _ HH Hiz). pose proof (bin_index_range z Hz). rewrite upd_ne by lia. change (limit_of s1) with (limit_of s). lia. }
      intros s' bl' HH' HPar' Ebl Ecb Emf. rewrite <- EL in HH'. eapply twp_mono; [apply (IH s' bl'); [done|done|]|].
      { rewrite Ebl, upd_eq. rewrite El, length_app in Hfuel. simpl in Hfuel. lia. }
      intros [r|] s2; [done|]. intros (bl2 & ? & ? & ? & Ecb2 & Emf2). exists bl2. split_and!; [done|done|done|by rewrite Ecb2|by rewrite Emf2].
Qed.
(** A chunk that is large enough, all of it or a part. *)
Lemma twp_carve s L1 x z L2 bl fl K last : Lay (words s) (top s) (curbrk s) L1 x z L2 true false fl (fastbins s) K -> Bins (words s) bl (outside L1 (x + z) L2) ->
  bl 1 = [] -> Par s -> 16 <= z -> (8 | z) -> rd (words s) (x + 4) = z + 1 -> nb <= z ->
  twp (if u32 (z - nb) <? MINSIZE then exhaust x z else split_off av_ x z nb last) (Got K nb) s.
Proof.
  intros HL HB H1 HPar Hz Hdz E Hle. pose proof base_small. pose proof (lay_range HL). change MINSIZE with 16. rewrite uwrap_small by lia.
  destruct (Z.ltb_spec (z - nb) 16).
  - eapply twp_mono; [by apply (twp_exhaust s L1 x z L2 bl fl K)|]. intros r s' [-> HR]. by exists x, z.
  - eapply twp_mono; [apply (twp_split_off s (words s) L1 x z L2 bl fl K); try done; lia|]. intros r s' [-> HR]. by exists x, nb.
Qed.

(** ** The bin of a large request *)

Lemma twp_scan_large fuel i s L bl fl K l1 l2 : Heap (words s) (top s) (curbrk s) L bl fl (fastbins s) K -> Par s -> bl 1 = [] -> is_bin i -> i <> 1 ->
  bl i = l1 ++ l2 -> (length l1 < fuel)%nat ->
  twp (scan_large av_ fuel (bin_at i) (List.last l1 (bin_at i)) nb) (fun o s' => match o with Some r => Got K nb r s' | None => s' = s end) s.
Proof.
  intros HH HPar H1 Hi Hi1. revert l1 l2. induction fuel as [|fuel IH]; intros l1 l2 El Hfuel; [lia|]. simpl scan_large. pose proof base_small.
  destruct l1 as [|x l1 _] using rev_ind; [simpl List.last; rewrite Z.eqb_refl; by steps|]. rewrite last_last. rewrite <- app_assoc in El. simpl in El.
  assert (x <> bin_at i) as Hne.
  { intros ->. apply (bin_not_in _ _ _ _ _ _ _ _ i i HH Hi Hi). rewrite El. apply elem_of_app. right. by left. }
  rewrite (proj2 (Z.eqb_neq _ _)) by done. steps.
  destruct (free_open _ _ _ _ _ _ _ _ i l1 x l2 HH Hi El) as (z & L1 & L2 & EL & Exb & HL & HB & Hz & Hdz & _ & E0 & E1 & E2 & Hzt & _). pose proof (lay_range HL).
  apply (twp_chunksize _ z true); [done|done|lia|]. destruct (Z.leb_spec nb z).
  - steps. set (s1 := set_words (unlinked (words s) x) s). eapply twp_mono.
    + apply (twp_carve s1 L1 x z L2 (upd i (l1 ++ l2) bl) fl K false); try done; [by rewrite upd_ne|by destruct HPar].
    + intros r s' HG. by steps.
  - steps. pose proof (b_ring _ _ _ _ (proj2 HH) i Hi) as HR. rewrite El in HR. unfold bk. rewrite (proj1 (ring_mid _ _ _ _ _ HR)).
    apply (IH l1 (x :: l2)); [done|]. rewrite length_app in Hfuel. simpl in Hfuel. lia.
Qed.

(** ** The map of the bins *)

Lemma twp_next_block fuel block (Q : option (Z * Z) -> arena -> Prop) s : 0 <= block -> 3 - block <= Z.of_nat fuel -> (0 < fuel)%nat -> Q None s ->
  (forall b, block < b < 3 -> map_word b s <> 0 -> Q (Some (b, map_word b s)) s) -> twp (next_block fuel block) Q s.
Proof.
  revert block. induction fuel as [|fuel IH]; intros block Hb Hf H0 HN HS; [lia|]. simpl next_block. unfold BINMAPSIZE. destruct (Z.leb_spec 3 (block + 1)); steps; [done|].
  destruct (Z.eqb_spec (map_word (block + 1) s) 0); [apply IH; try done; try lia; intros; apply HS; [lia|done]|]. steps. apply HS; [lia|done].
Qed.

Lemma next_bin_at i : 0 <= i <= 96 -> next_bin (bin_at i) = bin_at (i + 1).
Proof. intros Hi. destruct HP. unfold next_bin, Malloc.bin_at. rewrite uwrap_small; lia. Qed.

Lemma shift_bit j : 0 <= j < 32 -> u32 (Z.shiftl (2 ^ j) 1) = u32 (2 ^ (j + 1)).
Proof. intros. rewrite Z.shiftl_mul_pow2, Z.pow_add_r by lia. done. Qed.

Lemma twp_advance_bit fuel map i k (Q : Z * Z -> arena -> Prop) s : 0 <= k < 32 -> 2 ^ k <= map < 2 ^ 32 -> 32 - k <= Z.of_nat fuel -> 0 <= i -> i + (32 - k) <= 97 ->
  (forall j, k <= j < 32 -> Z.testbit map j = true -> Q (bin_at (i + (j - k)), 2 ^ j) s) -> twp (advance_bit fuel map (bin_at i) (2 ^ k)) Q s.
Proof.
  revert i k. induction fuel as [|fuel IH]; intros i k Hk Hmap Hf Hi Hi2 HQ; [lia|]. simpl advance_bit. rewrite Z.land_comm, land_bit by lia.
  destruct (Z.testbit map k) eqn:Eb; cbn [negb].
  - steps. replace i with (i + (k - k)) at 1 by lia. apply HQ; [lia|done].
  - assert (2 ^ (k + 1) <= map) as Hge.
    { rewrite Z.pow_add_r by lia. change (2 ^ 1) with 2. assert (0 < 2 ^ k) by (apply Z.pow_pos_nonneg; lia).
      assert (1 <= map / 2 ^ k) by (apply Z.div_le_lower_bound; lia). rewrite Z.testbit_odd, Z.shiftr_div_pow2, <- Z.negb_even in Eb by lia.
      apply negb_false_iff, Z.even_spec in Eb as [q Eq]. pose proof (Z.mul_div_le map (2 ^ k) ltac:(done)). pose proof (Z.mul_le_mono_nonneg_l 2 (map / 2 ^ k) (2 ^ k)). lia. }
    assert (k + 1 < 32) by (apply (Z.pow_lt_mono_r_iff 2); lia).
    rewrite next_bin_at, shift_bit, uwrap_small by first [lia | split; [apply Z.pow_nonneg; lia | lia]].
    apply IH; try lia. intros j Hj Hb. replace (i + 1 + (j - (k + 1))) with (i + (j - k)) by lia. apply HQ; [lia|done].
Qed.

(** A bin after that of the request has only chunks that are large enough. *)
Lemma later_bin z i : 16 <= z -> bin_index z = i -> bin_index nb < i -> nb <= z.
Proof. intros Hz <- Hi. destruct (Z.le_gt_cases nb z); [done|]. pose proof (bin_index_mono z nb). lia. Qed.

Lemma twp_scan_bins fuel s L bl fl K block k : Heap (words s) (top s) (curbrk s) L bl fl (fastbins s) K -> Par s -> bl 1 = [] ->
  0 <= block <= 3 -> 0 <= k <= 32 -> 32 * block + k <= 96 -> bin_index nb < 32 * block + k -> 97 - (32 * block + k) <= Z.of_nat fuel ->
  twp (scan_bins av_ fuel (bin_at (32 * block + k)) block (map_word block s) (u32 (2 ^ k)) nb)
    (fun o s' => match o with Some r => Got K nb r s' | None => Left s L fl K s' end) s.
Proof.
  revert s block k. induction fuel as [|fuel IH]; intros s block k HH HPar H1 Hbl Hk Hi Hnbi Hfuel; [lia|]. cbn [scan_bins]. pose proof (p_map s HPar) as (Hlen & H3 & Hmap).
  assert (0 <= map_word block s < 2 ^ 32 /\ (block = 3 -> map_word block s = 0)) as [Hm Hm3].
  { destruct (decide (block = 3)) as [-> |]; [by rewrite H3|]. split; [apply Hmap; lia|lia]. }
  steps. apply (twp_mono _ (fun o s' => s' = s /\ match o with None => True | Some (bin, block', map, bit) =>
    exists k', 0 <= block' < 3 /\ 0 <= k' < 32 /\ map = map_word block' s /\ bin = bin_at (32 * block' + k') /\ bit = 2 ^ k' /\ 2 ^ k' <= map /\ 32 * block + k <= 32 * block' + k' end)).
  - destruct ((map_word block s <? u32 (2 ^ k)) || (u32 (2 ^ k) =? 0)) eqn:Ec; steps.
    + apply twp_next_block; [lia|lia|lia|by steps|]. intros b Hb Hb0. steps. split; [done|]. exists 0. rewrite Z.shiftl_mul_pow2 by done. unfold BINMAPSHIFT.
      pose proof (Hmap b ltac:(lia)). split_and!; try done; try lia. f_equal. lia.
    + apply orb_false_iff in Ec as [Ec1%Z.ltb_ge Ec2%Z.eqb_neq]. assert (k < 32) as Hk32.
      { destruct (decide (k = 32)) as [-> |]; [done|lia]. }
      assert (2 ^ k < 2 ^ 32) by (apply Z.pow_lt_mono_r; lia). assert (0 < 2 ^ k) by (apply Z.pow_pos_nonneg; lia). rewrite uwrap_small in * by lia.
      split; [done|]. exists k. split_and!; try done; try lia.
  - intros [[[[bin block'] map] bit]|] s' [-> HS]; [|steps; by exists bl]. destruct HS as (k' & Hb' & Hk' & -> & -> & -> & Hle & Hge). steps.
    pose proof (Hmap block' Hb') as Hmb. apply (twp_advance_bit _ _ _ k'); [done|lia|lia|lia|lia|]. intros j Hj Hbit. replace (32 * block' + k' + (j - k')) with (32 * block' + j) by lia.
    cbn beta iota. steps. set (i := 32 * block' + j). assert (is_bin i) as Hii by (pose proof (bin_index_range nb ltac:(lia)); unfold is_bin; lia). unfold bk.
    destruct (last_chunk _ _ _ _ _ _ _ _ i HH Hii) as [[Enil ->]|(l1 & x & El & -> & Hne & Ex8 & Ex12 & Eun)].
    + rewrite Z.eqb_refl. steps. set (map2 := Z.land (map_word block' s) (Z.lnot (2 ^ j))).
      assert (0 <= map2 < 2 ^ 32) as Hm2.
      { split; [apply Z.land_nonneg; lia|]. unfold map2. rewrite <- Z.sub_land_same_l.
        assert (0 <= Z.land (map_word block' s) (2 ^ j)) by (apply Z.land_nonneg; lia). lia. }
      rewrite next_bin_at, shift_bit by lia. set (s1 := set_map_word block' map2 s).
      replace map2 with (map_word block' s1) by (unfold s1, map_word, set_map_word; simpl; rewrite nth_lookup, list_lookup_insert_eq by lia; done).
      replace (i + 1) with (32 * block' + (j + 1)) by lia.
      eapply twp_mono; [apply (IH s1 block' (j + 1)); try done; try lia|].
      * destruct HPar. split; try done. by apply (map_set s).
      * intros [r|] s2; [done|]. intros (bl2 & ? & ? & ? & ? & ?). by exists bl2.
    + rewrite (proj2 (Z.eqb_neq _ _)) by done. steps. pose proof base_small.
      destruct (free_open _ _ _ _ _ _ _ _ i l1 x [] HH Hii El) as (z & L1 & L2 & EL & Exb & HL & HB & Hz & Hdz & Hidx & E0 & E1 & E2 & Hzt & _). pose proof (lay_range HL).
      apply (twp_chunksize _ z true); [done|done|lia|]. steps. cbn [words set_words]. unfold fd, bk. rewrite <- Eun. set (s1 := set_words (unlinked (words s) x) s).
      assert (i <> 1) as Hi1 by (intros E; rewrite E in El; rewrite H1 in El; by destruct l1). rewrite app_nil_r in HB.
      eapply twp_mono; [apply (twp_carve s1 L1 x z L2 (upd i l1 bl) fl K); try done; [by rewrite upd_ne|by destruct HPar|]|].
      * apply (later_bin z i Hz); [by apply Hidx|unfold i; lia].
      * intros r s2 HG. by steps.
Qed.
End Request.
End Alloc.
