(* ===== verification/MallocMain.v ===== *)
(** * mALLOc

    sYSMALLOc, the phases of the allocator and mALLOc itself. *)

From S2P Require Import Prelude Runtime Malloc MallocLayout MallocInv MallocHole MallocLinks MallocFree MallocIndex MallocAlloc.

(** ** Pages *)

Lemma page_down y : Z.land (u32 y) (u32 (Z.lnot 4095)) = u32 y / 4096 * 4096.
Proof. change (u32 (Z.lnot 4095)) with (Z.shiftl (Z.ones (32 - 12)) 12). rewrite land_high_mask by (done || by apply uwrap_range). done. Qed.

(** The size that is asked of sbrk is enough; it is not positive only for a
    size that is far too large. *)
Lemma page_size x : 0 <= x < 2 ^ 32 -> let sz := s32 (Z.land (u32 (x + 4095)) (u32 (Z.lnot 4095))) in
  (0 < sz -> x <= sz < x + 4096 /\ sz < 2 ^ 31 /\ (4096 | sz)) /\ (sz <= 0 -> 0 < x -> 2 ^ 31 <= x + 4096).
Proof.
  intros Hx sz. unfold sz. rewrite page_down. set (y := u32 (x + 4095)). assert (0 <= y < 2 ^ 32) as Hy by by apply uwrap_range.
  pose proof (Z.div_mod y 4096 ltac:(done)) as Hdm. pose proof (Z.mod_pos_bound y 4096 ltac:(done)) as Hmod. set (r := y / 4096 * 4096) in *.
  assert (r < 2 ^ 31 /\ s32 r = r \/ 2 ^ 31 <= r /\ s32 r = r - 2 ^ 32) as Hr.
  { destruct (Z.lt_ge_cases r (2 ^ 31)); [left; split; [done|apply swrap_small; lia]|right]. split; [done|].
    unfold swrap. rewrite <- (Z.mod_add _ (-1)) by done. rewrite Z.mod_small by lia. lia. }
  assert (x + 4095 < 2 ^ 32 /\ y = x + 4095 \/ 2 ^ 32 <= x + 4095 /\ y = x + 4095 - 2 ^ 32) as Hyx.
  { destruct (Z.lt_ge_cases (x + 4095) (2 ^ 32)); [left; split; [done|apply uwrap_small; lia]|right]. split; [done|].
    unfold y, uwrap. rewrite <- (Z.mod_add _ (-1)) by done. rewrite Z.mod_small by lia. lia. }
  split; [intros Hsz|lia]. split; [|split; [lia|exists (y / 4096); lia]]. lia.
Qed.

Section Main.
Context {av_ heap heap_end : Z} {HP : HeapPlace av_ heap heap_end} {B0 : list (Z * Z)} {m0 : gmap Z Z}.
Abbreviation bin_at := (bin_at av_).
Abbreviation Bins := (Bins av_).
Abbreviation base := (base heap).
Abbreviation outside := (@outside heap).
Abbreviation Heap := (@Heap av_ heap heap_end B0 m0).
Abbreviation Run := (@Run av_ heap heap_end B0 m0).
Abbreviation Got := (@Got av_ heap heap_end B0 m0).

Lemma twp_brk_plus d (Q : Z -> arena -> Prop) s : 0 <= curbrk s -> heap_end < 2 ^ 31 -> 0 <= d < 2 ^ 31 ->
  (curbrk s + d <= heap_end -> Q (curbrk s) (set_curbrk (curbrk s + d) s)) -> (heap_end < curbrk s + d -> Q (u32 (-1)) s) -> curbrk s <= heap_end ->
  twp (MORECORE heap_end d) Q s.
Proof.
  intros Hb He Hd HQ1 HQ2 Hbe. unfold twp, MORECORE, Runtime.sbrk. rewrite uwrap_small by lia. rewrite (proj2 (Z.ltb_ge (curbrk s + d) _)) by lia. simpl.
  destruct (Z.ltb_spec heap_end (curbrk s + d)); [exists (u32 (-1)), s; split; [by destruct s|by apply HQ2]|].
  exists (curbrk s), (set_curbrk (curbrk s + d) s). split; [done|by apply HQ1].
Qed.

(** ** More memory *)

Lemma heap_grow m tp brk brk' L bl fl fb K : Heap m tp brk L bl fl fb K -> brk <= brk' <= heap_end -> (8 | brk' - brk) ->
  Heap (<[tp + 4 := brk' - tp + 1]> m) tp brk' L bl fl fb K.
Proof.
  intros HH Hb Hd. destruct (top_head _ _ _ _ _ _ _ _ HH) as (_ & Hdr & Hr & Ht & _). destruct HH as [HL HB]. pose proof (lay_divide HL) as (_ & _ & Hdt). split.
  - replace 0 with (tp - tp) by lia. apply (lay_move_top m _ tp brk tp brk' L tp 0 true true fl fb K HL); try done; try lia.
    + intros w Hw. rd_solve.
    + by rewrite rd_insert_eq.
    + replace (brk' - tp) with (brk' - brk + (brk - tp)) by lia. by apply Z.divide_add_r.
  - apply (bins_frame av_ m); [|done]. intros n Hn. destruct (node_place HL n) as (_ & ? & _); [by rewrite outside_nil|]. split; rd_solve.
Qed.

Section Request.
Context (nb : Z) (Hnb : 16 <= nb <= 2 ^ 32 - 24) (Hd : (8 | nb)).

(** A block, or a null pointer, the same blocks and not enough memory left. *)
Definition Served (K : list (Z * Z)) (r : Z) (s : arena) : Prop := Got K nb r s \/ r = 0 /\ Run s K /\ heap_end < curbrk s + nb + 4112.

Lemma twp_sysmalloc_more s K : Run s K -> curbrk s - top s < nb + 16 -> twp (sysmalloc_more av_ heap heap_end nb) (Served K) s.
Proof.
  intros (L & bl & fl & HH & HPar) Hroom. destruct (top_head _ _ _ _ _ _ _ _ HH) as (Eh & Hdr & Hr & Ht & Hb & He & H0). pose proof HPar as [Hmf Hpg Hpad Hc Hmap].
  unfold sysmalloc_more. steps. apply (twp_chunksize _ (curbrk s - top s) true); [done|done|lia|]. steps. rewrite Hpg, Hpad, Hc. change (4096 - 1) with 4095.
  rewrite Z.add_0_r. rewrite (nb_plus nb Hnb). set (os := curbrk s - top s) in *. rewrite (uwrap_small 32 (nb + 16 - os)) by lia.
  pose proof (page_size (nb + 16 - os) ltac:(lia)) as [Hpage Hpage2]. set (sz := s32 _) in *.
  assert (chunk_at_offset (top s) os = curbrk s) as Eend by (rewrite at_offset by (unfold os; lia); unfold os; lia). rewrite Eend.
  destruct (Z.ltb_spec 0 sz) as [Hsz|Hsz]; steps.
  2: { change (negb (MORECORE_FAILURE =? MORECORE_FAILURE)) with false. cbv iota. steps. right. split_and!; [done|by exists L, bl, fl|unfold os in *; lia]. }
  destruct (Hpage Hsz) as (Hsz1 & Hsz2 & Hdsz). apply twp_brk_plus; [lia|done|lia| | |done].
  2: { intros Hno. unfold MORECORE_FAILURE. rewrite Z.eqb_refl. cbn [negb]. cbv iota. steps. right. split_and!; [done|by exists L, bl, fl|unfold os in *; lia]. }
  intros Hfit. unfold MORECORE_FAILURE. rewrite (proj2 (Z.eqb_neq _ _)) by (change (u32 (-1)) with (2 ^ 32 - 1); lia). cbn [negb]. cbv iota. steps. rewrite Z.eqb_refl.
  assert (8 | sz) as Hd8 by (transitivity 4096; [by exists 512|done]). rewrite uwrap_small by (unfold os in *; lia).
  unfold PREV_INUSE. rewrite lor_size by (try (unfold os; lia); by apply Z.divide_add_r). steps. apply twp_modify. steps. unfold size.
  cbn [words top curbrk set_words set_stats set_curbrk].
  pose proof (heap_grow _ _ _ (curbrk s + sz) _ _ _ _ _ HH ltac:(lia) ltac:(by replace (curbrk s + sz - curbrk s) with sz by lia)) as HG.
  replace (curbrk s + sz - top s) with (sz + os) in HG by (unfold os; lia).
  match goal with |- twp _ _ ?s' => set (s1 := s') end.
  apply (twp_chunksize _ (sz + os) true); [unfold s1; cbn [words set_words set_stats set_curbrk]; by rewrite rd_insert_eq|by apply Z.divide_add_r|unfold os; lia|].
  rewrite (proj2 (Z.leb_le _ _)) by lia. assert (sz + os = curbrk s1 - top s1) as Eos by (unfold s1, os; simpl; lia).
  change (take_top _ _ _) with (take_top (top s1) (sz + os) nb). rewrite Eos.
  eapply twp_mono; [apply (twp_take_top s1 L bl fl K nb HG); [by destruct HPar|lia|done|lia]|]. intros r s' Hgot. by left.
Qed.

(** ** The search *)

Section Again.
Context (again : Z -> AM Z).

(** What the call of mALLOc by sYSMALLOc does: only when there are chunks in
    fastbins, and then there are none left. *)
Definition again_ok (s : arena) (K : list (Z * Z)) : Prop :=
  have_fastchunks s = true -> forall s', Run s' K -> have_fastchunks s' = false -> twp (again (u32 (nb - MALLOC_ALIGN_MASK))) (Served K) s'.

Lemma again_ok_same s s' K : max_fast s' = max_fast s -> again_ok s K -> again_ok s' K.
Proof. unfold again_ok, have_fastchunks. intros E HA. by rewrite E. Qed.
Lemma again_ok_none s K : have_fastchunks s = false -> again_ok s K.
Proof. unfold again_ok. congruence. Qed.

Lemma twp_use_top s K : Run s K -> again_ok s K -> twp (use_top av_ heap heap_end again nb) (Served K) s.
Proof.
  intros HR HA. pose proof HR as (L & bl & fl & HH & HPar). destruct (top_head _ _ _ _ _ _ _ _ HH) as (Eh & Hdr & Hr & Ht & Hb & He & H0).
  unfold use_top. steps. apply (twp_chunksize _ (curbrk s - top s) true); [done|done|lia|]. rewrite (nb_plus nb Hnb). destruct (Z.leb_spec (nb + 16) (curbrk s - top s)).
  - eapply twp_mono; [apply (twp_take_top s L bl fl K nb HH HPar); [lia|done|done]|]. intros r s' HG. by left.
  - unfold sYSMALLOc. steps. destruct (have_fastchunks s) eqn:Ef; [|by apply twp_sysmalloc_more]. steps.
    eapply twp_mono; [exact (twp_malloc_consolidate s K HR)|]. intros _ s' (HR' & Hno & _). by apply HA.
Qed.

Lemma index_parts i : 0 <= i -> i = 32 * idx2block i + i mod 32 /\ idx2bit i = u32 (2 ^ (i mod 32)).
Proof.
  intros Hi. unfold idx2block, idx2bit, BINMAPSHIFT. rewrite Z.shiftr_div_pow2 by done. change (2 ^ 5) with 32. split; [by apply Z.div_mod|].
  change (Z.shiftl 1 5 - 1) with (Z.ones 5). rewrite Z.land_ones by done. change (2 ^ 5) with 32. pose proof (Z.mod_pos_bound i 32 ltac:(done)).
  rewrite Z.shiftl_mul_pow2 by lia. by rewrite Z.mul_1_l.
Qed.

Lemma twp_search_bins s K : Run s K -> again_ok s K -> twp (search_bins av_ heap heap_end again nb (bin_index nb)) (Served K) s.
Proof.
  intros (L & bl & fl & HH & HPar) HA. pose proof (bin_index_range nb ltac:(lia)) as Hidx. unfold search_bins, chunk_limit. steps.
  eapply twp_mono; [apply (twp_process_unsorted nb Hnb Hd _ s L bl fl K HH HPar)|].
  { pose proof (bins_fuel s L bl fl K 1 HH ltac:(unfold is_bin; lia)). unfold limit_of in *. lia. }
  intros [r|] s1; [intros HG; steps; by left|]. intros (bl1 & HH1 & HPar1 & Hn1 & Ecb & Emf). steps.
  apply (twp_mono _ (fun o s' => match o with Some r => Got K nb r s' | None => s' = s1 end)).
  { destruct (negb (in_smallbin_range nb)); [|by steps]. steps. assert (is_bin (bin_index nb)) as Hi by (unfold is_bin; lia).
    pose proof (bins_fuel s1 L bl1 fl K _ HH1 Hi) as Hf. unfold limit_of in Hf. unfold bk.
    replace (rd (words s1) (bin_at (bin_index nb) + 12)) with (List.last (bl1 (bin_index nb)) (bin_at (bin_index nb))).
    - apply (twp_scan_large nb Hnb Hd _ _ _ L bl1 fl K _ []); try done; [lia|by rewrite app_nil_r|lia].
    - destruct (last_chunk _ _ _ _ _ _ _ _ _ HH1 Hi) as [[-> ->]|(l1 & x & -> & -> & _)]; [done|by rewrite last_last]. }
  intros [r|] s2; [intros HG; steps; by left|]. intros ->. steps. destruct (index_parts (bin_index nb + 1) ltac:(lia)) as [Ei Eb].
  pose proof (Z.mod_pos_bound (bin_index nb + 1) 32 ltac:(done)). rewrite Eb.
  assert (0 <= idx2block (bin_index nb + 1) <= 3) by (unfold idx2block, BINMAPSHIFT; rewrite Z.shiftr_div_pow2 by done; change (2 ^ 5) with 32; split; [apply Z.div_pos; lia|];
    assert ((bin_index nb + 1) / 32 < 4) by (apply Z.div_lt_upper_bound; lia); lia).
  set (blk := idx2block (bin_index nb + 1)) in *. set (k := (bin_index nb + 1) mod 32) in *. rewrite Ei.
  eapply twp_mono; [apply (twp_scan_bins nb Hnb Hd 100 s1 L bl1 fl K blk k HH1 HPar1 Hn1); lia|].
  intros [r|] s2; [intros HG; steps; by left|]. intros (bl2 & HH2 & HPar2 & Hn2 & Ecb2 & Emf2). apply twp_use_top; [by exists L, bl2, fl|].
  apply (again_ok_same s); [congruence|done].
Qed.

(** A chunk of a small bin has the size of the request. *)
Lemma small_exact z : (8 | z) -> nb < 256 -> bin_index z = bin_index nb -> 16 <= z -> z = nb.
Proof.
  intros Hdz Hs Hidx Hz. pose proof (bin_index_low nb ltac:(lia)). destruct (Z.lt_ge_cases z 256); [|pose proof (bin_index_high z); lia].
  rewrite !bin_index_small in Hidx by lia. destruct Hdz as [a ->], Hd as [b ->]. rewrite !Z.div_mul in Hidx by done. lia.
Qed.

Lemma twp_search s K : Run s K -> again_ok s K -> twp (search av_ heap heap_end again nb) (Served K) s.
Proof.
  intros HR HA. unfold search. destruct (in_smallbin_range nb) eqn:Es.
  - assert (nb < 256) as Hs by by apply Z.ltb_lt in Es. replace (smallbin_index nb) with (bin_index nb) by (unfold bin_index; by rewrite Es).
    pose proof HR as (L & bl & fl & HH & HPar). pose proof (bin_index_range nb ltac:(lia)) as Hidx. assert (is_bin (bin_index nb)) as Hi by (unfold is_bin; lia). steps. unfold bk.
    destruct (last_chunk _ _ _ _ _ _ _ _ _ HH Hi) as [[_ ->]|(l1 & x & El & -> & Hne & Ex8 & Ex12 & Eun)]; [rewrite Z.eqb_refl; by apply twp_search_bins|].
    rewrite (proj2 (Z.eqb_neq _ _)) by done. cbn [negb]. cbv iota. pose proof (base_small (av_ := av_)).
    destruct (free_open _ _ _ _ _ _ _ _ _ l1 x [] HH Hi El) as (z & L1 & L2 & EL & Exb & HL & HB & Hz & Hdz & Hidz & E0 & E1 & E2 & Hzt & HW). rewrite app_nil_r in HB.
    assert (z = nb) as -> by (apply small_exact; [done|done|apply Hidz; lia|done]). pose proof (lay_range HL).
    assert (node av_ (outside L1 (x + nb) L2) (rd (words s) (x + 12)) /\ node av_ (outside L1 (x + nb) L2) (bin_at (bin_index nb))) as [N1 N2].
    { split; apply (bins_node av_ _ _ _ (bin_index nb) _ HB Hi); [|by left]. rewrite upd_eq, Ex12. destruct l1 as [|y l1 _] using rev_ind; [by left|].
      rewrite last_last. right. apply elem_of_app. right. by left. }
    pose proof (node_place HL _ N1) as P1. pose proof (node_place HL _ N2) as P2.
    destruct (next_head _ _ _ _ _ _ _ _ _ _ _ _ HL) as (z' & Ez & Hdz' & Hz' & _). rewrite HW in Ez by lia. pose proof (size_bits z' false Hdz' ltac:(lia)) as (_ & _ & _ & _ & Elor).
    unfold set_inuse_bit_at_offset. steps. rewrite at_offset, chunk2mem_small by lia. unfold size, fd, PREV_INUSE. cbn [words set_words]. rewrite Ez, Elor.
    left. exists x, nb. split_and!; [done|done|]. eapply run_words; [|done]. eapply (heap_use (unlinked (words s) x)); try done.
    + rewrite HW, Ez by lia. rd_solve. simpl. lia.
    + intros w Hw. rewrite Eun. rewrite !rd_insert. repeat case_decide; try done; lia.
  - replace (largebin_index nb) with (bin_index nb) by (unfold bin_index; by rewrite Es). steps. destruct (have_fastchunks s) eqn:Ef.
    + eapply twp_mono; [exact (twp_malloc_consolidate s K HR)|]. intros _ s' (HR' & Hno & _). apply twp_search_bins; [done|by apply again_ok_none].
    + steps. by apply twp_search_bins.
Qed.

(** ** The fastbins *)

Lemma fast_exact z : (8 | z) -> fastbin_index z = fastbin_index nb -> z = nb.
Proof.
  intros [a ->] E. destruct Hd as [b ->]. unfold fastbin_index in E. rewrite !Z.shiftr_div_pow2 in E by done. change (2 ^ 3) with 8 in E. rewrite !Z.div_mul in E by done. lia.
Qed.

Lemma run_pop s K i : Run s K -> i = fastbin_index nb -> nb <= max_fast s -> fastbin i s <> 0 ->
  Run (set_fastbin i (rd (words s) (fastbin i s + 8)) s) ((fastbin i s, nb) :: K).
Proof.
  intros (L & bl & fl & HH & HPar) Ei Hle H0. pose proof (p_fast s HPar). assert (is_fastbin i) as Hi.
  { subst i. unfold is_fastbin, fastbin_index. rewrite Z.shiftr_div_pow2 by done. change (2 ^ 3) with 8. destruct Hd as [k ->]. rewrite Z.div_mul by done. lia. }
  destruct (fast_open _ _ _ _ _ _ _ _ i (fastbin i s) HH Hi eq_refl H0) as (z & l & L1 & L2 & pb & El & HL & HB & E & Hz & Hidx & EL & Ex).
  assert (z = nb) as -> by (apply fast_exact; [apply HL|congruence]).
  exists (L1 ++ (nb, Used) :: L2), bl, (upd i l fl). split; [|by destruct HPar]. split.
  - apply (lay_close _ _ _ _ _ _ Used _ _ _ _ _ _ _ HL); [done|done|done|]. apply fasts_mid; [done|]. rewrite <- Ex. apply HL.
  - apply (bins_ext av_ _ _ (outside L1 (fastbin i s + nb) L2)); [|done]. intros y t. rewrite outside_mid, <- Ex. split; [by left|by intros [?|?]].
Qed.
End Again.
End Request.

(** ** Requests *)

Lemma align_down_8 x : 0 <= x < 2 ^ 32 -> align_down x = x / 8 * 8.
Proof. intros. unfold align_down. change 0xfffffff8 with (Z.shiftl (Z.ones (32 - 3)) 3). by rewrite land_high_mask. Qed.

Lemma request_size bytes : 0 <= bytes -> REQUEST_OUT_OF_RANGE bytes = false ->
  16 <= request2size bytes <= 2 ^ 32 - 24 /\ (8 | request2size bytes) /\ bytes + 4 <= request2size bytes <= bytes + 16.
Proof.
  intros Hb Hr%Z.leb_gt. change (u32 (-2 * MINSIZE)) with (2 ^ 32 - 32) in Hr. unfold request2size. change MINSIZE with 16.
  replace (bytes + SIZE_SZ + MALLOC_ALIGN_MASK) with (bytes + 11) by (unfold SIZE_SZ, MALLOC_ALIGN_MASK, MALLOC_ALIGNMENT, SIZE_SZ; lia). rewrite uwrap_small by lia.
  destruct (Z.ltb_spec (bytes + 11) 16); [split; [lia|split; [by exists 2|lia]]|]. rewrite align_down_8 by lia.
  pose proof (Z.div_mod (bytes + 11) 8 ltac:(done)). pose proof (Z.mod_pos_bound (bytes + 11) 8 ltac:(done)).
  assert ((bytes + 11) / 8 <= (2 ^ 32 - 22) / 8) by (apply Z.div_le_mono; lia). change ((2 ^ 32 - 22) / 8) with (2 ^ 29 - 3) in *.
  assert (2 <= (bytes + 11) / 8) by (apply Z.div_le_lower_bound; lia).
  split; [lia|]. split; [by exists ((bytes + 11) / 8)|lia].
Qed.

(** The request of the second round is for the same size. *)
Lemma request_again nb : 16 <= nb <= 2 ^ 32 - 24 -> (8 | nb) -> 0 <= u32 (nb - MALLOC_ALIGN_MASK) /\ request2size (u32 (nb - MALLOC_ALIGN_MASK)) = nb.
Proof.
  intros Hnb Hd. change MALLOC_ALIGN_MASK with 7. rewrite uwrap_small by lia. split; [lia|]. unfold request2size. change MINSIZE with 16.
  replace (nb - 7 + SIZE_SZ + MALLOC_ALIGN_MASK) with (nb + 4) by (unfold SIZE_SZ, MALLOC_ALIGN_MASK, MALLOC_ALIGNMENT, SIZE_SZ; lia). rewrite uwrap_small by lia.
  rewrite (proj2 (Z.ltb_ge _ _)), align_down_8 by lia. destruct Hd as [k ->]. rewrite Z.add_comm, Z.div_add by done. change (4 / 8) with 0. lia.
Qed.

Lemma twp_malloc_once again s K bytes : 0 <= bytes -> Run s K -> (REQUEST_OUT_OF_RANGE bytes = true -> 2 ^ 31 <= request2size bytes) ->
  (16 <= request2size bytes <= 2 ^ 32 - 24 -> (8 | request2size bytes) -> again_ok (request2size bytes) again s K) ->
  twp (malloc_once av_ heap heap_end again bytes) (Served (request2size bytes) K) s.
Proof.
  intros Hb HR Hout HA. pose proof (base_small (av_ := av_)) as Hbs. unfold malloc_once. destruct (REQUEST_OUT_OF_RANGE bytes) eqn:Er.
  { steps. right. specialize (Hout eq_refl). pose proof HR as (L & bl & fl & HH & _). pose proof (top_head _ _ _ _ _ _ _ _ HH). split_and!; [done|done|lia]. }
  destruct (request_size bytes Hb Er) as (Hnb & Hd & _). set (nb := request2size bytes) in *. specialize (HA Hnb Hd).
  pose proof HR as (L & bl & fl & HH & HPar). pose proof (p_fast s HPar). pose proof (top_head _ _ _ _ _ _ _ _ HH) as Hth. steps.
  destruct (negb (have_anychunks s)); steps.
  - rewrite (proj2 (Z.eqb_neq _ _)) by lia. steps. by apply twp_use_top.
  - destruct (Z.leb_spec nb (max_fast s)); [|by apply twp_search]. steps. destruct (Z.eqb_spec (fastbin (fastbin_index nb) s) 0) as [E0|E0]; cbn [negb]; [by apply twp_search|].
    steps. pose proof (run_pop nb Hnb Hd s K _ HR eq_refl ltac:(done) E0) as HR'. left. exists (fastbin (fastbin_index nb) s), nb. split_and!; [|done|exact HR'].
    apply chunk2mem_small. destruct HR' as (L' & bl' & fl' & [HL' _] & _). pose proof (block_range HL' _ ltac:(by left)) as Hr. cbn [fst snd] in Hr.
    pose proof (lay_range HL'). lia.
Qed.

Lemma twp_mALLOc s K bytes : 0 <= bytes -> Run s K -> REQUEST_OUT_OF_RANGE bytes = false -> twp (mALLOc av_ heap heap_end bytes) (Served (request2size bytes) K) s.
Proof.
  intros Hb HR Hr. apply twp_malloc_once; [done|done|congruence|]. intros Hnb Hd _ s' HR' Hno. destruct (request_again _ Hnb Hd) as [Hb' Ereq].
  rewrite <- Ereq at 2. apply twp_malloc_once; [done|done| |].
  - rewrite Ereq. unfold REQUEST_OUT_OF_RANGE. intros Ho%Z.leb_le. change (u32 (-2 * MINSIZE)) with (2 ^ 32 - 32) in Ho. change MALLOC_ALIGN_MASK with 7 in Ho.
    rewrite uwrap_small in Ho by lia. lia.
  - intros _ _. by apply again_ok_none.
Qed.
End Main.
