(* ===== verification/MallocStart.v ===== *)
(** * The first call

    The state of the allocator before the first call, its initialisation, and
    the first memory it gets from sbrk. *)

From S2P Require Import Prelude Runtime Malloc MallocLayout MallocInv MallocHole MallocLinks MallocFree MallocIndex MallocAlloc MallocMain.

Section Start.
Context {av_ heap heap_end : Z} {HP : HeapPlace av_ heap heap_end}.
Abbreviation bin_at := (bin_at av_).
Abbreviation Bins := (Bins av_).
Abbreviation base := (base heap).

(** What the loader leaves: zeroes, and the break at the start of the heap. *)
Definition blank : arena :=
  mk_arena ∅ heap 0 (replicate 10 0) 0 0 (replicate 4 0) (mk_tunables 0 0 0 0) 0 0 (mk_statistics 0 0 0 0 0).

(** After the initialisation, without memory. *)
Record Fresh (s : arena) : Prop := {
  f_par : Par s;
  f_top : top s = bin_at 1;
  f_head : rd (words s) (bin_at 1 + 4) = 0;
  f_brk : curbrk s = heap;
  f_fast : fastbins s = replicate 10 0;
  f_none : have_fastchunks s = false /\ have_anychunks s = false;
  f_bins : Bins (words s) (fun _ => []) []
}.

Lemma twp_malloc_init_state : twp (malloc_init_state av_) (fun _ => Fresh) blank.
Proof.
  unfold malloc_init_state. steps.
  apply (twp_for_each _ _ (fun l s => exists k m, l = seqZ k (96 - k) /\ 1 <= k <= 96 /\ s = set_words m blank /\
    (forall i, 1 <= i < k -> rd m (bin_at i + 8) = bin_at i /\ rd m (bin_at i + 12) = bin_at i) /\ rd m (bin_at 1 + 4) = 0)).
  - exists 1, ∅. split_and!; try done; lia.
  - intros i l s (k & m & El & Hk & -> & Hm & H0). destruct (decide (k = 96)) as [-> |Hne]; [done|]. rewrite seqZ_cons in El by lia. injection El as -> ->.
    steps. cbn [words set_words]. unfold bk, fd. exists (Z.succ k), (<[bin_at k + 8 := bin_at k]> (<[bin_at k + 12 := bin_at k]> m)). split; [f_equal; lia|]. split; [lia|]. split; [done|]. split.
    + intros i Hi. destruct (decide (i = k)) as [-> |]; [split; rd_solve|]. destruct (Hm i ltac:(lia)). unfold Malloc.bin_at in *. split; rd_solve.
    + unfold Malloc.bin_at in *. rd_solve.
  - intros s (k & m & El & Hk & -> & Hm & H0). assert (k = 96) as -> by (destruct (decide (k = 96)); [done|]; rewrite seqZ_cons in El by lia; done).
    steps. unfold set_contiguous. steps. unfold set_max_fast. steps. split; try done.
    + split; try done. split; [done|]. split; [done|]. intros i Hi. assert (i = 0 \/ i = 1 \/ i = 2) as HE by lia. by destruct HE as [-> |[-> | ->]].
    + split; try done; try (intros; set_solver).
      intros. apply NoDup_nil_2.
Qed.

(** ** The first memory *)

Lemma base_correction : (if 0 <? Z.land (chunk2mem heap) MALLOC_ALIGN_MASK then MALLOC_ALIGNMENT - Z.land (chunk2mem heap) MALLOC_ALIGN_MASK else 0) = base - heap.
Proof.
  pose proof (base_small (av_ := av_)) as Hbs. pose proof (base_range heap). destruct HP. unfold chunk2mem, SIZE_SZ. rewrite uwrap_small by lia.
  change MALLOC_ALIGN_MASK with (Z.ones 3). rewrite Z.land_ones by done. change (2 ^ 3) with 8. change MALLOC_ALIGNMENT with 8.
  rewrite <- Zplus_mod_idemp_r. change ((2 * 4) mod 8) with 0. rewrite Z.add_0_r. unfold MallocInv.base.
  pose proof (Z.div_mod heap 8 ltac:(done)). pose proof (Z.mod_pos_bound heap 8 ltac:(done)).
  pose proof (Z.div_mod (heap + 7) 8 ltac:(done)). pose proof (Z.mod_pos_bound (heap + 7) 8 ltac:(done)).
  destruct (Z.ltb_spec 0 (heap mod 8)); lia.
Qed.

(** The end of the heap after both calls of sbrk. *)
Lemma twp_second_brk s sz old_end Q : pagesize s = 4096 -> contiguous s = true -> curbrk s = heap + sz -> heap + sz <= heap_end -> 0 < sz -> (4096 | sz) ->
  (forall brk snd correction, heap + sz <= brk <= heap_end -> (8 | brk - base) -> sz <= brk - base -> 0 <= snd -> snd <> MORECORE_FAILURE ->
     snd - base + correction = brk - base -> Q (snd, correction, base) (set_curbrk brk s)) ->
  twp (second_brk heap_end heap sz 0 old_end) Q s.
Proof.
  intros Hpg Hc Hbrk Hfit Hsz Hd HQ. pose proof (base_small (av_ := av_)) as Hbs. pose proof (base_range heap). pose proof HP as [Hav Hheap Hend Halign].
  unfold second_brk. steps. rewrite Hpg, Hc. change (4096 - 1) with 4095. change (true && negb (0 =? 0) && (heap <? old_end)) with false. cbv iota. steps. rewrite Hc.
  change (negb (0 =? 0)) with false. cbv iota. steps. rewrite base_correction. rewrite !Z.add_0_r. replace (heap + (base - heap)) with base by lia.
  rewrite (uwrap_small 32 base), (swrap_small 32 (base - heap)) by lia. replace (heap + sz + (base - heap)) with (base + sz) by lia.
  rewrite (uwrap_small 32 (base + sz)) by lia. rewrite page_down. rewrite (uwrap_small 32 (base + sz + 4095)) by lia.
  set (R := (base + sz + 4095) / 4096 * 4096). assert (base + sz <= R < base + sz + 4096) as HR.
  { unfold R. pose proof (Z.div_mod (base + sz + 4095) 4096 ltac:(done)). pose proof (Z.mod_pos_bound (base + sz + 4095) 4096 ltac:(done)). lia. }
  replace (base - heap + (R - (base + sz))) with (R - (heap + sz)) by lia. rewrite (swrap_small 32) by lia.
  assert (8 | base) as Hdb by apply base_divide. assert (8 | sz) as Hds by (transitivity 4096; [by exists 512|done]).
  apply twp_brk_plus; rewrite ?Hbrk; try lia.
  - intros Hle. unfold MORECORE_FAILURE. rewrite (proj2 (Z.eqb_neq _ _)) by (change (u32 (-1)) with (2 ^ 32 - 1); lia). rewrite (proj2 (Z.ltb_ge _ _)) by lia. steps.
    replace (heap + sz + (R - (heap + sz))) with R in * by lia. apply HQ; try lia.
    + apply Z.divide_sub_r; [|done]. transitivity 4096; [by exists 512|]. by exists ((base + sz + 4095) / 4096).
    + unfold MORECORE_FAILURE. change (u32 (-1)) with (2 ^ 32 - 1). lia.
  - intros Hgt. unfold MORECORE_FAILURE. rewrite Z.eqb_refl. steps. apply twp_brk0; [lia|lia|]. steps. rewrite Hbrk.
    assert (base = heap) as Eb.
    { destruct Halign as [[k Hk]|[k Hk]]; [destruct Hdb as [j Hj]; lia|]. exfalso. assert (base + sz <= heap_end) by (destruct Hdb as [j Hj], Hds as [i Hi]; lia).
      assert (R <= heap_end); [|lia]. unfold R. rewrite Hk in *. assert ((base + sz + 4095) / 4096 <= k); [|lia]. apply Z.lt_succ_r, Z.div_lt_upper_bound; lia. }
    replace s with (set_curbrk (heap + sz) s) by (rewrite <- Hbrk; by destruct s). apply HQ; try lia.
    + replace (heap + sz - base) with sz by lia. done.
    + unfold MORECORE_FAILURE. change (u32 (-1)) with (2 ^ 32 - 1). lia.
Qed.

Lemma heap_first m0 m brk : Bins m (fun _ => []) [] -> rd m (base + 4) = brk - base + 1 -> 16 <= brk - base -> (8 | brk - base) -> brk <= heap_end ->
  @Heap av_ heap heap_end [] m0 m base brk [] (fun _ => []) (fun _ => []) (replicate 10 0) [].
Proof.
  intros HB Hh Hr Hd Hb. split; [|done]. split; try done; try (simpl; lia).
  - split; [done|]. apply Z.divide_0_r.
  - split; try done; try (intros; set_solver).
    + intros i Hi. unfold is_fastbin in Hi. rewrite nth_lookup, lookup_replicate_2 by lia. done.
    + intros. apply NoDup_nil_2.
  - intros b Hb'. by apply not_elem_of_nil in Hb'.
Qed.

Section Request.
Context (m0 : gmap Z Z) (nb : Z) (Hnb : 16 <= nb <= 2 ^ 32 - 24) (Hd : (8 | nb)).
Abbreviation Got := (@Got av_ heap heap_end [] m0).

Lemma twp_first_memory s : Fresh s -> twp (sysmalloc_more av_ heap heap_end nb) (fun r s' => Got [] nb r s' \/ r = 0 /\ Fresh s' /\ heap_end < curbrk s' + nb + 4112) s.
Proof.
  intros HF. pose proof HF as [HPar Htop Hhead Hbrk Hfast _ HB]. pose proof HPar as [Hmf Hpg Hpad Hc Hmap]. pose proof (base_small (av_ := av_)) as Hbs. pose proof (base_range heap).
  pose proof HP as [Hav Hheap Hend _]. pose proof (bin_range av_ heap heap_end 1 ltac:(unfold is_bin; lia)) as Hb1.
  unfold sysmalloc_more. steps. rewrite Htop. apply (twp_chunksize _ 0 false); [done|apply Z.divide_0_r|lia|]. steps. rewrite Hpg, Hpad, Hc. change (4096 - 1) with 4095.
  rewrite Z.add_0_r. rewrite (nb_plus nb Hnb). rewrite Z.sub_0_r, (uwrap_small 32 (nb + 16)) by lia.
  pose proof (page_size (nb + 16) ltac:(lia)) as [Hpage Hpage2]. set (sz := s32 _) in *. rewrite at_offset, Z.add_0_r by lia.
  destruct (Z.ltb_spec 0 sz) as [Hsz|Hsz]; steps.
  2: { change (negb (MORECORE_FAILURE =? MORECORE_FAILURE)) with false. cbv iota. steps. right. split_and!; [done|done|lia]. }
  destruct (Hpage Hsz) as (Hsz1 & Hsz2 & Hdsz). apply twp_brk_plus; rewrite ?Hbrk; try lia.
  2: { intros Hno. unfold MORECORE_FAILURE. rewrite Z.eqb_refl. cbn [negb]. cbv iota. steps. right. split_and!; [done|done|lia]. }
  intros Hfit. unfold MORECORE_FAILURE at 1. rewrite (proj2 (Z.eqb_neq _ _)) by (change (u32 (-1)) with (2 ^ 32 - 1); lia). cbn [negb]. cbv iota. steps.
  rewrite (proj2 (Z.eqb_neq _ _)) by lia. cbv iota. steps. apply twp_second_brk; try done.
  intros brk snd correction Hbrk' Hd8 Hge Hsnd Hnf Esnd. cbn beta iota. rewrite (proj2 (Z.eqb_neq _ _)) by done. cbn [negb]. cbv iota. steps.
  rewrite Esnd. change (negb (0 =? 0)) with false. cbv iota. rewrite uwrap_small by lia. unfold PREV_INUSE, size. rewrite lor_size by (done || lia). steps. apply twp_modify. steps.
  match goal with |- twp _ _ ?s' => set (s1 := s') end. cbn [top set_top set_words set_stats].
  assert (@Heap av_ heap heap_end [] m0 (words s1) (top s1) (curbrk s1) [] (fun _ => []) (fun _ => []) (fastbins s1) []) as HH.
  { change (fastbins s1) with (fastbins s). rewrite Hfast. change (top s1) with base. change (curbrk s1) with brk. apply heap_first; try done; try lia.
    - apply (bins_frame av_ (words s)); [|done]. intros n [(i & Hi & ->)|(z & Hz)]; [|by apply not_elem_of_nil in Hz].
      pose proof (bin_range av_ heap heap_end i Hi). unfold s1. cbn [words set_top set_words set_stats set_curbrk]. split; rd_solve.
    - unfold s1. cbn [words set_top set_words set_stats set_curbrk]. by rewrite rd_insert_eq. }
  assert (Par s1) as HPar1 by by destruct HPar.
  apply (twp_chunksize _ (brk - base) true); [unfold s1; cbn [words set_top set_words set_stats set_curbrk]; by rewrite rd_insert_eq|done|lia|].
  rewrite (proj2 (Z.leb_le _ _)) by lia. change (take_top _ _ _) with (take_top (top s1) (curbrk s1 - top s1) nb).
  eapply twp_mono; [apply (twp_take_top s1 _ _ _ [] nb HH HPar1); [lia|done|]|intros r s' HG; by left]. change (nb + 16 <= brk - base). lia.
Qed.

Lemma twp_fresh_top again s : Fresh s -> twp (use_top av_ heap heap_end again nb) (fun r s' => Got [] nb r s' \/ r = 0 /\ Fresh s' /\ heap_end < curbrk s' + nb + 4112) s.
Proof.
  intros HF. pose proof HF as [_ Htop Hhead _ _ [Hno _] _]. unfold use_top. steps. rewrite Htop. apply (twp_chunksize _ 0 false); [done|apply Z.divide_0_r|lia|].
  rewrite (nb_plus nb Hnb), (proj2 (Z.leb_gt _ _)) by lia. unfold sYSMALLOc. steps. rewrite Hno. by apply twp_first_memory.
Qed.
End Request.

Lemma twp_first_mALLOc m0 bytes s : s = blank \/ Fresh s -> 0 <= bytes -> REQUEST_OUT_OF_RANGE bytes = false ->
  twp (mALLOc av_ heap heap_end bytes)
    (fun r s' => @Got av_ heap heap_end [] m0 [] (request2size bytes) r s' \/ r = 0 /\ Fresh s' /\ heap_end < curbrk s' + request2size bytes + 4112) s.
Proof.
  intros Hs Hb Er. change (mALLOc av_ heap heap_end bytes) with (malloc_once av_ heap heap_end (malloc_rounds av_ heap heap_end 1) bytes). unfold malloc_once. rewrite Er.
  destruct (request_size bytes Hb Er) as (Hnb & Hd & _). steps.
  assert (have_anychunks s = false) as -> by (destruct Hs as [-> |HF]; [done|by destruct HF as [_ _ _ _ _ [_ ?] _]]). cbn [negb]. cbv iota. steps.
  apply (twp_mono _ (fun _ => Fresh)).
  - destruct Hs as [-> |HF].
    + change (max_fast blank =? 0) with true. cbv iota. unfold malloc_consolidate. steps. change (negb (max_fast blank =? 0)) with false. cbv iota. apply twp_malloc_init_state.
    + pose proof (p_fast s (f_par s HF)). rewrite (proj2 (Z.eqb_neq _ _)) by lia. by steps.
  - intros _ s' HF. by apply (twp_fresh_top m0).
Qed.
End Start.
