(* ===== verification/MallocReady.v ===== *)
(** * The allocator between two calls

    [Ready]: the heap is consistent and holds the blocks of its clients, which
    are apart from each other.  mALLOc and fREe keep it, and so do writes inside
    a block; none of them changes the contents of another block. *)

From S2P Require Import Prelude Runtime Malloc MallocLayout MallocInv MallocHole MallocLinks MallocFree MallocIndex MallocAlloc MallocMain MallocStart.

(** Blocks that do not overlap. *)
Definition beside (b c : Z * Z) : Prop := b.1 + b.2 <= c.1 \/ c.1 + c.2 <= b.1.
Fixpoint separate (K : list (Z * Z)) : Prop :=
  match K with [] => True | b :: K' => (forall c, c ∈ K' -> beside b c) /\ separate K' end.

Lemma separate_perm K K' : K ≡ₚ K' -> separate K -> separate K'.
Proof.
  induction 1 as [|b K K' HP IH|b c K|K1 K2 K3 _ IH1 _ IH2]; simpl; [done|..|auto].
  - intros [H1 H2]. split; [|auto]. intros c Hc. apply H1. by rewrite HP.
  - intros (H1 & H2 & H3). split_and!; [|intros d Hd; apply H1; by right|done]. intros d [-> |Hd]%elem_of_cons; [|by apply H2].
    specialize (H1 b ltac:(by left)). unfold beside in *. lia.
Qed.

Lemma separate_layout a L : Forall chunk_ok L -> (8 | a) -> separate (blocks (layout a L)).
Proof.
  intros HF. revert a. induction HF as [|[z st] L [Hz Hd] HF IH]; intros a Ha; simpl in *; [done|]. assert (8 | a + z) as Ha' by by apply Z.divide_add_r.
  destruct st; simpl; [|by apply IH..]. split; [|by apply IH]. intros c Hc. apply block_elem in Hc. destruct (layout_bounds _ _ _ _ _ HF Ha' Hc) as (? & _). left. done.
Qed.

(** ** Clearing words *)

Lemma twp_zero_loop p k (Q : unit -> arena -> Prop) s : 0 <= p -> 0 <= k -> p + 4 * k < 2 ^ 32 ->
  (forall m', (forall i, 0 <= i < k -> rd m' (p + 4 * i) = 0) -> (forall w, w < p \/ p + 4 * k <= w -> rd m' w = rd (words s) w) -> Q tt (set_words m' s)) ->
  twp (for_each (seqZ 0 k) (fun i => store (u32 (p + 4 * i)) 0)) Q s.
Proof.
  intros Hp Hk Hle HQ.
  apply (twp_for_each _ _ (fun l s' => exists j m, l = seqZ j (k - j) /\ 0 <= j <= k /\ s' = set_words m s /\
    (forall i, 0 <= i < j -> rd m (p + 4 * i) = 0) /\ forall w, w < p \/ p + 4 * k <= w -> rd m w = rd (words s) w)).
  - exists 0, (words s). split; [by rewrite Z.sub_0_r|]. split; [lia|]. split; [by rewrite set_words_same|]. split; [lia|done].
  - intros i l s' (j & m & El & Hj & -> & H0 & HW). destruct (decide (j = k)) as [-> |Hne]; [by rewrite Z.sub_diag in El|]. rewrite seqZ_cons in El by lia. injection El as -> ->.
    steps. cbn [words set_words]. rewrite uwrap_small by lia. exists (Z.succ j), (<[p + 4 * j := 0]> m). split; [f_equal; lia|]. split; [lia|]. split; [done|]. split.
    + intros i Hi. destruct (decide (i = j)) as [-> |]; [by rewrite rd_insert_eq|]. rewrite rd_insert_ne by lia. apply H0. lia.
    + intros w Hw. rewrite rd_insert_ne by lia. by apply HW.
  - intros s' (j & m & El & Hj & -> & H0 & HW). assert (j = k) as -> by (destruct (decide (j = k)); [done|]; rewrite seqZ_cons in El by lia; done). by apply HQ.
Qed.

(** memset from a word on: the words it covers are zero, those after its last
    byte are unchanged. *)
Lemma twp_zero_bytes p n (Q : unit -> arena -> Prop) s : 0 <= p -> 0 <= n -> p + n < 2 ^ 32 ->
  (forall m', (forall i, 0 <= i -> 4 * i + 4 <= n -> rd m' (p + 4 * i) = 0) -> (forall w, w < p \/ p + n <= w -> rd m' w = rd (words s) w) -> Q tt (set_words m' s)) ->
  twp (zero_bytes p n) Q s.
Proof.
  intros Hp Hn Hle HQ. unfold zero_bytes. pose proof (Z.div_mod n 4 ltac:(done)). pose proof (Z.mod_pos_bound n 4 ltac:(done)). set (k := n / 4) in *. set (r := n mod 4) in *. steps.
  apply twp_zero_loop; [lia..|]. intros m HZ HW. destruct (Z.eqb_spec r 0); steps; [apply HQ; [intros; apply HZ|intros; apply HW]; lia|].
  cbn [words set_words]. rewrite uwrap_small by lia. apply HQ.
  - intros i Hi Hi'. rewrite rd_insert_ne by lia. apply HZ. lia.
  - intros w Hw. rewrite rd_insert_ne by lia. apply HW. lia.
Qed.

Lemma twp_zero_words p n (Q : unit -> arena -> Prop) s : 0 <= p -> 0 <= n -> p + 4 * n < 2 ^ 32 ->
  (forall m', (forall i, 0 <= i < n -> rd m' (p + 4 * i) = 0) -> (forall w, w < p \/ p + 4 * n <= w -> rd m' w = rd (words s) w) -> Q tt (set_words m' s)) ->
  twp (zero_bytes p (4 * n)) Q s.
Proof. intros Hp Hn Hle HQ. apply twp_zero_bytes; [done|lia|done|]. intros m' Hz Hw. apply HQ; [intros; apply Hz; lia|done]. Qed.

Section Ready.
Context {av_ heap heap_end : Z} {HP : HeapPlace av_ heap heap_end}.
Abbreviation blank := (@blank heap).
Abbreviation Fresh := (@Fresh av_ heap).
Abbreviation mALLOc := (mALLOc av_ heap heap_end).
Abbreviation fREe := (fREe av_ heap heap_end).

(** The allocator between two calls, with the blocks [K]: the address of the
    chunk and its size. *)
Definition Ready (s : arena) (K : list (Z * Z)) : Prop := K = [] /\ (s = blank \/ Fresh s) \/ @Run av_ heap heap_end [] ∅ s K.

(** The contents of the blocks [K] are the same. *)
Definition kept (K : list (Z * Z)) (s s' : arena) : Prop := forall b w, b ∈ K -> inside b w -> rd (words s') w = rd (words s) w.

Lemma kept_trans K s1 s2 s3 : kept K s1 s2 -> kept K s2 s3 -> kept K s1 s3.
Proof. intros H1 H2 b w Hb Hw. by rewrite (H2 b w Hb Hw), (H1 b w Hb Hw). Qed.

Lemma run_rebase B m B' m' s K : @Run av_ heap heap_end B m s K -> (forall b, b ∈ B' -> b ∈ K /\ forall w, inside b w -> rd (words s) w = rd m' w) ->
  @Run av_ heap heap_end B' m' s K.
Proof. intros (L & bl & fl & [[] HB] & HPar) HB'. exists L, bl, fl. split; [|done]. split; [|done]. by split. Qed.

Lemma run_ready B m s K : @Run av_ heap heap_end B m s K -> Ready s K.
Proof. intros HR. right. apply (run_rebase B m); [done|]. intros b Hb. by apply not_elem_of_nil in Hb. Qed.

Lemma run_kept s s' K K' : @Run av_ heap heap_end K (words s) s' K' -> kept K s s'.
Proof. intros (L & bl & fl & [HL _] & _) b w Hb Hw. by apply (h_data _ _ _ _ _ _ _ _ _ _ _ _ HL b Hb). Qed.

Lemma ready_brk s K : Ready s K -> heap <= curbrk s.
Proof.
  intros [[_ [-> |HF]]|(L & bl & fl & [HL _] & _)]; [done|by destruct HF as [_ _ _ -> _ _ _]|]. pose proof (lay_range HL). pose proof (base_range heap). lia.
Qed.

Lemma ready_mALLOc s K bytes : Ready s K -> 0 <= bytes ->
  twp (mALLOc bytes) (fun r s' =>
    ((exists p n, r = p + 8 /\ bytes + 4 <= n /\ Ready s' ((p, n) :: K)) \/ r = 0 /\ Ready s' K /\ heap_end < curbrk s' + bytes + 4128) /\ kept K s s') s.
Proof.
  intros HR Hb. destruct (REQUEST_OUT_OF_RANGE bytes) eqn:Er.
  { exists 0, s. split; [|split; [right; split; [done|split; [done|]]|done]]; [unfold Malloc.mALLOc, malloc_rounds, malloc_once; by rewrite Er|].
    apply Z.leb_le in Er. change (u32 (-2 * MINSIZE)) with (2 ^ 32 - 32) in Er. pose proof (ready_brk s K HR). pose proof (base_small (av_ := av_)). pose proof (base_range heap). lia. }
  destruct (request_size bytes Hb Er) as (_ & _ & Hn & Hn2). destruct HR as [[-> HF]|HR].
  - eapply twp_mono; [by apply (twp_first_mALLOc ∅)|]. intros r s' [(p & n & -> & Hle & HG)|(-> & HF' & Hfull)].
    + split; [left; exists p, n; split_and!; [done|lia|by apply (run_ready [] ∅)]|]. intros b w Hb'. by apply not_elem_of_nil in Hb'.
    + split; [right; split_and!; [done|left; split; [done|by right]|lia]|]. intros b w Hb'. by apply not_elem_of_nil in Hb'.
  - apply (run_rebase _ _ K (words s)) in HR; [|done]. eapply twp_mono; [exact (twp_mALLOc s K bytes Hb HR Er)|].
    intros r s' [(p & n & -> & Hle & HG)|(-> & HR' & Hfull)].
    + split; [left; exists p, n; split_and!; [done|lia|by eapply run_ready]|by eapply run_kept].
    + split; [right; split_and!; [done|by eapply run_ready|lia]|by eapply run_kept].
Qed.

Lemma ready_fREe s p n K : Ready s ((p, n) :: K) -> twp (fREe (p + 8)) (fun _ s' => Ready s' K /\ kept K s s') s.
Proof.
  intros [[? _]|HR]; [done|]. apply (run_rebase _ _ K (words s)) in HR; [|intros b Hb; split; [by right|done]].
  eapply twp_mono; [exact (twp_fREe s p n K HR (fun b Hb => Hb))|]. intros u s' HR'. split; [exact (run_ready _ _ s' K HR')|exact (run_kept s s' K K HR')].
Qed.

Lemma ready_perm s K K' : K ≡ₚ K' -> Ready s K -> Ready s K'.
Proof.
  intros HK [[-> HF]|(L & bl & fl & [HL HB] & HPar)]; [apply Permutation_nil_l in HK; left; by split|].
  right. exists L, bl, fl. split; [|done]. split; [|done]. by apply (lay_perm HL).
Qed.

(** Whatever is written inside a block. *)
Lemma ready_writes s K b m' : Ready s K -> b ∈ K -> (forall w, ~ inside b w -> rd m' w = rd (words s) w) -> Ready (set_words m' s) K.
Proof.
  intros [[-> _]|(L & bl & fl & [HL HB] & HPar)] Hb HW; [by apply not_elem_of_nil in Hb|]. right. exists L, bl, fl. split; [|by destruct HPar].
  pose proof (lay_block HL b Hb) as Hc. pose proof (block_range HL b Hb) as (_ & Hb16 & Hdb & Hdn & Htop & _). unfold inside in HW. pose proof (lay_ok HL) as [_ Hap].
  cbn [words set_words top curbrk fastbins]. split.
  - apply (lay_change HL).
    + intros x z st Hx. pose proof (outside_range HL _ _ _ Hx) as (_ & Hz & Hdx & Hdz & _). destruct (Hap _ _ Hc Hx) as [E|E]; cbn [fst snd] in E.
      * injection E as <- <- <-. split_and!; try done; [apply HW; lia|]. intros _ Hin. by apply not_elem_of_nil in Hin.
      * destruct Hdb as [i Hi], Hdn as [j Hj], Hdx as [k Hk], Hdz as [l Hl].
        split_and!; [apply HW; lia|intros ->; apply HW; lia|intros ->; apply HW; lia|]. intros _ Hin. by apply not_elem_of_nil in Hin.
    + apply HW. lia.
  - apply (bins_frame av_ (words s)); [|done]. intros m Hm. rewrite <- (outside_nil _ (top s + 0)) in Hm. destruct (node_place HL _ Hm) as (_ & _ & _ & Hpl).
    destruct (Hpl _ _ _ Hc ltac:(done)); split; apply HW; lia.
Qed.

(** The head of the chunk of a block. *)
Lemma ready_head s K b : Ready s K -> b ∈ K -> (8 | b.2) /\ exists pb, rd (words s) (b.1 + 4) = b.2 + Z.b2z pb.
Proof.
  intros [[-> _]|(L & bl & fl & [HL HB] & HPar)] Hb; [by apply not_elem_of_nil in Hb|]. pose proof (block_range HL b Hb) as (_ & _ & _ & Hd & _). split; [done|].
  pose proof (lay_block HL b Hb) as Hc. rewrite outside_nil in Hc. destruct (layout_split _ _ _ _ _ Hc) as (L1 & L2 & -> & ->).
  pose proof (h_tags1 _ _ _ _ _ _ _ _ _ _ _ _ HL) as HT. apply tags_app in HT as (pb & _ & E & _). by exists pb.
Qed.

Lemma ready_blocks s K : Ready s K -> separate K /\ forall b, b ∈ K -> heap <= b.1 /\ (8 | b.1) /\ 16 <= b.2 /\ b.1 + b.2 + 16 <= curbrk s <= heap_end.
Proof.
  intros [[-> _]|(L & bl & fl & [HL HB] & HPar)]; [split; [done|]; intros b Hb; by apply not_elem_of_nil in Hb|]. split.
  - pose proof HL as [Hok _ _ _ _ _ _ _ _ _ HK _]. rewrite outside_nil in HK. apply (separate_perm _ _ HK), separate_layout; [done|apply base_divide].
  - intros b Hb. pose proof (block_range HL b Hb) as (? & ? & ? & ? & ? & _). pose proof (lay_range HL). pose proof (base_range heap). split_and!; try done; lia.
Qed.

(** Whatever is written inside a block, the others keep their contents. *)
Lemma ready_write s K b m' : Ready s (b :: K) -> (forall w, ~ inside b w -> rd m' w = rd (words s) w) ->
  Ready (set_words m' s) (b :: K) /\ kept K s (set_words m' s).
Proof.
  intros HR HW. split; [apply (ready_writes s _ b); [done|by left|done]|]. destruct (ready_blocks _ _ HR) as [[HS _] _]. intros c w Hc Hw. apply HW. specialize (HS c Hc).
  unfold inside, beside in *. lia.
Qed.

Lemma kept_sub K K' s s' : (forall b, b ∈ K' -> b ∈ K) -> kept K s s' -> kept K' s s'.
Proof. intros Hsub Hk b w Hb. by apply Hk, Hsub. Qed.
End Ready.
