(* ===== verification/MallocResize.v ===== *)
(** * Resizing blocks (rEALLOc) and clearing them (cALLOc)

    rEALLOc keeps the contents of the block on each of its paths: the chunk is
    large enough, it grows into the top or into the free chunk after it, or it
    moves to a new one. *)

From S2P Require Import Prelude Malloc MallocLayout MallocInv MallocHole MallocLinks MallocFree MallocAlloc MallocMain MallocReady.

(** ** Copies *)

Lemma twp_copy_words d p k (Q : unit -> arena -> Prop) s : 0 <= d -> 0 <= p -> 0 <= k -> d + 4 * k < 2 ^ 32 -> p + 4 * k < 2 ^ 32 -> (d + 4 * k <= p \/ p + 4 * k <= d) ->
  (forall m', (forall i, 0 <= i < k -> rd m' (d + 4 * i) = rd (words s) (p + 4 * i)) -> (forall w, w < d \/ d + 4 * k <= w -> rd m' w = rd (words s) w) -> Q tt (set_words m' s)) ->
  twp (copy_words d p k) Q s.
Proof.
  intros Hd Hp Hk Hd2 Hp2 Hap HQ. unfold copy_words.
  apply (twp_for_each _ _ (fun l s' => exists j m, l = seqZ j (k - j) /\ 0 <= j <= k /\ s' = set_words m s /\
    (forall i, 0 <= i < j -> rd m (d + 4 * i) = rd (words s) (p + 4 * i)) /\ forall w, w < d \/ d + 4 * k <= w -> rd m w = rd (words s) w)).
  - exists 0, (words s). split; [by rewrite Z.sub_0_r|]. split; [lia|]. split; [by rewrite set_words_same|]. split; [lia|done].
  - intros i l s' (j & m & El & Hj & -> & H0 & HW). destruct (decide (j = k)) as [-> |Hne]; [by rewrite Z.sub_diag in El|]. rewrite seqZ_cons in El by lia. injection El as -> ->.
    steps. cbn [words set_words]. rewrite !uwrap_small by lia. exists (Z.succ j), (<[d + 4 * j := rd m (p + 4 * j)]> m). split; [f_equal; lia|]. split; [lia|]. split; [done|]. split.
    + intros i Hi. destruct (decide (i = j)) as [-> |]; [rewrite rd_insert_eq; apply HW; lia|]. rewrite rd_insert_ne by lia. apply H0. lia.
    + intros w Hw. rewrite rd_insert_ne by lia. by apply HW.
  - intros s' (j & m & El & Hj & -> & H0 & HW). assert (j = k) as -> by (destruct (decide (j = k)); [done|]; rewrite seqZ_cons in El by lia; done). by apply HQ.
Qed.

(** The words of a chunk: an odd number, of which the unrolled copy treats all. *)
Lemma unrolled_chunk n : (8 | n) -> 16 <= n -> unrolled ((n - SIZE_SZ) / 4) = (n - 4) / 4 /\ 4 * ((n - 4) / 4) = n - 4.
Proof.
  intros [k ->] Hn. change SIZE_SZ with 4. replace (k * 8 - 4) with ((2 * k - 1) * 4) by lia. rewrite Z.div_mul by done. split; [|lia].
  unfold unrolled. repeat case_match; rewrite ?Z.ltb_lt, ?Z.ltb_ge in *; lia.
Qed.

Section Resize.
Context {av_ heap heap_end : Z} {HP : HeapPlace av_ heap heap_end} {B0 : list (Z * Z)} {m0 : gmap Z Z}.
Abbreviation Bins := (Bins av_).
Abbreviation base := (base heap).
Abbreviation outside := (@outside heap).
Abbreviation Lay := (@Lay heap heap_end B0 m0).
Abbreviation Heap := (@Heap av_ heap heap_end B0 m0).

(** A hole becomes a block and the chunk after it is told. *)
Lemma heap_used m m' tp brk L1 p sz L2 pb1 pb2 fl fb K bl : Lay m tp brk L1 p sz L2 pb1 pb2 fl fb K -> Bins m bl (outside L1 (p + sz) L2) -> 16 <= sz ->
  rd m (p + 4) = sz + Z.b2z pb1 -> rd m' (p + sz + 4) = Z.lor (rd m (p + sz + 4)) 1 -> (forall w, w <> p + sz + 4 -> rd m' w = rd m w) ->
  Heap m' tp brk (L1 ++ (sz, Used) :: L2) bl fl fb ((p, sz) :: K).
Proof.
  intros HL HB Hsz E1 E2 HW. pose proof HL as [_ _ Hp _ _ _ _ _ _ _ _ _]. destruct (next_head _ _ _ _ _ _ _ _ _ _ _ _ HL) as (z & Ez & Hd & Hz & _ & Hnext).
  rewrite Ez in E2. destruct (size_bits z pb2 Hd ltac:(lia)) as (_ & _ & _ & _ & El). rewrite El in E2.
  assert (Lay m' tp brk L1 p sz L2 pb1 true fl fb K) as HL1.
  { destruct L2 as [|[s2 st2] L3].
    - destruct Hnext as (-> & _). apply (lay_inside HL). intros w Hw. destruct (decide (w = p + sz + 4)) as [-> |]; [by rewrite E2, Ez|by apply HW].
    - destruct Hnext as (-> & _). by apply (lay_tell m _ _ _ _ _ _ _ _ _ _ _ _ _ _ _ HL). }
  split.
  - apply (lay_close _ _ _ _ _ _ Used _ _ _ _ _ _ _ HL1); [done| |done|apply fasts_mid; [done|]; rewrite <- Hp; apply HL1]. rewrite HW by lia. done.
  - apply (bins_ext av_ _ _ (outside L1 (p + sz) L2)); [|apply (bins_inside HL); [done|]; intros w Hw; apply HW; lia].
    intros x s. rewrite outside_mid, <- Hp. split; [by left|]. by intros [?|?].
Qed.

(** The start of a hole becomes a block and the rest another one. *)
Lemma heap_two m m' tp brk L1 p sz nb L2 pb1 pb2 fl fb K bl : Lay m tp brk L1 p sz L2 pb1 pb2 fl fb K -> Bins m bl (outside L1 (p + sz) L2) ->
  16 <= nb -> (8 | nb) -> nb + 16 <= sz -> rd m' (p + 4) = nb + Z.b2z pb1 -> rd m' (p + nb + 4) = sz - nb + 1 ->
  rd m' (p + sz + 4) = Z.lor (rd m (p + sz + 4)) 1 -> (forall w, w <> p + 4 -> w <> p + nb + 4 -> w <> p + sz + 4 -> rd m' w = rd m w) ->
  exists L, Heap m' tp brk L bl fl fb ((p + nb, sz - nb) :: (p, nb) :: K).
Proof.
  intros HL HB Hnb Hd Hsz E1 E2 E3 HW. set (m1 := <[p + nb + 4 := sz - nb + 1]> (<[p + 4 := nb + Z.b2z pb1]> m)).
  assert (forall w, w < p + 4 \/ p + sz < w -> rd m1 w = rd m w) as HW1 by (intros; unfold m1; rd_solve).
  pose proof (lay_split m1 tp brk L1 p sz nb L2 pb1 pb2 fl fb K (lay_inside HL m1 HW1) ltac:(lia) Hd ltac:(unfold m1; rd_solve)) as HL2.
  eexists. apply (heap_used m1 m' _ _ _ _ _ _ _ _ _ _ _ bl HL2).
  - replace (p + nb + (sz - nb)) with (p + sz) by lia. apply (bins_ext av_ _ _ (outside L1 (p + sz) L2)).
    + intros y t. unfold MallocHole.outside. rewrite layout_app, !elem_of_app. simpl. rewrite list_elem_of_singleton. naive_solver.
    + apply (bins_inside HL); [done|]. intros w Hw. apply HW1. lia.
  - lia.
  - unfold m1. rd_solve.
  - replace (p + nb + (sz - nb) + 4) with (p + sz + 4) by lia. rewrite E3, HW1 by lia. done.
  - intros w Hw. unfold m1. rewrite !rd_insert. repeat case_decide; subst; [done..|]. apply HW; lia.
Qed.

(** A hole takes in the block after it. *)
Lemma lay_absorb_used m tp brk L1 p sz n L2 pb1 pb2 fl fb K : Lay m tp brk L1 p sz L2 pb1 pb2 fl fb ((p + sz, n) :: K) -> (forall b, b ∈ B0 -> b ∈ K) ->
  exists L3, L2 = (n, Used) :: L3 /\ Lay m tp brk L1 p (sz + n) L3 pb1 true fl fb K.
Proof.
  intros HL HB0. pose proof (lay_block HL (p + sz, n) ltac:(by left)) as Hin. simpl in Hin. destruct (outside_range HL _ _ _ Hin) as (_ & Hn & _ & Hdn & Htop & _).
  destruct L2 as [|[s2 st2] L3]; [pose proof (h_top _ _ _ _ _ _ _ _ _ _ _ _ HL) as Ht; simpl in Ht; lia|].
  assert ((p + sz, s2, st2) ∈ outside L1 (p + sz) ((s2, st2) :: L3)) as Hin2 by (apply elem_of_app; right; simpl; by left).
  pose proof (outside_range HL _ _ _ Hin2) as (_ & Hs2 & _). destruct (proj2 (lay_ok HL) _ _ Hin Hin2) as [[= <- <-]|Hap]; [|simpl in Hap; lia].
  exists L3. split; [done|]. destruct HL as [H1 H2 Hp [Hs Hd] Ht T1 T2 Hh Hr Hf Hb HD]. apply Forall_cons in H2 as [_ H2]. destruct T2 as (_ & _ & T2). simpl in T2.
  assert (p + (sz + n) = p + sz + n) as Eq by lia. split; rewrite ?Eq; try done.
  - split; [lia|by apply Z.divide_add_r].
  - rewrite Ht. simpl. lia.
  - apply (fasts_frame m m fb fl (outside L1 (p + sz) ((n, Used) :: L3))); [done| |done]. intros x t. unfold MallocHole.outside. simpl. rewrite !elem_of_app, elem_of_cons. naive_solver.
  - apply (Permutation_cons_inv (a := (p + sz, n))). rewrite <- Hb. unfold MallocHole.outside. rewrite !blocks_app. simpl. by rewrite <- Permutation_middle.
  - intros b Hb'. split; [by apply HB0|by apply HD].
Qed.
End Resize.

Section Realloc.
Context {av_ heap heap_end : Z} {HP : HeapPlace av_ heap heap_end}.
Abbreviation Bins := (Bins av_).
Abbreviation outside := (@outside heap).
Abbreviation Ready := (@Ready av_ heap heap_end).
Abbreviation Run B m := (@Run av_ heap heap_end B m).
Abbreviation trim_chunk := (trim_chunk av_ heap heap_end).
Abbreviation rEALLOc := (rEALLOc av_ heap heap_end).

(** ** The end of rEALLOc *)

(** The hole from [p] on becomes a block of at least [nb] bytes, and its words
    stay. *)
Lemma twp_trim B m0 s L1 p sz L2 pb1 pb2 fl K bl nb : @Lay heap heap_end B m0 (words s) (top s) (curbrk s) L1 p sz L2 pb1 pb2 fl (fastbins s) K ->
  Bins (words s) bl (outside L1 (p + sz) L2) -> Par s -> 16 <= nb <= sz -> (8 | nb) -> Z.land (rd (words s) (p + 4)) 1 = Z.b2z pb1 ->
  twp (trim_chunk p sz nb) (fun r s' => r = p + 8 /\ exists n, nb <= n /\ Run B m0 s' ((p, n) :: K) /\ forall w, inside (p, n) w -> rd (words s') w = rd (words s) w) s.
Proof.
  intros HL HB HPar Hnb Hd Ebit. pose proof (base_small (av_ := av_) (heap := heap) (heap_end := heap_end)). pose proof (lay_range HL). pose proof HL as [_ _ _ [_ Hdz] _ _ _ _ _ _ _ HD].
  unfold Malloc.trim_chunk, set_head_size, set_inuse_bit_at_offset. rewrite (uwrap_small 32 (sz - nb)) by lia. change MINSIZE with 16. apply twp_bind. unfold PREV_INUSE.
  destruct (Z.ltb_spec (sz - nb) 16) as [Hlt|Hge]; steps.
  - cbn [words set_words]. unfold size. rewrite chunk2mem_small, Ebit, at_offset, lor_head_size by (done || lia). split; [done|]. exists sz. split; [lia|]. split.
    + eapply run_words; [|done]. eapply (heap_used (<[p + 4 := sz + Z.b2z pb1]> (words s))).
      * apply (lay_inside HL). intros; rd_solve.
      * apply (bins_inside HL); [done|]. intros; rd_solve.
      * lia.
      * rd_solve.
      * rewrite rd_insert_eq. done.
      * intros w Hw. by rewrite rd_insert_ne.
    + intros w Hw. unfold inside in Hw. simpl in Hw. cbn [words set_words]. rd_solve.
  - cbn [words set_words]. unfold size. rewrite Ebit, !at_offset, lor_head_size, (lor_size (sz - nb)), chunk2mem_small by (try done; try lia; by apply Z.divide_sub_r).
    replace (p + nb + (sz - nb)) with (p + sz) by lia. match goal with |- twp _ _ (set_words ?M _) => set (m2 := M) end.
    destruct (heap_two (words s) m2 _ _ _ _ _ nb _ _ _ _ _ _ _ HL HB) as (L & HH); try done; try lia.
    { unfold m2. rd_solve. }
    { unfold m2. rd_solve. }
    { unfold m2. rd_solve. }
    { intros w Hw1 Hw2 Hw3. unfold m2. rd_solve. }
    assert (Run ((p, nb) :: K) m2 (set_words m2 s) ((p + nb, sz - nb) :: (p, nb) :: K)) as HR.
    { apply (run_rebase B m0); [by eapply run_words|]. intros b Hb. split; [by right|done]. }
    eapply twp_mono; [exact (twp_fREe _ _ _ _ HR ltac:(done))|]. intros u s' HR'. steps. split; [by apply chunk2mem_small; lia|]. exists nb. split; [done|].
    pose proof HR' as (? & ? & ? & [HL' _] & _). pose proof (h_data _ _ _ _ _ _ _ _ _ _ _ _ HL') as HD'. split.
    + apply (run_rebase ((p, nb) :: K) m2); [done|]. intros b Hb. destruct (HD b Hb) as [HbK Hw]. split; [by right|]. intros w Hin.
      destruct (HD' b ltac:(by right)) as [_ E]. rewrite E by done. rewrite <- Hw by done.
      pose proof (h_data _ _ _ _ _ _ _ _ _ _ _ _ (proj1 HH) b Hb) as [_ E']. by rewrite E', Hw.
    + intros w Hw. destruct (HD' (p, nb) ltac:(by left)) as [_ ->]; [|done]. unfold inside in Hw. simpl in Hw. unfold m2. rd_solve.
Qed.

(** ** rEALLOc *)

Definition Resized (s : arena) (p n : Z) (K : list (Z * Z)) (bytes r : Z) (s' : arena) : Prop :=
  kept K s s' /\
  (r = 0 /\ Ready s' ((p, n) :: K) /\ kept [(p, n)] s s' /\ heap_end < curbrk s' + bytes + 4144 \/
   exists p' n', r = p' + 8 /\ bytes + 4 <= n' /\ Ready s' ((p', n') :: K) /\
     forall i, 0 <= i -> (4 | i) -> i < n - 4 -> i < n' - 4 -> rd (words s') (p' + 8 + i) = rd (words s) (p + 8 + i)).

Lemma resized_trim s s1 p n K bytes L1 sz L2 pb1 pb2 fl bl :
  @Lay heap heap_end K (words s) (words s1) (top s1) (curbrk s1) L1 p sz L2 pb1 pb2 fl (fastbins s1) K -> Bins (words s1) bl (outside L1 (p + sz) L2) -> Par s1 ->
  0 <= bytes -> REQUEST_OUT_OF_RANGE bytes = false -> request2size bytes <= sz -> rd (words s1) (p + 4) = n + Z.b2z pb1 -> (8 | n) -> 0 <= n < 2 ^ 32 ->
  (forall w, inside (p, n) w -> rd (words s1) w = rd (words s) w) -> twp (trim_chunk p sz (request2size bytes)) (Resized s p n K bytes) s1.
Proof.
  intros HL HB HPar Hb Hr Hle E Hdn Hn HW. destruct (request_size bytes Hb Hr) as (H16 & Hd & Hnb). destruct (size_bits n pb1 Hdn Hn) as (_ & _ & Ebit & _). rewrite <- E in Ebit.
  eapply twp_mono; [apply (twp_trim K (words s) s1 L1 p sz L2 pb1 pb2 fl K bl); try done; lia|]. intros r s' (-> & n' & Hn' & HR & HI). split; [by eapply run_kept|]. right.
  exists p, n'. split_and!; [done|lia|by eapply run_ready|]. intros i H0 _ Hi Hi'. rewrite HI, HW by (unfold inside; simpl; lia). done.
Qed.

(** The new block is the chunk after the old one: both become one. *)
Lemma resized_join s s1 p n n' K bytes : Ready s1 ((p + n, n') :: (p, n) :: K) -> kept ((p, n) :: K) s s1 ->
  0 <= bytes -> REQUEST_OUT_OF_RANGE bytes = false -> request2size bytes <= n' -> twp (trim_chunk p (n + n') (request2size bytes)) (Resized s p n K bytes) s1.
Proof.
  intros HR Hk Hb Hr Hle. apply (ready_perm _ _ ((p, n) :: (p + n, n') :: K)) in HR; [|by constructor]. destruct HR as [[? _]|HR]; [done|].
  apply (run_rebase _ _ K (words s)) in HR; [|intros b Hin; split; [by do 2 right|intros w Hw; apply (Hk b); [by right|done]]].
  destruct HR as (L & bl & fl & HH & HPar). destruct (block_open _ _ _ _ _ _ _ _ _ _ HH) as (L1 & L2 & pb & HL & HB & E & Hn & _); [by right|].
  destruct (lay_absorb_used _ _ _ _ _ _ _ _ _ _ _ _ _ HL) as (L3 & -> & HL3); [done|]. pose proof (lay_range HL). pose proof (base_small (av_ := av_) (heap := heap) (heap_end := heap_end)).
  apply (resized_trim s s1 p n K bytes L1 (n + n') L3 pb true fl bl); try done; try lia.
  - apply (bins_ext av_ _ _ (outside L1 (p + n) ((n', Used) :: L3))); [|done]. intros x t. unfold MallocHole.outside. simpl. rewrite !elem_of_app, elem_of_cons, Z.add_assoc. naive_solver.
  - apply HL.
  - intros w Hw. apply (Hk (p, n)); [by left|done].
Qed.

Lemma twp_move s p n K bytes : Ready s ((p, n) :: K) -> 0 <= bytes -> REQUEST_OUT_OF_RANGE bytes = false -> n < request2size bytes ->
  twp (move_chunk av_ heap heap_end p n (request2size bytes)) (Resized s p n K bytes) s.
Proof.
  intros HR Hb Hr Hlt. destruct (request_size bytes Hb Hr) as (H16 & Hd & Hnb). set (nb := request2size bytes) in *. pose proof (base_range heap).
  destruct (ready_blocks _ _ HR) as [_ HK]. destruct (HK (p, n) ltac:(by left)) as (Hp & _ & Hn & Hpn). pose proof (ready_head s _ (p, n) HR ltac:(by left)) as [Hdn _]. cbn [fst snd] in *.
  pose proof (base_small (av_ := av_) (heap := heap) (heap_end := heap_end)). destruct (unrolled_chunk n Hdn Hn) as [Eu Ek]. destruct (request_again nb H16 Hd) as [Hb' _].
  unfold move_chunk. rewrite at_offset, chunk2mem_small by (destruct HP; lia). steps. change MALLOC_ALIGN_MASK with 7 in *. rewrite (uwrap_small 32 (nb - 7)) in * by lia.
  eapply twp_mono; [exact (ready_mALLOc s _ (nb - 7) HR ltac:(lia))|]. intros r s1 [[(p' & n' & -> & Hn' & HR1)|(-> & HR1 & Hfull)] Hk1].
  2: { rewrite Z.eqb_refl. steps. split; [by apply (kept_sub ((p, n) :: K)); [right|]|]. left. split_and!; [done|done| |lia]. apply (kept_sub ((p, n) :: K)); [|done]. intros b ->%list_elem_of_singleton. by left. }
  destruct (ready_blocks _ _ HR1) as [[HS _] HK1]. destruct (HK1 (p', n') ltac:(by left)) as (Hp' & _ & _ & Hpn'). destruct (ready_head s1 _ (p', n') HR1 ltac:(by left)) as [Hdn' _].
  specialize (HS (p, n) ltac:(by left)). unfold beside in HS. cbn [fst snd] in *. assert (nb <= n') as Hle by (destruct Hd as [i ->], Hdn' as [j ->]; lia).
  rewrite (proj2 (Z.eqb_neq _ _)) by (destruct HP; lia). steps. apply twp_zero_bytes; [destruct HP; lia|lia|lia|]. intros m2 _ Hw2.
  destruct (ready_write s1 _ (p', n') m2 HR1) as [HR2 Hk2]; [intros w Hw; apply Hw2; unfold inside in Hw; cbn [fst snd] in Hw; lia|].
  unfold mem2chunk. change (2 * SIZE_SZ) with 8. replace (p' + 8 - 8) with p' by lia. rewrite uwrap_small by (destruct HP; lia). steps.
  destruct (ready_head _ _ (p', n') HR2 ltac:(by left)) as [_ [pb Eh]]. apply (twp_chunksize _ n' pb); [done|done|lia|]. destruct (Z.eqb_spec p' (p + n)) as [-> |Hne].
  - rewrite uwrap_small by lia. rewrite (Z.add_comm n' n). by apply resized_join; [|by eapply kept_trans| | |].
  - rewrite Eu. steps. apply twp_copy_words; try (destruct HP; lia). intros m3 Hc3 Hw3. cbn [words set_words] in Hc3, Hw3. rewrite set_words_twice. steps.
    destruct (ready_write _ _ (p', n') m3 HR2) as [HR3 Hk3]; [intros w Hw; apply Hw3; unfold inside in Hw; cbn [fst snd] in Hw; lia|]. rewrite set_words_twice in HR3, Hk3.
    eapply twp_mono; [apply (ready_fREe _ p n ((p', n') :: K)); eapply ready_perm; [|exact HR3]; by constructor|]. intros u s4 [HR4 Hk4]. steps. split.
    + eapply kept_trans; [|by eapply (kept_sub ((p', n') :: K)); [right|]]. eapply (kept_sub ((p, n) :: K)); [by right|]. by eapply kept_trans, kept_trans.
    + right. exists p', n'. split_and!; [by apply chunk2mem_small; destruct HP; lia|lia|done|]. intros i Hi0 [j Hj] Hi Hi'. transitivity (rd m3 (p' + 8 + i)); [apply (Hk4 (p', n')); [by left|unfold inside; simpl; lia]|].
      replace i with (4 * j) by lia. rewrite Hc3 by lia.
      transitivity (rd (words s1) (p + 8 + 4 * j)); [apply (Hk2 (p, n))|apply (Hk1 (p, n))]; first [by left|unfold inside; simpl; lia].
Qed.

Lemma out_of_range s K bytes : Ready s K -> REQUEST_OUT_OF_RANGE bytes = true -> heap_end < curbrk s + bytes.
Proof.
  intros HR Er%Z.leb_le. change (u32 (-2 * MINSIZE)) with (2 ^ 32 - 32) in Er. pose proof (ready_brk s K HR). pose proof (base_small (av_ := av_) (heap := heap) (heap_end := heap_end)). destruct HP. lia.
Qed.

Lemma ready_rEALLOc s p n K bytes : Ready s ((p, n) :: K) -> 0 <= bytes -> twp (rEALLOc (p + 8) bytes) (Resized s p n K bytes) s.
Proof.
  intros HR Hb. destruct (ready_blocks _ _ HR) as [_ HK]. destruct (HK (p, n) ltac:(by left)) as (Hp & _ & _ & Hpn). cbn [fst snd] in *.
  pose proof (base_small (av_ := av_) (heap := heap) (heap_end := heap_end)). pose proof (hp_av (HeapPlace := HP)). pose proof (hp_heap (HeapPlace := HP)).
  unfold Malloc.rEALLOc. rewrite (proj2 (Z.eqb_neq _ _)) by lia. destruct (REQUEST_OUT_OF_RANGE bytes) eqn:Er.
  { steps. split; [done|]. left. split_and!; [done|done|done|]. pose proof (out_of_range _ _ _ HR Er). lia. }
  destruct (request_size bytes Hb Er) as (H16 & Hd & Hnb). pose proof HR as [[? _]|HRun]; [done|]. apply (run_rebase _ _ K (words s)) in HRun; [|intros b Hin; split; [by right|done]].
  destruct HRun as (L & bl & fl & HH & HPar). destruct (block_open _ _ _ _ _ _ _ _ _ _ HH ltac:(done)) as (L1 & L2 & pb & HL & HB & E & Hn & _).
  pose proof (lay_range HL). pose proof HL as [_ _ _ [_ Hdn] _ _ _ _ _ _ _ _]. pose proof (twp_move s p n K bytes HR Hb Er) as HM.
  unfold mem2chunk. change (2 * SIZE_SZ) with 8. replace (p + 8 - 8) with p by lia. rewrite uwrap_small by lia. steps.
  apply (twp_chunksize _ n pb); [done|done|lia|]. steps. apply (twp_not_mmapped _ n pb); [done|done|lia|]. destruct (Z.leb_spec (request2size bytes) n) as [Hle|Hgt].
  { apply (resized_trim s s p n K bytes L1 n L2 pb true fl bl); try done; lia. }
  specialize (HM Hgt). set (nb := request2size bytes) in *. rewrite at_offset by lia. steps.
  destruct (next_head _ _ _ _ _ _ _ _ _ _ _ _ HL) as (z & Ez & Hdz & Hz & Hzb & Hnext). apply (twp_chunksize _ z true); [done|done|lia|]. rewrite !(uwrap_small 32 (n + z)), (uwrap_small 32 (nb + MINSIZE)) by (change MINSIZE with 16; lia).
  destruct (Z.eqb_spec (p + n) (top s)) as [Et|Et]; cbn [andb negb].
  - assert (L2 = []) as -> by (destruct L2 as [|[s2 st2] L3]; [done|]; destruct Hnext as [-> ?]; lia). destruct Hnext as (_ & _ & ->).
    destruct (Z.leb_spec (nb + MINSIZE) (n + (curbrk s - top s))) as [Hroom|_]; cbn [andb].
    2: { steps. unfold inuse. exists (negb (Z.land (rd (words s) (size (chunk_at_offset (p + n) (Z.land (rd (words s) (size (p + n))) 0xfffffffe)))) 1 =? 0)), s. by split. }
    change MINSIZE with 16 in Hroom. unfold set_head_size. steps. cbn [words set_words]. destruct (size_bits n pb Hdn ltac:(lia)) as (_ & _ & Ebit & _). unfold size, PREV_INUSE.
    rewrite at_offset, chunk2mem_small, E, Ebit, lor_head_size, uwrap_small by (done || lia). pose proof (heap_enlarge _ _ _ _ _ _ _ _ _ _ _ nb HL HB ltac:(lia) ltac:(lia) Hd ltac:(lia)) as HG.
    rewrite lor_size; [|apply Z.divide_sub_r; [by apply Z.divide_add_r|done]|lia]. replace (n + (curbrk s - top s) - nb + 1) with (curbrk s - p - nb + 1) by lia.
    assert (Run K (words s) (set_top (p + nb) (set_words (<[p + nb + 4 := curbrk s - p - nb + 1]> (<[p + 4 := nb + Z.b2z pb]> (words s))) s)) ((p, nb) :: K)) as HR' by by eapply run_top.
    split; [by eapply run_kept|]. right. exists p, nb. split_and!; [done|lia|by eapply run_ready|]. intros i Hi0 _ Hi _. cbn [words set_words set_top]. rd_solve.
  - destruct L2 as [|[s2 st2] L3]; [destruct Hnext as (_ & ? & _); lia|]. destruct Hnext as [-> Hle]. destruct (next_next _ _ _ _ _ _ _ _ _ _ _ _ _ _ HL) as (z' & Ez' & Hdz' & Hz').
    unfold inuse. steps. apply (twp_size_with_mmapped _ s2 true); [done|done|lia|]. unfold inuse_bit_at_offset. rewrite at_offset by lia.
    apply (twp_prev_inuse _ z' (counts_used st2)); [done..|]. destruct st2; cbn [counts_used negb andb]; [done..|]. destruct (Z.leb_spec nb (n + s2)) as [Hfit|_]; [|done]. steps.
    destruct (lay_take_next _ (words s) _ _ _ _ _ _ _ _ _ _ _ _ _ HL HB ltac:(lia) ltac:(done)) as (bl' & HL2 & HB2 & Hw2).
    apply (resized_trim s _ p n K bytes L1 (n + s2) L3 pb false fl bl'); try done; try lia; cbn [words set_words].
    + by destruct HPar.
    + rewrite Hw2 by lia. done.
    + intros w Hw. unfold inside in Hw. cbn [fst snd] in Hw. apply Hw2. lia.
Qed.

(** ** cALLOc *)

(** All the words of the new chunk are zero; the product of the sizes wraps
    around. *)
Lemma ready_cALLOc s K n_elements elem_size : Ready s K ->
  twp (cALLOc av_ heap heap_end n_elements elem_size) (fun r s' => kept K s s' /\
    (r = 0 /\ Ready s' K /\ heap_end < curbrk s' + u32 (n_elements * elem_size) + 4128 \/
     exists p n, r = p + 8 /\ u32 (n_elements * elem_size) + 4 <= n /\ Ready s' ((p, n) :: K) /\ forall i, 0 <= i -> (4 | i) -> i < n - 4 -> rd (words s') (r + i) = 0)) s.
Proof.
  intros HR. pose proof (uwrap_range 32 (n_elements * elem_size) ltac:(done)) as Hb. unfold cALLOc. set (bytes := u32 (n_elements * elem_size)) in *. steps.
  eapply twp_mono; [exact (ready_mALLOc s K bytes HR ltac:(lia))|]. intros r s1 [[(p & n & -> & Hn & HR1)|(-> & HR1 & Hfull)] Hk1].
  2: { rewrite Z.eqb_refl. steps. split; [done|]. left. done. }
  destruct (ready_blocks _ _ HR1) as [_ HK]. destruct (HK (p, n) ltac:(by left)) as (Hp & _ & Hn16 & Hpn). destruct (ready_head _ _ (p, n) HR1 ltac:(by left)) as [Hd _]. cbn [fst snd] in *.
  pose proof (hp_av (HeapPlace := HP)). pose proof (hp_heap (HeapPlace := HP)). pose proof (hp_end (HeapPlace := HP)). destruct (unrolled_chunk n Hd Hn16) as [Eu Ek].
  rewrite (proj2 (Z.eqb_neq _ _)) by lia. steps. apply twp_zero_bytes; [lia..|]. intros m2 _ Hw2.
  destruct (ready_write s1 _ (p, n) m2 HR1) as [HR2 Hk2]; [intros w Hw; apply Hw2; unfold inside in Hw; cbn [fst snd] in Hw; lia|].
  unfold mem2chunk. change (2 * SIZE_SZ) with 8. replace (p + 8 - 8) with p by lia. rewrite uwrap_small by lia. steps.
  destruct (ready_head _ _ (p, n) HR2 ltac:(by left)) as [_ [pb Eh]]. apply (twp_not_mmapped _ n pb); [done|done|lia|]. steps. apply (twp_chunksize _ n pb); [done|done|lia|]. cbn [negb].
  rewrite Eu. steps. apply twp_zero_loop; [lia..|]. intros m3 Hz3 Hw3. rewrite set_words_twice. steps.
  destruct (ready_write _ _ (p, n) m3 HR2) as [HR3 Hk3]; [intros w Hw; apply Hw3; unfold inside in Hw; cbn [fst snd] in Hw; lia|]. rewrite set_words_twice in HR3, Hk3.
  split; [by eapply kept_trans, kept_trans|]. right. exists p, n. split_and!; [done|done|done|]. intros i Hi [j Hj] Hlt. cbn [words set_words]. replace (p + 8 + i) with (p + 8 + 4 * j) by lia. apply Hz3. lia.
Qed.
End Realloc.
