(* ===== verification/MallocAlign.v ===== *)
(** * Aligned blocks (mEMALIGn)

    The block is cut out of a larger one, at an address that is a multiple of
    the alignment; what is left before and after it is freed. *)

From S2P Require Import Prelude Malloc MallocLayout MallocInv MallocHole MallocLinks MallocFree MallocAlloc MallocMain MallocReady MallocResize.

(** ** Powers of two *)

Lemma power_of_two x : 0 < x -> Z.land x (x - 1) = 0 -> x = 2 ^ Z.log2 x.
Proof.
  intros Hx E. destruct (Z.log2_spec x Hx) as [H1 H2]. destruct (Z.eq_dec x (2 ^ Z.log2 x)) as [|Hne]; [done|exfalso].
  assert (Z.log2 (x - 1) = Z.log2 x) as El by (apply Z.log2_unique; [apply Z.log2_nonneg|lia]). pose proof (Z.pow_pos_nonneg 2 (Z.log2 x) ltac:(lia) (Z.log2_nonneg x)).
  pose proof (f_equal (fun z => Z.testbit z (Z.log2 x)) E) as Hb. simpl in Hb. rewrite Z.land_spec, Z.bits_0, Z.bit_log2 in Hb by done. rewrite <- El, Z.bit_log2 in Hb by lia. done.
Qed.

(** The loop ends on the first power of two from 16 on that is large enough. *)
Lemma twp_power_above fuel k alignment (Q : Z -> arena -> Prop) s : 4 <= k <= 30 -> alignment <= 2 ^ 30 -> (k = 4 \/ 2 ^ (k - 1) < alignment) -> 31 - k <= Z.of_nat fuel ->
  (forall j, 4 <= j <= 30 -> alignment <= 2 ^ j -> (j = 4 \/ 2 ^ (j - 1) < alignment) -> Q (2 ^ j) s) -> twp (power_above fuel (2 ^ k) alignment) Q s.
Proof.
  revert k. induction fuel as [|fuel IH]; intros k Hk Ha Hmin Hf HQ; [lia|]. simpl. destruct (Z.ltb_spec (2 ^ k) alignment) as [Hlt|Hge]; [|apply twp_ret; by apply HQ].
  assert (k < 30) as Hk' by (destruct (Z.eq_dec k 30) as [-> |]; lia). rewrite Z.shiftl_mul_pow2 by done. change (2 ^ 1) with 2. replace (2 ^ k * 2) with (2 ^ (k + 1)) by (rewrite Z.pow_add_r by lia; done).
  rewrite uwrap_small by (split; [lia|apply Z.pow_lt_mono_r; lia]). apply IH; [lia|done| |lia|done]. right. by replace (k + 1 - 1) with k by lia.
Qed.

(** For an alignment above 2 GB that is no power of two the loop doubles 16
    until it becomes 0, and never ends. *)
Lemma power_above_diverges fuel a s : (a = 0 \/ exists k, 4 <= k <= 31 /\ a = 2 ^ k) -> power_above fuel a 0x80000001 s = Err Diverged.
Proof.
  revert a. induction fuel as [|fuel IH]; intros a Ha; [done|]. simpl. assert (a < 0x80000001) as Hlt.
  { destruct Ha as [-> |(k & Hk & ->)]; [done|]. assert (2 ^ k <= 2 ^ 31) by (apply Z.pow_le_mono_r; lia). lia. }
  rewrite (proj2 (Z.ltb_lt _ _) Hlt). apply IH. destruct Ha as [-> |(k & Hk & ->)]; [by left|]. rewrite Z.shiftl_mul_pow2 by done. rewrite <- Z.pow_add_r by lia.
  destruct (Z.eq_dec k 31) as [-> |Hne]; [by left|right]. exists (k + 1). split; [lia|]. apply uwrap_small. split; [lia|apply Z.pow_lt_mono_r; lia].
Qed.

(** The next multiple of a power of two. *)
Lemma align_up k m : 4 <= k <= 30 -> 0 <= m < 2 ^ 31 -> Z.land (u32 (m + 2 ^ k - 1)) (u32 (- 2 ^ k)) = (m + 2 ^ k - 1) / 2 ^ k * 2 ^ k.
Proof.
  intros Hk Hm. pose proof (Z.pow_pos_nonneg 2 k ltac:(lia) ltac:(lia)). assert (2 ^ k <= 2 ^ 30) by (apply Z.pow_le_mono_r; lia).
  rewrite uwrap_small by lia. replace (u32 (- 2 ^ k)) with (Z.shiftl (Z.ones (32 - k)) k); [apply land_high_mask; lia|].
  rewrite Z.shiftl_mul_pow2, Z.ones_equiv by lia. unfold uwrap. rewrite <- (Z.mod_add _ 1), Z.mod_small by lia. rewrite Z.mul_pred_l, <- Z.pow_add_r by lia. replace (32 - k + k) with 32 by lia. lia.
Qed.

(** Where the block starts: [d] bytes after the start of the chunk. *)
Lemma lead_size k m : 4 <= k <= 30 -> 0 < m < 2 ^ 31 -> (8 | m) -> m mod 2 ^ k <> 0 -> let a := (m + 2 ^ k - 1) / 2 ^ k * 2 ^ k in
  (2 ^ k | a) /\ (8 | a - m) /\ 8 <= a - m < 2 ^ k.
Proof.
  intros Hk Hm [i Hi] Hmod a. pose proof (Z.pow_pos_nonneg 2 k ltac:(lia) ltac:(lia)) as Hpos. assert (8 | 2 ^ k) as [j Hj] by (exists (2 ^ (k - 3)); change 8 with (2 ^ 3); rewrite <- Z.pow_add_r by lia; f_equal; lia).
  pose proof (Z.div_mod (m + 2 ^ k - 1) (2 ^ k) ltac:(lia)) as Ed. pose proof (Z.mod_pos_bound (m + 2 ^ k - 1) (2 ^ k) Hpos) as Hb. set (q := (m + 2 ^ k - 1) / 2 ^ k) in *.
  assert (a = q * 2 ^ k) as Ea by done. assert (a <> m) as Hne by (intros E; apply Hmod; rewrite <- E, Ea; apply Z.mod_mul; lia).
  split; [by exists q|]. assert (a - m = (q * j - i) * 8) as Eam by (rewrite Ea, Hj; lia). split; [by exists (q * j - i)|]. lia.
Qed.

Section Align.
Context {av_ heap heap_end : Z} {HP : HeapPlace av_ heap heap_end}.
Abbreviation Ready := (@Ready av_ heap heap_end).

(** ** Cutting a block in two *)

Lemma ready_told s K p n : Ready s ((p, n) :: K) -> Z.lor (rd (words s) (p + n + 4)) 1 = rd (words s) (p + n + 4).
Proof.
  intros [[? _]|HR]; [done|]. destruct HR as (L & bl & fl & HH & _). destruct (block_open _ _ _ _ _ _ _ _ _ _ HH) as (L1 & L2 & pb & HL & _); [intros b Hb; by apply not_elem_of_nil in Hb|].
  destruct (next_head _ _ _ _ _ _ _ _ _ _ _ _ HL) as (z & -> & Hd & Hz & _). by destruct (size_bits z true Hd ltac:(lia)) as (_ & _ & _ & _ & ->).
Qed.

Lemma ready_cut s m' K p n a pb : Ready s ((p, n) :: K) -> 16 <= a -> (8 | a) -> a + 16 <= n -> rd (words s) (p + 4) = n + Z.b2z pb ->
  rd m' (p + 4) = a + Z.b2z pb -> rd m' (p + a + 4) = n - a + 1 -> (forall w, w <> p + 4 -> w <> p + a + 4 -> rd m' w = rd (words s) w) ->
  Ready (set_words m' s) ((p + a, n - a) :: (p, a) :: K) /\ kept K s (set_words m' s).
Proof.
  intros HR Ha Hd Hn E E1 E2 HW. pose proof (ready_told _ _ _ _ HR) as Ht. destruct HR as [[? _]|HR]; [done|]. apply (run_rebase _ _ K (words s)) in HR; [|intros b Hb; split; [by right|done]].
  destruct HR as (L & bl & fl & HH & HPar). destruct (block_open _ _ _ _ _ _ _ _ _ _ HH ltac:(done)) as (L1 & L2 & pb' & HL & HB & E' & _).
  assert (pb' = pb) as -> by (rewrite E in E'; destruct pb, pb'; simpl in E'; done || lia).
  destruct (heap_two (words s) m' _ _ _ _ _ a _ _ _ _ _ _ _ HL HB Ha Hd Hn E1 E2) as (L' & HH'); [by rewrite Ht, HW by lia|auto|].
  assert (@Run av_ heap heap_end K (words s) (set_words m' s) ((p + a, n - a) :: (p, a) :: K)) as HR' by by eapply run_words.
  split; [by eapply run_ready|by eapply run_kept].
Qed.

(** ** The two ends *)

Lemma twp_lead_off s K p n k : Ready s ((p, n) :: K) -> 4 <= k <= 30 -> 2 ^ k + 24 <= n -> (p + 8) mod 2 ^ k <> 0 ->
  twp (lead_off av_ heap heap_end p (p + 8) (2 ^ k)) (fun o s' => exists q z, o = inl q /\ (2 ^ k | q + 8) /\ n - 2 ^ k - 8 <= z /\ Ready s' ((q, z) :: K) /\ kept K s s') s.
Proof.
  intros HR Hk Hn Hmod. destruct (ready_blocks _ _ HR) as [_ HK]. destruct (HK (p, n) ltac:(by left)) as (Hp & Hdp & _ & Hpn). destruct (ready_head _ _ (p, n) HR ltac:(by left)) as [Hdn [pb Eh]].
  pose proof (hp_av (HeapPlace := HP)). pose proof (hp_heap (HeapPlace := HP)). pose proof (hp_end (HeapPlace := HP)). cbn [fst snd] in *. pose proof (Z.pow_pos_nonneg 2 k ltac:(lia) ltac:(lia)).
  assert (2 ^ 4 <= 2 ^ k <= 2 ^ 30) by (split; apply Z.pow_le_mono_r; lia). assert (8 | 2 ^ k) as Hd2 by (exists (2 ^ (k - 3)); change 8 with (2 ^ 3); rewrite <- Z.pow_add_r by lia; f_equal; lia).
  destruct (lead_size k (p + 8) Hk ltac:(lia) ltac:(apply Z.divide_add_r; [done|by exists 1]) Hmod) as (Hda & Hdm & Hm). pose proof (ready_told _ _ _ _ HR) as Ht.
  assert (exists d, (2 ^ k | p + d + 8) /\ (8 | d) /\ 16 <= d <= 2 ^ k + 8 /\
    (let brk := mem2chunk (Z.land (u32 (p + 8 + 2 ^ k - 1)) (u32 (- 2 ^ k))) in if u32 (brk - p) <? MINSIZE then u32 (brk + 2 ^ k) else brk) = p + d) as (d & Hd1 & Hd8 & Hd & Ebrk).
  { rewrite align_up by lia. set (a := (p + 8 + 2 ^ k - 1) / 2 ^ k * 2 ^ k) in *. unfold mem2chunk. change (2 * SIZE_SZ) with 8. cbv zeta. rewrite (uwrap_small 32 (a - 8)), (uwrap_small 32 (a - 8 - p)) by lia. change MINSIZE with 16.
    destruct (Z.ltb_spec (a - 8 - p) 16); [exists (a - 8 - p + 2 ^ k)|exists (a - 8 - p)].
    - replace (p + (a - 8 - p + 2 ^ k) + 8) with (a + 2 ^ k) by lia. destruct Hdm as [i Hi].
      split_and!; [apply Z.divide_add_r; [done|by exists 1; lia]| |lia|lia|rewrite uwrap_small; lia].
      replace (a - 8 - p + 2 ^ k) with (a - (p + 8) + 2 ^ k) by lia. apply Z.divide_add_r; [by exists i|done].
    - replace (p + (a - 8 - p) + 8) with a by lia. split_and!; [done| |lia|lia|lia]. by replace (a - 8 - p) with (a - (p + 8)) by lia. }
  unfold lead_off. cbv zeta in Ebrk |- *. rewrite Ebrk. replace (p + d - p) with d by lia. rewrite (uwrap_small 32 d) by lia. steps.
  apply (twp_chunksize _ n pb); [done|done|lia|]. steps. apply (twp_not_mmapped _ n pb); [done|done|lia|]. rewrite (uwrap_small 32 (n - d)) by lia. unfold set_inuse_bit_at_offset, set_head_size. steps.
  cbn [words set_words]. unfold size, PREV_INUSE. rewrite at_offset by lia. replace (p + d + (n - d)) with (p + n) by lia. rewrite (lor_size (n - d)) by (by apply Z.divide_sub_r || lia).
  rewrite !rd_insert_ne by lia. rewrite Ht, Eh. destruct (size_bits n pb Hdn ltac:(lia)) as (_ & _ & -> & _). rewrite lor_head_size, chunk2mem_small by (done || lia).
  match goal with |- twp _ _ (set_words ?M _) => destruct (ready_cut s M K p n d pb HR) as [HR1 Hk1]; try done; try lia; [rd_solve..| |] end.
  { intros w Hw1 Hw2. rewrite rd_insert_ne by done. rewrite rd_insert. case_decide; [by subst|]. by rewrite rd_insert_ne. }
  eapply twp_mono; [apply (ready_fREe _ p d ((p + d, n - d) :: K)); eapply ready_perm; [|exact HR1]; by constructor|]. intros u s' [HR' Hk']. steps. exists (p + d), (n - d).
  split_and!; [done|done|lia|done|]. eapply kept_trans; [done|]. by eapply kept_sub; [right|].
Qed.

Lemma twp_tail_off s K p n nb : Ready s ((p, n) :: K) -> 16 <= nb -> (8 | nb) -> nb <= n -> nb + 16 < 2 ^ 32 ->
  twp (tail_off av_ heap heap_end p nb) (fun _ s' => exists z, nb <= z /\ Ready s' ((p, z) :: K) /\ kept K s s') s.
Proof.
  intros HR Hnb Hd Hn Hlt. destruct (ready_blocks _ _ HR) as [_ HK]. destruct (HK (p, n) ltac:(by left)) as (Hp & _ & _ & Hpn). destruct (ready_head _ _ (p, n) HR ltac:(by left)) as [Hdn [pb Eh]].
  pose proof (hp_av (HeapPlace := HP)). pose proof (hp_heap (HeapPlace := HP)). pose proof (hp_end (HeapPlace := HP)). cbn [fst snd] in *.
  unfold tail_off. steps. apply (twp_not_mmapped _ n pb); [done|done|lia|]. cbn [negb]. steps. apply (twp_chunksize _ n pb); [done|done|lia|]. change MINSIZE with 16. rewrite (uwrap_small 32 (nb + 16)) by lia.
  destruct (Z.ltb_spec (nb + 16) n); [|steps; by exists n]. unfold set_head_size. steps. cbn [words set_words]. unfold size, PREV_INUSE.
  rewrite at_offset, uwrap_small, (lor_size (n - nb)) by (by apply Z.divide_sub_r || lia). rewrite rd_insert_ne, Eh by lia.
  destruct (size_bits n pb Hdn ltac:(lia)) as (_ & _ & -> & _). rewrite lor_head_size, chunk2mem_small by (done || lia).
  match goal with |- twp _ _ (set_words ?M _) => destruct (ready_cut s M K p n nb pb HR) as [HR1 Hk1]; try done; try lia; [rd_solve..| |] end.
  { intros w Hw1 Hw2. by rewrite !rd_insert_ne. }
  eapply twp_mono; [exact (ready_fREe _ _ _ _ HR1)|]. intros u s' [HR' Hk']. exists nb. split_and!; [done|done|]. eapply kept_trans; [done|]. by eapply kept_sub; [right|].
Qed.

(** ** mEMALIGn *)

(** The result of mEMALIGn: the alignment may be rounded up to a power of two. *)
Definition Aligned (s : arena) (K : list (Z * Z)) (alignment bytes r : Z) (s' : arena) : Prop :=
  kept K s s' /\
  (r = 0 /\ Ready s' K /\ heap_end < curbrk s' + bytes + 2 * alignment + 4192 \/
   exists p n j, r = p + 8 /\ bytes + 4 <= n /\ Ready s' ((p, n) :: K) /\ 0 <= j /\ alignment <= 2 ^ j /\ (2 ^ j | r)).

Lemma twp_align s K k alignment bytes : Ready s K -> 4 <= k <= 30 -> alignment <= 2 ^ k -> 2 ^ k < 2 * alignment + 32 -> 0 <= bytes < 2 ^ 31 -> REQUEST_OUT_OF_RANGE bytes = false ->
  let nb := request2size bytes in
  twp (let! m := mALLOc av_ heap heap_end (u32 (nb + 2 ^ k + MINSIZE)) in
       if m =? 0 then ret 0 else
       do! zero_bytes m (u32 (nb + 2 ^ k + MINSIZE)) in
       let p := mem2chunk m in
       let! o := (if negb (m mod 2 ^ k =? 0) then lead_off av_ heap heap_end p m (2 ^ k) else ret (inl p)) in
       match o with inr r => ret r | inl p => do! tail_off av_ heap heap_end p nb in ret (chunk2mem p) end)%st (Aligned s K alignment bytes) s.
Proof.
  intros HR Hk Ha1 Ha2 Hb Er nb. destruct (request_size bytes ltac:(lia) Er) as (H16 & Hd & Hnb). fold nb in H16, Hd, Hnb. assert (2 ^ 4 <= 2 ^ k <= 2 ^ 30) by (split; apply Z.pow_le_mono_r; lia).
  pose proof (hp_av (HeapPlace := HP)). pose proof (hp_heap (HeapPlace := HP)). pose proof (hp_end (HeapPlace := HP)). change MINSIZE with 16. rewrite (uwrap_small 32 (nb + 2 ^ k + 16)) by lia. steps.
  eapply twp_mono; [exact (ready_mALLOc s K (nb + 2 ^ k + 16) HR ltac:(lia))|]. intros r s1 [[(p & n & -> & Hn & HR1)|(-> & HR1 & Hfull)] Hk1].
  2: { rewrite Z.eqb_refl. steps. split; [done|]. left. split_and!; [done|done|lia]. }
  destruct (ready_blocks _ _ HR1) as [_ HK]. destruct (HK (p, n) ltac:(by left)) as (Hp & _ & _ & Hpn). cbn [fst snd] in *. rewrite (proj2 (Z.eqb_neq _ _)) by lia. steps.
  apply twp_zero_bytes; [lia..|]. intros m2 _ Hw2. destruct (ready_write s1 _ (p, n) m2 HR1) as [HR2 Hk2]; [intros w Hw; apply Hw2; unfold inside in Hw; cbn [fst snd] in Hw; lia|].
  unfold mem2chunk. change (2 * SIZE_SZ) with 8. replace (p + 8 - 8) with p by lia. rewrite uwrap_small by lia. steps. set (s2 := set_words m2 s1) in *.
  apply (twp_mono _ (fun o s' => exists q z, o = inl q /\ (2 ^ k | q + 8) /\ nb <= z /\ Ready s' ((q, z) :: K) /\ kept K s s')).
  - destruct (Z.eqb_spec ((p + 8) mod 2 ^ k) 0) as [E0|Hne]; cbn [negb].
    + steps. exists p, n. split_and!; [done|by apply Z.mod_divide; [lia|]|lia|done|by eapply kept_trans].
    + eapply twp_mono; [apply (twp_lead_off s2 K p n k HR2 Hk); [lia|done]|]. intros o s3 (q & z & -> & Hdq & Hz & HR3 & Hk3). exists q, z. split_and!; [done|done|lia|done|]. by eapply kept_trans, kept_trans.
  - intros o s3 (q & z & -> & Hdq & Hz & HR3 & Hk3). steps. eapply twp_mono; [apply (twp_tail_off s3 K q z nb HR3); [lia|done|done|lia]|]. intros u s4 (z' & Hz' & HR4 & Hk4). steps.
    destruct (ready_blocks _ _ HR4) as [_ HK4]. destruct (HK4 (q, z') ltac:(by left)) as (Hq & _ & _ & Hqz). cbn [fst snd] in *. rewrite chunk2mem_small by lia.
    split; [by eapply kept_trans|]. right. exists q, z', k. split_and!; [done|lia|done|lia|done|done].
Qed.

Lemma ready_mEMALIGn s K alignment bytes : Ready s K -> 0 <= alignment <= 2 ^ 30 -> 0 <= bytes < 2 ^ 31 -> twp (mEMALIGn av_ heap heap_end alignment bytes) (Aligned s K alignment bytes) s.
Proof.
  intros HR Ha Hb. unfold mEMALIGn. change MALLOC_ALIGNMENT with 8. destruct (Z.leb_spec alignment 8) as [Hle|Hgt].
  { eapply twp_mono; [exact (ready_mALLOc s K bytes HR ltac:(lia))|]. intros r s1 [[(p & n & -> & Hn & HR1)|(-> & HR1 & Hfull)] Hk1]; (split; [done|]); [right; exists p, n, 3|left; split_and!; [done|done|lia]].
    destruct (ready_blocks _ _ HR1) as [_ HK]. destruct (HK (p, n) ltac:(by left)) as (_ & Hd & _). split_and!; [done|done|done|done|done|]. change (2 ^ 3) with 8. apply Z.divide_add_r; [done|by exists 1]. }
  set (al := if alignment <? MINSIZE then MINSIZE else alignment). assert (16 <= al <= 2 ^ 30 /\ alignment <= al /\ al <= alignment + 16) as (Hal & Hal1 & Hal2) by (unfold al; change MINSIZE with 16; destruct (Z.ltb_spec alignment 16); lia).
  apply twp_bind. apply (twp_mono _ (fun a s' => s' = s /\ exists k, a = 2 ^ k /\ 4 <= k <= 30 /\ alignment <= 2 ^ k /\ 2 ^ k < 2 * alignment + 32)).
  - destruct (Z.eqb_spec (Z.land al (al - 1)) 0) as [E|_]; cbn [negb].
    + apply twp_ret. split; [done|]. exists (Z.log2 al). pose proof (power_of_two al ltac:(lia) E) as Ep. rewrite <- Ep. split_and!; [done| | |lia|lia].
      * change 4 with (Z.log2 16). apply Z.log2_le_mono. lia.
      * change 30 with (Z.log2 (2 ^ 30)). apply Z.log2_le_mono. lia.
    + change (8 * 2) with (2 ^ 4). apply twp_power_above; [lia|lia|by left|lia|]. intros j Hj Hj1 Hj2. split; [done|]. exists j. split_and!; [done|lia|lia|lia|].
      destruct Hj2 as [-> |Hj2]; [change (2 ^ 4) with 16; lia|]. replace (2 ^ j) with (2 * 2 ^ (j - 1)); [lia|]. rewrite <- Z.pow_succ_r by lia. f_equal. lia.
  - intros a s' (-> & k & -> & Hk & Hk1 & Hk2). destruct (REQUEST_OUT_OF_RANGE bytes) eqn:Er; [|by apply twp_align].
    apply twp_ret. split; [done|]. left. split_and!; [done|done|]. pose proof (out_of_range _ _ _ HR Er). lia.
Qed.
End Align.
