(* ===== verification/MallocProps.v ===== *)
(** * What the allocator promises

    A client calls mALLOc and fREe and writes into its blocks.  In every state
    it can reach, each call returns, the blocks are aligned, apart from each
    other and inside the heap, and no call changes the contents of a block. *)

From S2P Require Import Prelude Runtime Malloc MallocLayout MallocInv MallocHole MallocFree MallocStart MallocReady MallocResize MallocAlign.

Section Props.
Context {av_ heap heap_end : Z} {HP : HeapPlace av_ heap heap_end}.
Abbreviation blank := (@blank heap).
Abbreviation mALLOc := (mALLOc av_ heap heap_end).
Abbreviation fREe := (fREe av_ heap heap_end).
Abbreviation cALLOc := (cALLOc av_ heap heap_end).
Abbreviation rEALLOc := (rEALLOc av_ heap heap_end).
Abbreviation Ready := (@Ready av_ heap heap_end).

(** ** Clients *)

Inductive action := Malloc (bytes : Z) | Calloc (n_elements elem_size : Z) | Realloc (r bytes : Z) | Memalign (alignment bytes : Z) | Release (r : Z) | Write (w v : Z).

Definition perform (a : action) : AM Z :=
  match a with
  | Malloc n => mALLOc n
  | Calloc n k => cALLOc n k
  | Realloc r n => rEALLOc r n
  | Memalign k n => mEMALIGn av_ heap heap_end k n
  | Release r => (do! fREe r in ret 0)%st
  | Write w v => (do! store w v in ret 0)%st
  end.

(** A client knows the address and the size of each block it has asked for;
    it resizes and frees those (or a null pointer) and writes only words of
    them. *)
Definition may (A : list (Z * Z)) (a : action) : Prop :=
  match a with
  | Malloc n => 0 <= n
  | Calloc _ _ => True
  | Realloc r n => 0 <= n /\ (r = 0 \/ exists k, (r, k) ∈ A)
  | Memalign k n => 0 <= k <= 2 ^ 30 /\ 0 <= n < 2 ^ 31
  | Release r => r = 0 \/ exists n, (r, n) ∈ A
  | Write w _ => exists r n, (r, n) ∈ A /\ r <= w < r + n /\ (4 | w - r)
  end.

(** The blocks at other addresses. *)
Definition others (q : Z) (A : list (Z * Z)) : list (Z * Z) := filter (fun b => b.1 <> q) A.

(** The blocks after an action that returned [r]; cALLOc does not check the
    product of its arguments. *)
Definition track (A : list (Z * Z)) (a : action) (r : Z) : list (Z * Z) :=
  match a with
  | Malloc n => if decide (r = 0) then A else (r, n) :: A
  | Calloc n k => if decide (r = 0) then A else (r, u32 (n * k)) :: A
  | Realloc q n => if decide (r = 0) then A else (r, n) :: others q A
  | Memalign _ n => if decide (r = 0) then A else (r, n) :: A
  | Release q => others q A
  | Write _ _ => A
  end.

Inductive reach : arena -> list (Z * Z) -> Prop :=
| reach_start : reach blank []
| reach_action s A a r s' : reach s A -> may A a -> perform a s = Ok (r, s') -> reach s' (track A a r).

(** The block [b] of the client in the chunk [c]. *)
Definition fits (b c : Z * Z) : Prop := b.1 = c.1 + 8 /\ 0 <= b.2 /\ b.2 + 4 <= c.2.
Definition Sim (s : arena) (A : list (Z * Z)) : Prop := exists K, Ready s K /\ Forall2 fits A K.

Lemma fits_elem A K b : Forall2 fits A K -> b ∈ A -> exists c, c ∈ K /\ fits b c.
Proof. intros HF Hb. apply list_elem_of_lookup in Hb as [i Hi]. destruct (Forall2_lookup_l _ _ _ _ _ HF Hi) as (c & Hc & ?). exists c. split; [by eapply list_elem_of_lookup_2|done]. Qed.

Lemma fits_inside b c w : fits b c -> b.1 <= w < b.1 + b.2 -> inside c w.
Proof. unfold fits, inside. lia. Qed.

Lemma others_same (q : Z) (A : list (Z * Z)) : Forall (fun b => b.1 <> q) A -> others q A = A.
Proof. unfold others. induction 1; [done|]. rewrite filter_cons_True by done. by f_equal. Qed.

(** The chunk of a block, taken out. *)
Lemma fits_split A K q n : Forall2 fits A K -> separate K -> (forall c, c ∈ K -> 16 <= c.2) -> (q, n) ∈ A ->
  exists z K', K ≡ₚ (q - 8, z) :: K' /\ Forall2 fits (others q A) K' /\ forall b, b ∈ A -> b.1 = q -> b.2 + 4 <= z.
Proof.
  intros HF HS HK Hin. apply list_elem_of_split in Hin as (A1 & A2 & ->). apply Forall2_app_inv_l in HF as (K1 & K' & HF1 & HF2 & ->).
  apply Forall2_cons_inv_l in HF2 as ([p z] & K2 & [E [_ Hz]] & HF2 & ->). simpl in E, Hz. exists z, (K1 ++ K2). replace (q - 8) with p by lia. split; [by rewrite <- Permutation_middle|].
  assert (separate ((p, z) :: K1 ++ K2)) as [HS' _] by (eapply separate_perm; [|done]; by rewrite <- Permutation_middle).
  assert (forall A0 K0, Forall2 fits A0 K0 -> (forall c, c ∈ K0 -> c ∈ K1 ++ K2) -> Forall (fun b : Z * Z => b.1 <> q) A0) as Hne.
  { intros A0 K0 HF0 Hsub. apply Forall_forall. intros b Hb. destruct (fits_elem _ _ _ HF0 Hb) as (c & Hc & [Ec _]). specialize (HS' c (Hsub c Hc)).
    pose proof (HK c ltac:(clear -Hc Hsub; specialize (Hsub c Hc); set_solver)). pose proof (HK (p, z) ltac:(apply elem_of_app; right; by left)). unfold beside in HS'. simpl in *. lia. }
  pose proof (Hne A1 K1 HF1 ltac:(intros; apply elem_of_app; by left)) as N1. pose proof (Hne A2 K2 HF2 ltac:(intros; apply elem_of_app; by right)) as N2. split.
  - unfold others. rewrite filter_app, filter_cons_False by (simpl; naive_solver). fold (others q A1) (others q A2). rewrite !others_same by done. by apply Forall2_app.
  - intros b [Hb|[->|Hb]%elem_of_cons]%elem_of_app Eb; [|done|]; rewrite Forall_forall in N1, N2; exfalso; [by apply (N1 b)|by apply (N2 b)].
Qed.

(** Words of a block the client had before and has after an action. *)
Definition contents_kept (A : list (Z * Z)) (a : action) (r : Z) (s s' : arena) : Prop :=
  forall b w, b ∈ A -> b ∈ track A a r -> b.1 <= w < b.1 + b.2 -> (4 | w - b.1) ->
    rd (words s') w = match a with Write w' v => if decide (w = w') then v else rd (words s) w | _ => rd (words s) w end.

Lemma fits_kept A K s s' b w : Forall2 fits A K -> kept K s s' -> b ∈ A -> b.1 <= w < b.1 + b.2 -> rd (words s') w = rd (words s) w.
Proof. intros HF Hk Hb Hw. destruct (fits_elem _ _ _ HF Hb) as (c & Hc & Hfit). apply (Hk c); [done|]. by eapply fits_inside. Qed.

(** A block is not at the null address. *)
Lemma fits_nonzero s A K : Ready s K -> Forall2 fits A K -> Forall (fun b => b.1 <> 0) A.
Proof.
  intros HR HF. destruct (ready_blocks s K HR) as [_ HK]. apply Forall_forall. intros b Hb. destruct (fits_elem _ _ _ HF Hb) as (c & Hc & [E _]).
  destruct (HK c Hc) as (? & _). destruct HP. lia.
Qed.

Lemma sim_new s A K r n : Forall2 fits A K -> 0 <= n -> (exists p z, r = p + 8 /\ n + 4 <= z /\ Ready s ((p, z) :: K)) \/ r = 0 /\ Ready s K ->
  Sim s (if decide (r = 0) then A else (r, n) :: A).
Proof.
  intros HF Hn [(p & z & -> & Hz & HR)|[-> HR]]; [|rewrite decide_True by done; by exists K]. assert (Forall2 fits ((p + 8, n) :: A) ((p, z) :: K)) as HF' by by constructor.
  rewrite decide_False by exact (Forall_inv (fits_nonzero _ _ _ HR HF')). by exists ((p, z) :: K).
Qed.

Lemma sim_malloc s A n a : Sim s A -> 0 <= n -> (forall r, track A a r = if decide (r = 0) then A else (r, n) :: A) -> (match a with Write _ _ => False | _ => True end) ->
  twp (mALLOc n) (fun r s' => Sim s' (track A a r) /\ contents_kept A a r s s') s.
Proof.
  intros (K & HR & HF) Hn Ht Ha. eapply twp_mono; [by apply (ready_mALLOc s K n)|]. intros r s' [Hcase Hk]. split; [rewrite Ht; apply (sim_new s' A K); [done|done|naive_solver]|].
  intros b w Hb _ Hw _. destruct a; try done; by eapply fits_kept.
Qed.

Lemma sim_resize s A q n bytes : Sim s A -> (q, n) ∈ A -> 0 <= bytes ->
  twp (rEALLOc q bytes) (fun r s' => (Sim s' (track A (Realloc q bytes) r) /\ contents_kept A (Realloc q bytes) r s s') /\
    (r <> 0 -> forall i, 0 <= i -> (4 | i) -> i < n -> i < bytes -> rd (words s') (r + i) = rd (words s) (q + i))) s.
Proof.
  intros (K & HR & HF) Hin Hb. destruct (ready_blocks s K HR) as [HS HK]. destruct (fits_split A K q n HF HS ltac:(intros c Hc; by apply HK) Hin) as (z & K' & HP' & HF' & Hz).
  pose proof (Hz _ Hin eq_refl) as Hnz. simpl in Hnz. replace q with (q - 8 + 8) at 1 by lia. eapply twp_mono; [apply (ready_rEALLOc s (q - 8) z K'); [by apply (ready_perm s K)|done]|].
  intros r s' [Hk [(-> & HR' & Hkq & _)|(p' & n' & -> & Hn' & HR' & Hmove)]].
  - split; [|done]. split; [simpl; exists K; split; [|done]; by eapply ready_perm; [symmetry|]|]. intros b w Hbin _ Hw _. apply (fits_kept A K s s' b); [done| |done|done].
    intros c x Hc. rewrite HP' in Hc. apply elem_of_cons in Hc as [-> |Hc]; [apply Hkq; by left|by apply Hk].
  - pose proof (sim_new s' (others q A) K' (p' + 8) bytes HF' Hb ltac:(left; by exists p', n')) as HSim.
    assert (p' + 8 <> 0) as Hne by (destruct (ready_blocks _ _ HR') as [_ HK']; destruct (HK' (p', n') ltac:(by left)) as (? & _); simpl in *; destruct HP; lia).
    rewrite decide_False in HSim by done. split; [split; [simpl; by rewrite decide_False|]|].
    + intros b w Hbin Hb' Hw Hd. simpl in Hb'. rewrite decide_False in Hb' by done. destruct (decide (b.1 = q)) as [Eq|Neq].
      * apply elem_of_cons in Hb' as [-> |Hb']; [|apply list_elem_of_filter in Hb' as [? _]; done]. pose proof (Hz _ Hbin Eq) as Hbz. simpl in Eq, Hbz, Hw, Hd.
        specialize (Hmove (w - q) ltac:(lia) ltac:(by rewrite <- Eq) ltac:(lia) ltac:(lia)). by replace (p' + 8 + (w - q)) with w in Hmove by lia; replace (q - 8 + 8 + (w - q)) with w in Hmove by lia.
      * apply (fits_kept (others q A) K' s s' b); [done|done|by apply list_elem_of_filter|done].
    + intros _ i H0 Hd Hi Hi'. rewrite (Hmove i) by (done || lia). f_equal. lia.
Qed.

Lemma sim_action s A a : Sim s A -> may A a -> twp (perform a) (fun r s' => Sim s' (track A a r) /\ contents_kept A a r s s') s.
Proof.
  intros HSim Hm. pose proof HSim as (K & HR & HF). destruct (ready_blocks s K HR) as [HS HK]. pose proof (fits_nonzero _ _ _ HR HF) as Hnz. destruct a as [n|n k|q n|k n|q|w v]; simpl in Hm |- *.
  - by apply (sim_malloc s A n (Malloc n)).
  - eapply twp_mono; [by apply (ready_cALLOc s K n k)|]. intros r s' [Hk Hcase]. split.
    + apply (sim_new s' A K); [done|by apply uwrap_range|]. naive_solver.
    + intros b w Hb _ Hw _. by eapply fits_kept.
  - destruct Hm as [Hn [-> |[k Hin]]].
    + apply (sim_malloc s A n (Realloc 0 n)); [done|done| |done]. intros r. simpl. by rewrite others_same.
    + eapply twp_mono; [by apply (sim_resize s A q k n)|]. by intros r s' [? _].
  - destruct Hm as [Hk Hn]. eapply twp_mono; [by apply (ready_mEMALIGn s K k n)|]. intros r s' [Hkept Hcase]. split.
    + apply (sim_new s' A K); [done|lia|]. naive_solver.
    + intros b w Hb _ Hw _. by eapply fits_kept.
  - apply twp_bind. destruct Hm as [-> |[n Hin]].
    + eapply twp_mono; [apply twp_ret; instantiate (1 := fun _ s' => s' = s); done|]. intros u s' ->. apply twp_ret. split; [|by intros b w].
      exists K. split; [done|]. by rewrite others_same.
    + destruct (fits_split A K q n HF HS ltac:(intros c Hc; by apply HK) Hin) as (z & K' & HP' & HF' & _).
      replace q with (q - 8 + 8) at 1 by lia. eapply twp_mono; [by apply (ready_fREe s (q - 8) z K'), (ready_perm s K)|]. intros u s' [HR' Hkept]. apply twp_ret.
      split; [by exists K'|]. intros b w _ Hb Hw _. by apply (fits_kept (others q A) K' s s' b).
  - destruct Hm as (r & n & Hin & Hw & _). destruct (fits_elem _ _ _ HF Hin) as (c & Hc & Hfit). apply twp_bind, twp_store, twp_ret. split.
    + exists K. split; [|done]. apply (ready_writes s K c); [done|done|]. intros w' Hw'. apply rd_insert_ne. intros ->. by apply Hw', (fits_inside (r, n)).
    + intros b w' _ _ _ _. cbn [words set_words]. rewrite rd_insert. by repeat case_decide; subst.
Qed.

Lemma sim_blocks s A : Sim s A -> separate A /\ forall b, b ∈ A -> heap + 8 <= b.1 /\ (8 | b.1) /\ b.1 + b.2 <= curbrk s <= heap_end.
Proof.
  intros (K & HR & HF). destruct (ready_blocks s K HR) as [HS HK]. split.
  - clear HR. induction HF as [|b c A K [E [H0 Hn]] HF IH]; [done|]. destruct HS as [HS1 HS2]. split; [|apply IH; [done|intros d Hd; apply HK; by right]].
    intros b' Hb'. destruct (fits_elem _ _ _ HF Hb') as (c' & Hc' & [E' [H0' Hn']]). specialize (HS1 c' Hc'). unfold beside in *. lia.
  - intros b Hb. destruct (fits_elem _ _ _ HF Hb) as (c & Hc & [E [H0 Hn]]). destruct (HK c Hc) as (? & Hd & ? & ?). split_and!; try lia. rewrite E. apply Z.divide_add_r; [done|by exists 1].
Qed.

Lemma reach_sim s A : reach s A -> Sim s A.
Proof.
  induction 1 as [|s A a r s' _ IH Hm E]; [exists []; split; [left; split; [done|by left]|constructor]|].
  destruct (sim_action s A a IH Hm) as (r' & s2 & E2 & HS & _). rewrite E in E2. injection E2 as -> ->. done.
Qed.
End Props.

Section Claims.
Context (av_ heap heap_end : Z) {HP : HeapPlace av_ heap heap_end}.
Abbreviation reach := (@reach av_ heap heap_end).
Abbreviation perform := (@perform av_ heap heap_end).


(** C24: mALLOc refuses a request only when the heap is used up: fewer than the
    bytes asked for, and a page and two small chunks, are left above the
    break. *)
Theorem malloc_refuses s A bytes s' : reach s A -> 0 <= bytes -> mALLOc av_ heap heap_end bytes s = Ok (0, s') -> heap_end < curbrk s' + bytes + 4128.
Proof.
  intros HR Hb E. destruct (reach_sim s A HR) as (K & HK & _). destruct (ready_mALLOc s K bytes HK Hb) as (r & s2 & E2 & [[(p & n & Er & _ & HR2)|(_ & _ & Hfull)] _]).
  - rewrite E in E2. injection E2 as <- <-. destruct (ready_blocks _ _ HR2) as [_ HB]. destruct (HB (p, n) ltac:(by left)) as (? & _). simpl in *. destruct HP. lia.
  - rewrite E in E2. by injection E2 as <- <-.
Qed.

(** C21: rEALLOc keeps the contents of a block up to the smaller of its two
    sizes, whether the chunk shrinks, grows in place or moves. *)
Theorem realloc_keeps_contents s A q n bytes r s' : reach s A -> (q, n) ∈ A -> 0 <= bytes -> rEALLOc av_ heap heap_end q bytes s = Ok (r, s') -> r <> 0 ->
  forall i, 0 <= i -> (4 | i) -> i < n -> i < bytes -> rd (words s') (r + i) = rd (words s) (q + i).
Proof.
  intros HR Hin Hb E Hr. destruct (sim_resize s A q n bytes (reach_sim s A HR) Hin Hb) as (r2 & s2 & E2 & _ & HC). rewrite E in E2. injection E2 as <- <-. by apply HC.
Qed.

End Claims.

(** A small machine: the state at 4096, the heap from 8196 to 32768. *)
#[export] Instance small_place : HeapPlace 4096 8196 32768.
Proof. split; [lia..|]. right. by exists 8. Qed.

Lemma blank_ready : @Ready 4096 8196 32768 (@blank 8196) [].
Proof. left. split; [done|by left]. Qed.

(** The address and the state after a first call. *)
Definition first_malloc : Z * arena := match mALLOc 4096 8196 32768 20 (@blank 8196) with Ok x => x | Err _ => (0, @blank 8196) end.

Lemma first_reach : @reach 4096 8196 32768 first_malloc.2 [(first_malloc.1, 20)].
Proof.
  replace [(first_malloc.1, 20)] with (track [] (Malloc 20) first_malloc.1) by (vm_compute; reflexivity).
  apply (reach_action (@blank 8196) [] (Malloc 20)); [apply reach_start|simpl; lia|vm_compute; reflexivity].
Qed.



Lemma malloc_refuses_witness : 32768 < curbrk first_malloc.2 + 40000 + 4128.
Proof. apply (malloc_refuses 4096 8196 32768 first_malloc.2 [(first_malloc.1, 20)] 40000); [exact first_reach|lia|vm_compute; reflexivity]. Defined.

(** The block after a write into it, and resized past its chunk. *)
Definition first_written : arena := match @perform 4096 8196 32768 (Write first_malloc.1 77) first_malloc.2 with Ok (_, s) => s | Err _ => first_malloc.2 end.
Definition first_resized : Z * arena := match rEALLOc 4096 8196 32768 first_malloc.1 200 first_written with Ok x => x | Err _ => (0, first_written) end.

Lemma realloc_keeps_contents_witness : rd (words first_resized.2) (first_resized.1 + 0) = rd (words first_written) (first_malloc.1 + 0).
Proof.
  assert (@reach 4096 8196 32768 first_written [(first_malloc.1, 20)]) as HR.
  { apply (reach_action first_malloc.2 [(first_malloc.1, 20)] (Write first_malloc.1 77) 0); [exact first_reach| |vm_compute; reflexivity].
    exists first_malloc.1, 20. split; [by left|]. split; [lia|]. exists 0. lia. }
  apply (realloc_keeps_contents 4096 8196 32768 first_written [(first_malloc.1, 20)] first_malloc.1 20 200); [exact HR|by left|lia|vm_compute; reflexivity|by vm_compute|lia|by exists 0|lia|lia].
Defined.

(** A block aligned on 1024 bytes. *)
Definition first_aligned : Z * arena := match mEMALIGn 4096 8196 32768 1000 50 first_malloc.2 with Ok x => x | Err _ => (0, first_malloc.2) end.


(** The product of the arguments of cALLOc wraps around: a request of 4 GB is
    served with a chunk of 16 bytes. *)
Example calloc_wraps : match cALLOc 4096 8196 32768 65536 65536 (@blank 8196) with Ok (r, s') => negb (r =? 0) && (rd (words s') (r - 4) =? 17) | Err _ => false end = true.
Proof. vm_compute. reflexivity. Qed.

(** The sum of size and alignment wraps around: a request of 2 GB aligned on
    2 GB is served with an address outside of the heap. *)
Example memalign_wraps : match mEMALIGn 4096 8196 32768 0x80000000 0x80000000 (@blank 8196) with Ok (r, _) => 32768 <? r | Err _ => false end = true.
Proof. vm_compute. reflexivity. Qed.
