(* ===== verification/MallocGuard.v ===== *)
(** * The defensive wrapper (mem_alloc, mem_free)

    The kernel allocates with two words before a block and two after it, and
    checks them when the block is freed. *)

From S2P Require Import Prelude Runtime Malloc MallocLayout MallocInv MallocHole MallocLinks MallocFree MallocIndex MallocAlloc MallocMain MallocStart MallocReady MallocProps.

Section Guard.
Context {av_ heap heap_end : Z} {HP : HeapPlace av_ heap heap_end}.
Abbreviation Ready := (@Ready av_ heap heap_end).
Abbreviation mem_alloc := (mem_alloc av_ heap heap_end).
Abbreviation mem_free := (mem_free av_ heap heap_end).

(** ** Sizes *)

(** The test of mem_alloc excludes a size that wraps around. *)
Lemma block_words_ok length : 0 < length < 2 ^ 32 -> length < u32 (block_words length * 4) ->
  block_words length = (length + 3) / 4 + 4 /\ u32 (block_words length * 4) = 4 * block_words length /\ 4 * block_words length < 2 ^ 32 /\ length <= 4 * (block_words length - 4).
Proof.
  intros Hl Hc. unfold block_words in *. destruct (Z.lt_ge_cases (length + 3) (2 ^ 32)) as [Hlt|Hge].
  - rewrite (uwrap_small 32 (length + 3)) in * by lia. pose proof (Z.div_mod (length + 3) 4 ltac:(done)). pose proof (Z.mod_pos_bound (length + 3) 4 ltac:(done)).
    set (q := (length + 3) / 4) in *. rewrite (uwrap_small 32 (q + 4)) in * by lia. destruct (Z.lt_ge_cases (4 * (q + 4)) (2 ^ 32)).
    + rewrite uwrap_small by lia. lia.
    + exfalso. replace (u32 ((q + 4) * 4)) with (4 * (q + 4) - 2 ^ 32) in Hc; [lia|]. unfold uwrap. rewrite <- (Z.mod_add _ (-1)) by done. rewrite Z.mod_small by lia. lia.
  - exfalso. assert (length = 2 ^ 32 - 3 \/ length = 2 ^ 32 - 2 \/ length = 2 ^ 32 - 1) as HE by lia. by destruct HE as [-> |[-> | ->]].
Qed.

(** The words around the block at [r]. *)
Definition guards (m : gmap Z Z) (r length : Z) : bool :=
  (rd m (r - 4) =? guard_before) && (rd m (r - 8) =? length) &&
  (rd m (r - 8 + 4 * (block_words length - 2)) =? guard_after) && (rd m (r - 8 + 4 * (block_words length - 1)) =? r - 8).

(** A block of the wrapper in the chunk of size [n]. *)
Definition wrapped (s : arena) (K : list (Z * Z)) (r length n : Z) : Prop :=
  Ready s ((r - 16, n) :: K) /\ 4 * block_words length + 4 <= n /\ length <= 4 * (block_words length - 4).

Lemma wrapped_range s K r length n : wrapped s K r length n -> 0 < length -> 16 <= r /\ r - 8 + 4 * block_words length < 2 ^ 31 /\ 5 <= block_words length.
Proof.
  intros (HR & Hn & Hl) H0. destruct (ready_blocks _ _ HR) as [_ HK]. destruct (HK (r - 16, n) ltac:(by left)) as (? & _ & _ & ?). simpl in *. destruct HP. lia.
Qed.

Lemma wrapped_write s m' K r length n : wrapped s K r length n -> (forall w, ~ r - 8 <= w < r - 8 + 4 * block_words length -> rd m' w = rd (words s) w) ->
  wrapped (set_words m' s) K r length n /\ kept K s (set_words m' s).
Proof.
  intros (HR & Hn & Hl) HW. destruct (ready_write s K _ m' HR) as [HR' Hk]; [|done]. intros w Hw. apply HW. unfold inside in Hw. simpl in Hw. lia.
Qed.

Lemma twp_mem_alloc s K length : Ready s K -> 0 < length < 2 ^ 32 ->
  twp (mem_alloc length) (fun r s' => kept K s s' /\ (r = 0 /\ Ready s' K \/
    exists n, wrapped s' K r length n /\ guards (words s') r length = true /\ forall i, 0 <= i < block_words length - 4 -> rd (words s') (r + 4 * i) = 0)) s.
Proof.
  intros HR Hl. unfold Malloc.mem_alloc. rewrite (proj2 (Z.eqb_neq _ _)) by lia. destruct (Z.leb_spec (u32 (block_words length * 4)) length) as [Hov|Hok]; [steps; split; [done|by left]|].
  destruct (block_words_ok length Hl Hok) as (_ & -> & Hsmall & Hcov). set (l := block_words length) in *. steps.
  eapply twp_mono; [exact (ready_mALLOc s K (4 * l) HR ltac:(lia))|]. intros r s1 [Hcase Hk1]. destruct Hcase as [(p & n & -> & Hn & HR1)|(-> & HR1 & _)].
  2: { rewrite Z.eqb_refl. steps. split; [done|by left]. }
  assert (wrapped s1 K (p + 16) length n) as HW1 by (split; [by replace (p + 16 - 16) with p by lia|fold l; lia]).
  pose proof (wrapped_range _ _ _ _ _ HW1 ltac:(lia)) as Hrange. fold l in Hrange.
  rewrite (proj2 (Z.eqb_neq _ _)) by lia. steps. cbn [words set_words]. rewrite !uwrap_small by lia. replace (4 * l - 16) with (4 * (l - 4)) by lia.
  apply twp_zero_words; [lia|lia|lia|]. intros m' Hz Hw. cbn [words set_words] in Hw. rewrite set_words_twice. steps. replace (p + 8 + 8) with (p + 16) in * by lia.
  destruct (wrapped_write s1 m' K (p + 16) length n HW1) as [HW2 Hk2].
  { intros w Hne. fold l in Hne. rewrite Hw by lia. rewrite !rd_insert_ne by lia. done. }
  split; [by eapply kept_trans|]. right. exists n. split_and!; [done| |done]. unfold guards. fold l. cbn [words set_words].
  replace (p + 16 - 8) with (p + 8) by lia. replace (p + 16 - 4) with (p + 8 + 4) by lia. rewrite !Hw by lia.
  repeat first [rewrite rd_insert_eq | rewrite rd_insert_ne by lia]. by rewrite !Z.eqb_refl.
Qed.

(** A test of the word before or after the block that succeeds. *)
Ltac pass E := rewrite E; cbn [negb]; cbv beta iota.

Lemma mem_free_guards s K r length n : wrapped s K r length n -> 0 < length ->
  if guards (words s) r length then twp (mem_free r length) (fun _ s' => Ready s' K /\ kept K s s') s else mem_free r length s = Err Faulted.
Proof.
  intros HW Hl. pose proof (wrapped_range _ _ _ _ _ HW Hl) as Hrange. unfold guards, Malloc.mem_free. rewrite (proj2 (Z.eqb_neq length 0)) by lia. set (l := block_words length) in *.
  rewrite (uwrap_small 32 (r - 8)), (uwrap_small 32 (r - 8 + 4)), (uwrap_small 32 (r - 8 + 4 * (l - 2))), (uwrap_small 32 (r - 8 + 4 * (l - 1))), (uwrap_small 32 (l * 4)) by lia.
  replace (r - 8 + 4) with (r - 4) by lia.
  destruct (rd (words s) (r - 4) =? guard_before) eqn:E1; cbn [andb]; [|unfold bind, load, gets; pass E1; done].
  destruct (rd (words s) (r - 8) =? length) eqn:E2; cbn [andb]; [|unfold bind, load, gets; pass E1; pass E2; done].
  destruct (rd (words s) (r - 8 + 4 * (l - 2)) =? guard_after) eqn:E3; cbn [andb]; [|unfold bind, load, gets; pass E1; pass E2; pass E3; done].
  destruct (rd (words s) (r - 8 + 4 * (l - 1)) =? r - 8) eqn:E4; [|unfold bind, load, gets; pass E1; pass E2; pass E3; pass E4; done].
  steps. pass E1. steps. pass E2. steps. pass E3. steps. pass E4. steps.
  rewrite (Z.mul_comm l 4). apply twp_zero_words; [lia|lia|lia|]. intros m' _ Hw.
  destruct (wrapped_write s m' K r length n HW) as [(HR & _) Hk]; [intros w Hne; fold l in Hne; apply Hw; lia|].
  replace (r - 8) with (r - 16 + 8) by lia. eapply twp_mono; [exact (ready_fREe _ _ _ _ HR)|]. intros u s' [HR' Hk']. split; [done|by eapply kept_trans].
Qed.
End Guard.

Section Claims.
Context (av_ heap heap_end : Z) {HP : HeapPlace av_ heap heap_end}.
Abbreviation Ready := (@Ready av_ heap heap_end).

(** C9: mem_alloc returns in every consistent state, for every length: a null
    pointer and the same blocks, or a new block whose words are all zero and
    whose guards are in place, so that mem_free of it succeeds and gives back
    the blocks there were; neither call changes the contents of another
    block. *)
Theorem mem_alloc_free s K length : Ready s K -> 0 < length < 2 ^ 32 ->
  exists r s1, mem_alloc av_ heap heap_end length s = Ok (r, s1) /\ kept K s s1 /\
    (r = 0 /\ Ready s1 K \/
     (forall i, 0 <= i -> 4 * i < length -> rd (words s1) (r + 4 * i) = 0) /\
     exists s2, mem_free av_ heap heap_end r length s1 = Ok (tt, s2) /\ Ready s2 K /\ kept K s s2).
Proof.
  intros HR Hl. destruct (twp_mem_alloc s K length HR Hl) as (r & s1 & E & Hk & HC). exists r, s1. split; [done|]. split; [done|].
  destruct HC as [?|(n & HW & HG & Hz)]; [by left|right]. split.
  - intros i Hi Hlt. apply Hz. destruct HW as (_ & _ & Hcov). lia.
  - pose proof (mem_free_guards s1 K r length n HW ltac:(lia)) as HF. rewrite HG in HF. destruct HF as ([] & s2 & E2 & HR2 & Hk2).
    exists s2. split_and!; [done|done|by eapply kept_trans].
Qed.

(** C23: Whatever the owner of a block of mem_alloc has written into it and its
    four guard words, mem_free takes the block back when the guards are what
    mem_alloc wrote and faults when one of them is not: a write that changes a
    word just before the block or just after its last word is always noticed. *)
Theorem mem_free_checks s K length r s1 m' : Ready s K -> 0 < length < 2 ^ 32 -> mem_alloc av_ heap heap_end length s = Ok (r, s1) -> r <> 0 ->
  (forall w, ~ r - 8 <= w < r - 8 + 4 * block_words length -> rd m' w = rd (words s1) w) ->
  if guards m' r length
  then exists s2, mem_free av_ heap heap_end r length (set_words m' s1) = Ok (tt, s2) /\ Ready s2 K /\ kept K s s2
  else mem_free av_ heap heap_end r length (set_words m' s1) = Err Faulted.
Proof.
  intros HR Hl E Hr HW. destruct (twp_mem_alloc s K length HR Hl) as (r' & s1' & E' & Hk & HC). rewrite E in E'. injection E' as <- <-.
  destruct HC as [[? _]|(n & HWr & _)]; [done|]. destruct (wrapped_write s1 m' K r length n HWr HW) as [HWr' Hk'].
  pose proof (mem_free_guards _ K r length n HWr' ltac:(lia)) as HF. cbn [words set_words] in HF. destruct (guards m' r length); [|done].
  destruct HF as ([] & s2 & E2 & HR2 & Hk2). exists s2. split_and!; [done|done|]. by eapply kept_trans, kept_trans.
Qed.
End Claims.

Lemma mem_alloc_free_witness : exists r s1, mem_alloc 4096 8196 32768 10 (@blank 8196) = Ok (r, s1) /\ kept [] (@blank 8196) s1 /\
    (r = 0 /\ @MallocReady.Ready 4096 8196 32768 s1 [] \/
     (forall i, 0 <= i -> 4 * i < 10 -> rd (words s1) (r + 4 * i) = 0) /\
     exists s2, mem_free 4096 8196 32768 r 10 s1 = Ok (tt, s2) /\ @MallocReady.Ready 4096 8196 32768 s2 [] /\ kept [] (@blank 8196) s2).
Proof. apply (mem_alloc_free 4096 8196 32768); [exact blank_ready|lia]. Defined.

(** The block and the state after a first call. *)
Definition first_block : Z * arena := match mem_alloc 4096 8196 32768 10 (@blank 8196) with Ok x => x | Err _ => (0, @blank 8196) end.

Lemma mem_free_checks_witness :
  mem_free 4096 8196 32768 first_block.1 10 (set_words (<[first_block.1 + 12 := 0]> (words first_block.2)) first_block.2) = Err Faulted.
Proof.
  assert (mem_alloc 4096 8196 32768 10 (@blank 8196) = Ok (first_block.1, first_block.2)) as E by (vm_compute; reflexivity).
  pose proof (mem_free_checks 4096 8196 32768 _ [] 10 _ _ (<[first_block.1 + 12 := 0]> (words first_block.2)) blank_ready ltac:(lia) E) as HF.
  replace (guards (<[first_block.1 + 12 := 0]> (words first_block.2)) first_block.1 10) with false in HF by (vm_compute; reflexivity).
  apply HF; [by vm_compute|]. intros w Hw. apply rd_insert_ne. intros <-. apply Hw. change (block_words 10) with 7. lia.
Defined.
