(* ===== verification/MallocKernel.v ===== *)
(** * The allocator under the kernel

    The kernel is proved against a table of live blocks and a function [malloc]
    with the laws [MallocLaws] (Kernel).  Here the code of shared/malloc.c is
    shown to keep such a table: each of its calls is a call of the mem_alloc or
    mem_free of Kernel, for an allocator with those laws. *)

From S2P Require Import Prelude Mmu Kernel Runtime Malloc MallocLayout MallocInv MallocHole MallocFree MallocReady MallocProps MallocGuard KernelProps.

(** The same machine with another allocator. *)
Definition with_malloc (C : Config) (f : gmap Z Z -> Z -> option Z) : Config := {|
  symbols_table := @symbols_table C; pgdir := @pgdir C; start_address := @start_address C; malloc := f
|}.

(** The allocator that gives the address [r] when the live blocks are [T]. *)
Definition gives (T : gmap Z Z) (r : Z) : gmap Z Z -> Z -> option Z :=
  fun h _ => if decide (h = T /\ r <> 0) then Some r else None.

Lemma gives_laws C T r : (r <> 0 -> T !! r = None /\ 0 < r < MEMORY_START) -> MallocLaws (with_malloc C (gives T r)).
Proof. intros Hr. split; intros h n a; simpl; unfold gives; case_decide as Hd; try done; intros [= <-]; destruct Hd as [-> Hne]; by apply Hr. Qed.

Section Kernel.
Context {av_ heap heap_end : Z} {HP : HeapPlace av_ heap heap_end}.
Abbreviation Ready := (@Ready av_ heap heap_end).
Abbreviation mem_alloc := (Malloc.mem_alloc av_ heap heap_end).
Abbreviation mem_free := (Malloc.mem_free av_ heap heap_end).
Abbreviation wrapped := (@wrapped av_ heap heap_end).

(** A block of the kernel: its address and length, and the size of the chunk
    it lies in. *)
Definition chunk_of (b : Z * Z * Z) : Z * Z := (b.1.1 - 16, b.2).
Definition held (s : arena) (b : Z * Z * Z) : Prop :=
  0 < b.1.2 < 2 ^ 32 /\ 4 * block_words b.1.2 + 4 <= b.2 /\ b.1.2 <= 4 * (block_words b.1.2 - 4) /\ guards (words s) b.1.1 b.1.2 = true.

(** The heap holds the blocks of the table [T], with their guards. *)
Definition Holds (s : arena) (T : gmap Z Z) : Prop :=
  exists B, B.*1 ≡ₚ map_to_list T /\ Ready s (chunk_of <$> B) /\ Forall (held s) B.

Lemma held_wrapped s K b : held s b -> Ready s (chunk_of b :: K) -> wrapped s K b.1.1 b.1.2 b.2.
Proof. destruct b as [[r len] n]. intros (? & ? & ? & _) HR. by split. Qed.

Lemma held_kept s s' B : kept (chunk_of <$> B) s s' -> Forall (held s) B -> Forall (held s') B.
Proof.
  rewrite !Forall_forall. intros Hk HB [[r len] n] Hb. destruct (HB _ Hb) as (Hl & Hn & Hc & Hg). split_and!; try done; [by apply Hl..|]. simpl in *.
  assert (forall w, r - 8 <= w < r - 8 + 4 * block_words len -> rd (words s') w = rd (words s) w) as Hw.
  { intros w Hw. apply (Hk (r - 16, n)); [apply list_elem_of_fmap; by exists (r, len, n)|]. unfold inside. simpl. lia. }
  unfold guards in *. by rewrite !Hw by lia.
Qed.

(** One block of the table taken out. *)
Lemma holds_split s T r len : Holds s T -> T !! r = Some len ->
  exists n B, held s (r, len, n) /\ B.*1 ≡ₚ map_to_list (delete r T) /\ Ready s (chunk_of (r, len, n) :: (chunk_of <$> B)) /\ Forall (held s) B.
Proof.
  intros (B & HT & HR & HB) Hr. assert ((r, len) ∈ B.*1) as Hin by (rewrite HT; by apply elem_of_map_to_list).
  apply list_elem_of_fmap in Hin as ([[r' len'] n] & E & Hin). simpl in E. injection E as <- <-. apply list_elem_of_split in Hin as (B1 & B2 & ->).
  assert (B1 ++ (r, len, n) :: B2 ≡ₚ (r, len, n) :: B1 ++ B2) as HPm by by rewrite <- Permutation_middle.
  exists n, (B1 ++ B2). rewrite HPm in HB. apply Forall_cons in HB as [Hb HB]. split_and!; [done| | |done].
  - apply (Permutation_cons_inv (a := (r, len))). rewrite map_to_list_delete by done. rewrite <- HT, HPm. done.
  - eapply ready_perm; [|done]. by rewrite HPm.
Qed.

(** An address the allocator gives is new. *)
Lemma holds_fresh s T B p n : B.*1 ≡ₚ map_to_list T -> Ready s ((p - 16, n) :: (chunk_of <$> B)) -> T !! p = None.
Proof.
  intros HT HR. destruct (T !! p) as [len|] eqn:E; [|done]. exfalso. destruct (ready_blocks _ _ HR) as [[HS _] HK].
  assert ((p, len) ∈ B.*1) as Hin by (rewrite HT; by apply elem_of_map_to_list).
  apply list_elem_of_fmap in Hin as ([[p' len'] n'] & E' & Hin). simpl in E'. injection E' as <- <-.
  assert ((p - 16, n') ∈ chunk_of <$> B) as Hc by (apply list_elem_of_fmap; by exists (p, len, n')).
  destruct (HS _ Hc); destruct (HK (p - 16, n') ltac:(by right)) as (_ & _ & ? & _); destruct (HK (p - 16, n) ltac:(by left)) as (_ & _ & ? & _); simpl in *; lia.
Qed.

Lemma holds_alloc s T length : Holds s T -> 0 < length < 2 ^ 32 -> heap_end <= MEMORY_START ->
  twp (mem_alloc length) (fun r s' => if decide (r = 0) then Holds s' T else Holds s' (<[r := length]> T) /\ T !! r = None /\ 0 < r < MEMORY_START) s.
Proof.
  intros (B & HT & HR & HB) Hl He. eapply twp_mono; [by apply (twp_mem_alloc s _ length HR)|].
  intros r s' [Hk [[-> HR']|(n & HW & HG & _)]]; [rewrite decide_True by done; exists B; split_and!; [done|done|by eapply held_kept]|].
  pose proof (wrapped_range _ _ _ _ _ HW ltac:(lia)) as Hrange. rewrite decide_False by lia. destruct HW as (HR' & Hn & Hc).
  pose proof (holds_fresh _ _ _ _ _ HT HR') as Hf. split_and!; [|done|lia|].
  - exists ((r, length, n) :: B). split_and!; [|done|constructor; [done|by eapply held_kept]]. rewrite map_to_list_insert by done. simpl. by rewrite HT.
  - destruct (ready_blocks _ _ HR') as [_ HK]. destruct (HK (r - 16, n) ltac:(by left)) as (_ & _ & ? & ?). simpl in *. lia.
Qed.

(** mem_free of a block of the table, with its length or another one. *)
Lemma holds_free s T r len length : Holds s T -> T !! r = Some len -> 0 < length ->
  if decide (length = len) then twp (mem_free r length) (fun _ s' => Holds s' (delete r T)) s else mem_free r length s = Err Faulted.
Proof.
  intros HH Hr Hl. destruct (holds_split s T r len HH Hr) as (n & B & Hb & HT & HR & HB). pose proof (held_wrapped _ _ _ Hb HR) as HW. destruct Hb as (Hlen & Hn & Hc & HG). simpl in *.
  case_decide as Hd; [subst length|].
  - pose proof (mem_free_guards s _ r len n HW Hl) as HF. rewrite HG in HF. eapply twp_mono; [exact HF|]. intros u s' [HR' Hk]. exists B. split_and!; [done|done|by eapply held_kept].
  - pose proof (wrapped_range _ _ _ _ _ HW ltac:(lia)) as Hrange. apply andb_prop in HG as [[[E1 E2]%andb_prop _]%andb_prop _]. unfold Malloc.mem_free.
    rewrite (proj2 (Z.eqb_neq length 0)) by lia. unfold bind, load, gets. rewrite (uwrap_small 32 (r - 8)) by lia. rewrite (uwrap_small 32 (r - 8 + 4)) by lia.
    replace (r - 8 + 4) with (r - 4) by lia. rewrite E1. cbn [negb]. apply Z.eqb_eq in E2. rewrite E2. rewrite (proj2 (Z.eqb_neq len length)) by done. done.
Qed.

(** A write into a block. *)
Lemma holds_store s T r len w v : Holds s T -> T !! r = Some len -> r <= w < r + len -> (4 | w - r) -> twp (store w v) (fun _ s' => Holds s' T) s.
Proof.
  intros HH Hr Hw [i Hi]. destruct (holds_split s T r len HH Hr) as (n & B & Hb & HT & HR & HB). pose proof (held_wrapped _ _ _ Hb HR) as HW. destruct Hb as (Hlen & Hn & Hc & HG). simpl in *.
  apply twp_store. destruct (wrapped_write s (<[w := v]> (words s)) _ _ _ _ HW) as [(HR' & _) Hk]; [intros w' Hw'; apply rd_insert_ne; intros ->; apply Hw'; lia|].
  exists ((r, len, n) :: B). split_and!; [simpl; rewrite HT, map_to_list_delete by done; done|done|]. constructor; [|by eapply held_kept].
  split_and!; try done; [by apply Hlen..|]. simpl. unfold guards in *. rewrite !rd_insert_ne by lia. done.
Qed.
End Kernel.

(** The allocator before its first call holds no block. *)
Lemma holds_blank {av_ heap heap_end : Z} {HP : HeapPlace av_ heap heap_end} : @Holds av_ heap heap_end (@MallocStart.blank heap) ∅.
Proof. exists []. split_and!; [by rewrite map_to_list_empty|left; split; [done|by left]|constructor]. Qed.

Section Claims.
Context {av_ heap heap_end : Z} {HP : HeapPlace av_ heap heap_end} {S : Type}.
Abbreviation Holds := (@Holds av_ heap heap_end).
(** The live blocks of the kernel. *)
Abbreviation live k := (fst <$> Kernel.heap k).

Lemma alloc_implemented (C : Config) s (k : kernel S) length o : heap_end <= MEMORY_START -> Holds s (live k) -> 0 <= length < 2 ^ 32 ->
  exists r s' k' f, Malloc.mem_alloc av_ heap heap_end length s = Ok (r, s') /\ MallocLaws (with_malloc C f) /\
    @Kernel.mem_alloc S (with_malloc C f) length o k = Ok (r, k') /\ Holds s' (live k').
Proof.
  intros He HH Hl. destruct (decide (length = 0)) as [-> |Hne]; [exists 0, s, k, (gives (live k) 0); split_and!; [done|by apply gives_laws|done|done]|].
  destruct (holds_alloc s _ length HH ltac:(lia) He) as (r & s' & E & HQ). assert (r <> 0 -> live k !! r = None /\ 0 < r < MEMORY_START) as Hr by (intros; rewrite decide_False in HQ by done; apply HQ).
  exists r, s'. unfold Kernel.mem_alloc. rewrite (proj2 (Z.eqb_neq length 0)) by done. replace (length + 4 - 1) with (length + 3) by lia. fold (block_words length).
  destruct (u32 (block_words length * 4) <=? length) eqn:Eo.
  - assert (r = 0) as -> by (unfold Malloc.mem_alloc in E; rewrite (proj2 (Z.eqb_neq length 0)), Eo in E by done; by injection E).
    exists k, (gives (live k) 0). split_and!; [done|by apply gives_laws|done|by rewrite decide_True in HQ].
  - destruct (decide (r = 0)) as [-> |Hr0].
    + exists k, (gives (live k) 0). split_and!; [done|by apply gives_laws| |done]. cbn [malloc with_malloc]. unfold gives. by rewrite decide_False by naive_solver.
    + exists (set_heap (<[r := (length, o)]> (Kernel.heap k)) k), (gives (live k) r). split_and!; [done|by apply gives_laws| |].
      * cbn [malloc with_malloc]. unfold gives. by rewrite decide_True.
      * simpl. rewrite fmap_insert. apply HQ.
Qed.

Lemma free_implemented s (k : kernel S) zone length e : Holds s (live k) -> Kernel.heap k !! zone = Some e -> 0 <= length ->
  match Kernel.mem_free zone length k with
  | Ok (_, k') => exists s', Malloc.mem_free av_ heap heap_end zone length s = Ok (tt, s') /\ Holds s' (live k')
  | Err x => Malloc.mem_free av_ heap heap_end zone length s = Err x
  end.
Proof.
  intros HH Hz Hl. unfold Kernel.mem_free. destruct (decide (length = 0)) as [-> |Hne]; [by exists s|]. rewrite (proj2 (Z.eqb_neq length 0)) by done.
  pose proof (holds_free s _ zone e.1 length HH ltac:(by rewrite lookup_fmap, Hz) ltac:(lia)) as HF. rewrite Hz. simpl. destruct (decide (length = e.1)) as [-> |Hd].
  - rewrite bool_decide_true by done. destruct HF as ([] & s' & E & HH'). exists s'. split; [done|]. simpl. by rewrite fmap_delete.
  - rewrite bool_decide_false; [done|]. intros [= <-]. done.
Qed.

(** C8: The code of malloc.c implements the allocator the kernel is proved
    against.  As long as the heap holds the live blocks of the kernel, every
    mem_alloc of the code returns what the mem_alloc of the kernel returns for
    some allocator with the laws of [MallocLaws], every mem_free of a live block
    succeeds or faults as that of the kernel, and after these, and after a
    write into a block, the heap holds the live blocks again. *)
Theorem kernel_allocator_implemented (C : Config) s (k : kernel S) : heap_end <= MEMORY_START -> Holds s (live k) ->
  (forall length o, 0 <= length < 2 ^ 32 -> exists r s' k' f, Malloc.mem_alloc av_ heap heap_end length s = Ok (r, s') /\
     MallocLaws (with_malloc C f) /\ @Kernel.mem_alloc S (with_malloc C f) length o k = Ok (r, k') /\ Holds s' (live k')) /\
  (forall zone length e, Kernel.heap k !! zone = Some e -> 0 <= length ->
     match Kernel.mem_free zone length k with
     | Ok (_, k') => exists s', Malloc.mem_free av_ heap heap_end zone length s = Ok (tt, s') /\ Holds s' (live k')
     | Err x => Malloc.mem_free av_ heap heap_end zone length s = Err x
     end) /\
  (forall zone length o w v, Kernel.heap k !! zone = Some (length, o) -> zone <= w < zone + length -> (4 | w - zone) ->
     exists s', store w v s = Ok (tt, s') /\ Holds s' (live k)).
Proof.
  intros He HH. split_and!; [intros; by apply alloc_implemented|intros; by eapply free_implemented|].
  intros zone length o w v Hz Hw Hd. destruct (holds_store s _ zone length w v HH ltac:(by rewrite lookup_fmap, Hz) Hw Hd) as ([] & s' & E & HH'). by exists s'.
Qed.
End Claims.

(** The start of the heap, with the demonstration kernel stripped of its blocks. *)
Definition bare_kernel : kernel (gmap qid (list Z)) :=
  mk_kernel ∅ ∅ ∅ 0 ∅ ∅ ∅ ∅ 0 ∅ (mk_mmu ∅ MEMORY_START MEMORY_START 0x10000) 0x10000 0.

Lemma kernel_allocator_implemented_witness : exists r s' k' f, Malloc.mem_alloc 4096 8196 32768 10 (@MallocStart.blank 8196) = Ok (r, s') /\
  MallocLaws (with_malloc KernelProps.demo_config f) /\
  @Kernel.mem_alloc _ (with_malloc KernelProps.demo_config f) 10 OChild bare_kernel = Ok (r, k') /\ @Holds 4096 8196 32768 s' (fst <$> Kernel.heap k').
Proof.
  assert (32768 <= MEMORY_START) as He by (unfold MEMORY_START; lia).
  destruct (kernel_allocator_implemented KernelProps.demo_config (@MallocStart.blank 8196) bare_kernel He holds_blank) as (HA & _).
  apply HA. lia.
Defined.
